(* ===== verification/_CoqProject ===== *)
-Q . S2P
Prelude.v
CString.v
Sys.v
Output.v
Common.v
Crypto.v
Keyring.v
Meta.v
MetaProofs.v
MetaSpec.v
Dmctl.v
Minsetup.v
MinsetupProofs.v
Automount.v
AutomountProofs.v
AutomountScan.v
Subprocess.v
Securememory.v
Tpm.v
Footprint.v
TpmPcr.v
TpmProofs.v
Keystore.v
TpmBoot.v
TpmWorld.v
TpmExact.v
Cominit.v
CominitArgs.v
BootSpec.v
CominitProofs.v
Crash.v
Lifetime.v
CominitRefine.v
CominitMisc.v
CominitBoot.v
CominitTpm.v
CominitMeasured.v
CominitClean.v
CominitDm.v
CominitVerity.v
CominitIntegrity.v
CominitScan.v
Examples.v
TpmExamples.v
