(* ===== verification/Prelude.v ===== *)
(** * A verification of cominit, the Compact Init of the initramfs

    cominit is the first process of a Linux system. It finds the rootfs
    partition, verifies the signature of the metadata at its end, sets up the
    device mapper for it, optionally unlocks a TPM-protected secure storage and
    loads SELinux policies, switches the root directory and becomes the init of
    the rootfs; on a fatal error it becomes a rescue shell.

    ** Components and files

    Every file models one source file (paths below src/ of the repository) or
    holds the proofs about it; a definition has the name of the C function.

    - Prelude: bytes, machine integers with their wrap-around, list lemmas.
    - CString: the C string functions the source calls ([strtok_r], [strtoul],
      [snprintf], ...), from the C standard.
    - Sys: the calls to the kernel, mbedTLS and the TPM software stack, programs
      over them, their runs and their weakest preconditions.
    - Output: src/output.c, inc/output.h (log levels, the log function).
    - Common: src/common.c, inc/common.h, inc/meta.h (the option and metadata
      structures with their well-formedness).
    - Crypto: src/crypto.c (signature check, key digest, passphrase).
    - Keyring: src/keyring.c (user keys, development keys); the class
      [KeyringContract] is the interface of the kernel keyring to Meta.
    - Keystore: the kernel keyring as a state machine (a [gmap] folded over the
      trace, class [KeyStore]), and the components that meet in it.
    - Meta, MetaProofs, MetaSpec: src/meta.c (reading, verifying and parsing the
      metadata, device mapper tables). MetaSpec prints metadata and states what
      the parser makes of it.
    - Dmctl: src/dmctl.c (device mapper ioctls).
    - Minsetup, MinsetupProofs: src/minsetup.c (mounts, switch of the root).
    - Automount, AutomountProofs, AutomountScan: src/automount.c (GPT search);
      the classes [DiskContract] and [DevContract] are the interfaces of a disk
      and of a machine with several disks.
    - Subprocess: src/subprocess.c and src/cryptsetup.c (helper programs).
    - Securememory: src/securememory.c (keys in locked memory).
    - Tpm, TpmPcr, TpmProofs, TpmBoot: src/tpm.c (PCR options, sealing, secure
      storage).
    - TpmWorld, TpmExact: a machine with PCRs, policy sessions, loaded objects,
      primary key handles, the blob files of its partitions, the mounts on /tpm, a
      storage key and the random numbers drawn as state, with (TpmWorld) and
      without (TpmExact) faults, and an executable reference of it. A partition
      is identified by the device node it is mounted from. Its functions are the
      class [TpmModel].
    - Footprint: for every function the set of calls it can make, as hints from
      which [only_auto] derives what larger programs do not do.
    - Cominit, CominitArgs, CominitMisc: src/cominit.c and src/version.c.in
      (options, version and usage, waiting, SELinux, [main]).
    - BootSpec, CominitRefine: the abstract specification of a boot, a machine of
      phases over the mount namespace with its invariant, and the refinement of
      [main] to it. CominitProofs: what precedes the start of init.
    - CominitBoot, CominitDm, CominitVerity, CominitIntegrity, CominitScan: boots
      without TPM, to the end, down to the device mapper table with the keys of
      the keyring in it, and from the partition tables of the disks. CominitTpm,
      CominitMeasured: boots with a TPM, in any state and without faults.
      CominitClean: what is still open when init starts.
    - Crash, Lifetime: the states between two calls, and any number of boots of
      [main] on one machine, each of which the power may cut short. The abstract
      specification is the [vault] of Lifetime.
    - Examples, TpmExamples: the theorems with hypotheses at concrete inputs.

    ** How the code is modelled

    A C string is the list of its bytes before the NUL; a [char] array is the
    list of all its bytes, and [cstr] is the string in it. Integers are [Z] with
    the truncations of their types written out ([u8], [u32], [u64], [i64]). A
    pointer the source tests for NULL is an [option]; a function that changes an
    object through a pointer returns the object as it left it, on error paths
    too. The metadata parser also takes the memory behind its text (the signature
    in the buffer), because it looks for a hash name at an offset that can lie
    behind the text. Functions without calls are Rocq functions. The others are terms of the
    free monad [prog]: [Act c k] makes the call [c] and goes on with the answer,
    [Stop e] leaves the process ([Execed], [Exited]), reaches undefined
    behaviour ([Undef]: NULL, uninitialised or out of bounds access) or exceeds
    a loop bound ([NoFuel]). [run o h p] executes [p] against the oracle [o],
    which answers every call in view of the history; theorems quantify over the
    oracle, so they hold for every behaviour of kernel, mbedTLS and TPM unless a
    contract on the answers is a hypothesis. [wp] is the weakest precondition
    with a ghost state folded over the events; [balanced] and [held] track open
    resources (descriptors, streams, mappings, memory, contexts of mbedTLS and of
    the TPM), [only] the kinds of calls a program makes, [guarded] the history
    before an event, [total] that a program always returns, [always] a property
    of every state on the way. A power failure keeps a prefix of the calls; of a
    file written in that boot the disk then has the old state or any prefix.

    After [fork] the run follows the process the answer names. The answer of
    [opendir] is the list of names, that of [nftw] the list of visited entries;
    [Free] events carry the contents of the memory. Parameters the source takes
    from outside the repository are classes: [Libc] (an implementation-defined
    detail of [strtoul]), [MbedTLS] (its version), [TpmParams] and [DmParams]
    (constants and sizes of the TSS and device mapper headers), [Build] (paths
    and options of the build system), [TpmModel] (the hash and wrapping functions
    of a TPM).

    ** Loop bounds

    The read loop of [cominitBinReadall] has a bound; it is the size of the
    region (4096), which is enough whenever reads make progress, the keys fit
    and the region is padded as the README asks (MetaSpec.load_verify_returns), and no bound is enough at the end of a
    device (MetaProofs.readall_spins_at_eof). The loops over tokens and over
    the digits of an option take the length of the text as bound, which the
    termination theorems show to be enough. All other loops are structural.

    ** What is shown

    - The boot: [main] refines the boot machine, whose invariant makes the root
      directory of a started init the file system of verified metadata
      (CominitRefine); the rootfs init is started only after verified metadata,
      the mount it describes and the switch (CominitProofs); a healthy machine
      gets there and every boot without TPM options ends in a defined way
      (CominitBoot), and both hold with a TPM and a sealed blob whatever the TPM
      answers, and without a blob if one can be sealed (CominitTpm); the signed
      text determines the table and the mount (CominitVerity), with the keys it
      names (CominitIntegrity), also when the partition is found by the scan
      (CominitScan);
      init and the shell inherit nothing, but for a TPM context when the other one
      could not be made (CominitClean).
    - The metadata (MetaProofs, MetaSpec, Crypto): soundness of loading,
      exactness of the signature check, round trips and reference tables of the
      parser, well-formedness, termination, refusal of small partitions.
    - The rootfs (Dmctl, MinsetupProofs): the exact device mapper sequence, the
      mount, the order of the switch.
    - Discovery (AutomountProofs, AutomountScan, CominitMisc): the scan computes
      the reference search over the disks of the machine, only block devices are
      probed, waiting is bounded.
    - The secure storage (TpmProofs, TpmBoot, TpmPcr, Securememory): helper
      programs run only with the key and format only without a blob, the policy
      is over the requested PCRs below 24, a working TPM unlocks the storage, keys
      are cleared before their memory is given back.
    - The secure storage over time (TpmExact, CominitMeasured, Lifetime): the first
      boot of [main] seals a key drawn in that boot to the PCR values after the
      measurement of the rootfs key, a later boot gets exactly that key if the
      values match and none if not, and both go on to init (the documents say a
      mismatch should stop the boot); over the life of a machine the boots refine,
      for every blob partition, a vault that takes one key and keeps it: the key
      never changes, is bound to the PCR values and the rootfs key, and stays
      available, whatever fails on the way and whenever the power does; a blob
      that was cut off locks the storage.
    - The keyring (Keystore): the volume is formatted with the key the TPM
      released (keys of at most 32 bytes), and the development keys reach the
      dm-integrity table.
    - Options and log output (CominitArgs, Output), helper programs and keys
      (Subprocess, Keyring).
    - Defects found on the way are theorems as well: endless reading at the end
      of the device, a hash name looked up outside the buffer
      (MetaSpec.integrity_hash_out_of_bounds), a size of 2^64-1 for a missing key,
      the failures of sealing that lead to undefined behaviour
      (CominitTpm.sealing_undefined_iff), PCR indexes outside the selection, truncated log levels, a sealed object that a
      password session opens without the policy.

    ** What is not modelled

    Log output at the call sites (the log function itself is modelled, and with
    it the visible level, which [main] sets and only log output depends on),
    [errno] where only a message shows it, environment blocks, the hierarchy,
    session and auxiliary arguments of TPM calls that are constants without a
    choice, and the contents of TPM objects that are only freed.
    The build without COMINIT_USE_TPM is the modelled one with the TPM options
    never set. Unit tests, scripts and build files are not part of the program.

    ** Possible extensions

    The measured boot with a secure storage partition that is found by the scan
    instead of the option crypt=; a boot whose dm-integrity keys come from the
    development key store of the same run. *)
From Stdlib Require Export ZArith Lia.
From Stdlib Require Strings.Byte Strings.String.
From stdpp Require Export base strings numbers countable.
From stdpp Require Export list.

(** ** Bytes *)

Abbreviation byte := Byte.byte.
Abbreviation x00 := Byte.x00.

(** A byte and the value of an [unsigned char]. *)
Definition bz (b : byte) : Z := Z.of_N (Byte.to_N b).
Definition zb (z : Z) : byte :=
  match Byte.of_N (Z.to_N (z `mod` 256)) with Some b => b | None => x00 end.

#[global] Instance byte_eq_decision : EqDecision byte := Byte.byte_eq_dec.
#[global] Instance byte_inhabited : Inhabited byte := populate x00.
#[global] Instance byte_countable : Countable byte := inj_countable Byte.to_N Byte.of_N Byte.of_to_N.

(** A string literal of the C source, without its terminating NUL. *)
Definition lit (s : string) : list byte := String.list_byte_of_string s.
Arguments lit s%_string.

Lemma bz_range b : (0 <= bz b < 256)%Z.
Proof. unfold bz. pose proof (Byte.to_N_bounded b). lia. Qed.

Lemma bz_inj b1 b2 : bz b1 = bz b2 → b1 = b2.
Proof.
  unfold bz. intros H%N2Z.inj.
  pose proof (Byte.of_to_N b1). pose proof (Byte.of_to_N b2). congruence.
Qed.

Lemma bz_zb z : bz (zb z) = (z `mod` 256)%Z.
Proof.
  unfold zb, bz. pose proof (Z.mod_pos_bound z 256 ltac:(lia)).
  destruct (Byte.of_N _) as [b|] eqn:E.
  - apply Byte.to_of_N in E. rewrite E. lia.
  - apply Byte.of_N_None_iff in E. lia.
Qed.

Lemma zb_bz b : zb (bz b) = b.
Proof. apply bz_inj. rewrite bz_zb. apply Z.mod_small, bz_range. Qed.

(** ** Machine integers

    A [w]-bit integer is a [Z]; the wrap-around of the C conversions is
    written out where the source converts or multiplies. *)

Definition ULONG_MAX : Z := 2 ^ 64 - 1.
Definition u8 (z : Z) : Z := z `mod` 2 ^ 8.
Definition u32 (z : Z) : Z := z `mod` 2 ^ 32.
Definition u64 (z : Z) : Z := z `mod` 2 ^ 64.
Definition i32 (z : Z) : Z := (z + 2 ^ 31) `mod` 2 ^ 32 - 2 ^ 31.
Definition i64 (z : Z) : Z := (z + 2 ^ 63) `mod` 2 ^ 64 - 2 ^ 63.

Lemma u32_range z : (0 <= u32 z < 2 ^ 32)%Z.
Proof. apply Z.mod_pos_bound. lia. Qed.
Lemma u64_range z : (0 <= u64 z < 2 ^ 64)%Z.
Proof. apply Z.mod_pos_bound. lia. Qed.
Lemma u64_small z : (0 <= z < 2 ^ 64)%Z → u64 z = z.
Proof. apply Z.mod_small. Qed.
Lemma u32_small z : (0 <= z < 2 ^ 32)%Z → u32 z = z.
Proof. apply Z.mod_small. Qed.

(** The conversion [uint64_t -> off_t] of a value below [2^63] keeps it, and
    of a larger one makes it negative. *)
Lemma i64_u64 z : (0 <= z < 2 ^ 64)%Z → i64 z = if decide (z < 2 ^ 63)%Z then z else (z - 2 ^ 64)%Z.
Proof.
  intros H. unfold i64. case_decide.
  - rewrite Z.mod_small; lia.
  - replace (z + 2 ^ 63)%Z with (z - 2 ^ 63 + 1 * 2 ^ 64)%Z by lia.
    rewrite Z.mod_add by lia. rewrite Z.mod_small; lia.
Qed.

(** ** Lists *)

Lemma existsb_false_Forall {A} (f : A → bool) l : existsb f l = false → Forall (λ x, f x = false) l.
Proof. induction l as [|x l IH]; [done|]. cbn [existsb]. intros [Hx Hl]%orb_false_iff. by constructor; auto. Qed.

(** Longest prefix whose elements satisfy [p], and the rest. *)
Fixpoint span {A} (p : A → bool) (l : list A) : list A * list A :=
  match l with
  | [] => ([], [])
  | x :: r => if p x then let '(a, b) := span p r in (x :: a, b) else ([], l)
  end.

Lemma span_app {A} (p : A → bool) l : (span p l).1 ++ (span p l).2 = l.
Proof. induction l as [|x r IH]; simpl; [done|]. destruct (p x); simpl; [|done].
  destruct (span p r); simpl in *. by rewrite IH. Qed.

Lemma span_forall {A} (p : A → bool) l : Forall (λ x, p x = true) (span p l).1.
Proof. induction l as [|x r IH]; simpl; [done|]. destruct (p x) eqn:E; simpl; [|done].
  destruct (span p r); simpl in *. by constructor. Qed.

Lemma span_stop {A} (p : A → bool) l y r : (span p l).2 = y :: r → p y = false.
Proof. induction l as [|x l' IH]; simpl; [done|]. destruct (p x) eqn:E; simpl.
  - destruct (span p l'); simpl in *. auto.
  - by intros [= <- <-]. Qed.

(** [span] stops exactly at the first element refused by [p]. *)
Lemma span_all {A} (p : A → bool) a b :
  Forall (λ x, p x = true) a → match b with [] => True | y :: _ => p y = false end →
  span p (a ++ b) = (a, b).
Proof.
  intros Ha Hb. induction Ha as [|x a Hx _ IH]; simpl.
  - destruct b; simpl; [done|]. by rewrite Hb.
  - by rewrite Hx, IH.
Qed.

(** Overwriting the first bytes of a buffer, as a store through a pointer to
    its start does. The caller shows that the store fits. *)
Definition overwrite {A} (a src : list A) : list A := src ++ drop (length src) a.

Lemma length_overwrite {A} (a src : list A) :
  length src <= length a → length (overwrite a src) = length a.
Proof. intros. unfold overwrite. rewrite length_app, length_drop. lia. Qed.

Lemma elem_of_span1 {A} (p : A → bool) l x : x ∈ (span p l).1 → x ∈ l.
Proof. intros. rewrite <-(span_app p l), elem_of_app. auto. Qed.
Lemma elem_of_span2 {A} (p : A → bool) l x : x ∈ (span p l).2 → x ∈ l.
Proof. intros. rewrite <-(span_app p l), elem_of_app. auto. Qed.
Lemma length_span2 {A} (p : A → bool) l : length (span p l).2 <= length l.
Proof. rewrite <-(span_app p l) at 2. rewrite length_app. lia. Qed.

(** ** Automation *)

Create HintDb cominit.
#[export] Hint Rewrite @length_app @length_take @length_drop @length_replicate
  @length_cons @length_fmap : cominit.

(** Length goals over lists. *)
Ltac solve_length := autorewrite with cominit in *; simpl in *; try lia.

(** Splits the innermost [if]/[match] of the goal, remembering the equation. *)
Ltac case_goal :=
  match goal with
  | |- context [match ?x with _ => _ end] =>
      lazymatch x with context [match _ with _ => _ end] => fail | _ => destruct x eqn:? end
  end.
(** The same for a hypothesis. *)
Ltac case_hyp H :=
  match type of H with
  | context [match ?x with _ => _ end] =>
      lazymatch x with context [match _ with _ => _ end] => fail | _ => destruct x eqn:? end
  end.
