(* ===== verification/CString.v ===== *)
(** * CString: the C library's string functions, as the source uses them

    A C string is the list of its bytes before the terminating NUL; a [char]
    array is the list of all its bytes, and [cstr] is the string it holds.
    Nothing here models code of the repository: these are the functions of the
    C standard library that the other files call, with the lemmas the
    component proofs share. *)
From S2P Require Import Prelude.

(** ** Character arrays *)

(** The string a [char] array holds: its bytes before the first NUL. *)
Definition cstr (a : list byte) : list byte := (span (λ b, negb (bool_decide (b = x00))) a).1.
(** The array has a terminator. *)
Definition terminated (a : list byte) : bool := bool_decide (x00 ∈ a).
(** A list of bytes that can be a C string. *)
Definition nonul (s : list byte) : Prop := x00 ∉ s.
#[global] Instance nonul_dec s : Decision (nonul s) := ltac:(unfold nonul; apply _).
(** [strnlen(a, n)] *)
Definition strnlen (a : list byte) (n : nat) : nat := length (cstr (take n a)).

(** [snprintf(a, n, ...)] where the format produces [s]. *)
Definition snprintf (a : list byte) (n : nat) (s : list byte) : list byte :=
  match n with O => a | S m => overwrite a (take m s ++ [x00]) end.
(** [strncpy(a, s, n)] *)
Definition strncpy (a s : list byte) (n : nat) : list byte :=
  overwrite a (take n (s ++ replicate n x00)).

Lemma cstr_nonul a : nonul (cstr a).
Proof.
  unfold nonul, cstr. intros Hin.
  pose proof (span_forall (λ b, negb (bool_decide (b = x00))) a) as H.
  rewrite Forall_forall in H. specialize (H _ Hin). by rewrite bool_decide_true in H.
Qed.

Lemma cstr_app s r : nonul s → cstr (s ++ x00 :: r) = s.
Proof.
  intros H. unfold cstr. rewrite span_all; [done| |].
  - apply Forall_forall. intros x Hx. rewrite bool_decide_false; [done|]. by intros ->.
  - by rewrite bool_decide_true.
Qed.

Lemma cstr_id s : nonul s → cstr s = s.
Proof.
  intros H. unfold cstr. rewrite <-(app_nil_r s) at 1. rewrite span_all; [done| |done].
  apply Forall_forall. intros x Hx. rewrite bool_decide_false; [done|]. by intros ->.
Qed.

Lemma cstr_length a : length (cstr a) <= length a.
Proof.
  unfold cstr. rewrite <-(span_app (λ b, negb (bool_decide (b = x00))) a) at 2.
  rewrite length_app. lia.
Qed.

(** A terminated array is its string, a NUL and a rest. *)
Lemma terminated_split a : terminated a = true → ∃ r, a = cstr a ++ x00 :: r.
Proof.
  unfold terminated. intros Hin%bool_decide_eq_true. unfold cstr.
  set (p := λ b, negb (bool_decide (b = x00))).
  pose proof (span_app p a) as E. destruct (span p a).2 as [|y r] eqn:E2.
  - rewrite app_nil_r in E. pose proof (span_forall p a) as H. rewrite E in H.
    rewrite Forall_forall in H. specialize (H _ Hin). unfold p in H. by rewrite bool_decide_true in H.
  - pose proof (span_stop p a y r E2) as H. unfold p in H.
    rewrite negb_false_iff in H. apply bool_decide_eq_true in H as ->. by exists r.
Qed.

Lemma terminated_lt a : terminated a = true → length (cstr a) < length a.
Proof. intros [r E]%terminated_split. rewrite E at 2. solve_length. Qed.

Lemma nonul_app s1 s2 : nonul (s1 ++ s2) ↔ nonul s1 ∧ nonul s2.
Proof. unfold nonul. rewrite elem_of_app. tauto. Qed.
Lemma nonul_cons b s : nonul (b :: s) ↔ b ≠ x00 ∧ nonul s.
Proof. unfold nonul. rewrite elem_of_cons. intuition congruence. Qed.
Lemma nonul_nil : nonul [].
Proof. unfold nonul. apply not_elem_of_nil. Qed.
Lemma nonul_sub s1 s2 : (∀ x, x ∈ s1 → x ∈ s2) → nonul s2 → nonul s1.
Proof. unfold nonul. eauto. Qed.
Lemma nonul_take n s : nonul s → nonul (take n s).
Proof. apply nonul_sub. intros x [i [H _]%lookup_take_Some]%list_elem_of_lookup.
  apply list_elem_of_lookup. eauto. Qed.
Lemma nonul_drop n s : nonul s → nonul (drop n s).
Proof. apply nonul_sub. intros x [i H]%list_elem_of_lookup. rewrite lookup_drop in H.
  apply list_elem_of_lookup. eauto. Qed.
#[export] Hint Resolve nonul_nil nonul_take nonul_drop cstr_nonul : cominit.

(** What [snprintf] leaves in a buffer of [n] bytes or more. *)
Lemma snprintf_length a n s : n <= length a → length (snprintf a n s) = length a.
Proof.
  destruct n; [done|]. intros. unfold snprintf. apply length_overwrite. solve_length.
Qed.
Lemma snprintf_cstr a n s : 0 < n → nonul s → cstr (snprintf a n s) = take (n - 1) s.
Proof.
  destruct n as [|n]; [lia|]. intros _ H. unfold snprintf, overwrite.
  rewrite <-app_assoc. simpl. rewrite Nat.sub_0_r. apply cstr_app. auto with cominit.
Qed.
Lemma snprintf_fits a n s : length s < n → nonul s → cstr (snprintf a n s) = s.
Proof. intros. rewrite snprintf_cstr by (done || lia). apply take_ge. lia. Qed.
Lemma snprintf_terminated a n s : 0 < n → terminated (snprintf a n s) = true.
Proof.
  destruct n as [|n]; [lia|]. intros _. unfold snprintf, overwrite, terminated.
  apply bool_decide_eq_true. rewrite !elem_of_app, list_elem_of_singleton. auto.
Qed.

(** [strncpy] into an array whose last byte is then cleared. *)
Lemma strncpy_cstr n a s : 0 < n → length a = n → nonul s →
  cstr (take (n - 1) (strncpy a s n) ++ [x00]) = take (n - 1) s.
Proof.
  intros Hn Ha Hs. unfold strncpy, overwrite.
  rewrite take_app_le by (rewrite length_take, length_app, length_replicate; lia).
  rewrite take_take, Nat.min_l by lia. destruct (decide (n - 1 <= length s)).
  - rewrite take_app_le by lia. apply cstr_app. by apply nonul_take.
  - rewrite take_app_ge by lia. rewrite (take_ge s) by lia.
    rewrite take_replicate, Nat.min_l by lia. rewrite <-app_assoc.
    destruct (n - 1 - length s) as [|k] eqn:E; [lia|]. simpl. by apply cstr_app.
Qed.

(** [stpncpy] stops at the end it returns; a NUL there ends the string. *)
Definition stpncpy (a s : list byte) (n : nat) : list byte * nat := (strncpy a s n, length s `min` n).
Lemma stpncpy_cstr n a s : n < length a → nonul s →
  cstr (<[(stpncpy a s n).2 := x00]> (stpncpy a s n).1) = take n s.
Proof.
  intros Ha Hs. unfold stpncpy, strncpy, overwrite. cbn [fst snd].
  assert (∃ c r, take n (s ++ replicate n x00) ++ drop (length (take n (s ++ replicate n x00))) a =
                 take n s ++ c :: r) as (c & r & ->).
  { rewrite length_take, length_app, length_replicate, Nat.min_l by lia.
    destruct (decide (n <= length s)).
    - rewrite take_app_le by lia. destruct (drop n a) as [|c r] eqn:E; [|by exists c, r].
      apply (f_equal length) in E. rewrite length_drop in E. simpl in E. lia.
    - rewrite take_app_ge, (take_ge s), take_replicate, Nat.min_l by lia. rewrite <-app_assoc.
      destruct (n - length s) as [|k] eqn:E; [lia|]. simpl. eauto. }
  replace (length s `min` n) with (length (take n s) + 0) by (rewrite length_take; lia).
  rewrite insert_app_r. apply cstr_app. by apply nonul_take.
Qed.

(** ** Comparison and search *)

(** [strcmp(a, b) == 0] *)
Definition strcmp_eq (a b : list byte) : bool := bool_decide (a = b).
(** [strncmp(a, b, n) == 0]: the first [n] bytes agree, terminators included. *)
Definition strncmp_eq (a b : list byte) (n : nat) : bool :=
  bool_decide (take n (a ++ [x00]) = take n (b ++ [x00])).
(** [tolower] in the C locale. *)
Definition tolower (b : byte) : byte :=
  if bool_decide (65 <= bz b <= 90)%Z then zb (bz b + 32) else b.
(** [strcasecmp(a, b) == 0] *)
Definition strcasecmp_eq (a b : list byte) : bool := bool_decide (map tolower a = map tolower b).

(** [strchr(s, c)] with [c] not NUL: the string before the first [c] and the
    string after it. *)
Definition strchr (s : list byte) (c : byte) : option (list byte * list byte) :=
  let '(a, b) := span (λ x, negb (bool_decide (x = c))) s in
  match b with [] => None | _ :: r => Some (a, r) end.
(** [strcspn(s, reject)] *)
Definition strcspn (s reject : list byte) : nat :=
  length (span (λ x, negb (bool_decide (x ∈ reject))) s).1.
(** [strcspn] on the memory from a pointer that need not lie within a string:
    [None] when neither a NUL nor a byte of [reject] is met. *)
Definition strcspn_at (mem reject : list byte) : option nat :=
  match span (λ x, negb (bool_decide (x ∈ x00 :: reject))) mem with
  | (_, []) => None
  | (a, _ :: _) => Some (length a)
  end.
(** [strstr(s, p)]: the bytes before the first occurrence and the string that
    starts there. *)
Fixpoint strstr (s p : list byte) : option (list byte * list byte) :=
  if bool_decide (take (length p) s = p) then Some ([], s) else
  match s with
  | [] => None
  | b :: r => match strstr r p with Some (x, y) => Some (b :: x, y) | None => None end
  end.

(** [strtok_r(s, delim, &state)], and [strtok_r(NULL, delim, &state)] with
    [state = s]: the token, if any, and the new state. *)
Definition strtok_r (s delim : list byte) : option (list byte) * list byte :=
  let '(_, s') := span (λ x, bool_decide (x ∈ delim)) s in
  match s' with
  | [] => (None, [])
  | _ :: _ =>
      let '(tok, r) := span (λ x, negb (bool_decide (x ∈ delim))) s' in
      (Some tok, tail r)
  end.
(** The memory behind the NUL that ends the token [strtok_r] returns for [s],
    with [after] the memory behind the NUL of [s] itself. *)
Definition strtok_behind (s delim after : list byte) : list byte :=
  let '(_, s') := span (λ x, bool_decide (x ∈ delim)) s in
  drop (S (strcspn s' delim)) (s' ++ x00 :: after).

Lemma strncmp_eq_prefix a b :
  nonul a → nonul b →
  strncmp_eq a b (length b) = true ↔ ∃ r, a = b ++ r.
Proof.
  intros Ha Hb. unfold strncmp_eq. rewrite bool_decide_eq_true, take_app_length. split.
  - intros E. destruct (decide (length b <= length a)) as [Hl|Hl].
    + rewrite take_app_le in E by done. exists (drop (length b) a). rewrite <-E at 1.
      symmetry. apply take_drop.
    + assert (x00 ∈ b) as Hin; [|by contradict Hin].
      rewrite <-E, take_ge by solve_length. rewrite elem_of_app, list_elem_of_singleton. auto.
  - intros [r ->]. rewrite <-app_assoc. apply take_app_length.
Qed.

Lemma strncmp_eq_full a b n :
  length b < n → nonul a → nonul b → strncmp_eq a b n = true ↔ a = b.
Proof.
  intros Hn Ha Hb. unfold strncmp_eq. rewrite bool_decide_eq_true.
  rewrite (take_ge (b ++ [x00])) by solve_length. split; [|intros ->; apply take_ge; solve_length].
  intros E. assert (cstr (b ++ [x00]) = cstr (take n (a ++ [x00]))) as E' by congruence.
  rewrite cstr_app in E' by done. rewrite E'.
  destruct (decide (n <= length a)).
  - rewrite take_app_le in E by done.
    assert (x00 ∈ b ++ [x00]) as Hin by (rewrite elem_of_app, list_elem_of_singleton; auto).
    rewrite <-E in Hin. by apply nonul_take with (n := n) in Ha.
  - rewrite take_ge by solve_length. by rewrite cstr_app.
Qed.

Lemma strchr_Some s c a r : strchr s c = Some (a, r) ↔ s = a ++ c :: r ∧ c ∉ a.
Proof.
  unfold strchr. set (p := λ x, negb (bool_decide (x = c))). split.
  - destruct (span p s) as [u v] eqn:E. pose proof (span_app p s) as Ea.
    pose proof (span_forall p s) as Ef. pose proof (span_stop p s) as Es. rewrite E in *. simpl in *.
    destruct v as [|y v]; [done|]. intros [= -> ->].
    specialize (Es _ _ eq_refl). unfold p in Es. apply negb_false_iff, bool_decide_eq_true in Es as ->.
    split; [done|]. intros Hc. rewrite Forall_forall in Ef. specialize (Ef _ Hc).
    unfold p in Ef. by rewrite bool_decide_true in Ef.
  - intros [-> Hc]. rewrite span_all; [done| |].
    + apply Forall_forall. intros x Hx. unfold p. rewrite bool_decide_false; [done|]. by intros ->.
    + unfold p. by rewrite bool_decide_true.
Qed.

Lemma strchr_None s c : strchr s c = None ↔ c ∉ s.
Proof.
  split.
  - unfold strchr. set (p := λ x, negb (bool_decide (x = c))).
    destruct (span p s) as [u v] eqn:E. pose proof (span_app p s) as Ea.
    pose proof (span_forall p s) as Ef. rewrite E in *. simpl in *.
    destruct v; [|done]. intros _ Hc. rewrite app_nil_r in Ea. subst u.
    rewrite Forall_forall in Ef. specialize (Ef _ Hc). unfold p in Ef. by rewrite bool_decide_true in Ef.
  - intros Hc. destruct (strchr s c) as [[a r]|] eqn:E; [|done].
    apply strchr_Some in E as [-> _]. contradict Hc. rewrite elem_of_app, elem_of_cons. auto.
Qed.

(** ** Tokens *)

(** A token of [strtok_r] is not empty and has no delimiter. *)
Definition is_token (delim t : list byte) : Prop := t ≠ [] ∧ Forall (λ x, x ∉ delim) t.
#[global] Instance is_token_dec delim t : Decision (is_token delim t) := ltac:(unfold is_token; apply _).

Lemma strtok_r_Some s delim t st :
  strtok_r s delim = (Some t, st) →
  is_token delim t ∧ (∀ x, x ∈ t → x ∈ s) ∧ (∀ x, x ∈ st → x ∈ s) ∧ length t + length st <= length s.
Proof.
  unfold strtok_r. set (p := λ x, bool_decide (x ∈ delim)). set (q := λ x, negb (bool_decide (x ∈ delim))).
  destruct (span p s) as [u v] eqn:E. pose proof (span_app p s) as Ea.
  pose proof (span_stop p s) as Es. rewrite E in *. simpl in *. destruct v as [|y v]; [done|].
  destruct (span q (y :: v)) as [tok r] eqn:E2. intros [= -> <-].
  pose proof (span_app q (y :: v)) as Eb. pose proof (span_forall q (y :: v)) as Ef.
  rewrite E2 in Eb, Ef. cbn [fst snd] in Eb, Ef. repeat split.
  - intros ->. assert (q y = true) as Hy.
    { unfold q. by rewrite (Es _ _ eq_refl : bool_decide (y ∈ delim) = false). }
    simpl in E2. rewrite Hy in E2. destruct (span q v); done.
  - eapply Forall_impl; [exact Ef|]. unfold q. intros x Hx%negb_true_iff. by apply bool_decide_eq_false in Hx.
  - intros x Hx. rewrite <-Ea, <-Eb, !elem_of_app. auto.
  - intros x Hx. rewrite <-Ea, <-Eb, !elem_of_app. destruct r; [by apply not_elem_of_nil in Hx|].
    simpl in Hx. rewrite elem_of_cons. auto.
  - rewrite <-Ea, <-Eb, !length_app. destruct r; simpl; lia.
Qed.

(** A token followed by a delimiter, or by the end of the string. *)
Lemma strtok_r_cons delim t d r :
  is_token delim t → d ∈ delim → strtok_r (t ++ d :: r) delim = (Some t, r).
Proof.
  intros [Hne Ht] Hd. destruct t as [|b t]; [done|].
  assert (b ∉ delim) as Hb by by inversion Ht.
  unfold strtok_r. simpl. rewrite bool_decide_false by done.
  change (b :: t ++ d :: r) with ((b :: t) ++ d :: r). rewrite span_all; [done| |].
  - eapply Forall_impl; [exact Ht|]. intros x Hx. simpl. by rewrite bool_decide_false.
  - by rewrite bool_decide_true.
Qed.
Lemma strtok_r_last delim t : is_token delim t → strtok_r t delim = (Some t, []).
Proof.
  intros [Hne Ht]. destruct t as [|b t]; [done|].
  assert (b ∉ delim) as Hb by by inversion Ht.
  unfold strtok_r. simpl. rewrite bool_decide_false by done.
  rewrite <-(app_nil_r (b :: t)) at 1. rewrite span_all; [done| |done].
  eapply Forall_impl; [exact Ht|]. intros x Hx. simpl. by rewrite bool_decide_false.
Qed.
(** With no delimiters, the rest of the string is one token. *)
Lemma strtok_r_rest s : s ≠ [] → strtok_r s [] = (Some s, []).
Proof. intros H. apply strtok_r_last. split; [done|]. apply Forall_forall. intros x _. apply not_elem_of_nil. Qed.
Lemma strtok_r_nil delim : strtok_r [] delim = (None, []).
Proof. done. Qed.


Lemma strcspn_at_Some mem reject : is_Some (strcspn_at mem reject) ↔ ∃ x, x ∈ mem ∧ x ∈ x00 :: reject.
Proof.
  unfold strcspn_at. set (p := λ x, negb _). pose proof (span_app p mem) as Ea.
  pose proof (span_forall p mem) as Ef. pose proof (span_stop p mem) as Es.
  destruct (span p mem) as [a [|y r]]; cbn [fst snd] in *; subst mem.
  - split; [by intros []|]. intros (x & Hx & Hr). rewrite app_nil_r in Hx.
    rewrite Forall_forall in Ef. specialize (Ef _ Hx). unfold p in Ef. by rewrite bool_decide_true in Ef.
  - split; [|done]. intros _. exists y. split; [rewrite elem_of_app, elem_of_cons; auto|].
    specialize (Es _ _ eq_refl). unfold p in Es. by apply negb_false_iff, bool_decide_eq_true in Es.
Qed.
(** Behind the token come only bytes behind the string, or the NUL of the
    string comes first. *)
Lemma strtok_behind_cases s delim after :
  strtok_behind s delim after = after ∨ ∃ r, strtok_behind s delim after = r ++ x00 :: after.
Proof.
  unfold strtok_behind. destruct (span _ s) as [u v]. unfold strcspn. set (q := λ x, negb _).
  pose proof (span_app q v) as Ev. destruct (span q v) as [t r]. cbn [fst snd] in *. subst v.
  rewrite <-app_assoc. destruct r as [|d r].
  - left. cbn [app]. rewrite cons_middle, app_assoc. apply drop_app_length'. rewrite length_app. simpl. lia.
  - right. exists r. cbn [app]. rewrite cons_middle, app_assoc. apply drop_app_length'. rewrite length_app. simpl. lia.
Qed.

(** ** Number parsing *)

(** What differs between C libraries: whether [strtoul] sets [errno] when the
    text holds no number (POSIX allows [EINVAL]; glibc leaves [errno] alone,
    musl sets it). *)
Class Libc := { strtoul_noconv_errno : bool }.

Definition isspace (b : byte) : bool := bool_decide (9 <= bz b <= 13)%Z || bool_decide (bz b = 32)%Z.
Definition isdigit (b : byte) : bool := bool_decide (48 <= bz b <= 57)%Z.
(** Value of an alphanumeric character as a digit. *)
Definition digit_val (b : byte) : option Z :=
  let z := bz b in
  if bool_decide (48 <= z <= 57)%Z then Some (z - 48)%Z
  else if bool_decide (97 <= z <= 122)%Z then Some (z - 87)%Z
  else if bool_decide (65 <= z <= 90)%Z then Some (z - 55)%Z
  else None.
Definition is_base_digit (base : Z) (b : byte) : bool :=
  match digit_val b with Some d => bool_decide (d < base)%Z | None => false end.
Definition dval (b : byte) : Z := default 0%Z (digit_val b).
(** Value of a run of digits. *)
Definition digits_value (base : Z) (ds : list byte) : Z :=
  foldl (λ acc d, acc * base + dval d)%Z 0%Z ds.

Record strtoul_result := StrtoulResult {
  st_val : Z;           (* the returned unsigned long *)
  st_end : list byte;   (* the string [*endptr] points to *)
  st_errno : bool       (* [errno] was set *)
}.

(** Optional sign. *)
Definition strto_sign (s : list byte) : bool * list byte :=
  match s with
  | b :: r => if bool_decide (bz b = 45)%Z then (true, r)
              else if bool_decide (bz b = 43)%Z then (false, r) else (false, s)
  | [] => (false, s)
  end.
(** Prefix of base 0: [0x] before a hexadecimal digit, or a leading [0]. *)
Definition strto_base (base : Z) (s : list byte) : Z * list byte :=
  if bool_decide (base = 0)%Z then
    match s with
    | b0 :: r0 =>
        if bool_decide (bz b0 = 48)%Z then
          match r0 with
          | b1 :: b2 :: r2 =>
              if bool_decide (bz (tolower b1) = 120)%Z && is_base_digit 16 b2
              then (16%Z, b2 :: r2) else (8%Z, s)
          | _ => (8%Z, s)
          end
        else (10%Z, s)
    | [] => (10%Z, s)
    end
  else (base, s).
(** [strtoul(s, &end, base)] for base 0 or 10, on a 64-bit [unsigned long];
    [strtoull] is the same function. *)
Definition strtoul `{Libc} (base : Z) (s : list byte) : strtoul_result :=
  let '(_, s1) := span isspace s in
  let '(neg, s2) := strto_sign s1 in
  let '(b, s3) := strto_base base s2 in
  let '(ds, rest) := span (is_base_digit b) s3 in
  match ds with
  | [] => StrtoulResult 0 s strtoul_noconv_errno
  | _ => let v := digits_value b ds in
         if bool_decide (v > ULONG_MAX)%Z then StrtoulResult ULONG_MAX rest true
         else StrtoulResult (if neg then u64 (- v) else v) rest false
  end.

(** ** Number formatting *)

(** The digit of value [d] (below 16), as ["%x"] writes it. *)
Definition hexdigit (d : Z) : byte := if bool_decide (d < 10)%Z then zb (48 + d) else zb (87 + d).
(** ["%0wx"] of a value below [16^w]: exactly [w] digits. *)
Fixpoint hex_fixed (w : nat) (z : Z) : list byte :=
  match w with O => [] | S w' => hex_fixed w' (z / 16) ++ [hexdigit (z `mod` 16)] end.
(** ["%u"] and ["%lu"]: decimal digits, without leading zeros. The fuel is the
    number of digits of the largest 64-bit value. *)
Fixpoint dec_fuel (fuel : nat) (z : Z) : list byte :=
  match fuel with
  | O => []
  | S f => (if bool_decide (z < 10)%Z then [] else dec_fuel f (z / 10)) ++ [hexdigit (z `mod` 10)]
  end.
Definition dec (z : Z) : list byte := dec_fuel 20 z.

Lemma hexdigit_val d : (0 <= d < 16)%Z → digit_val (hexdigit d) = Some d.
Proof.
  intros H. unfold hexdigit. destruct (decide (d < 10)%Z);
    [rewrite bool_decide_true by done|rewrite bool_decide_false by done];
    unfold digit_val; rewrite bz_zb, Z.mod_small by lia.
  - rewrite bool_decide_true by lia. f_equal; lia.
  - rewrite bool_decide_false, bool_decide_true by lia. f_equal; lia.
Qed.
Lemma hexdigit_isdigit d : (0 <= d < 10)%Z → isdigit (hexdigit d) = true.
Proof.
  intros H. unfold hexdigit, isdigit. rewrite (bool_decide_true (d < 10)%Z) by lia.
  rewrite bz_zb, Z.mod_small by lia. rewrite bool_decide_true by lia. done.
Qed.
Lemma hexdigit_nonul d : (0 <= d < 16)%Z → hexdigit d ≠ x00.
Proof. intros H E. apply hexdigit_val in H. by rewrite E in H. Qed.

Lemma digits_value_snoc base ds d : digits_value base (ds ++ [d]) = (digits_value base ds * base + dval d)%Z.
Proof. unfold digits_value. by rewrite foldl_app. Qed.

(** Fixed-width hexadecimal is the inverse of reading it back. *)
Lemma hex_fixed_value w z : (0 <= z < 16 ^ Z.of_nat w)%Z → digits_value 16 (hex_fixed w z) = z.
Proof.
  revert z. induction w as [|w IH]; intros z Hz.
  - simpl in *. unfold digits_value. simpl. lia.
  - rewrite Nat2Z.inj_succ, Z.pow_succ_r in Hz by lia. simpl.
    rewrite digits_value_snoc, IH.
    + unfold dval. rewrite hexdigit_val by (apply Z.mod_pos_bound; lia). simpl.
      pose proof (Z.div_mod z 16). lia.
    + split; [apply Z.div_pos; lia|]. apply Z.div_lt_upper_bound; lia.
Qed.
Lemma hex_fixed_length w z : length (hex_fixed w z) = w.
Proof. revert z. induction w; intros; simpl; [done|]. rewrite length_app, IHw. simpl. lia. Qed.
Lemma hex_fixed_nonul w z : nonul (hex_fixed w z).
Proof.
  revert z. induction w; intros; simpl; [apply nonul_nil|]. apply nonul_app. split; [done|].
  apply nonul_cons. split; [|apply nonul_nil]. apply hexdigit_nonul.
  pose proof (Z.mod_pos_bound z 16). lia.
Qed.
Lemma hex_fixed_inj w z1 z2 : (0 <= z1 < 16 ^ Z.of_nat w)%Z → (0 <= z2 < 16 ^ Z.of_nat w)%Z →
  hex_fixed w z1 = hex_fixed w z2 → z1 = z2.
Proof. intros H1 H2 E. rewrite <-(hex_fixed_value w z1), <-(hex_fixed_value w z2), E; done. Qed.

Lemma dec_fuel_spec f z : (0 <= z < 10 ^ Z.of_nat (S f))%Z →
  let ds := dec_fuel (S f) z in
  ds ≠ [] ∧ Forall (λ b, isdigit b = true) ds ∧ digits_value 10 ds = z.
Proof.
  revert z. induction f as [|f IH]; intros z Hz.
  - change (10 ^ Z.of_nat 1)%Z with 10%Z in Hz. cbn [dec_fuel]. rewrite bool_decide_true by lia.
    rewrite Z.mod_small by lia. split; [done|]. split.
    + repeat constructor. apply hexdigit_isdigit. lia.
    + unfold digits_value, dval. simpl. rewrite hexdigit_val by lia. done.
  - rewrite Nat2Z.inj_succ, Z.pow_succ_r in Hz by lia. set (f' := S f) in *.
    cbn [dec_fuel]. pose proof (Z.mod_pos_bound z 10). split; [intros []%app_nil; done|].
    assert (isdigit (hexdigit (z `mod` 10)) = true) by (apply hexdigit_isdigit; lia).
    rewrite digits_value_snoc. unfold dval. rewrite hexdigit_val by lia. cbn [from_option id].
    case_bool_decide.
    + rewrite Z.mod_small in * by lia. split; [by repeat constructor|].
      unfold digits_value. simpl. lia.
    + destruct (IH (z / 10)%Z) as (_ & Hd & Hv).
      { split; [apply Z.div_pos; lia|]. apply Z.div_lt_upper_bound; lia. }
      rewrite Hv. split; [by apply Forall_app; split; [|repeat constructor]|].
      pose proof (Z.div_mod z 10). lia.
Qed.
(** Decimal formatting of a 64-bit value yields digits that read back as it. *)
Lemma dec_spec z : (0 <= z < 2 ^ 64)%Z →
  dec z ≠ [] ∧ Forall (λ b, isdigit b = true) (dec z) ∧ digits_value 10 (dec z) = z.
Proof. intros H. apply (dec_fuel_spec 19). lia. Qed.

Lemma isdigit_base10 b : isdigit b = is_base_digit 10 b.
Proof.
  unfold isdigit, is_base_digit, digit_val. pose proof (bz_range b).
  repeat case_bool_decide; simpl; try lia; try done; symmetry;
    (apply bool_decide_eq_true || apply bool_decide_eq_false); lia.
Qed.
Lemma isdigit_nonspace b : isdigit b = true → isspace b = false.
Proof. unfold isdigit, isspace. intros H%bool_decide_eq_true.
  rewrite !bool_decide_false; [done|lia|lia]. Qed.
Lemma isdigit_nonul b : isdigit b = true → b ≠ x00.
Proof. by intros H ->. Qed.

(** [strtoul] in base 10 on a string that starts with a run of digits. *)
Lemma strtoul_digits `{Libc} ds r :
  ds ≠ [] → Forall (λ b, isdigit b = true) ds →
  match r with [] => True | b :: _ => isdigit b = false end →
  (digits_value 10 ds <= ULONG_MAX)%Z →
  strtoul 10 (ds ++ r) = StrtoulResult (digits_value 10 ds) r false.
Proof.
  intros Hne Hds Hr Hv. destruct ds as [|d ds]; [done|]. unfold strtoul.
  assert (isdigit d = true) as Hd by by inversion Hds.
  cbn [app span]. rewrite isdigit_nonspace by done. unfold strto_sign.
  unfold isdigit in Hd. apply bool_decide_eq_true in Hd.
  rewrite !bool_decide_false by lia. unfold strto_base. rewrite bool_decide_false by lia.
  change (d :: ds ++ r) with ((d :: ds) ++ r). rewrite span_all.
  - rewrite bool_decide_false by lia. done.
  - eapply Forall_impl; [exact Hds|]. intros b Hb. simpl in *. by rewrite <-isdigit_base10.
  - destruct r; [done|]. by rewrite <-isdigit_base10.
Qed.

(** The decimal representation has no leading zero, so base 0 reads it as
    base 10. *)
Lemma dec_fuel_head f z b r : (0 < z < 10 ^ Z.of_nat f)%Z → dec_fuel f z = b :: r → bz b ≠ 48%Z.
Proof.
  revert z b r. induction f as [|f IH]; intros z b r Hz; [simpl in Hz; lia|].
  rewrite Nat2Z.inj_succ, Z.pow_succ_r in Hz by lia. cbn [dec_fuel]. case_bool_decide.
  - simpl. intros [= <- <-]. rewrite Z.mod_small by lia. unfold hexdigit.
    rewrite bool_decide_true, bz_zb, Z.mod_small by lia. lia.
  - assert (0 < z / 10 < 10 ^ Z.of_nat f)%Z as Hd.
    { split; [apply Z.div_str_pos; lia|]. apply Z.div_lt_upper_bound; lia. }
    destruct (dec_fuel f (z / 10)) as [|b' r'] eqn:E; simpl.
    + destruct f; [simpl in Hd; lia|]. cbn [dec_fuel] in E. by apply app_nil in E as [_ ?].
    + intros [= -> _]. by apply (IH _ _ _ Hd E).
Qed.

Lemma strtoul_dec0 `{Libc} z : (0 <= z < 2 ^ 64)%Z → strtoul 0 (dec z) = StrtoulResult z [] false.
Proof.
  intros Hz. destruct (decide (z = 0)%Z) as [->|Hnz]; [by vm_compute|].
  destruct (dec_spec z Hz) as (Hne & Hd & Hv).
  destruct (dec z) as [|b ds] eqn:E; [done|]. rewrite <-(app_nil_r (b :: ds)).
  assert (bz b ≠ 48)%Z as Hb by (eapply (dec_fuel_head 20 z); [lia|exact E]).
  assert (strtoul 0 ((b :: ds) ++ []) = strtoul 10 ((b :: ds) ++ [])) as ->.
  { assert (isdigit b = true) as Hbd by by inversion Hd.
    unfold strtoul. rewrite app_nil_r. cbn [span]. rewrite isdigit_nonspace by done.
    unfold isdigit in Hbd. apply bool_decide_eq_true in Hbd.
    unfold strto_sign. rewrite !bool_decide_false by lia.
    unfold strto_base. rewrite bool_decide_true by done. rewrite !bool_decide_false by lia. done. }
  rewrite strtoul_digits; [by rewrite Hv|done|done|done|]. rewrite Hv. unfold ULONG_MAX. lia.
Qed.

Lemma dec_nonul z : (0 <= z < 2 ^ 64)%Z → nonul (dec z).
Proof.
  intros Hz. destruct (dec_spec z Hz) as (_ & Hd & _). intros Hin.
  rewrite Forall_forall in Hd. by apply Hd in Hin.
Qed.

(** ** Words: the reference for tokenizing with [strtok_r(.., " ", ..)] *)

Fixpoint split_on (c : byte) (s : list byte) : list (list byte) :=
  match s with
  | [] => [[]]
  | b :: r => if bool_decide (b = c) then [] :: split_on c r
              else match split_on c r with [] => [[b]] | w :: ws => (b :: w) :: ws end
  end.
(** The maximal runs of non-spaces of a string, in order. *)
Definition words (s : list byte) : list (list byte) := filter (λ w, w ≠ []) (split_on Byte.x20 s).

Lemma split_on_app c t r : c ∉ t → split_on c (t ++ c :: r) = t :: split_on c r.
Proof.
  induction t as [|b t IH]; simpl; intros Hc; [by rewrite bool_decide_true|].
  apply not_elem_of_cons in Hc as [Hb Hc]. rewrite bool_decide_false by congruence. by rewrite IH.
Qed.
Lemma split_on_last c t : c ∉ t → split_on c t = [t].
Proof.
  induction t as [|b t IH]; simpl; intros Hc; [done|].
  apply not_elem_of_cons in Hc as [Hb Hc]. rewrite bool_decide_false by congruence. by rewrite IH.
Qed.
Lemma token_nospace t : is_token (lit " ") t ↔ t ≠ [] ∧ Byte.x20 ∉ t.
Proof.
  unfold is_token. rewrite Forall_forall. change (lit " ") with [Byte.x20].
  split; intros [Hne H]; (split; [done|]).
  - intros Hin. apply (H _ Hin). apply list_elem_of_singleton. done.
  - intros x Hx ->%list_elem_of_singleton. done.
Qed.
Lemma words_token t r : is_token (lit " ") t → words (t ++ Byte.x20 :: r) = t :: words r.
Proof. intros [Hne Hsp]%token_nospace. unfold words. rewrite split_on_app by done. by rewrite filter_cons_True. Qed.
Lemma words_last t : is_token (lit " ") t → words t = [t].
Proof. intros [Hne Hsp]%token_nospace. unfold words. rewrite split_on_last by done. by rewrite filter_cons_True. Qed.
Lemma words_space r : words (Byte.x20 :: r) = words r.
Proof. unfold words. cbn [split_on]. rewrite bool_decide_true by done. by rewrite filter_cons_False by auto. Qed.

(** [strtok_r] takes the first word and leaves the others. *)
Lemma strtok_words s :
  match strtok_r s (lit " ") with
  | (Some t, st) => words s = t :: words st
  | (None, _) => words s = []
  end.
Proof.
  change (lit " ") with [Byte.x20]. unfold strtok_r.
  set (p := λ x, bool_decide (x ∈ [Byte.x20])). set (q := λ x, negb (bool_decide (x ∈ [Byte.x20]))).
  destruct (span p s) as [u v] eqn:E. pose proof (span_app p s) as Ea.
  pose proof (span_forall p s) as Ef. rewrite E in *. cbn [fst snd] in *. subst s.
  assert (words (u ++ v) = words v) as ->.
  { clear E. induction Ef as [|x u Hx _ IH]; [done|]. cbn [app].
    unfold p in Hx. apply bool_decide_eq_true, list_elem_of_singleton in Hx as ->.
    by rewrite words_space. }
  destruct v as [|y v]; [done|].
  pose proof (span_stop p (u ++ y :: v) y v ltac:(by rewrite E)) as Hy.
  destruct (span q (y :: v)) as [tok r] eqn:E2.
  pose proof (span_app q (y :: v)) as Eb. pose proof (span_forall q (y :: v)) as Eq.
  pose proof (span_stop q (y :: v)) as Hst. rewrite E2 in Eb, Eq, Hst. cbn [fst snd] in Eb, Eq, Hst.
  assert (is_token (lit " ") tok) as Ht.
  { apply token_nospace. split.
    - intros ->. cbn [span] in E2. assert (q y = true) as Hq by (unfold q; by rewrite (Hy : bool_decide _ = _)).
      rewrite Hq in E2. by destruct (span q v).
    - intros Hin. rewrite Forall_forall in Eq. specialize (Eq _ Hin). unfold q in Eq.
      by rewrite bool_decide_true in Eq by (by apply list_elem_of_singleton). }
  rewrite <-Eb. destruct r as [|d r].
  - rewrite app_nil_r. by rewrite words_last.
  - specialize (Hst _ _ eq_refl). unfold q in Hst.
    apply negb_false_iff, bool_decide_eq_true, list_elem_of_singleton in Hst as ->.
    by rewrite words_token.
Qed.
Lemma length_words s : length (words s) <= length s.
Proof.
  unfold words. induction s as [|b s IH]; [done|]. cbn [split_on]. case_bool_decide.
  - rewrite filter_cons_False by auto. simpl. lia.
  - destruct (split_on Byte.x20 s) as [|w ws]; [by simpl; lia|].
    rewrite filter_cons_True by done. cbn [length] in *. destruct w.
    + rewrite filter_cons_False in IH by auto. lia.
    + rewrite filter_cons_True in IH by done. simpl in IH. lia.
Qed.
(** The words still to come: the current token and the tokenizer's state. *)
Definition pending (cur : option (list byte)) (st : list byte) : list (list byte) :=
  match cur with Some t => t :: words st | None => [] end.
Lemma pending_strtok s : pending (strtok_r s (lit " ")).1 (strtok_r s (lit " ")).2 = words s.
Proof. pose proof (strtok_words s) as H. by destruct (strtok_r s (lit " ")) as [[t|] st]. Qed.

Lemma dval_nonneg b : (0 <= dval b)%Z.
Proof. unfold dval, digit_val. repeat case_bool_decide; simpl; lia. Qed.
Lemma digits_value_nonneg base ds : (0 <= base)%Z → (0 <= digits_value base ds)%Z.
Proof.
  intros Hb. induction ds as [|d ds IH] using rev_ind; [done|].
  rewrite digits_value_snoc. pose proof (dval_nonneg d). nia.
Qed.
(** The value of [strtoul] in base 10 is an [unsigned long]. *)
Lemma strtoul_range `{Libc} s : (0 <= st_val (strtoul 10 s) < 2 ^ 64)%Z.
Proof.
  unfold strtoul. destruct (span isspace s) as [? s1], (strto_sign s1) as [neg s2].
  change (strto_base 10 s2) with (10%Z, s2). cbv beta iota.
  destruct (span (is_base_digit 10) s2) as [[|d ds] rest]; [simpl; lia|].
  pose proof (digits_value_nonneg 10 (d :: ds) ltac:(lia)). unfold ULONG_MAX.
  case_bool_decide; cbn [st_val]; [lia|]. destruct neg; [apply u64_range|lia].
Qed.

(** A string shorter than its array is followed by a NUL. *)
Lemma cstr_lt_split a : length (cstr a) < length a → ∃ r, a = cstr a ++ x00 :: r.
Proof.
  intros Hl. apply terminated_split. unfold terminated. apply bool_decide_eq_true.
  destruct (decide (x00 ∈ a)) as [|Hn]; [done|]. rewrite cstr_id in Hl by done. lia.
Qed.
