(* ===== verification/Sys.v ===== *)
(** * Sys: the program's calls to the outside, and programs over them

    cominit talks to the kernel, to mbedTLS and to the TPM software stack. None
    of that code is part of the repository, so a component is a program
    ([prog]) whose calls are answered by an arbitrary environment: [run]
    executes a program against an oracle that sees the history of calls, and
    [wp] is the weakest precondition over every environment that keeps a
    contract. Theorems about components quantify over the oracle. *)
From S2P Require Import Prelude CString.

(** ** Calls *)

Abbreviation path := (list byte) (only parsing).

(** The values of [errno] the source tells apart. *)
Inductive errno := EEXIST | EBUSY | ENOENT | EINTR | EOTHER (code : Z).
#[global] Instance errno_eq_dec : EqDecision errno. Proof. solve_decision. Defined.

(** Result of a call that returns -1 and sets [errno] on failure. *)
Inductive res (A : Type) := Ok (a : A) | Err (e : errno).
Arguments Ok {A} a.
Arguments Err {A} e.

Inductive open_flags := O_RDONLY | O_RDONLY_CLOEXEC | O_RDWR | O_RDWR_CLOEXEC.
Inductive file_kind := S_IFREG | S_IFDIR | S_IFBLK | S_IFLNK | S_IFOTHER.
Record stat_info := StatInfo { st_kind : file_kind; st_size : Z }.
Inductive mount_flag := MS_NOEXEC | MS_NOSUID | MS_NODEV | MS_RDONLY | MS_MOVE.
Inductive ftw_flag := FTW_F | FTW_SL | FTW_DP | FTW_D | FTW_DNR | FTW_NS | FTW_SLN.
(** What [nftw] passes to its callback. *)
Record ftw_entry := FtwEntry { ftw_path : path; ftw_tflag : ftw_flag; ftw_level : Z }.
Inductive wait_status := WExited (code : Z) | WSignaled.

(** [struct dm_ioctl] and [struct dm_target_spec] of linux/dm-ioctl.h: the
    fields the source sets. *)
Record dm_ioctl := DmIoctl {
  dm_version : Z * Z * Z; dm_data_size : Z; dm_data_start : Z; dm_target_count : Z; dm_flags : Z;
  dm_dev : Z; dm_name : list byte }.
Record dm_target_spec := DmTargetSpec {
  dm_sector_start : Z; dm_length : Z; dm_target_type : list byte }.

(** The constants and structures of the TPM library specification that the
    source fills. *)
Inductive tpm_alg :=
  | TPM2_ALG_NULL | TPM2_ALG_RSA | TPM2_ALG_AES | TPM2_ALG_CFB | TPM2_ALG_SHA256 | TPM2_ALG_KEYEDHASH.
Inductive tpma_object :=
  | TPMA_OBJECT_USERWITHAUTH | TPMA_OBJECT_RESTRICTED | TPMA_OBJECT_DECRYPT | TPMA_OBJECT_FIXEDTPM
  | TPMA_OBJECT_FIXEDPARENT | TPMA_OBJECT_SENSITIVEDATAORIGIN.
Inductive public_parms :=
  | rsaDetail (symmetric : tpm_alg) (symBits : Z) (symMode scheme : tpm_alg) (keyBits exponent : Z)
  | keyedHashDetail (scheme : tpm_alg).
(** The public area of an object. *)
Record tpm_public := TpmPublic {
  pub_type : tpm_alg; nameAlg : tpm_alg; objectAttributes : list tpma_object; authPolicy : list byte;
  parameters : public_parms }.
Record pcr_selection := PcrSelection { selHash : tpm_alg; sizeofSelect : Z; pcrSelect : list byte }.
Inductive session_type := TPM2_SE_TRIAL | TPM2_SE_POLICY.

#[global] Instance open_flags_eq_dec : EqDecision open_flags. Proof. solve_decision. Defined.
#[global] Instance file_kind_eq_dec : EqDecision file_kind. Proof. solve_decision. Defined.
#[global] Instance mount_flag_eq_dec : EqDecision mount_flag. Proof. solve_decision. Defined.
#[global] Instance ftw_flag_eq_dec : EqDecision ftw_flag. Proof. solve_decision. Defined.
#[global] Instance ftw_entry_eq_dec : EqDecision ftw_entry. Proof. solve_decision. Defined.
#[global] Instance dm_ioctl_eq_dec : EqDecision dm_ioctl. Proof. solve_decision. Defined.
#[global] Instance dm_target_spec_eq_dec : EqDecision dm_target_spec. Proof. solve_decision. Defined.
#[global] Instance tpm_alg_eq_dec : EqDecision tpm_alg. Proof. solve_decision. Defined.
#[global] Instance tpma_object_eq_dec : EqDecision tpma_object. Proof. solve_decision. Defined.
#[global] Instance public_parms_eq_dec : EqDecision public_parms. Proof. solve_decision. Defined.
#[global] Instance tpm_public_eq_dec : EqDecision tpm_public. Proof. solve_decision. Defined.
#[global] Instance pcr_selection_eq_dec : EqDecision pcr_selection. Proof. solve_decision. Defined.
#[global] Instance session_type_eq_dec : EqDecision session_type. Proof. solve_decision. Defined.

Inductive call :=
  (* files and block devices *)
  | Open (p : path) (fl : open_flags)
  | Close (fd : Z)
  | Lseek (fd off : Z)
  | Read (fd : Z) (n : nat)
  | Pread (fd : Z) (n : nat) (off : Z)
  | Write (fd : Z) (data : list byte)
  | IoctlBlkGetSize64 (fd : Z)
  | IoctlBlkSszGet (fd : Z)
  | Stat (p : path) | Lstat (p : path) | Fstat (fd : Z) | Access (p : path)
  | Opendir (p : path) | Closedir
  | Mkdir (p : path) (mode : Z)
  | Mknod (p : path) (mode dev : Z)
  | Unlink (p : path) | Rmdir (p : path) | Nftw (p : path)
  | Mmap (fd size : Z) | Munmap (size : Z)
  (* stdio *)
  | Fopen (p : path) (mode : list byte) | Fclose (h : Z)
  | Fread (h : Z) (n : Z) | Fwrite (h : Z) (data : list byte) | Fgets (h : Z) (n : nat)
  | FprintfStderr (text : list byte) | Printf (text : list byte)
  (* mounts and the process environment *)
  | Mount (src tgt : path) (fstype : option (list byte)) (flags : list mount_flag)
  | Umount (p : path) | Umount2Detach (p : path)
  | Umask (mode : Z) | Setsid | Chdir (p : path) | Chroot (p : path)
  | ClockGettime | ClockNanosleep (sec nsec : Z)
  (* processes *)
  | Pipe | Fork | Dup2 (old new : Z) | Execve (p : path) (argv : list (list byte))
  | Waitpid (pid : Z)
  (* memory *)
  | Malloc (n : Z) | Calloc (n : Z) | Free (contents : list byte)
  | Mlock (n : Z) | Munlock (n : Z)
  (* device mapper *)
  | IoctlDmDevCreate (fd : Z) (io : dm_ioctl)
  | IoctlDmTableLoad (fd : Z) (io : dm_ioctl) (spec : dm_target_spec) (tbl : list byte)
  | IoctlDmDevSuspend (fd : Z) (io : dm_ioctl)
  (* kernel keyring *)
  | KeyctlSearch (desc : list byte) | KeyctlRead (id : Z) (maxLen : Z)
  | AddKey (desc key : list byte)
  (* mbedTLS *)
  | PkInit | PkFree | PkParsePublicKeyfile (keyfile : path) | PkGetType | PkCanDoRsa
  | RsaSetPadding | Sha256 (data : list byte) | RsassaPssVerify (hash sig : list byte)
  | PkWritePubkeyDer (size : nat)
  | EntropyInit | EntropyFree | CtrDrbgInit | CtrDrbgFree
  | CtrDrbgSeed (custom : option (list byte)) | CtrDrbgRandom (n : nat)
  (* TPM software stack *)
  | TctiInitialize (conf : list byte) | TctiFinalize (ctx : Z)
  | EsysInitialize (tcti : Z) | EsysFinalize (ctx : Z)
  | EsysSelfTest (ctx : Z) | EsysPcrExtend (ctx pcr : Z) (hashAlg : tpm_alg) (digest : list byte)
  | EsysCreatePrimary (ctx : Z) (inPublic : tpm_public)
  | EsysStartAuthSession (ctx : Z) (ty : session_type) (authHash : tpm_alg)
  | EsysPolicyPCR (ctx sess : Z) (sel : pcr_selection)
  | EsysPolicyGetDigest (ctx sess : Z)
  | EsysEvictControl (ctx handle persistent : Z) | EsysTrFromTpmPublic (ctx persistent : Z)
  | EsysCreate (ctx parent : Z) (userAuth sensitive : list byte) (inPublic : tpm_public)
  | EsysLoad (ctx parent : Z) (priv pub : list byte)
  | EsysUnseal (ctx blob sess : Z)
  | EsysFlushContext (ctx handle : Z)
  | EsysFree (contents : list byte).
#[global] Instance call_eq_dec : EqDecision call. Proof. solve_decision. Defined.

(** The answer to a call: its return value and what it stores through its
    out-parameters. A [TSS2_RC] or mbedTLS code is a [Z], 0 for success; an
    out-parameter that keeps its old value on failure is an [option]. *)
Definition reply (c : call) : Type :=
  match c with
  | Open _ _ => res Z
  | Close _ => unit
  | Lseek _ _ => res unit
  | Read _ _ => res (list byte)
  | Pread _ _ _ => res (list byte)
  | Write _ _ => res Z
  | IoctlBlkGetSize64 _ | IoctlBlkSszGet _ => res Z
  | Stat _ | Lstat _ | Fstat _ => res stat_info
  | Access _ => res unit
  | Opendir _ => res (list (list byte))   (* the names [readdir] then yields *)
  | Closedir => unit
  | Mkdir _ _ | Mknod _ _ _ | Unlink _ | Rmdir _ => res unit
  | Nftw _ => list ftw_entry * bool       (* the entries visited, and success *)
  | Mmap _ _ => res (list byte)           (* the mapped contents *)
  | Munmap _ => unit
  | Fopen _ _ => res Z
  | Fclose _ => unit
  | Fread _ _ => list byte
  | Fwrite _ _ => Z                       (* bytes written *)
  | Fgets _ _ => option (list byte)
  | FprintfStderr _ | Printf _ => Z       (* characters written, or negative *)
  | Mount _ _ _ _ | Umount _ | Umount2Detach _ => res unit
  | Umask _ | Setsid => unit
  | Chdir _ | Chroot _ => res unit
  | ClockGettime => res (Z * Z)
  | ClockNanosleep _ _ => res unit
  | Pipe => res (Z * Z)
  | Fork => Z
  | Dup2 _ _ => res unit
  | Execve _ _ => option errno            (* [None]: the new program runs *)
  | Waitpid _ => res wait_status
  | Malloc _ | Calloc _ => bool
  | Free _ => unit
  | Mlock _ => res unit
  | Munlock _ => unit
  | IoctlDmDevCreate _ _ => res Z         (* the device number *)
  | IoctlDmTableLoad _ _ _ _ | IoctlDmDevSuspend _ _ => res unit
  | KeyctlSearch _ => res Z
  | KeyctlRead _ _ => res (Z * list byte) (* payload size, bytes stored *)
  | AddKey _ _ => res unit
  | PkInit | PkFree | EntropyInit | EntropyFree | CtrDrbgInit | CtrDrbgFree => unit
  | PkParsePublicKeyfile _ => Z
  | PkGetType => bool                     (* false: MBEDTLS_PK_NONE *)
  | PkCanDoRsa => bool
  | RsaSetPadding => Z
  | Sha256 _ => Z * list byte
  | RsassaPssVerify _ _ => Z
  | PkWritePubkeyDer _ => Z * list byte   (* length, and the whole buffer *)
  | CtrDrbgSeed _ => Z
  | CtrDrbgRandom _ => Z * list byte
  | TctiInitialize _ | EsysInitialize _ => Z * option Z
  | TctiFinalize _ | EsysFinalize _ => unit
  | EsysSelfTest _ | EsysPcrExtend _ _ _ _ => Z
  | EsysCreatePrimary _ _ | EsysStartAuthSession _ _ _ => Z * option Z
  | EsysPolicyPCR _ _ _ => Z
  | EsysPolicyGetDigest _ _ => Z * option (list byte)
  | EsysEvictControl _ _ _ => Z
  | EsysTrFromTpmPublic _ _ => Z * option Z
  | EsysCreate _ _ _ _ _ => Z * option (list byte * list byte)
  | EsysLoad _ _ _ _ => Z * option Z
  | EsysUnseal _ _ _ => Z * option (list byte)
  | EsysFlushContext _ _ => Z
  | EsysFree _ => unit
  end.

(** A call with its answer. *)
Record event := Event { ev_call : call; ev_reply : reply ev_call }.
Abbreviation trace := (list event) (only parsing).

(** ** Programs *)

(** How a program can stop other than by returning: replaced by [execve],
    ended by [_exit], undefined behaviour of C reached, or the bound given to
    a loop of the model used up. *)
Inductive ub := NullDeref | UninitRead | OutOfBounds.
Inductive ending := Execed (p : path) | Exited (code : Z) | Undef (u : ub) | NoFuel.
#[global] Instance ub_eq_dec : EqDecision ub. Proof. solve_decision. Defined.
#[global] Instance ending_eq_dec : EqDecision ending. Proof. solve_decision. Defined.

Inductive prog (A : Type) : Type :=
  | Ret (a : A)
  | Act (c : call) (k : reply c → prog A)
  | Stop (e : ending).
Arguments Ret {A} a.
Arguments Act {A} c k.
Arguments Stop {A} e.

Fixpoint bind {A B} (p : prog A) (f : A → prog B) : prog B :=
  match p with
  | Ret a => f a
  | Act c k => Act c (λ r, bind (k r) f)
  | Stop e => Stop e
  end.
#[global] Arguments bind {A B} p f : simpl never.

Declare Scope prog_scope.
Delimit Scope prog_scope with prog.
Notation "x ← y ; z" := (bind y (λ x, z)) : prog_scope.
Notation "' x ← y ; z" := (bind y (λ x, z)) : prog_scope.
Notation "y ;; z" := (bind y (λ _, z)) : prog_scope.
Open Scope prog_scope.

Lemma bind_ret {A B} (a : A) (f : A → prog B) : bind (Ret a) f = f a.
Proof. done. Qed.

(** Performs one call. *)
Definition sys (c : call) : prog (reply c) := Act c Ret.
(** Performs a call and drops its answer. *)
Definition sys_ (c : call) : prog unit := Act c (λ _, Ret tt).

Inductive outcome (A : Type) := Done (a : A) | Ended (e : ending).
Arguments Done {A} a.
Arguments Ended {A} e.
Lemma Done_inj {A} (a b : A) : Done a = Done b → a = b.
Proof. by injection 1. Qed.

(** Execution against an oracle, which answers a call knowing all earlier
    ones; the result has the events of this run, in order. *)
Definition oracle := trace → ∀ c, reply c.
Fixpoint run {A} (o : oracle) (h : trace) (p : prog A) : outcome A * trace :=
  match p with
  | Ret a => (Done a, [])
  | Stop e => (Ended e, [])
  | Act c k => let r := o h c in
               let '(out, t) := run o (h ++ [Event c r]) (k r) in (out, Event c r :: t)
  end.

Lemma run_bind {A B} o h (p : prog A) (f : A → prog B) :
  run o h (bind p f) =
    match run o h p with
    | (Done a, t) => let '(out, t') := run o (h ++ t) (f a) in (out, t ++ t')
    | (Ended e, t) => (Ended e, t)
    end.
Proof.
  revert h. induction p as [a|c k IH|e]; intros h; [simpl|simpl|done].
  - rewrite app_nil_r. change (bind (Ret a) f) with (f a). by destruct (run o h (f a)).
  - change (bind (Act c k) f) with (Act c (λ r, bind (k r) f)). simpl.
    rewrite IH. destruct (run o (h ++ [Event c (o h c)]) (k (o h c))) as [[a|e] t]; [|done].
    rewrite <-app_assoc. simpl. by destruct (run o (h ++ Event c (o h c) :: t) (f a)).
Qed.

Lemma run_sys {B} o h c (f : reply c → prog B) :
  run o h (bind (sys c) f) =
    let '(out, t) := run o (h ++ [Event c (o h c)]) (f (o h c)) in (out, Event c (o h c) :: t).
Proof. done. Qed.

(** The runs a program has in some environment. *)
Inductive exec {A} : prog A → outcome A → trace → Prop :=
  | exec_ret a : exec (Ret a) (Done a) []
  | exec_stop e : exec (Stop e) (Ended e) []
  | exec_act c k r out t : exec (k r) out t → exec (Act c k) out (Event c r :: t).

Lemma exec_sys {B} c (f : reply c → prog B) r out t :
  exec (f r) out t → exec (bind (sys c) f) out (Event c r :: t).
Proof. apply (exec_act c (λ r, f r)). Qed.
Lemma exec_inv {A} (p : prog A) out t :
  exec p out t →
  match p with
  | Ret a => out = Done a ∧ t = []
  | Stop e => out = Ended e ∧ t = []
  | Act c k => ∃ r t', t = Event c r :: t' ∧ exec (k r) out t'
  end.
Proof. intros []; eauto. Qed.
Lemma exec_sys_inv {B} c (f : reply c → prog B) out t :
  exec (bind (sys c) f) out t → ∃ r t', t = Event c r :: t' ∧ exec (f r) out t'.
Proof. apply (exec_inv (Act c (λ r, f r))). Qed.
Lemma run_exec {A} o h (p : prog A) : exec p (run o h p).1 (run o h p).2.
Proof.
  revert h. induction p as [a|c k IH|e]; intros h; simpl; [constructor| |constructor].
  specialize (IH (o h c) (h ++ [Event c (o h c)])). destruct (run _ _ (k _)) as [out t].
  by constructor.
Qed.

(** ** Weakest preconditions

    A property of histories is tracked by a ghost state [S] that [upd] updates
    at every event; [env] is what the environment promises about an event in a
    given ghost state. *)
Section WP.
Context {S : Type} (upd : S → event → S) (env : S → event → Prop).

Fixpoint wp {A} (p : prog A) (Q : outcome A → S → Prop) (s : S) : Prop :=
  match p with
  | Ret a => Q (Done a) s
  | Stop e => Q (Ended e) s
  | Act c k => ∀ r, env s (Event c r) → wp (k r) Q (upd s (Event c r))
  end.

Lemma wp_mono {A} (p : prog A) (Q Q' : outcome A → S → Prop) s :
  (∀ o s', Q o s' → Q' o s') → wp p Q s → wp p Q' s.
Proof. intros H. revert s. induction p; simpl; eauto. Qed.

Lemma wp_true {A} (p : prog A) s : wp p (λ _ _, True) s.
Proof. revert s. induction p; simpl; auto. Qed.

(** Anything may happen in [p] as far as [Q] is concerned. *)
Lemma wp_skip {A B} (p : prog A) (f : A → prog B) Q s :
  (∀ a s', wp (f a) Q s') → (∀ e s', Q (Ended e) s') → wp (bind p f) Q s.
Proof.
  intros Hd He. revert s. induction p as [a|c k IH|e]; intros s; [apply Hd| |apply He].
  intros r _. apply IH.
Qed.

Lemma wp_and {A} (p : prog A) (Q Q' : outcome A → S → Prop) s :
  wp p Q s → wp p Q' s → wp p (λ o s', Q o s' ∧ Q' o s') s.
Proof. revert s. induction p; simpl; eauto. Qed.

Lemma wp_bind {A B} (p : prog A) (f : A → prog B) Q s :
  wp p (λ o s', match o with Done a => wp (f a) Q s' | Ended e => Q (Ended e) s' end) s →
  wp (bind p f) Q s.
Proof. revert s. induction p as [a|c k IH|e]; simpl; intros s H; [done| |done].
  intros r Hr. apply IH, H, Hr. Qed.

Lemma wp_bind_inv {A B} (p : prog A) (f : A → prog B) Q s :
  wp (bind p f) Q s →
  wp p (λ o s', match o with Done a => wp (f a) Q s' | Ended e => Q (Ended e) s' end) s.
Proof. revert s. induction p as [a|c k IH|e]; intros s Hw; [done| |done]. intros r Hr. apply IH, Hw, Hr. Qed.

(** Single calls, bound or last. *)
Lemma wp_sys {B} c (f : reply c → prog B) Q s :
  (∀ r, env s (Event c r) → wp (f r) Q (upd s (Event c r))) → wp (bind (sys c) f) Q s.
Proof. done. Qed.
Lemma wp_sys_ {B} c (f : unit → prog B) Q s :
  (∀ r, env s (Event c r) → wp (f tt) Q (upd s (Event c r))) → wp (bind (sys_ c) f) Q s.
Proof. done. Qed.
Lemma wp_sys_last c Q s :
  (∀ r, env s (Event c r) → Q (Done r) (upd s (Event c r))) → wp (sys c) Q s.
Proof. done. Qed.
Lemma wp_sys__last c Q s :
  (∀ r, env s (Event c r) → Q (Done tt) (upd s (Event c r))) → wp (sys_ c) Q s.
Proof. done. Qed.

(** The cut rule: a called function is used through its specification. *)
Lemma wp_call {A B} (p : prog A) (f : A → prog B) (R : outcome A → S → Prop) Q s :
  wp p R s →
  (∀ a s', R (Done a) s' → wp (f a) Q s') →
  (∀ e s', R (Ended e) s' → Q (Ended e) s') →
  wp (bind p f) Q s.
Proof. intros Hp Hd He. apply wp_bind. eapply wp_mono; [|exact Hp]. intros [a|e] s'; eauto. Qed.

(** A specification holds of every run against an oracle that keeps the
    contract. *)
Theorem wp_run {A} (p : prog A) Q s0 o :
  (∀ h c, env (foldl upd s0 h) (Event c (o h c))) →
  ∀ h, wp p Q (foldl upd s0 h) →
  Q (run o h p).1 (foldl upd s0 (h ++ (run o h p).2)).
Proof.
  intros Ho. induction p as [a|c k IH|e]; intros h Hp; simpl in *.
  - by rewrite app_nil_r.
  - specialize (Hp _ (Ho h c)).
    specialize (IH (o h c) (h ++ [Event c (o h c)])). rewrite foldl_app in IH. specialize (IH Hp).
    destruct (run o _ _) as [out t]. simpl in *. rewrite <-app_assoc in IH. done.
  - by rewrite app_nil_r.
Qed.
End WP.

(** A stronger promise of the environment keeps a specification. *)
Lemma wp_env {S A} (upd : S → event → S) (env env' : S → event → Prop) (p : prog A)
    (Q Q' : outcome A → S → Prop) s :
  (∀ s' e, env s' e → env' s' e) → wp upd env' p Q s → (∀ o s', Q o s' → Q' o s') → wp upd env p Q' s.
Proof. intros H Hp HQ. revert s Hp. induction p; simpl; eauto. Qed.

(** The environment that promises nothing. *)
Definition any_env {S} : S → event → Prop := λ _ _, True.

(** Corollary for whole runs in any environment. *)
Lemma wp_run_any {S A} (upd : S → event → S) (p : prog A) Q s0 o :
  wp upd any_env p Q s0 → Q (run o [] p).1 (foldl upd s0 (run o [] p).2).
Proof. intros H. by apply (wp_run upd any_env p Q s0 o ltac:(done) []). Qed.

(** The same for a run that starts after a history. *)
Lemma wp_run_from {S A} (upd : S → event → S) (p : prog A) Q s0 o h :
  wp upd any_env p Q s0 → Q (run o h p).1 (foldl upd s0 (run o h p).2).
Proof.
  revert s0 h. induction p as [a|c k IH|e]; intros s0 h Hp; [done| |done]. simpl in *.
  specialize (IH (o h c) _ (h ++ [Event c (o h c)]) (Hp (o h c) I)).
  by destruct (run o _ _) as [out t].
Qed.

(** Specifications of the result alone, for every environment. *)
Definition upd_none (_ : unit) (_ : event) : unit := tt.
Definition yields {A} (p : prog A) (P : outcome A → Prop) : Prop :=
  wp upd_none any_env p (λ o _, P o) tt.
Lemma wp_yields {S A} (upd : S → event → S) env (p : prog A) P s :
  yields p P → wp upd env p (λ o _, P o) s.
Proof.
  unfold yields. revert s. induction p as [a|c k IH|e]; simpl; intros s Hp; [done| |done].
  intros r _. apply IH, Hp. done.
Qed.
Lemma yields_run {A} (p : prog A) P o h : yields p P → P (run o h p).1.
Proof.
  unfold yields. revert h. induction p as [a|c k IH|e]; simpl; intros h Hp; [done| |done].
  specialize (IH (o h c) (h ++ [Event c (o h c)]) (Hp (o h c) I)).
  by destruct (run _ _ (k _)) as [out t].
Qed.
Lemma yields_exec {A} (p : prog A) P o t : yields p P → exec p o t → P o.
Proof. unfold yields. intros Hp He. induction He; simpl in *; auto. by apply IHHe, Hp. Qed.

(** A specification whose postcondition does not look at the ghost state. *)
Lemma wp_result {S A} (upd : S → event → S) (p : prog A) (Q : outcome A → S → Prop) (P : outcome A → Prop) s :
  wp upd any_env p Q s → (∀ o s', Q o s' → P o) → yields p P.
Proof.
  unfold yields. intros Hp HQ. revert s Hp.
  induction p as [a|c k IH|e]; intros s Hp; simpl in *; [by eapply HQ| |by eapply HQ].
  intros r _. by apply (IH r (upd s (Event c r))), Hp.
Qed.
Lemma yields_mono {A} (p : prog A) (P Q : outcome A → Prop) : yields p P → (∀ o, P o → Q o) → yields p Q.
Proof. intros Hp HPQ. eapply wp_mono; [|exact Hp]. auto. Qed.

(** A specification of the outcome only holds with any ghost state. *)
Lemma wp_transfer {S A} (upd : S → event → S) (env : S → event → Prop) (env0 : event → Prop) (p : prog A) P s :
  (∀ s' e, env s' e → env0 e) → wp upd_none (λ _, env0) p (λ o _, P o) tt → wp upd env p (λ o _, P o) s.
Proof. intros He. revert s. induction p as [a|c k IH|e]; simpl; intros s Hp; [done| |done]. eauto. Qed.

(** The history itself as ghost state. *)
Definition upd_trace (t : trace) (e : event) : trace := t ++ [e].
Lemma foldl_upd_trace t0 t : foldl upd_trace t0 t = t0 ++ t.
Proof.
  revert t0. induction t as [|e t IH]; intros t0; simpl; [by rewrite app_nil_r|].
  rewrite IH. unfold upd_trace. by rewrite <-app_assoc.
Qed.
Lemma wp_exec {A} (p : prog A) t0 :
  wp upd_trace any_env p (λ o t, ∃ t', t = t0 ++ t' ∧ exec p o t') t0.
Proof.
  revert t0. induction p as [a|c k IH|e]; intros t0; simpl.
  - exists []. rewrite app_nil_r. by split; [|constructor].
  - intros r _. eapply wp_mono; [|apply IH]. intros o t (t' & -> & He).
    exists (Event c r :: t'). unfold upd_trace. rewrite <-app_assoc. by split; [|constructor].
  - exists []. rewrite app_nil_r. by split; [|constructor].
Qed.
(** A specification with any ghost state holds of every execution. *)
Lemma wp_exec_inv {S A} (upd : S → event → S) (p : prog A) Q s o t :
  wp upd any_env p Q s → exec p o t → Q o (foldl upd s t).
Proof. intros Hp He. revert s Hp. induction He; intros s Hp; simpl in *; [done|done|]. by apply IHHe, Hp. Qed.
Lemma wp_run_trace {A} (p : prog A) Q o :
  wp upd_trace any_env p Q [] → Q (run o [] p).1 (run o [] p).2.
Proof.
  intros H. pose proof (wp_run_any upd_trace p Q [] o H) as Hw. by rewrite foldl_upd_trace in Hw.
Qed.

(** Whether an event of a kind happened, as ghost state. *)
Definition upd_flag (f : event → bool) (s : bool) (e : event) : bool := s || f e.
Lemma foldl_upd_flag f s t : foldl (upd_flag f) s t = s || existsb f t.
Proof.
  revert s. induction t as [|e t IH]; intros s; simpl; [by rewrite orb_false_r|].
  rewrite IH. unfold upd_flag. by rewrite orb_assoc.
Qed.
Lemma wp_flag_stays {A} f (p : prog A) : wp (upd_flag f) any_env p (λ _ s, s = true) true.
Proof. induction p; simpl; auto. Qed.
(** A specification with a ghost state, as one of the history. *)
Lemma wp_fold_trace {S A} (upd : S → event → S) (p : prog A) (Q : outcome A → S → Prop) s0 t0 :
  wp upd any_env p Q (foldl upd s0 t0) → wp upd_trace any_env p (λ o t, Q o (foldl upd s0 t)) t0.
Proof.
  revert t0. induction p as [a|c k IH|e]; intros t0 Hp; simpl in *; [done| |done].
  intros r _. apply IH. unfold upd_trace. rewrite foldl_app. by apply Hp.
Qed.
Lemma wp_flag_trace {A} f (p : prog A) (Q : outcome A → bool → Prop) t0 :
  wp (upd_flag f) any_env p Q (existsb f t0) → wp upd_trace any_env p (λ o t, Q o (existsb f t)) t0.
Proof.
  intros Hp. eapply wp_mono; [|apply (wp_fold_trace (upd_flag f) p Q false); by rewrite foldl_upd_flag].
  intros o t. cbv beta. by rewrite foldl_upd_flag.
Qed.

(** Every event of a trace is allowed by what came before it. *)
Definition guarded (P : trace → event → Prop) (t : trace) : Prop :=
  ∀ t1 e t2, t = t1 ++ e :: t2 → P t1 e.
Lemma guarded_nil P : guarded P [].
Proof. by intros [] ? ?. Qed.
Lemma guarded_snoc (P : trace → event → Prop) t e : guarded P t → P t e → guarded P (t ++ [e]).
Proof.
  intros Ht He t1 e' t2 E. destruct t2 as [|e2 t2] using rev_ind.
  - apply app_inj_tail in E as [-> ->]. done.
  - rewrite app_comm_cons, app_assoc in E. apply app_inj_tail in E as [-> _]. by eapply Ht.
Qed.

Lemma guarded_app (P : trace → event → Prop) t t' :
  guarded P t → Forall (λ e, ∀ t0, P t0 e) t' → guarded P (t ++ t').
Proof.
  intros Ht Ht'. revert t Ht. induction Ht' as [|e t' He _ IH]; intros t Ht; [by rewrite app_nil_r|].
  rewrite cons_middle, app_assoc. apply IH. by apply guarded_snoc.
Qed.

(** A way to stop that the calls in [P] account for: a process is replaced only
    by [execve] and ended by [_exit] only after [fork]. *)
Definition stop_ok (P : call → bool) (e : ending) : Prop :=
  match e with
  | Execed p => ∃ argv, P (Execve p argv) = true
  | Exited _ => P Fork = true
  | Undef _ | NoFuel => True
  end.
(** A program whose calls all satisfy [P], whatever the answers. *)
Fixpoint only {A} (P : call → bool) (p : prog A) : Prop :=
  match p with
  | Ret _ => True
  | Stop e => stop_ok P e
  | Act c k => P c = true ∧ ∀ r, only P (k r)
  end.
Lemma only_bind {A B} P (p : prog A) (f : A → prog B) : only P p → (∀ a, only P (f a)) → only P (bind p f).
Proof.
  induction p as [a|c k IH|e]; intros Hp Hf; [apply Hf| |done]. destruct Hp as [Hc Hk].
  split; [done|]. intros r. by apply IH.
Qed.
Lemma only_sys P c : P c = true → only P (sys c).
Proof. by split. Qed.
Lemma only_sys_ P c : P c = true → only P (sys_ c).
Proof. by split. Qed.
Lemma wp_only {A} P (p : prog A) t0 :
  only P p → wp upd_trace any_env p (λ _ t, ∃ t', t = t0 ++ t' ∧ Forall (λ e, P (ev_call e) = true) t') t0.
Proof.
  revert t0. induction p as [a|c k IH|e]; intros t0 Hp; simpl; [by exists []; rewrite app_nil_r| |by exists []; rewrite app_nil_r].
  destruct Hp as [Hc Hk]. intros r _. eapply wp_mono; [|by apply IH].
  intros o t (t' & -> & Ht'). exists (Event c r :: t'). unfold upd_trace. rewrite <-app_assoc. split; [done|by constructor].
Qed.
Lemma only_mono {A} (P Q : call → bool) (p : prog A) : (∀ c, P c = true → Q c = true) → only P p → only Q p.
Proof.
  intros HPQ. induction p as [a|c k IH|e]; simpl; [done| |].
  - intros [Hc Hk]. auto.
  - destruct e; simpl; [|by auto..]. intros [argv Ha]. eauto.
Qed.
Lemma only_stops {A} P (p : prog A) : only P p → yields p (λ o, match o with Ended e => stop_ok P e | Done _ => True end).
Proof. unfold yields. induction p as [a|c k IH|e]; simpl; [done| |done]. intros [_ Hk] r _. by apply IH. Qed.
Lemma only_exec {A} P (p : prog A) o t : only P p → exec p o t → Forall (λ e, P (ev_call e) = true) t.
Proof. intros Hp He. induction He as [| |c k r out t _ IH]; [done|done|]. destruct Hp as [Hc Hk]. constructor; auto. Qed.
(** The same for a program whose calls are all in [P]: only their answers must
    keep the promise. *)
Lemma wp_transfer_only {S A} (upd : S → event → S) (env : S → event → Prop) (env0 : event → Prop) P (p : prog A)
    (Q : outcome A → Prop) s :
  (∀ s' e, P (ev_call e) = true → env s' e → env0 e) → only P p →
  wp upd_none (λ _, env0) p (λ o _, Q o) tt → wp upd env p (λ o _, Q o) s.
Proof.
  intros He. revert s. induction p as [a|c k IH|e]; simpl; intros s Hp Hw; [done| |done]. destruct Hp as [Hc Hk].
  intros r Hr. apply IH; [done|]. apply Hw. by eapply He.
Qed.
Create HintDb only.
(** The calls of a function, as an [only] fact; other [only] goals about the
    function follow by comparing the calls. *)
Create HintDb footprint.
Ltac only_footprint :=
  eapply only_mono; cycle 1; [solve [eauto 2 with footprint]|];
  intros [];
  first [done|let E := fresh in intros E; cbn in *; rewrite ?E, ?orb_true_r; first [done|solve [repeat case_match; done]]].
#[export] Hint Extern 5 (only _ _) => only_footprint : only.
#[export] Hint Resolve only_bind only_sys only_sys_ : only.
(** Proves [only] goals: called functions by their hints, calls by computation. *)
Ltac only_step :=
  lazymatch goal with
  | |- only _ (bind (bind _ _) _) => apply only_bind; [|intros ?]
  | |- only _ (bind (match ?x with _ => _ end) _) => destruct x
  | |- only _ (bind (Ret _) _) => rewrite bind_ret; cbv beta iota
  | |- only _ (bind (Stop _) _) => apply only_bind; [|intros ?]
  | |- only _ (bind (sys _) _) =>
      apply only_bind; [apply only_sys; first [reflexivity|solve [eauto with only]]|intros ?]
  | |- only _ (bind (sys_ _) _) =>
      apply only_bind; [apply only_sys_; first [reflexivity|solve [eauto with only]]|intros ?]
  | |- only _ (bind _ _) => apply only_bind; [solve [eauto with only]|intros ?]
  | |- only _ (Ret _) => exact I
  | |- only _ (Stop _) => cbn [only stop_ok]; first [exact I|reflexivity|exists []; reflexivity|solve [eauto with only]]
  | |- only _ (match ?x with _ => _ end) => destruct x
  | |- only _ _ => solve [eauto with only]
  end.
Ltac only_auto := repeat (only_step; cbv beta zeta).

(** Steps through a program goal: binds are opened, calls introduce their
    answer, [if]/[match] on an answer are split. *)
Ltac wp_step :=
  lazymatch goal with
  | |- wp _ _ (bind (sys _) _) _ _ => apply wp_sys; intros ? ?
  | |- wp _ _ (bind (sys_ _) _) _ _ => apply wp_sys_; intros ? ?
  | |- wp _ _ (sys _) _ _ => apply wp_sys_last; intros ? ?
  | |- wp _ _ (sys_ _) _ _ => apply wp_sys__last; intros ? ?
  | |- wp _ _ (bind _ _) _ _ => apply wp_bind
  | |- wp _ _ (Ret _) _ _ => cbn [wp]
  | |- wp _ _ (Stop _) _ _ => cbn [wp]
  | |- wp _ _ (match ?x with _ => _ end) _ _ => destruct x eqn:?
  end.
Ltac wp_auto := repeat wp_step.

(** Symbolic execution against an environment that promises definite answers:
    the promise about an answer is used to replace it, tests that are decided
    then are taken. *)
Ltac env_decide P :=
  first [rewrite (bool_decide_false P) by first [done|congruence|lia|intros Hne; by apply Hne]
        |rewrite (bool_decide_true P) by first [done|congruence|lia]].
Ltac env_step :=
  lazymatch goal with
  | |- wp _ _ (bind (sys _) _) _ _ =>
      let r := fresh "r" in let H := fresh "Henv" in
      apply wp_sys; intros r H; cbn in H;
      lazymatch type of H with
      | _ = _ => first [subst r|destruct r as [? ?]; cbn in H; subst|idtac]
      | ex _ => destruct H as [? H]; first [subst r|destruct H as [H ?]; subst r]
      | _ ∨ _ => destruct H as [H|H]; subst r
      | _ => idtac
      end
  | |- wp _ _ (bind (sys_ _) _) _ _ => apply wp_sys_; intros ? _
  | |- wp _ _ (bind (bind _ _) _) _ _ => apply wp_bind
  | |- wp _ _ (bind (Ret _) _) _ _ => rewrite bind_ret
  | |- wp _ _ (Ret _) _ _ => cbn [wp]
  | |- wp _ _ (if negb (bool_decide ?P) then _ else _) _ _ =>
      rewrite (bool_decide_true P) by done; cbn [negb]
  | |- wp _ _ (if bool_decide ?P then _ else _) _ _ => env_decide P
  | |- wp _ _ (bind (if bool_decide ?P then _ else _) _) _ _ => env_decide P
  end.

(** ** Resources held by the process *)

Inductive resource := RFd (fd : Z) | RFile (h : Z) | RDir | RMem | RMap | RPk | RDrbg | REntropy
  | RTcti (ctx : Z) | REsys (ctx : Z).
#[global] Instance resource_eq_dec : EqDecision resource. Proof. solve_decision. Defined.

(** The resources an event acquires and the one it releases. A context of the
    TPM software stack is held from the call that initialised it successfully;
    the TCTI context keeps the TPM device open. Buffers the libraries allocate
    for their results are not followed. *)
Definition acquires (e : event) : list resource :=
  let '(Event c r) := e in
  match c return reply c → list resource with
  | Open _ _ => λ r, match r with Ok fd => [RFd fd] | Err _ => [] end
  | Pipe => λ r, match r with Ok (a, b) => [RFd a; RFd b] | Err _ => [] end
  | Fopen _ _ => λ r, match r with Ok h => [RFile h] | Err _ => [] end
  | Opendir _ => λ r, match r with Ok _ => [RDir] | Err _ => [] end
  | Malloc _ | Calloc _ => λ r, if r then [RMem] else []
  | Mmap _ _ => λ r, match r with Ok _ => [RMap] | Err _ => [] end
  | PkInit => λ _, [RPk]
  | CtrDrbgInit => λ _, [RDrbg]
  | EntropyInit => λ _, [REntropy]
  | TctiInitialize _ => λ r, match r with (0%Z, Some ctx) => [RTcti ctx] | _ => [] end
  | EsysInitialize _ => λ r, match r with (0%Z, Some ctx) => [REsys ctx] | _ => [] end
  | _ => λ _, []
  end r.
Definition releases (e : event) : option resource :=
  match ev_call e with
  | Close fd => Some (RFd fd)
  | Fclose h => Some (RFile h)
  | Closedir => Some RDir
  | Free _ => Some RMem
  | Munmap _ => Some RMap
  | PkFree => Some RPk
  | CtrDrbgFree => Some RDrbg
  | EntropyFree => Some REntropy
  | TctiFinalize ctx => Some (RTcti ctx)
  | EsysFinalize ctx => Some (REsys ctx)
  | _ => None
  end.
Fixpoint remove_first (x : resource) (l : list resource) : list resource :=
  match l with [] => [] | y :: r => if decide (x = y) then r else y :: remove_first x r end.
Definition upd_held (s : list resource) (e : event) : list resource :=
  acquires e ++ match releases e with Some x => remove_first x s | None => s end.
(** What is still held after a trace. *)
Definition held (t : trace) : list resource := foldl upd_held [] t.

(** A program that releases exactly what it acquires. *)
Definition balanced {A} (p : prog A) : Prop :=
  ∀ s, wp upd_held any_env p (λ o s', match o with Done _ => s' = s | Ended _ => True end) s.

Lemma remove_first_head x s : remove_first x (x :: s) = s.
Proof. simpl. by destruct (decide (x = x)). Qed.
Lemma upd_held_other s e : acquires e = [] → releases e = None → upd_held s e = s.
Proof. unfold upd_held. by intros -> ->. Qed.
Lemma balanced_ret {A} (a : A) : balanced (Ret a).
Proof. by intros s. Qed.
Lemma balanced_stop {A} e : balanced (A := A) (Stop e).
Proof. by intros s. Qed.
Lemma balanced_bind {A B} (p : prog A) (f : A → prog B) :
  balanced p → (∀ a, balanced (f a)) → balanced (bind p f).
Proof.
  intros Hp Hf s. eapply wp_call; [apply Hp| |done]. intros a s' ->. apply Hf.
Qed.
(** A call that neither acquires nor releases anything. *)
Definition neutral (c : call) : Prop := ∀ r, acquires (Event c r) = [] ∧ releases (Event c r) = None.
Lemma balanced_sys c : neutral c → balanced (sys c).
Proof. intros H s r _. destruct (H r) as [E1 E2]. simpl. by apply upd_held_other. Qed.
Lemma balanced_sys_ c : neutral c → balanced (sys_ c).
Proof. intros H s r _. destruct (H r) as [E1 E2]. simpl. by apply upd_held_other. Qed.
#[export] Hint Resolve balanced_ret balanced_stop balanced_bind balanced_sys balanced_sys_ : balanced.

(** Whatever the environment does, a run of a balanced program that returns
    holds nothing more than before. *)
Lemma balanced_run {A} (p : prog A) o a :
  balanced p → (run o [] p).1 = Done a → held (run o [] p).2 = [].
Proof.
  intros H E. pose proof (wp_run_any upd_held p _ [] o (H [])) as Hw. rewrite E in Hw. exact Hw.
Qed.

Lemma wp_balanced {A} (p : prog A) t0 :
  balanced p → wp upd_trace any_env p (λ o t, match o with Done _ => held t = held t0 | Ended _ => True end) t0.
Proof. intros Hp. apply (wp_fold_trace upd_held p (λ o s, match o with Done _ => s = held t0 | Ended _ => True end) []), Hp. Qed.

(** Computes the ghost state of a [balanced] proof. *)
Ltac held_simpl :=
  repeat (progress (unfold upd_held; cbn [acquires releases ev_call app]; rewrite ?remove_first_head)).
(** Symbolic execution of a [balanced] goal: calls of other functions are used
    through their [balanced] lemmas, system calls are stepped over. *)
Ltac held_step :=
  lazymatch goal with
  | |- wp _ _ (bind (sys _) _) _ _ => apply wp_sys; intros ? _
  | |- wp _ _ (bind (sys_ _) _) _ _ => apply wp_sys_; intros ? _
  | |- wp _ _ (bind (Ret _) _) _ _ => apply wp_bind; cbn [wp]
  | |- wp _ _ (bind (bind _ _) _) _ _ => apply wp_bind
  | |- wp _ _ (bind (Stop _) _) _ _ => apply wp_bind; cbn [wp]; try exact I
  | |- wp _ _ (bind (match negb ?x with _ => _ end) _) _ _ => destruct x; cbn [negb]
  | |- wp _ _ (match negb ?x with _ => _ end) _ _ => destruct x; cbn [negb]
  | |- wp _ _ (bind (match ?x with _ => _ end) _) _ _ => destruct x
  | |- wp _ _ (bind ?p _) _ ?s =>
      let H := fresh in assert (H : balanced p) by (eauto with balanced);
      eapply wp_call; [exact (H s)|intros ? ? ->|intros; try exact I]; clear H
  | |- wp _ _ (match ?x with _ => _ end) _ _ => destruct x
  | |- wp _ _ (Ret _) _ _ => cbn [wp]
  | |- wp _ _ (Stop _) _ _ => cbn [wp]; try exact I
  | |- wp _ _ (sys _) _ _ => apply wp_sys_last; intros ? _
  | |- wp _ _ (sys_ _) _ _ => apply wp_sys__last; intros ? _
  | |- wp _ _ ?p _ ?s =>
      let H := fresh in assert (H : balanced p) by (eauto with balanced);
      eapply wp_mono; [|exact (H s)]; intros [?|?] ?; [intros ->|intros; try exact I]
  end.
Ltac balanced_auto := let s := fresh "held0" in intros s; repeat (held_step; cbv zeta beta); held_simpl; try reflexivity.

(** ** A cooperative environment

    Every call succeeds with empty data; examples override single answers. *)
Definition default_reply (c : call) : reply c :=
  match c return reply c with
  | Open _ _ => Ok 3%Z | Close _ => tt | Lseek _ _ => Ok tt
  | Read _ n => Ok (replicate n x00) | Pread _ n _ => Ok (replicate n x00)
  | Write _ d => Ok (Z.of_nat (length d))
  | IoctlBlkGetSize64 _ => Ok 1048576%Z | IoctlBlkSszGet _ => Ok 512%Z
  | Stat _ => Ok (StatInfo S_IFDIR 0) | Lstat _ => Ok (StatInfo S_IFBLK 0)
  | Fstat _ => Ok (StatInfo S_IFREG 0) | Access _ => Ok tt
  | Opendir _ => Ok [] | Closedir => tt
  | Mkdir _ _ => Ok tt | Mknod _ _ _ => Ok tt | Unlink _ => Ok tt | Rmdir _ => Ok tt
  | Nftw _ => ([], true) | Mmap _ _ => Ok [] | Munmap _ => tt
  | Fopen _ _ => Ok 7%Z | Fclose _ => tt | Fread _ n => replicate (Z.to_nat n) x00
  | Fwrite _ d => Z.of_nat (length d) | Fgets _ _ => Some [] | FprintfStderr t => Z.of_nat (length t)
  | Printf t => Z.of_nat (length t)
  | Mount _ _ _ _ => Ok tt | Umount _ => Ok tt | Umount2Detach _ => Ok tt
  | Umask _ => tt | Setsid => tt | Chdir _ => Ok tt | Chroot _ => Ok tt
  | ClockGettime => Ok (0, 0)%Z | ClockNanosleep _ _ => Ok tt
  | Pipe => Ok (4, 5)%Z | Fork => 100%Z | Dup2 _ _ => Ok tt | Execve _ _ => None
  | Waitpid _ => Ok (WExited 0)
  | Malloc _ => true | Calloc _ => true | Free _ => tt | Mlock _ => Ok tt | Munlock _ => tt
  | IoctlDmDevCreate _ _ => Ok 64768%Z | IoctlDmTableLoad _ _ _ _ => Ok tt
  | IoctlDmDevSuspend _ _ => Ok tt
  | KeyctlSearch _ => Ok 1%Z | KeyctlRead _ _ => Ok (4%Z, replicate 4 x00) | AddKey _ _ => Ok tt
  | PkInit => tt | PkFree => tt | PkParsePublicKeyfile _ => 0%Z | PkGetType => true
  | PkCanDoRsa => true | RsaSetPadding => 0%Z | Sha256 _ => (0%Z, replicate 32 x00)
  | RsassaPssVerify _ _ => 0%Z | PkWritePubkeyDer n => (1%Z, replicate n x00)
  | EntropyInit => tt | EntropyFree => tt | CtrDrbgInit => tt | CtrDrbgFree => tt
  | CtrDrbgSeed _ => 0%Z | CtrDrbgRandom n => (0%Z, replicate n x00)
  | TctiInitialize _ => (0, Some 1)%Z | TctiFinalize _ => tt
  | EsysInitialize _ => (0, Some 2)%Z | EsysFinalize _ => tt
  | EsysSelfTest _ => 0%Z | EsysPcrExtend _ _ _ _ => 0%Z
  | EsysCreatePrimary _ _ => (0, Some 3)%Z | EsysStartAuthSession _ _ _ => (0, Some 4)%Z
  | EsysPolicyPCR _ _ _ => 0%Z | EsysPolicyGetDigest _ _ => (0%Z, Some (replicate 32 x00))
  | EsysEvictControl _ _ _ => 0%Z | EsysTrFromTpmPublic _ _ => (0, Some 5)%Z
  | EsysCreate _ _ _ _ _ => (0%Z, Some ([], [])) | EsysLoad _ _ _ _ => (0, Some 6)%Z
  | EsysUnseal _ _ _ => (0%Z, Some (replicate 32 x00))
  | EsysFlushContext _ _ => 0%Z | EsysFree _ => tt
  end.
