(* ===== verification/Output.v ===== *)
(** * Output: log levels and log output (src/output.c, inc/output.h) *)
From S2P Require Import Prelude CString Sys.

(** ** Levels *)

Inductive cominitLogLevelE_t :=
  | COMINIT_LOG_LEVEL_NONE | COMINIT_LOG_LEVEL_ERR | COMINIT_LOG_LEVEL_WARN
  | COMINIT_LOG_LEVEL_INFO | COMINIT_LOG_LEVEL_DEBUG | COMINIT_LOG_LEVEL_SENSITIVE
  | COMINIT_LOG_LEVEL_COUNT | COMINIT_LOG_LEVEL_INVALID.
#[global] Instance level_eq_dec : EqDecision cominitLogLevelE_t. Proof. solve_decision. Defined.

(** The enumeration's integer values. *)
Definition level_Z (l : cominitLogLevelE_t) : Z :=
  match l with
  | COMINIT_LOG_LEVEL_NONE => 0 | COMINIT_LOG_LEVEL_ERR => 1 | COMINIT_LOG_LEVEL_WARN => 2
  | COMINIT_LOG_LEVEL_INFO => 3 | COMINIT_LOG_LEVEL_DEBUG => 4 | COMINIT_LOG_LEVEL_SENSITIVE => 5
  | COMINIT_LOG_LEVEL_COUNT => 6 | COMINIT_LOG_LEVEL_INVALID => 7
  end.
(** The cast [(cominitLogLevelE_t)n] of a value below [COMINIT_LOG_LEVEL_COUNT]. *)
Definition level_of_Z (n : Z) : cominitLogLevelE_t :=
  match n with
  | 0 => COMINIT_LOG_LEVEL_NONE | 1 => COMINIT_LOG_LEVEL_ERR | 2 => COMINIT_LOG_LEVEL_WARN
  | 3 => COMINIT_LOG_LEVEL_INFO | 4 => COMINIT_LOG_LEVEL_DEBUG | _ => COMINIT_LOG_LEVEL_SENSITIVE
  end%Z.

Record cominitLogLevelEntry_t := LogLevelEntry {
  entry_name : list byte; entry_prefix : option (list byte) }.
Record cominitLogContext_t := LogContext {
  logLevelEntry : list cominitLogLevelEntry_t; visibleLevel : cominitLogLevelE_t }.

Definition DEFAULT_LOG_LEVEL := COMINIT_LOG_LEVEL_INFO.
Definition COMINIT_PRINT_PREFIX : list byte := lit "[COMINIT] ".

(** The static [cominitLogContext] at program start. *)
Definition cominitLogContext : cominitLogContext_t := {|
  logLevelEntry := [
    LogLevelEntry (lit "NONE") None;
    LogLevelEntry (lit "ERROR") (Some (lit "ERROR: "));
    LogLevelEntry (lit "WARNING") (Some (lit "WARNING: "));
    LogLevelEntry (lit "INFO") None;
    LogLevelEntry (lit "DEBUG") (Some (lit "DEBUG: "));
    LogLevelEntry (lit "SENSITIVE") (Some (lit "SENSITIVE: ")) ];
  visibleLevel := DEFAULT_LOG_LEVEL |}.

Definition cominitOutputSetVisibleLogLevel (ctx : cominitLogContext_t) (l : cominitLogLevelE_t)
    : cominitLogContext_t :=
  {| logLevelEntry := logLevelEntry ctx;
     visibleLevel := if decide (l = COMINIT_LOG_LEVEL_INVALID) then DEFAULT_LOG_LEVEL else l |}.

Definition EXIT_SUCCESS : Z := 0.
Definition EXIT_FAILURE : Z := 1.

(** Parses the value of a [logLevel] argument; the level is the new value of
    [*logLevel]. [unsigned int visibleLogLevel = strtoul(...)] keeps the low 32
    bits of the [unsigned long]. *)
Definition cominitOutputParseLogLevel `{Libc} (logLevel : cominitLogLevelE_t)
    (argValue : option (list byte)) : Z * cominitLogLevelE_t :=
  match argValue with
  | None => (EXIT_FAILURE, logLevel)
  | Some argValue =>
      let r := strtoul 0 argValue in
      let visibleLogLevel := u32 (st_val r) in
      if negb (st_errno r) && bool_decide (st_end r = []) &&
         bool_decide (visibleLogLevel < level_Z COMINIT_LOG_LEVEL_COUNT)%Z
      then (EXIT_SUCCESS, level_of_Z visibleLogLevel)
      else (EXIT_FAILURE, COMINIT_LOG_LEVEL_INVALID)
  end.

(** The log function. [message] is [format] expanded with its arguments,
    [errstr] is [strerror(errno)], and [sensitiveLogging] says whether the build
    defines [COMINIT_ENABLE_SENSITIVE_LOGGING]. *)
Definition cominitOutputLogFunc (sensitiveLogging : bool) (ctx : cominitLogContext_t)
    (logLevel : cominitLogLevelE_t) (file func line : list byte) (printErrno : bool)
    (message errstr : list byte) : prog Z :=
  let lvl := level_Z logLevel in
  if bool_decide (lvl <= level_Z COMINIT_LOG_LEVEL_NONE)%Z ||
     bool_decide (lvl >= level_Z COMINIT_LOG_LEVEL_COUNT)%Z then Ret 0%Z
  else if bool_decide (lvl > level_Z (visibleLevel ctx))%Z then Ret 0%Z
  else if negb sensitiveLogging && bool_decide (lvl >= level_Z COMINIT_LOG_LEVEL_SENSITIVE)%Z
  then Ret 0%Z
  else
    ret ← (if decide (logLevel = COMINIT_LOG_LEVEL_INFO) then sys (FprintfStderr COMINIT_PRINT_PREFIX)
           else match logLevelEntry ctx !! Z.to_nat lvl with
                | None => Stop (Undef OutOfBounds)
                | Some (LogLevelEntry _ None) => Stop (Undef NullDeref)
                | Some (LogLevelEntry _ (Some prefix)) =>
                    sys (FprintfStderr (COMINIT_PRINT_PREFIX ++ lit "(" ++ file ++ lit ":" ++ func ++
                                        lit ":" ++ line ++ lit ") " ++ prefix))
                end);
    if bool_decide (ret < 0)%Z then Ret ret else
    let cCount := ret in
    ret ← sys (FprintfStderr message);
    if bool_decide (ret < 0)%Z then Ret ret else
    let cCount := (cCount + ret)%Z in
    ret ← sys (FprintfStderr [Byte.x0a]);
    if bool_decide (ret < 0)%Z then Ret ret else
    let cCount := (cCount + ret)%Z in
    if printErrno then
      ret ← sys (FprintfStderr (lit " Errno: " ++ errstr ++ [Byte.x0a]));
      if bool_decide (ret < 0)%Z then Ret ret else Ret (cCount + ret)%Z
    else Ret cCount.

(** ** Properties *)

(** What the documentation of the levels promises: a message is shown if its
    level is a real one, at most the visible one, and not sensitive in a build
    without sensitive logging. *)
Definition shown (sensitiveLogging : bool) (visible l : cominitLogLevelE_t) : bool :=
  bool_decide (1 <= level_Z l <= 5)%Z && bool_decide (level_Z l <= level_Z visible)%Z &&
  (sensitiveLogging || bool_decide (level_Z l < 5)%Z).

(** The text of one message. *)
Definition log_text (l : cominitLogLevelE_t) (file func line : list byte) (printErrno : bool)
    (message errstr : list byte) : list byte :=
  COMINIT_PRINT_PREFIX ++
  (if decide (l = COMINIT_LOG_LEVEL_INFO) then []
   else lit "(" ++ file ++ lit ":" ++ func ++ lit ":" ++ line ++ lit ") " ++
        match l with
        | COMINIT_LOG_LEVEL_ERR => lit "ERROR: " | COMINIT_LOG_LEVEL_WARN => lit "WARNING: "
        | COMINIT_LOG_LEVEL_DEBUG => lit "DEBUG: " | _ => lit "SENSITIVE: " end) ++
  message ++ [Byte.x0a] ++ (if printErrno then lit " Errno: " ++ errstr ++ [Byte.x0a] else []).

(** The bytes a trace puts on stderr. *)
Definition stderr_bytes (t : trace) : list byte :=
  flat_map (λ e, match ev_call e with FprintfStderr s => s | _ => [] end) t.

(** A stderr that accepts everything. *)
Definition stderr_ok (o : oracle) : Prop := ∀ h s, o h (FprintfStderr s) = Z.of_nat (length s).

(** One write to an accepting stderr. *)
Lemma run_fprintf {A} o h s (k : Z → prog A) out t :
  stderr_ok o →
  (∀ h', run o h' (k (Z.of_nat (length s))) = (out, t)) →
  run o h (bind (sys (FprintfStderr s)) k) = (out, Event (FprintfStderr s) (Z.of_nat (length s)) :: t).
Proof. intros Ho Hk. simpl. rewrite Ho. by rewrite Hk. Qed.

Lemma written_nonneg (s : list byte) : bool_decide (Z.of_nat (length s) < 0)%Z = false.
Proof. apply bool_decide_eq_false. lia. Qed.

(** What precedes the message. *)
Definition log_head (l : cominitLogLevelE_t) (file func line : list byte) : list byte :=
  COMINIT_PRINT_PREFIX ++
  (if decide (l = COMINIT_LOG_LEVEL_INFO) then []
   else lit "(" ++ file ++ lit ":" ++ func ++ lit ":" ++ line ++ lit ") " ++
        match l with
        | COMINIT_LOG_LEVEL_ERR => lit "ERROR: " | COMINIT_LOG_LEVEL_WARN => lit "WARNING: "
        | COMINIT_LOG_LEVEL_DEBUG => lit "DEBUG: " | _ => lit "SENSITIVE: " end).

(** A message that is not shown makes no call at all. *)
Lemma log_func_hidden sens ctx l file func line pe msg err :
  shown sens (visibleLevel ctx) l = false →
  cominitOutputLogFunc sens ctx l file func line pe msg err = Ret 0%Z.
Proof.
  intros H. unfold cominitOutputLogFunc.
  destruct sens, l, ctx as [en [| | | | | | |]]; vm_compute in H; (discriminate H || reflexivity).
Qed.

(** A message that is shown is written head first, then text, newline and the
    errno line. *)
Lemma log_func_shown sens visible l file func line pe msg err :
  let ctx := cominitOutputSetVisibleLogLevel cominitLogContext visible in
  shown sens (visibleLevel ctx) l = true →
  cominitOutputLogFunc sens ctx l file func line pe msg err =
    (ret ← sys (FprintfStderr (log_head l file func line));
     if bool_decide (ret < 0)%Z then Ret ret else
     let cCount := ret in
     ret ← sys (FprintfStderr msg);
     if bool_decide (ret < 0)%Z then Ret ret else
     let cCount := (cCount + ret)%Z in
     ret ← sys (FprintfStderr [Byte.x0a]);
     if bool_decide (ret < 0)%Z then Ret ret else
     let cCount := (cCount + ret)%Z in
     if pe then
       ret ← sys (FprintfStderr (lit " Errno: " ++ err ++ [Byte.x0a]));
       if bool_decide (ret < 0)%Z then Ret ret else Ret (cCount + ret)%Z
     else Ret cCount).
Proof.
  intros ctx H. unfold cominitOutputLogFunc, ctx in *.
  destruct sens, l, visible; vm_compute in H; (discriminate H || reflexivity).
Qed.

(** With a stderr that accepts writes cominitOutputLogFunc prints a message completely, with prefix,
    location, level name and errno text, if its level is a real one, at most the visible level, and not
    sensitive in a build without sensitive logging; otherwise it prints nothing. The result is the
    number of bytes printed. *)
Theorem log_func_prints_shown o sens visible l file func line pe msg err
    (Ho : stderr_ok o) :
  let ctx := cominitOutputSetVisibleLogLevel cominitLogContext visible in
  let text := if shown sens (visibleLevel ctx) l then log_text l file func line pe msg err else [] in
  let '(out, t) := run o [] (cominitOutputLogFunc sens ctx l file func line pe msg err) in
  out = Done (Z.of_nat (length text)) ∧ stderr_bytes t = text.
Proof.
  intros ctx text. subst text ctx. destruct (shown _ _ _) eqn:Hs; [|by rewrite log_func_hidden].
  rewrite log_func_shown by done. unfold log_text. destruct pe.
  all: erewrite run_fprintf; [|done|intros h1; rewrite written_nonneg; apply run_fprintf; [done|];
    intros h2; rewrite written_nonneg; apply run_fprintf; [done|];
    intros h3; rewrite written_nonneg].
  2: { apply run_fprintf; [done|]. intros h4. rewrite written_nonneg. reflexivity. }
  3: reflexivity.
  all: cbn [stderr_bytes flat_map ev_call]; unfold log_head; split; [f_equal|];
    rewrite ?app_nil_r, <-?app_assoc, ?length_app; try done; simpl; lia.
Qed.

(** The hypothesis holds of the cooperative environment. *)
Lemma log_func_prints_shown_witness :
  let '(out, t) := run (λ _, default_reply) [] (cominitOutputLogFunc false
      (cominitOutputSetVisibleLogLevel cominitLogContext COMINIT_LOG_LEVEL_ERR)
      COMINIT_LOG_LEVEL_ERR (lit "f.c") (lit "g") (lit "7") false (lit "no") []) in
  out = Done 30%Z ∧ stderr_bytes t = lit "[COMINIT] (f.c:g:7) ERROR: no" ++ [Byte.x0a].
Proof.
  exact (log_func_prints_shown (λ _, default_reply) false COMINIT_LOG_LEVEL_ERR
    COMINIT_LOG_LEVEL_ERR (lit "f.c") (lit "g") (lit "7") false (lit "no") [] (λ _ _, eq_refl)).
Defined.

(** Whatever the visible level and the state of the levels table, a build
    without sensitive logging prints no sensitive message. *)
Theorem sensitive_never_printed o ctx file func line pe msg err :
  run o [] (cominitOutputLogFunc false ctx COMINIT_LOG_LEVEL_SENSITIVE file func line pe msg err)
    = (Done 0%Z, []).
Proof.
  rewrite log_func_hidden; [done|]. unfold shown. by destruct (visibleLevel ctx).
Qed.

(** On every decimal number below 2^64 cominitOutputParseLogLevel looks only at the low 32 bits: it
    accepts exactly the numbers whose value modulo 2^32 is a log level, so 4294967299 is taken as 3. *)
Theorem parse_log_level_decimal `{Libc} l0 n (Hn : (0 <= n < 2 ^ 64)%Z) :
  cominitOutputParseLogLevel l0 (Some (dec n)) =
    if bool_decide (n `mod` 2 ^ 32 < 6)%Z then (EXIT_SUCCESS, level_of_Z (n `mod` 2 ^ 32))
    else (EXIT_FAILURE, COMINIT_LOG_LEVEL_INVALID).
Proof. unfold cominitOutputParseLogLevel. by rewrite strtoul_dec0. Qed.

