(* ===== verification/Common.v ===== *)
(** * Common: the shared data types (inc/common.h, inc/meta.h) and src/common.c *)
From S2P Require Import Prelude CString Sys Output.

(** ** Constants *)

Definition COMINIT_ROOTFS_KEY_LOCATION : path := lit "/etc/rootfs_key_pub.pem".
Definition COMINIT_PART_META_DATA_VERSION : list byte := lit "1".
Definition COMINIT_DM_TABLE_SIZE_MAX : nat := Z.to_nat 1024.
Definition COMINIT_ROOTFS_DEV_PATH_MAX : nat := Z.to_nat 256.
Definition COMINIT_FSTYPE_STR_MAX_LEN : nat := Z.to_nat 32.
Definition COMINIT_PART_META_DATA_SIZE : nat := Z.to_nat 4096.
Definition COMINIT_PART_META_SIG_LENGTH : nat := Z.to_nat 512.
Definition COMINIT_CRYPTOPT_NONE : Z := 0.
Definition COMINIT_CRYPTOPT_VERITY : Z := Z.shiftl 1 0.
Definition COMINIT_CRYPTOPT_INTEGRITY : Z := Z.shiftl 1 1.
Definition COMINIT_CRYPTOPT_CRYPT : Z := Z.shiftl 1 2.

(** Constants and sizes of the TPM software stack's headers. *)
Class TpmParams := {
  TPM2_PT_PCR_COUNT : Z;          (* size of [pcrSeal] and bound on PCR indexes *)
  TPM2_PCR_SELECT_MAX : nat;      (* size of [pcrSelect] *)
  ESYS_TR_NONE : Z;
  ESYS_TR_PCR0 : Z;
  TPM2_PERSISTENT_FIRST : Z;      (* the first persistent handle *)
  sizeof_TPM2B_PUBLIC : Z;
  sizeof_TPM2B_PRIVATE : Z;
  sizeof_TPM2B_SENSITIVE_CREATE : Z;
  sizeof_TPM2B_SENSITIVE_DATA : Z
}.

(** ** Data *)

(** The parsed options of argv, in a build with [COMINIT_USE_TPM]. *)
Record cominitCliArgs_t := CliArgs {
  pcrSet : bool;
  pcrIndex : Z;
  pcrSealCount : Z;
  pcrSeal : list Z;
  devNodeBlob : list byte;
  devNodeCrypt : list byte;
  enableSelinux : bool;
  enableEnforceMode : bool;
  devNodeRootFs : list byte;
  visibleLogLevel : cominitLogLevelE_t
}.

(** The rootfs partition metadata. *)
Record cominitRfsMetaData_t := RfsMetaData {
  devicePath : list byte;
  fsType : list byte;
  ro : bool;
  crypt : Z;
  dmVerintDataSizeBytes : Z;
  dmCryptDataSizeBytes : Z;
  dmTableVerint : list byte;
  dmTableCrypt : list byte
}.

(** Field updates. *)
Definition set_devicePath (m : cominitRfsMetaData_t) v :=
  RfsMetaData v (fsType m) (ro m) (crypt m) (dmVerintDataSizeBytes m) (dmCryptDataSizeBytes m) (dmTableVerint m) (dmTableCrypt m).
Definition set_fsType (m : cominitRfsMetaData_t) v :=
  RfsMetaData (devicePath m) v (ro m) (crypt m) (dmVerintDataSizeBytes m) (dmCryptDataSizeBytes m) (dmTableVerint m) (dmTableCrypt m).
Definition set_ro (m : cominitRfsMetaData_t) v :=
  RfsMetaData (devicePath m) (fsType m) v (crypt m) (dmVerintDataSizeBytes m) (dmCryptDataSizeBytes m) (dmTableVerint m) (dmTableCrypt m).
Definition set_crypt (m : cominitRfsMetaData_t) v :=
  RfsMetaData (devicePath m) (fsType m) (ro m) v (dmVerintDataSizeBytes m) (dmCryptDataSizeBytes m) (dmTableVerint m) (dmTableCrypt m).
Definition set_dmVerintDataSizeBytes (m : cominitRfsMetaData_t) v :=
  RfsMetaData (devicePath m) (fsType m) (ro m) (crypt m) v (dmCryptDataSizeBytes m) (dmTableVerint m) (dmTableCrypt m).
Definition set_dmTableVerint (m : cominitRfsMetaData_t) v :=
  RfsMetaData (devicePath m) (fsType m) (ro m) (crypt m) (dmVerintDataSizeBytes m) (dmCryptDataSizeBytes m) v (dmTableCrypt m).
Definition set_dmTableCrypt (m : cominitRfsMetaData_t) v :=
  RfsMetaData (devicePath m) (fsType m) (ro m) (crypt m) (dmVerintDataSizeBytes m) (dmCryptDataSizeBytes m) (dmTableVerint m) v.

(** [cominitRfsMetaData_t rfsMeta = {0};] *)
Definition zero_meta : cominitRfsMetaData_t :=
  RfsMetaData (replicate COMINIT_ROOTFS_DEV_PATH_MAX x00) (replicate COMINIT_FSTYPE_STR_MAX_LEN x00)
    false 0 0 0 (replicate COMINIT_DM_TABLE_SIZE_MAX x00) (replicate COMINIT_DM_TABLE_SIZE_MAX x00).

(** A [char] array of [n] bytes that holds a string. *)
Definition char_array (n : nat) (a : list byte) : Prop := length a = n ∧ terminated a = true.
#[global] Instance char_array_dec n a : Decision (char_array n a) := ltac:(unfold char_array; apply _).

(** Well-formed metadata: every array has its declared size and holds a
    string, the sizes are 64-bit values, the features are a byte. *)
Record meta_wf (m : cominitRfsMetaData_t) : Prop := {
  wf_devicePath : char_array COMINIT_ROOTFS_DEV_PATH_MAX (devicePath m);
  wf_fsType : char_array COMINIT_FSTYPE_STR_MAX_LEN (fsType m);
  wf_crypt : (0 <= crypt m < 8)%Z;
  wf_verintSize : (0 <= dmVerintDataSizeBytes m < 2 ^ 64)%Z;
  wf_cryptSize : (0 <= dmCryptDataSizeBytes m < 2 ^ 64)%Z;
  wf_tblVerint : char_array COMINIT_DM_TABLE_SIZE_MAX (dmTableVerint m);
  wf_tblCrypt : char_array COMINIT_DM_TABLE_SIZE_MAX (dmTableCrypt m)
}.

Lemma zero_meta_wf : meta_wf zero_meta.
Proof. split; try (by vm_compute); simpl; lia. Qed.

(** ** src/common.c *)

(** [partSize] is [None] for NULL, else the value it points to. *)
Definition cominitCommonGetPartSize (partSize : option Z) (fd : Z) : prog (Z * option Z) :=
  match partSize with
  | None => Ret ((-1)%Z, None)
  | Some _ =>
      r ← sys (IoctlBlkGetSize64 fd);
      match r with
      | Err _ => Ret ((-1)%Z, partSize)
      | Ok n => Ret (0%Z, Some n)
      end
  end.

Lemma balanced_GetPartSize p fd : balanced (cominitCommonGetPartSize p fd).
Proof. unfold cominitCommonGetPartSize. balanced_auto. Qed.
#[export] Hint Resolve balanced_GetPartSize : balanced.

(** ** Preservation of well-formedness *)

Lemma char_array_snprintf n a s : 0 < n → length a = n → char_array n (snprintf a n s).
Proof. intros Hn Ha. split; [rewrite snprintf_length; lia|]. by apply snprintf_terminated. Qed.
Lemma char_array_cut n a : 0 < n → length a = n → char_array n (<[0 := x00]> a).
Proof.
  intros Hn Ha. split; [by rewrite length_insert|]. unfold terminated. apply bool_decide_eq_true.
  destruct a; simpl in *; [lia|]. apply elem_of_cons. auto.
Qed.
Lemma char_array_snoc n a : length a = n - 1 → 0 < n → char_array n (a ++ [x00]).
Proof.
  intros Ha Hn. split; [rewrite length_app; simpl; lia|]. unfold terminated.
  apply bool_decide_eq_true, elem_of_app. right. by apply list_elem_of_singleton.
Qed.

(** [m'] is well-formed and still names the same device. *)
Definition meta_upd (m m' : cominitRfsMetaData_t) : Prop := meta_wf m' ∧ devicePath m' = devicePath m.

Lemma meta_upd_refl m : meta_wf m → meta_upd m m.
Proof. by split. Qed.
Lemma meta_upd_size m m' v : meta_upd m m' → (0 <= v < 2 ^ 64)%Z → meta_upd m (set_dmVerintDataSizeBytes m' v).
Proof. intros [[] ?] ?. split; [by split|done]. Qed.
Lemma meta_upd_tbl m m' v : meta_upd m m' → char_array COMINIT_DM_TABLE_SIZE_MAX v → meta_upd m (set_dmTableVerint m' v).
Proof. intros [[] ?] ?. split; [by split|done]. Qed.
Lemma meta_upd_tblCrypt m m' v : meta_upd m m' → char_array COMINIT_DM_TABLE_SIZE_MAX v → meta_upd m (set_dmTableCrypt m' v).
Proof. intros [[] ?] ?. split; [by split|done]. Qed.
Lemma meta_upd_ro m m' v : meta_upd m m' → meta_upd m (set_ro m' v).
Proof. intros [[] ?]. split; [by split|done]. Qed.
Lemma meta_upd_crypt m m' v : meta_upd m m' → (0 <= v < 8)%Z → meta_upd m (set_crypt m' v).
Proof. intros [[] ?] ?. split; [by split|done]. Qed.
Lemma meta_upd_fsType m m' v : meta_upd m m' → char_array COMINIT_FSTYPE_STR_MAX_LEN v → meta_upd m (set_fsType m' v).
Proof. intros [[] ?] ?. split; [by split|done]. Qed.
Lemma meta_upd_tbl_snprintf m m' s : meta_upd m m' →
  meta_upd m (set_dmTableVerint m' (snprintf (dmTableVerint m') COMINIT_DM_TABLE_SIZE_MAX s)).
Proof.
  intros H. apply meta_upd_tbl; [done|]. destruct H as [[] _].
  apply char_array_snprintf; [vm_compute; lia|]. by destruct wf_tblVerint0.
Qed.
Create HintDb meta.
#[export] Hint Resolve meta_upd_refl meta_upd_size meta_upd_ro meta_upd_tbl_snprintf
  strtoul_range u64_range : meta.
Lemma meta_upd_cutVerint m m' : meta_upd m m' →
  meta_upd m (set_dmTableVerint m' (<[0 := x00]> (dmTableVerint m'))).
Proof.
  intros H. apply meta_upd_tbl; [done|]. apply char_array_cut; [vm_compute; lia|].
  by destruct (wf_tblVerint _ (proj1 H)).
Qed.
Lemma meta_upd_cutCrypt m m' : meta_upd m m' →
  meta_upd m (set_dmTableCrypt m' (<[0 := x00]> (dmTableCrypt m'))).
Proof.
  intros H. apply meta_upd_tblCrypt; [done|]. apply char_array_cut; [vm_compute; lia|].
  by destruct (wf_tblCrypt _ (proj1 H)).
Qed.
Lemma meta_upd_fs_strncpy m m' s : meta_upd m m' →
  meta_upd m (set_fsType m' (take (COMINIT_FSTYPE_STR_MAX_LEN - 1)
                               (strncpy (fsType m') s COMINIT_FSTYPE_STR_MAX_LEN) ++ [x00])).
Proof.
  intros H. apply meta_upd_fsType; [done|]. apply char_array_snoc; [|vm_compute; lia].
  destruct (wf_fsType _ (proj1 H)) as [Hl _]. rewrite length_take. unfold strncpy.
  rewrite length_overwrite; rewrite ?length_take, ?length_app, ?length_replicate; lia.
Qed.
#[export] Hint Resolve meta_upd_cutVerint meta_upd_cutCrypt meta_upd_fs_strncpy meta_upd_crypt : meta.
