(* ===== verification/Crypto.v ===== *)
(** * Crypto: signatures, digests and passphrases (src/crypto.c, inc/crypto.h)

    mbedTLS is outside the repository; its functions are calls whose answers
    the environment chooses. A buffer argument is [None] for NULL, else its
    contents; the updated contents are returned with the result code. *)
From S2P Require Import Prelude CString Sys Output.

Definition SHA256_LEN : nat := 32.
Definition DER_BUFFER_SIZE : nat := Z.to_nat 1600.

(** The mbedTLS version of the build, 2 or 3. *)
Class MbedTLS := { MBEDTLS_VERSION_MAJOR : Z }.

(** [cominitRsaSetPadding]: version 2 has no result to report. *)
Definition cominitRsaSetPadding `{MbedTLS} : prog Z :=
  r ← sys RsaSetPadding;
  Ret (if bool_decide (MBEDTLS_VERSION_MAJOR = 2)%Z then 0%Z else r).

(** [signature] is the memory that starts at the signature. *)
Definition cominitCryptoVerifySignature `{MbedTLS} (data signature : list byte) (keyfile : path)
    : prog Z :=
  sys_ PkInit;;
  err ← sys (PkParsePublicKeyfile keyfile);
  if bool_decide (err ≠ 0)%Z then sys_ PkFree;; Ret (-1)%Z else
  keyType ← sys PkGetType;
  if negb keyType then sys_ PkFree;; Ret (-1)%Z else
  canDo ← sys PkCanDoRsa;
  if negb canDo then sys_ PkFree;; Ret (-1)%Z else
  err ← cominitRsaSetPadding;
  if bool_decide (err ≠ 0)%Z then sys_ PkFree;; Ret (-1)%Z else
  '(err, dataHash) ← sys (Sha256 data);
  if bool_decide (err ≠ 0)%Z then sys_ PkFree;; Ret (-1)%Z else
  err ← sys (RsassaPssVerify dataHash signature);
  if bool_decide (err ≠ 0)%Z then sys_ PkFree;; Ret (-1)%Z else
  sys_ PkFree;; Ret 0%Z.

Definition cominitCreateSHA256DigestfromKeyfile (keyfile : option path) (digest : option (list byte))
    (digestLen : nat) : prog (Z * option (list byte)) :=
  match keyfile, digest with
  | Some keyfile, Some d =>
      if bool_decide (digestLen < SHA256_LEN) then Ret (EXIT_FAILURE, digest) else
      sys_ PkInit;;
      err ← sys (PkParsePublicKeyfile keyfile);
      '(result, d) ←
        (if bool_decide (err = 0)%Z then
           '(derLen, der) ← sys (PkWritePubkeyDer DER_BUFFER_SIZE);
           if bool_decide (derLen > 0)%Z then
             if bool_decide (derLen > Z.of_nat DER_BUFFER_SIZE)%Z then Stop (Undef OutOfBounds) else
             let pubKeyDer := drop (DER_BUFFER_SIZE - Z.to_nat derLen) der in
             '(err, h) ← sys (Sha256 pubKeyDer);
             Ret (if bool_decide (err = 0)%Z then EXIT_SUCCESS else EXIT_FAILURE, overwrite d h)
           else Ret (EXIT_FAILURE, d)
         else Ret (EXIT_FAILURE, d));
      sys_ PkFree;;
      Ret (result, Some d)
  | _, _ => Ret (EXIT_FAILURE, digest)
  end.

(** A salt for the random generator: the hash of the boot id. *)
Definition cominitCryptoCreateUniqueString (uniqueString : list byte) : prog (Z * list byte) :=
  file ← sys (Fopen (lit "/proc/sys/kernel/random/boot_id") (lit "r"));
  match file with
  | Err _ => Ret (EXIT_FAILURE, uniqueString)
  | Ok file =>
      line ← sys (Fgets file (Z.to_nat 256));
      '(result, u) ←
        match line with
        | None => Ret (EXIT_FAILURE, uniqueString)
        | Some line =>
            let buffer := cstr line in
            let n := strcspn buffer [Byte.x0d; Byte.x0a] in
            '(err, h) ← sys (Sha256 (take n buffer));
            Ret (if bool_decide (err = 0)%Z then EXIT_SUCCESS else EXIT_FAILURE,
                 overwrite uniqueString h)
        end;
      sys_ (Fclose file);;
      Ret (result, u)
  end.

Definition cominitCryptoCreatePassphrase (passphrase : option (list byte)) (passphraseSize : nat)
    : prog (Z * option (list byte)) :=
  match passphrase with
  | None => Ret (EXIT_FAILURE, None)
  | Some p =>
      if bool_decide (passphraseSize <= 0) then Ret (EXIT_FAILURE, passphrase) else
      sys_ EntropyInit;;
      sys_ CtrDrbgInit;;
      '(r, uniqueString) ← cominitCryptoCreateUniqueString (replicate SHA256_LEN x00);
      let custom := if bool_decide (r = EXIT_FAILURE) then None else Some uniqueString in
      err ← sys (CtrDrbgSeed custom);
      '(result, p) ←
        (if bool_decide (err = 0)%Z then
           '(err, bytes) ← sys (CtrDrbgRandom passphraseSize);
           Ret (if bool_decide (err = 0)%Z then EXIT_SUCCESS else EXIT_FAILURE, overwrite p bytes)
         else Ret (EXIT_FAILURE, p));
      sys_ CtrDrbgFree;;
      sys_ EntropyFree;;
      Ret (result, Some p)
  end.

(** ** Properties *)

(** The calls of a successful verification of [data] with [keyfile]. Only
    version 2 of mbedTLS, whose function is [void], has no result of the padding
    to succeed. *)
Definition verification_trace `{MbedTLS} (keyfile : path) (data signature : list byte) (t : trace) : Prop :=
  ∃ hash pad, (MBEDTLS_VERSION_MAJOR = 2%Z ∨ pad = 0%Z) ∧
    t = [Event PkInit tt; Event (PkParsePublicKeyfile keyfile) 0%Z; Event PkGetType true;
         Event PkCanDoRsa true; Event RsaSetPadding pad; Event (Sha256 data) (0%Z, hash);
         Event (RsassaPssVerify hash signature) 0%Z; Event PkFree tt].

Lemma balanced_VerifySignature `{MbedTLS} d s k : balanced (cominitCryptoVerifySignature d s k).
Proof. unfold cominitCryptoVerifySignature, cominitRsaSetPadding. balanced_auto. Qed.
Lemma balanced_Digest k d n : balanced (cominitCreateSHA256DigestfromKeyfile k d n).
Proof. unfold cominitCreateSHA256DigestfromKeyfile. balanced_auto. Qed.
Lemma balanced_UniqueString u : balanced (cominitCryptoCreateUniqueString u).
Proof. unfold cominitCryptoCreateUniqueString. balanced_auto. Qed.
#[export] Hint Resolve balanced_VerifySignature balanced_Digest balanced_UniqueString : balanced.
Lemma balanced_Passphrase p n : balanced (cominitCryptoCreatePassphrase p n).
Proof. unfold cominitCryptoCreatePassphrase. balanced_auto. Qed.
#[export] Hint Resolve balanced_Passphrase : balanced.

(** A successful answer of the signature primitive. *)
Definition verify_ok (e : event) : bool :=
  let '(Event c r) := e in
  match c return reply c → bool with
  | RsassaPssVerify _ _ => λ r, bool_decide (r = 0)%Z
  | _ => λ _, false
  end r.

(** The specification its callers use: after [t0], it returns 0 having made
    exactly a successful verification of its arguments, or -1. *)
Lemma wp_VerifySignature `{MbedTLS} d s k t0 :
  wp upd_trace any_env (cominitCryptoVerifySignature d s k)
    (λ o t, match o with
            | Done r => (r = 0%Z ∧ ∃ tv, t = t0 ++ tv ∧ verification_trace k d s tv) ∨
                        (r = (-1)%Z ∧ ∃ t', t = t0 ++ t' ∧ existsb verify_ok t' = false)
            | Ended _ => False
            end) t0.
Proof.
  unfold cominitCryptoVerifySignature, cominitRsaSetPadding.
  repeat (wp_step; cbv beta zeta); unfold upd_trace; rewrite <-!app_assoc.
  all: try (right; split; [done|]; eexists; split; [reflexivity|]; cbn;
    repeat match goal with
           | E : bool_decide (_ ≠ _) = true |- _ => apply bool_decide_eq_true in E
           end; by rewrite ?bool_decide_false).
  left. split; [done|]. repeat match goal with
    | E : bool_decide (_ ≠ _) = false |- _ => apply bool_decide_eq_false, dec_stable in E; subst
    | E : negb _ = false |- _ => apply negb_false_iff in E; subst
    | x : unit |- _ => destruct x
    end.
  repeat match goal with
         | x : reply PkInit |- _ => destruct x
         | x : reply PkFree |- _ => destruct x
         end.
  eexists. split; [reflexivity|]. eexists _, _. split; [|reflexivity].
  match goal with E : (if bool_decide ?P then _ else _) = 0%Z |- _ => revert E; case_bool_decide; auto end.
Qed.

(** C12: cominitCryptoVerifySignature always returns, with 0 exactly when the complete sequence of
    mbedTLS calls was made and succeeded: key parsed, of a known type, RSA, PSS padding set (with
    mbedTLS 2 the call has no result; later versions answered 0), SHA-256 of the data computed, RSASSA-
    PSS verification of that hash and signature answered 0, context freed; when it returns -1 no call of
    the signature primitive has answered 0. *)
Theorem verify_signature_exact `{MbedTLS} o d s k :
  let '(out, t) := run o [] (cominitCryptoVerifySignature d s k) in
  (out = Done 0%Z ∧ verification_trace k d s t) ∨
  (out = Done (-1)%Z ∧ existsb verify_ok t = false).
Proof.
  pose proof (wp_run_trace _ _ o (wp_VerifySignature d s k [])) as Hw.
  destruct (run _ _ _) as [[r|e] t]; [|done]. cbn [fst snd app] in Hw.
  destruct Hw as [[-> (tv & -> & Hw)]|[-> (t' & -> & Hw)]]; [left|right]; done.
Qed.
