(* ===== verification/Keyring.v ===== *)
(** * Keyring: the kernel user keyring (src/keyring.c, inc/keyring.h) *)
From S2P Require Import Prelude CString Sys Output.

Definition COMINIT_KEYRING_PAYLOAD_MAX_SIZE : Z := 512.
(** The defaults of the development build. *)
Definition COMINIT_FAKE_HSM_KEY_DIR : list byte := lit "/etc/fake_hsm".
Definition COMINIT_FAKE_HSM_KEY_DESCS : list byte :=
  lit "dm-integrity-hmac-secret dm-integrity-jmac-secret dm-integrity-jcrypt-secret".
Definition PATH_MAX : nat := Z.to_nat 4096.

(** Searches a key and reads its payload into [key]. The kernel stores at most
    [keyMaxLen] bytes and answers the size of the payload. *)
Definition cominitKeyringGetKey (key : option (list byte)) (keyMaxLen : Z)
    (keyDesc : option (list byte)) : prog (Z * option (list byte)) :=
  match key, keyDesc with
  | Some buf, Some desc =>
      if bool_decide (strnlen desc (Z.to_nat 4095) = Z.to_nat 4095) then Ret ((-1)%Z, key) else
      keyID ← sys (KeyctlSearch desc);
      match keyID with
      | Err _ => Ret ((-1)%Z, key)
      | Ok keyID =>
          len ← sys (KeyctlRead keyID keyMaxLen);
          match len with
          | Err _ => Ret ((-1)%Z, key)
          | Ok (len, bytes) => Ret (len, Some (overwrite buf bytes))
          end
      end
  | _, _ => Ret ((-1)%Z, key)
  end.

Definition cominitKeyringAddUserKey (keyDesc key : option (list byte)) : prog Z :=
  match keyDesc, key with
  | Some desc, Some k =>
      r ← sys (AddKey desc k);
      match r with Err _ => Ret (-1)%Z | Ok _ => Ret 0%Z end
  | _, _ => Ret (-1)%Z
  end.

(** The loop of [cominitKeyringInitFakeHsm] over the key descriptions;
    [strtokState] is the rest of the list. *)
Fixpoint cominitKeyringInitFakeHsm_loop (fuel : nat) (dir : path) (runner : option (list byte))
    (strtokState : list byte) : prog Z :=
  match fuel, runner with
  | _, None => Ret 0%Z
  | O, Some _ => Stop NoFuel
  | S fuel, Some desc =>
      let keyPath := take (PATH_MAX - 1) (dir ++ lit "/" ++ desc ++ lit ".bin") in
      info ← sys (Stat keyPath);
      match info with
      | Err _ => Ret (-1)%Z
      | Ok info =>
          if bool_decide (st_size info > COMINIT_KEYRING_PAYLOAD_MAX_SIZE)%Z then Ret (-1)%Z else
          fp ← sys (Fopen keyPath (lit "rb"));
          match fp with
          | Err _ => Ret (-1)%Z
          | Ok keyFp =>
              keyPld ← sys (Fread keyFp (st_size info));
              if bool_decide (st_size info = 0)%Z ||
                 bool_decide (Z.of_nat (length keyPld) ≠ st_size info) then Ret (-1)%Z else
              r ← cominitKeyringAddUserKey (Some desc) (Some keyPld);
              if bool_decide (r = -1)%Z then Ret (-1)%Z else
              let '(runner, strtokState) := strtok_r strtokState (lit " ") in
              cominitKeyringInitFakeHsm_loop fuel dir runner strtokState
          end
      end
  end.
(** Enrolls the development keys named in [keyDescs]; every token takes at
    least one byte of the list, so its length bounds the loop. *)
Definition cominitKeyringInitFakeHsm (keyDescs : list byte) (dir : path) : prog Z :=
  let '(runner, strtokState) := strtok_r keyDescs (lit " ") in
  cominitKeyringInitFakeHsm_loop (length keyDescs) dir runner strtokState.

Lemma balanced_GetKey k n d : balanced (cominitKeyringGetKey k n d).
Proof. unfold cominitKeyringGetKey. balanced_auto. Qed.
Lemma balanced_AddUserKey d k : balanced (cominitKeyringAddUserKey d k).
Proof. unfold cominitKeyringAddUserKey. balanced_auto. Qed.
#[export] Hint Resolve balanced_GetKey balanced_AddUserKey : balanced.

(** ** The interface to the kernel keyring

    A keyring that holds the keys [keys]: a search finds the serial number
    [kid] of an existing key, a read returns the size of its payload and stores
    what fits the buffer. *)
Definition keyring_env (keys : list byte → option (list byte)) (kid : list byte → Z) (e : event) : Prop :=
  let '(Event c r) := e in
  match c return reply c → Prop with
  | KeyctlSearch d => λ r, r = match keys d with Some _ => Ok (kid d) | None => Err ENOENT end
  | KeyctlRead id n => λ r, ∀ d k, id = kid d → keys d = Some k →
      r = Ok (Z.of_nat (length k), take (Z.to_nat n) k)
  | _ => λ _, True
  end r.
Class KeyringContract (o : oracle) (keys : list byte → option (list byte)) (kid : list byte → Z) : Prop := {
  keyring_answers : ∀ h c, keyring_env keys kid (Event c (o h c));
  keyring_payload_size : ∀ d k, keys d = Some k → 1 <= length k <= Z.to_nat COMINIT_KEYRING_PAYLOAD_MAX_SIZE
}.

(** Against such a keyring a key that fits is read completely. *)
Lemma wp_GetKey {S} (upd : S → event → S) keys kid buf n desc s :
  strnlen desc (Z.to_nat 4095) < Z.to_nat 4095 →
  (∀ k, keys desc = Some k → length k <= Z.to_nat n) →
  wp upd (λ _, keyring_env keys kid) (cominitKeyringGetKey (Some buf) n (Some desc))
    (λ o _, o = Done (match keys desc with
                      | Some k => (Z.of_nat (length k), Some (overwrite buf k))
                      | None => ((-1)%Z, Some buf) end)) s.
Proof.
  intros Hd Hk. unfold cominitKeyringGetKey. rewrite bool_decide_false by lia.
  apply wp_sys. intros r Hr. cbn in Hr. subst r. destruct (keys desc) as [k|] eqn:E; [|done].
  apply wp_sys. intros r Hr. cbn in Hr. rewrite (Hr _ _ eq_refl E).
  simpl. by rewrite take_ge by auto.
Qed.

(** ** Properties *)

(** The descriptions of the keys a trace adds to the keyring. *)
Definition enrolled_by (e : event) : list (list byte) :=
  let '(Event c r) := e in
  match c return reply c → list (list byte) with
  | AddKey desc _ => λ r, match r with Ok _ => [desc] | Err _ => [] end
  | _ => λ _, []
  end r.
Definition enrolled (t : trace) : list (list byte) := flat_map enrolled_by t.

Definition upd_enrolled (s : list (list byte)) (e : event) := s ++ enrolled_by e.
Lemma foldl_upd_enrolled t s : foldl upd_enrolled s t = s ++ enrolled t.
Proof.
  revert s. induction t as [|e t IH]; intros s; simpl; [by rewrite app_nil_r|].
  rewrite IH. unfold upd_enrolled. by rewrite <-app_assoc.
Qed.

(** The loop enrols the pending words one after the other and stops at the
    first that fails. *)
Lemma wp_InitFakeHsm_loop fuel dir cur st s :
  length (pending cur st) <= fuel →
  wp upd_enrolled any_env (cominitKeyringInitFakeHsm_loop fuel dir cur st)
    (λ o s', match o with
             | Done r => (r = 0%Z ∧ s' = s ++ pending cur st) ∨
                         (r = (-1)%Z ∧ ∃ l w l', pending cur st = l ++ w :: l' ∧ s' = s ++ l)
             | Ended _ => False end) s.
Proof.
  revert cur st s. induction fuel as [|fuel IH]; intros [desc|] st s Hf;
    [simpl in Hf; lia|by left; rewrite app_nil_r| |by left; rewrite app_nil_r].
  cbn [cominitKeyringInitFakeHsm_loop]. unfold cominitKeyringAddUserKey.
  assert (∀ s', s' = s → ((-1)%Z = 0%Z ∧ s' = s ++ pending (Some desc) st) ∨ ((-1)%Z = (-1)%Z ∧
    ∃ l w l', pending (Some desc) st = l ++ w :: l' ∧ s' = s ++ l)) as Hfail.
  { intros s' ->. right. split; [done|]. exists [], desc, (words st). by rewrite app_nil_r. }
  repeat (wp_step; cbv beta zeta); unfold upd_enrolled; cbn [enrolled_by]; rewrite ?app_nil_r;
    try (by apply Hfail).
  2: { by rewrite bool_decide_true in *. }
  pose proof (pending_strtok st) as Hp. rewrite Heqp in Hp. cbn [fst snd] in Hp. cbn [pending] in *.
  eapply wp_mono; [|apply IH; rewrite Hp; simpl in Hf; lia].
  intros [r'|e'] s' H'; [|done]. rewrite Hp, <-app_assoc in H'.
  destruct H' as [[-> ->]|[-> (l1 & w & l2 & E & ->)]]; [by left|right]. split; [done|].
  exists (desc :: l1), w, l2. rewrite E, <-app_assoc. done.
Qed.

(** cominitKeyringInitFakeHsm always returns; on 0 it has added exactly the keys named in the
    description list, in order, and on -1 a proper prefix of them. *)
Theorem fake_hsm_enrols_all o keyDescs dir :
  let '(out, t) := run o [] (cominitKeyringInitFakeHsm keyDescs dir) in
  (out = Done 0%Z ∧ enrolled t = words keyDescs) ∨
  (out = Done (-1)%Z ∧ ∃ w rest, words keyDescs = enrolled t ++ w :: rest).
Proof.
  unfold cominitKeyringInitFakeHsm. pose proof (pending_strtok keyDescs) as Hp.
  destruct (strtok_r keyDescs _) as [cur st]. cbn [fst snd] in Hp.
  pose proof (wp_run_any upd_enrolled _ _ [] o
    (wp_InitFakeHsm_loop (length keyDescs) dir cur st []
       ltac:(rewrite Hp; apply length_words))) as Hw.
  rewrite foldl_upd_enrolled in Hw. destruct (run _ _ _) as [[r|e] t]; [|done].
  cbn [fst snd app] in Hw. rewrite Hp in Hw.
  destruct Hw as [[-> ->]|[-> (l & w & l' & -> & ->)]]; eauto.
Qed.

(** The same loop, looking at what stays open. *)
Lemma wp_InitFakeHsm_loop_held fuel dir cur st s :
  wp upd_held any_env (cominitKeyringInitFakeHsm_loop fuel dir cur st)
    (λ o s', match o with
             | Done r => r = 0%Z → length s' = length (pending cur st) + length s
             | Ended _ => True end) s.
Proof.
  revert cur st s. induction fuel as [|fuel IH]; intros [desc|] st s; [done|done| |done].
  cbn [cominitKeyringInitFakeHsm_loop]. unfold cominitKeyringAddUserKey.
  repeat (wp_step; cbv beta zeta); try done.
  all: pose proof (pending_strtok st) as Hp; rewrite Heqp in Hp; cbn [fst snd] in Hp; cbn [pending].
  all: eapply wp_mono; [|apply IH]; intros [r'|e'] s' H'; [|done]; intros ->; rewrite Hp in H';
    rewrite H' by done; held_simpl; simpl; lia.
Qed.

(** After a successful enrolment one key file per key is still open. *)
Theorem fake_hsm_leaks_files o keyDescs dir :
  let '(out, t) := run o [] (cominitKeyringInitFakeHsm keyDescs dir) in
  out = Done 0%Z → length (held t) = length (words keyDescs).
Proof.
  unfold cominitKeyringInitFakeHsm. pose proof (pending_strtok keyDescs) as Hp.
  destruct (strtok_r keyDescs _) as [cur st]. cbn [fst snd] in Hp.
  pose proof (wp_run_any upd_held _ _ [] o
    (wp_InitFakeHsm_loop_held (length keyDescs) dir cur st [])) as Hw.
  fold (held (run o [] (cominitKeyringInitFakeHsm_loop (length keyDescs) dir cur st)).2) in Hw.
  destruct (run _ _ _) as [[r|e] t]; [|done].
  cbn [fst snd] in Hw. intros [= ->]. rewrite Hw, Hp by done. simpl. lia.
Qed.
