(* ===== verification/Meta.v ===== *)
(** * Meta: the rootfs partition metadata (src/meta.c, inc/meta.h)

    A pointer parameter the source tests is an [option] ([None] for NULL). A
    function that fills a structure returns its code with the structure as it
    left it, also on the error paths. The in-place cuts of [strtok_r] and of
    the NUL stores are the substrings they produce. *)
From S2P Require Import Prelude CString Sys Output Common Crypto Keyring.

Section Meta.
Context `{Libc} `{MbedTLS}.

(** ** Reading the metadata region *)

(** The loop [while (len > 0) { read(fd, buf, len); ... }]: every read stores
    at the start of [buf]. *)
Fixpoint cominitBinReadall_loop (fuel : nat) (buf : list byte) (fd : Z) (len : nat)
    : prog (Z * list byte) :=
  if bool_decide (len = 0) then Ret (0%Z, buf) else
  match fuel with
  | O => Stop NoFuel
  | S fuel =>
      bytesRead ← sys (Read fd len);
      match bytesRead with
      | Err _ => Ret ((-1)%Z, buf)
      | Ok bytes =>
          if bool_decide (len < length bytes) then Stop (Undef OutOfBounds) else
          cominitBinReadall_loop fuel (overwrite buf bytes) fd (len - length bytes)
      end
  end.
Definition cominitBinReadall (fuel : nat) (buf : option (list byte)) (fd offset : Z) (len : nat)
    : prog (Z * option (list byte)) :=
  match buf with
  | None => Ret ((-1)%Z, None)
  | Some b =>
      if bool_decide (offset < 0)%Z then Ret ((-1)%Z, buf) else
      r ← sys (Lseek fd offset);
      match r with
      | Err _ => Ret ((-1)%Z, buf)
      | Ok _ => '(r, b) ← cominitBinReadall_loop fuel b fd len; Ret (r, Some b)
      end
  end.

(** ** Hexadecimal keys *)

(** The loop of [cominitBytesToHex] from index [i], with [n] bytes to go:
    [snprintf(dest + 2 * i, 3, "%02x", src[i])]. *)
Fixpoint cominitBytesToHex_loop (dest src : list byte) (i n : nat) : prog (Z * list byte) :=
  match n with
  | O => Ret (0%Z, dest)
  | S n =>
      match src !! i with
      | None => Stop (Undef OutOfBounds)
      | Some b =>
          if bool_decide (length dest < 2 * i + 3) then Stop (Undef OutOfBounds) else
          cominitBytesToHex_loop
            (take (2 * i) dest ++ snprintf (drop (2 * i) dest) 3 (hex_fixed 2 (bz b))) src (S i) n
      end
  end.
Definition cominitBytesToHex (dest src : option (list byte)) (n : nat) : prog (Z * option (list byte)) :=
  match dest, src with
  | Some d, Some s => '(r, d) ← cominitBytesToHex_loop d s 0 n; Ret (r, Some d)
  | _, _ => Ret ((-1)%Z, dest)
  end.

(** ** Device mapper tables *)

Definition cominitGenVerityDmTbl (meta : option cominitRfsMetaData_t) (dmMetaStr : option (list byte))
    : prog (Z * option cominitRfsMetaData_t) :=
  match meta, dmMetaStr with
  | Some m, Some dmMetaStr =>
      if bool_decide (crypt m ≠ COMINIT_CRYPTOPT_VERITY) then Ret ((-1)%Z, Some m) else
      match strtok_r dmMetaStr (lit " ") with
      | (None, _) => Ret ((-1)%Z, Some m)
      | (Some verityVersion, st) =>
      match strtok_r st [] with
      | (None, _) => Ret ((-1)%Z, Some m)
      | (Some verityTblTail, _) =>
      let text := verityVersion ++ lit " " ++ cstr (devicePath m) ++ lit " " ++
                  cstr (devicePath m) ++ lit " " ++ verityTblTail in
      let m := set_dmTableVerint m (snprintf (dmTableVerint m) COMINIT_DM_TABLE_SIZE_MAX text) in
      if bool_decide (COMINIT_DM_TABLE_SIZE_MAX <= length text) then Ret ((-1)%Z, Some m) else
      (* data block size *)
      match strtok_r verityTblTail (lit " ") with
      | (None, _) => Ret ((-1)%Z, Some m)
      | (Some runner, st) =>
      let m := set_dmVerintDataSizeBytes m (st_val (strtoul 10 runner)) in
      (* jump over hash block size *)
      match strtok_r st (lit " ") with
      | (None, _) => Ret ((-1)%Z, Some m)
      | (Some _, st) =>
      (* number of data blocks *)
      match strtok_r st (lit " ") with
      | (None, _) => Ret ((-1)%Z, Some m)
      | (Some runner, st) =>
      let m := set_dmVerintDataSizeBytes m
                 (u64 (dmVerintDataSizeBytes m * st_val (strtoul 10 runner))) in
      (* jump over hash start block *)
      match strtok_r st (lit " ") with
      | (None, _) => Ret ((-1)%Z, Some m)
      | (Some _, st) =>
      (* hash algorithm *)
      match strtok_r st (lit " ") with
      | (None, _) => Ret ((-1)%Z, Some m)
      | (Some _, _) => Ret (0%Z, Some m)
      end end end end end end end
  | _, _ => Ret ((-1)%Z, meta)
  end.

Definition keyOpts : list (list byte) := [lit "internal_hash:"; lit "journal_crypt:"; lit "journal_mac:"].
(** The option takes a key. *)
Definition optionalKey (opt : list byte) : bool :=
  existsb (λ k, strncmp_eq opt k (length k)) keyOpts.

(** One turn of the loop over the additional options: the text it prints for
    [opt], with a key description replaced by the key. The name of the hash for
    the log is looked up at [opt + strlen(keyOpts[0])] whichever option matched;
    for a shorter one this is a pointer into [behind], the memory behind the NUL
    that ends [opt]. *)
Definition cominitIntegrityOption (opt behind : list byte) : prog (Z * list byte) :=
  let hashPtr := drop (length (lit "internal_hash:")) (opt ++ x00 :: behind) in
  if optionalKey opt && bool_decide (strcspn_at hashPtr (lit ":") = None)
  then Stop (Undef OutOfBounds) else
  match (if optionalKey opt then strstr opt (lit "::") else None) with
  | Some (before, keyDesc) =>
      if bool_decide (2 < length keyDesc) then
        let opt := before ++ lit ":" in
        let keyDesc := drop 2 keyDesc in
        '(keyLen, keyBytes) ← cominitKeyringGetKey
          (Some (replicate (Z.to_nat COMINIT_KEYRING_PAYLOAD_MAX_SIZE) x00))
          COMINIT_KEYRING_PAYLOAD_MAX_SIZE (Some keyDesc);
        if bool_decide (keyLen < 1)%Z then Ret ((-1)%Z, []) else
        '(r, keyHex) ← cominitBytesToHex
          (Some (replicate (Z.to_nat (2 * COMINIT_KEYRING_PAYLOAD_MAX_SIZE + 1)) x00))
          keyBytes (Z.to_nat keyLen);
        if bool_decide (r = -1)%Z then Ret ((-1)%Z, []) else
        Ret (0%Z, opt ++ cstr (default [] keyHex) ++ lit " ")
      else Ret (0%Z, opt ++ lit " ")
  | None => Ret (0%Z, opt ++ lit " ")
  end.
(** The loop; [proc] is the string in [procAddOpts], which [procOpt] points to
    the end of, [behind] the memory behind [opt], [after] the memory behind the
    string the options are cut from. *)
Fixpoint cominitGenIntegrityDmTbl_loop (fuel : nat) (opt : option (list byte)) (behind strtokState : list byte)
    (after proc : list byte) : prog (Z * list byte) :=
  match fuel, opt with
  | _, None => Ret (0%Z, proc)
  | O, Some _ => Stop NoFuel
  | S fuel, Some opt =>
      let n := COMINIT_DM_TABLE_SIZE_MAX - length proc in
      '(r, text) ← cominitIntegrityOption opt behind;
      if bool_decide (r = -1)%Z then Ret ((-1)%Z, proc) else
      if bool_decide (n <= length text) then Ret ((-1)%Z, proc) else
      let behind := strtok_behind strtokState (lit " ") after in
      let '(opt, strtokState) := strtok_r strtokState (lit " ") in
      cominitGenIntegrityDmTbl_loop fuel opt behind strtokState after (proc ++ text)
  end.

(** [after] is the memory of the metadata buffer behind the NUL of [dmMetaStr]. *)
Definition cominitGenIntegrityDmTbl (meta : option cominitRfsMetaData_t) (dmMetaStr : option (list byte))
    (after : list byte) : prog (Z * option cominitRfsMetaData_t) :=
  match meta, dmMetaStr with
  | Some m, Some dmMetaStr =>
      if bool_decide (crypt m ≠ COMINIT_CRYPTOPT_INTEGRITY) then Ret ((-1)%Z, Some m) else
      match strtok_r dmMetaStr (lit " ") with
      | (None, _) => Ret ((-1)%Z, Some m)
      | (Some blocks, st) =>
      let m := set_dmVerintDataSizeBytes m (st_val (strtoul 10 blocks)) in
      match strtok_r st (lit " ") with
      | (None, _) => Ret ((-1)%Z, Some m)
      | (Some blksize, st) =>
      let m := set_dmVerintDataSizeBytes m
                 (u64 (dmVerintDataSizeBytes m * st_val (strtoul 10 blksize))) in
      match strtok_r st (lit " ") with
      | (None, _) => Ret ((-1)%Z, Some m)
      | (Some numOptStr, st) =>
      let numOpts := st_val (strtoul 10 numOptStr) in
      match strtok_r st [] with
      | (None, _) => Ret ((-1)%Z, Some m)
      | (Some addOpts, _) =>
      let behind := strtok_behind addOpts (lit " ") after in
      let '(opt, strtokState) := strtok_r addOpts (lit " ") in
      '(r, procAddOpts) ← cominitGenIntegrityDmTbl_loop (length addOpts) opt behind strtokState after [];
      if bool_decide (r = -1)%Z then Ret ((-1)%Z, Some m) else
      let text := cstr (devicePath m) ++ lit " 0 - J " ++ dec (u64 (numOpts + 1)) ++
                  lit " block_size:" ++ blksize ++ lit " " ++ procAddOpts in
      let m := set_dmTableVerint m (snprintf (dmTableVerint m) COMINIT_DM_TABLE_SIZE_MAX text) in
      if bool_decide (COMINIT_DM_TABLE_SIZE_MAX <= length text) then Ret ((-1)%Z, Some m)
      else Ret (0%Z, Some m)
      end end end end
  | _, _ => Ret ((-1)%Z, meta)
  end.

(** ** Parsing *)

(** The value of the crypt field. *)
Definition parseCryptField (runner : list byte) : option Z :=
  if strcmp_eq runner (lit "plain") then Some COMINIT_CRYPTOPT_NONE
  else if strcmp_eq runner (lit "verity") then Some COMINIT_CRYPTOPT_VERITY
  else if strcmp_eq runner (lit "integrity") then Some COMINIT_CRYPTOPT_INTEGRITY
  else if strcmp_eq runner (lit "crypt") then Some COMINIT_CRYPTOPT_CRYPT
  else if strcmp_eq runner (lit "crypt-integrity")
  then Some (Z.lor COMINIT_CRYPTOPT_CRYPT COMINIT_CRYPTOPT_INTEGRITY)
  else if strcmp_eq runner (lit "crypt-verity")
  then Some (Z.lor COMINIT_CRYPTOPT_CRYPT COMINIT_CRYPTOPT_VERITY)
  else None.

(** The two table generations at the end of [cominitParseMetadata]. *)
Definition cominitParseMetadata_tables (m : cominitRfsMetaData_t) (dmTblVerintStr after : list byte)
    : prog (Z * option cominitRfsMetaData_t) :=
  '(r, m) ← (if bool_decide (crypt m = COMINIT_CRYPTOPT_VERITY)
             then cominitGenVerityDmTbl (Some m) (Some dmTblVerintStr)
             else Ret (0%Z, Some m));
  if bool_decide (r = -1)%Z then Ret ((-1)%Z, m) else
  '(r, m) ← (match m with
             | Some m' => if bool_decide (crypt m' = COMINIT_CRYPTOPT_INTEGRITY)
                          then cominitGenIntegrityDmTbl (Some m') (Some dmTblVerintStr) after
                          else Ret (0%Z, Some m')
             | None => Stop (Undef NullDeref)
             end);
  if bool_decide (r = -1)%Z then Ret ((-1)%Z, m) else
  Ret (0%Z, m).

(** [metaStr] is the string in the metadata buffer, [after] what the buffer
    holds behind its NUL. *)
Definition cominitParseMetadata (meta : option cominitRfsMetaData_t) (metaStr : option (list byte))
    (after : list byte) : prog (Z * option cominitRfsMetaData_t) :=
  match meta, metaStr with
  | Some m, Some metaStr =>
      (* Check metadata version *)
      if negb (strncmp_eq metaStr COMINIT_PART_META_DATA_VERSION
                 (length COMINIT_PART_META_DATA_VERSION)) then Ret ((-1)%Z, Some m) else
      (* Find beginning of first device mapper table (verity/integrity) *)
      match strchr metaStr Byte.xff with
      | None => Ret ((-1)%Z, Some m)
      | Some (metaStr, dmTblVerintStr) =>
      (* Find beginning of second device mapper table (crypt) *)
      match strchr dmTblVerintStr Byte.xff with
      | None => Ret ((-1)%Z, Some m)
      | Some (dmTblVerintStr, dmTblCryptStr) =>
      (* Jump over version number and get fs type *)
      match strtok_r metaStr (lit " ") with
      | (None, _) => Ret ((-1)%Z, Some m)
      | (Some _, st) =>
      match strtok_r st (lit " ") with
      | (None, _) => Ret ((-1)%Z, Some m)
      | (Some runner, st) =>
      let fs := strncpy (fsType m) runner COMINIT_FSTYPE_STR_MAX_LEN in
      let m := set_fsType m (take (COMINIT_FSTYPE_STR_MAX_LEN - 1) fs ++ [x00]) in
      match strtok_r st (lit " ") with
      | (None, _) => Ret ((-1)%Z, Some m)
      | (Some runner, st) =>
      if negb (strcmp_eq runner (lit "ro") || strcmp_eq runner (lit "rw")) then Ret ((-1)%Z, Some m) else
      let m := set_ro m (strcmp_eq runner (lit "ro")) in
      match strtok_r st (lit " ") with
      | (None, _) => Ret ((-1)%Z, Some m)
      | (Some runner, st) =>
      match parseCryptField runner with
      | None => Ret ((-1)%Z, Some m)
      | Some c =>
      let m := set_crypt m c in
      if bool_decide (Z.lxor (crypt m) (Z.lor COMINIT_CRYPTOPT_VERITY COMINIT_CRYPTOPT_INTEGRITY) = 0)%Z
      then Ret ((-1)%Z, Some m) else
      (* Default case (plain) means two empty strings as device mapper tables. *)
      let m := set_dmTableVerint m (<[0 := x00]> (dmTableVerint m)) in
      let m := set_dmTableCrypt m (<[0 := x00]> (dmTableCrypt m)) in
      cominitParseMetadata_tables m dmTblVerintStr (dmTblCryptStr ++ x00 :: after)
      end end end end end end end
  | _, _ => Ret ((-1)%Z, meta)
  end.

(** ** Loading *)

(** [fuel] bounds the number of reads. *)
Definition cominitLoadVerifyMetadata (fuel : nat) (m : cominitRfsMetaData_t) (keyfile : path)
    : prog (Z * cominitRfsMetaData_t) :=
  partFd ← sys (Open (cstr (devicePath m)) O_RDONLY);
  match partFd with
  | Err _ => Ret ((-1)%Z, m)
  | Ok partFd =>
      '(r, partSize) ← cominitCommonGetPartSize (Some 0%Z) partFd;
      if bool_decide (r = -1)%Z then sys_ (Close partFd);; Ret ((-1)%Z, m) else
      let metadataOffset := i64 (u64 (default 0%Z partSize - Z.of_nat COMINIT_PART_META_DATA_SIZE)) in
      '(r, metabuf) ← cominitBinReadall fuel (Some (replicate COMINIT_PART_META_DATA_SIZE x00))
                        partFd metadataOffset COMINIT_PART_META_DATA_SIZE;
      if bool_decide (r = -1)%Z then sys_ (Close partFd);; Ret ((-1)%Z, m) else
      sys_ (Close partFd);;
      let metabuf := default [] metabuf in
      let metaLen := strnlen metabuf COMINIT_PART_META_DATA_SIZE in
      if bool_decide (COMINIT_PART_META_DATA_SIZE - COMINIT_PART_META_SIG_LENGTH - 1 <= metaLen)
      then Ret ((-1)%Z, m) else
      let pSig := drop (metaLen + 1) metabuf in
      r ← cominitCryptoVerifySignature (take (metaLen + 1) metabuf) pSig keyfile;
      if bool_decide (r = -1)%Z then Ret ((-1)%Z, m) else
      '(r, m') ← cominitParseMetadata (Some m) (Some (cstr metabuf)) pSig;
      if bool_decide (r = -1)%Z then Ret ((-1)%Z, default m m') else Ret (0%Z, default m m')
  end.
End Meta.

(** ** Resources *)
Section MetaProps.
Context `{Libc} `{MbedTLS}.

Lemma balanced_Readall_loop fuel buf fd len : balanced (cominitBinReadall_loop fuel buf fd len).
Proof.
  revert buf len. induction fuel; intros buf len; cbn [cominitBinReadall_loop]; balanced_auto.
Qed.
Lemma balanced_BytesToHex_loop d s i n : balanced (cominitBytesToHex_loop d s i n).
Proof. revert d i. induction n; intros d i; cbn [cominitBytesToHex_loop]; balanced_auto. Qed.
#[local] Hint Resolve balanced_Readall_loop balanced_BytesToHex_loop : balanced.
Lemma balanced_Readall fuel buf fd off len : balanced (cominitBinReadall fuel buf fd off len).
Proof. unfold cominitBinReadall. balanced_auto. Qed.
Lemma balanced_BytesToHex d s n : balanced (cominitBytesToHex d s n).
Proof. unfold cominitBytesToHex. balanced_auto. Qed.
#[local] Hint Resolve balanced_Readall balanced_BytesToHex : balanced.
Lemma balanced_Verity m s : balanced (cominitGenVerityDmTbl m s).
Proof. unfold cominitGenVerityDmTbl. balanced_auto. Qed.
Lemma balanced_IntegrityOption o b : balanced (cominitIntegrityOption o b).
Proof. unfold cominitIntegrityOption. balanced_auto. Qed.
#[local] Hint Resolve balanced_IntegrityOption : balanced.
Lemma balanced_Integrity_loop fuel o b st a p : balanced (cominitGenIntegrityDmTbl_loop fuel o b st a p).
Proof. revert o b st p. induction fuel; intros [|] b st p; cbn [cominitGenIntegrityDmTbl_loop]; balanced_auto. Qed.
#[local] Hint Resolve balanced_Verity balanced_Integrity_loop : balanced.
Lemma balanced_Integrity m s a : balanced (cominitGenIntegrityDmTbl m s a).
Proof. unfold cominitGenIntegrityDmTbl. balanced_auto. Qed.
#[local] Hint Resolve balanced_Integrity : balanced.
Lemma balanced_Parse_tables m s a : balanced (cominitParseMetadata_tables m s a).
Proof. unfold cominitParseMetadata_tables. balanced_auto. Qed.
#[local] Hint Resolve balanced_Parse_tables : balanced.
Lemma balanced_Parse m s a : balanced (cominitParseMetadata m s a).
Proof. unfold cominitParseMetadata. balanced_auto. Qed.
#[local] Hint Resolve balanced_Parse : balanced.
Lemma balanced_LoadVerify fuel m k : balanced (cominitLoadVerifyMetadata fuel m k).
Proof. unfold cominitLoadVerifyMetadata. balanced_auto. Qed.
End MetaProps.
#[export] Hint Resolve balanced_LoadVerify : balanced.
