(* ===== verification/MetaProofs.v ===== *)
(** * MetaProofs: correctness of the metadata handling of Meta.v *)
From S2P Require Import Prelude CString Sys Output Common Crypto Keyring Meta.

Section Proofs.
Context `{Libc} `{MbedTLS}.

(** ** Hexadecimal keys *)

(** The reference: two lower-case digits per byte. *)
Definition bytes_hex (l : list byte) : list byte := flat_map (λ b, hex_fixed 2 (bz b)) l.
(** Reading the digits back. *)
Fixpoint unhex (s : list byte) : option (list byte) :=
  match s with
  | [] => Some []
  | a :: b :: r =>
      match digit_val a, digit_val b, unhex r with
      | Some x, Some y, Some l => Some (zb (16 * x + y) :: l)
      | _, _, _ => None
      end
  | _ => None
  end.

Lemma hex2_digits b : ∃ x y, hex_fixed 2 (bz b) = [hexdigit x; hexdigit y] ∧
  (0 <= x < 16)%Z ∧ (0 <= y < 16)%Z ∧ (16 * x + y = bz b)%Z.
Proof.
  pose proof (bz_range b).
  assert (0 <= bz b / 16 < 16)%Z by (split; [apply Z.div_pos|apply Z.div_lt_upper_bound]; lia).
  exists (bz b / 16)%Z, (bz b `mod` 16)%Z. split.
  - cbn [hex_fixed app]. by rewrite (Z.mod_small (bz b / 16)) by lia.
  - pose proof (Z.mod_pos_bound (bz b) 16). pose proof (Z.div_mod (bz b) 16). lia.
Qed.
Lemma unhex_bytes_hex l : unhex (bytes_hex l) = Some l.
Proof.
  induction l as [|b l IH]; [done|]. cbn [bytes_hex flat_map].
  destruct (hex2_digits b) as (x & y & -> & Hx & Hy & E). cbn [app unhex].
  rewrite !hexdigit_val by done. fold (bytes_hex l). rewrite IH, E, zb_bz. done.
Qed.
Lemma bytes_hex_length l : length (bytes_hex l) = 2 * length l.
Proof. induction l as [|b l IH]; [done|]. cbn [bytes_hex flat_map]. rewrite length_app, hex_fixed_length.
  fold (bytes_hex l). rewrite IH. simpl. lia. Qed.
Lemma bytes_hex_nonul l : nonul (bytes_hex l).
Proof. induction l as [|b l IH]; [apply nonul_nil|]. cbn [bytes_hex flat_map]. apply nonul_app.
  split; [apply hex_fixed_nonul|done]. Qed.
Lemma bytes_hex_cons b l : bytes_hex (b :: l) = hex_fixed 2 (bz b) ++ bytes_hex l.
Proof. done. Qed.

(** The loop writes the digits of [src[i..i+n)] after the first [2i] bytes and
    terminates the string. *)
Lemma BytesToHex_loop_spec s n : ∀ d i,
  i + n <= length s → 2 * (i + n) + 1 <= length d →
  ∃ d', cominitBytesToHex_loop d s i n = Ret (0%Z, d') ∧ length d' = length d ∧
        if bool_decide (n = 0) then d' = d
        else ∃ r, d' = take (2 * i) d ++ bytes_hex (take n (drop i s)) ++ x00 :: r.
Proof.
  induction n as [|n IH]; intros d i Hs Hd; [by exists d|]. cbn [cominitBytesToHex_loop].
  destruct (lookup_lt_is_Some_2 s i) as [b Hb]; [lia|]. rewrite Hb.
  rewrite bool_decide_false by lia.
  set (hx := hex_fixed 2 (bz b)). assert (length hx = 2) as Hhx by apply hex_fixed_length.
  set (d1 := take (2 * i) d ++ snprintf (drop (2 * i) d) 3 hx).
  assert (d1 = (take (2 * i) d ++ hx) ++ x00 :: drop (2 * i + 3) d) as E1.
  { unfold d1, snprintf, overwrite. rewrite (take_ge hx) by lia.
    rewrite drop_drop, length_app, Hhx, <-!app_assoc. simpl. done. }
  assert (length d1 = length d) as Hl1.
  { unfold d1. rewrite length_app, snprintf_length, length_take, length_drop; [lia|].
    rewrite length_drop. lia. }
  destruct (IH d1 (S i)) as (d' & -> & Hl' & Hd'); [lia|lia|].
  exists d'. split; [done|]. split; [lia|].
  assert (take (S n) (drop i s) = b :: take n (drop (S i) s)) as Es.
  { by rewrite (drop_S s b i Hb). }
  rewrite Es, bytes_hex_cons. fold hx. case_bool_decide.
  - subst n d'. rewrite E1. exists (drop (2 * i + 3) d). cbn [take bytes_hex flat_map]. by rewrite app_nil_r, <-!app_assoc.
  - destruct Hd' as [r ->]. exists r. rewrite <-!app_assoc.
    assert (take (2 * S i) d1 = take (2 * i) d ++ hx) as ->; [|by rewrite <-app_assoc].
    rewrite E1. apply take_app_length'. rewrite length_app, length_take. lia.
Qed.

Lemma BytesToHex_ok d s n :
  0 < n → n <= length s → 2 * n + 1 <= length d →
  ∃ d', cominitBytesToHex (Some d) (Some s) n = Ret (0%Z, Some d') ∧
        length d' = length d ∧ cstr d' = bytes_hex (take n s).
Proof.
  intros Hn Hs Hd. unfold cominitBytesToHex.
  destruct (BytesToHex_loop_spec s n d 0) as (d' & -> & Hl & Hd'); [lia|lia|].
  rewrite bool_decide_false in Hd' by lia. destruct Hd' as [r E]. exists d'.
  change (take (2 * 0) d) with (@nil byte) in E. rewrite drop_0 in E. cbn [app] in E.
  assert (cstr d' = bytes_hex (take n s)) as -> by (rewrite E; apply cstr_app, bytes_hex_nonul). done.
Qed.

(** With a destination of at least 2n+1 bytes cominitBytesToHex writes two lower-case digits per byte
    and a NUL, stays within the buffer, and the digits decode to the source bytes. *)
Theorem bytes_to_hex_roundtrip d s n
    (Hn : 0 < n) (Hs : n <= length s) (Hd : 2 * n + 1 <= length d) :
  ∃ d', cominitBytesToHex (Some d) (Some s) n = Ret (0%Z, Some d') ∧
        length d' = length d ∧ cstr d' = bytes_hex (take n s) ∧ unhex (cstr d') = Some (take n s).
Proof.
  destruct (BytesToHex_ok d s n) as (d' & E & Hl & Hc); [done..|]. exists d'.
  split_and!; [done|done|done|]. rewrite Hc. apply unhex_bytes_hex.
Qed.

(** ** Reading the region *)

(** What [read] promises at a position before the end of the device: at least
    one byte and at most what was asked for, or an error. *)
Definition read_progress (e : event) : Prop :=
  let '(Event c r) := e in
  match c return reply c → Prop with
  | Read _ n => λ r, match r with Ok bs => length bs <= n ∧ (0 < n → 0 < length bs) | Err _ => True end
  | _ => λ _, True
  end r.

Lemma wp_Readall_loop_terminates {S} (upd : S → event → S) fuel buf fd len s :
  len <= fuel →
  wp upd (λ _, read_progress) (cominitBinReadall_loop fuel buf fd len)
    (λ o _, ∃ r b, o = Done (r, b)) s.
Proof.
  revert buf len s. induction fuel as [|fuel IH]; intros buf len s Hl; cbn [cominitBinReadall_loop].
  - rewrite bool_decide_true by lia. simpl. eauto.
  - case_bool_decide; [simpl; eauto|]. apply wp_sys. intros [bs|e] Hr; [|simpl; eauto].
    simpl in Hr. rewrite bool_decide_false by lia. apply IH. lia.
Qed.

(** If every read returns an error or at least one and at most the requested number of bytes,
    cominitBinReadall returns after at most len reads, without writing beyond its buffer. *)
Theorem readall_terminates fuel buf fd off len (o : oracle)
    (Ho : ∀ h c, read_progress (Event c (o h c))) (Hl : len <= fuel) :
  ∃ r b, (run o [] (cominitBinReadall fuel buf fd off len)).1 = Done (r, b).
Proof.
  pose (upd := λ (_ : unit) (_ : event), tt).
  assert (wp upd (λ _, read_progress) (cominitBinReadall fuel buf fd off len)
            (λ o _, ∃ r b, o = Done (r, b)) tt) as Hw.
  { destruct buf as [b|]; [|simpl; eauto]. unfold cominitBinReadall. case_bool_decide; [simpl; eauto|].
    apply wp_sys. intros [[]|e] _; [|simpl; eauto].
    eapply wp_call; [by apply wp_Readall_loop_terminates| |].
    - intros [r b'] s' _. simpl. eauto.
    - by intros e s' (r & b' & ?). }
  by apply (wp_run upd _ _ _ tt o (λ h c, Ho h c) []) in Hw.
Qed.

(** One full read fills the buffer with the bytes of the device. *)
Theorem readall_exact fuel (buf bs : list byte) fd off (o : oracle)
    (Hoff : (0 <= off)%Z) (Hlen : length bs = length buf) (Hf : 0 < fuel)
    (Hseek : ∀ h, o h (Lseek fd off) = Ok tt)
    (Hread : ∀ h, o h (Read fd (length buf)) = Ok bs) :
  (run o [] (cominitBinReadall fuel (Some buf) fd off (length buf))).1 = Done (0%Z, Some bs).
Proof.
  unfold cominitBinReadall. rewrite bool_decide_false by lia. rewrite run_sys, Hseek.
  rewrite run_bind. destruct fuel as [|fuel]; [lia|]. cbn [cominitBinReadall_loop].
  case_bool_decide as E.
  - destruct buf; [|done]. by destruct bs.
  - rewrite run_sys, Hread. rewrite bool_decide_false by lia.
    rewrite Hlen, Nat.sub_diag.
    assert (overwrite buf bs = bs) as -> by (unfold overwrite; rewrite drop_ge, app_nil_r by lia; done).
    by destruct fuel.
Qed.

(** C36: At the end of the device, where read returns 0, cominitBinReadall never returns: every bound on
    the number of reads is exhausted. *)
Theorem readall_spins_at_eof fuel buf fd off len (o : oracle)
    (Hoff : (0 <= off)%Z) (Hlen : 0 < len)
    (Hseek : ∀ h, o h (Lseek fd off) = Ok tt)
    (Heof : ∀ h n, o h (Read fd n) = Ok []) :
  (run o [] (cominitBinReadall fuel (Some buf) fd off len)).1 = Ended NoFuel.
Proof.
  assert (∀ h b, (run o h (cominitBinReadall_loop fuel b fd len)).1 = Ended NoFuel) as Hl.
  { induction fuel as [|fuel IH]; intros h b; cbn [cominitBinReadall_loop];
      rewrite bool_decide_false by lia; [done|]. rewrite run_sys, Heof. cbn [length].
    rewrite bool_decide_false by lia. rewrite Nat.sub_0_r.
    match goal with |- context [run o ?h' (cominitBinReadall_loop fuel ?b' fd len)] =>
      specialize (IH h' b'); destruct (run o h' _) as [out t] end. exact IH. }
  unfold cominitBinReadall. rewrite bool_decide_false by lia. rewrite run_sys, Hseek.
  rewrite run_bind.
  match goal with |- context [run o ?h' (cominitBinReadall_loop fuel ?b' fd len)] =>
    specialize (Hl h' b'); destruct (run o h' _) as [out t] end. simpl in Hl. by subst out.
Qed.

(** When the region arrives in two short reads, the second one overwrites the beginning of the first. *)
Theorem readall_short_reads_overlap fuel (buf b1 b2 : list byte) fd
    (H1 : 0 < length b1) (H2 : 0 < length b2) (Hf : 2 <= fuel)
    (Hlen : length b1 + length b2 = length buf) :
  ∃ buf', exec (cominitBinReadall_loop fuel buf fd (length buf)) (Done (0%Z, buf'))
            [Event (Read fd (length buf)) (Ok b1); Event (Read fd (length b2)) (Ok b2)] ∧
          take (length b2) buf' = b2.
Proof.
  destruct fuel as [|[|fuel]]; [lia|lia|]. exists (overwrite (overwrite buf b1) b2). split.
  - cbn [cominitBinReadall_loop]. rewrite bool_decide_false by lia.
    apply exec_sys. cbn. rewrite bool_decide_false by lia.
    replace (length buf - length b1) with (length b2) by lia.
    rewrite bool_decide_false by lia. apply exec_sys. cbn. rewrite bool_decide_false by lia.
    rewrite Nat.sub_diag. destruct fuel; apply exec_ret.
  - unfold overwrite at 1. apply take_app_length.
Qed.

(** ** Well-formedness *)

(** Every result of the three parsing functions is well-formed metadata for
    the same device, also on their error paths. *)
Definition meta_result (m : cominitRfsMetaData_t) (o : outcome (Z * option cominitRfsMetaData_t)) : Prop :=
  match o with Done (_, m') => ∃ m1, m' = Some m1 ∧ meta_upd m m1 | Ended _ => True end.

Ltac meta_auto := repeat (wp_step; cbv beta zeta); unfold meta_result; cbn [dmVerintDataSizeBytes];
  try (eexists; split; [reflexivity|]); auto with meta.

Lemma Verity_wf m m' s : meta_upd m m' → yields (cominitGenVerityDmTbl (Some m') (Some s)) (meta_result m).
Proof. intros Hm. unfold cominitGenVerityDmTbl, yields. meta_auto. Qed.

Lemma Integrity_wf m m' s a : meta_upd m m' → yields (cominitGenIntegrityDmTbl (Some m') (Some s) a) (meta_result m).
Proof.
  intros Hm. unfold cominitGenIntegrityDmTbl, yields.
  repeat lazymatch goal with
  | |- wp _ _ (bind (cominitGenIntegrityDmTbl_loop _ _ _ _ _ _) _) _ _ =>
      apply wp_skip; [intros [? ?] ?|done]
  | _ => wp_step; cbv beta zeta
  end; meta_auto.
Qed.

Lemma parseCryptField_range r c : parseCryptField r = Some c → (0 <= c < 8)%Z ∧ c ≠ 3%Z.
Proof.
  unfold parseCryptField. repeat case_match; intros [= <-];
    (split; [split; by vm_compute|by vm_compute]).
Qed.

Lemma Parse_tables_wf m m2 s a : meta_upd m m2 → yields (cominitParseMetadata_tables m2 s a) (meta_result m).
Proof.
  intros H2. eapply (wp_call _ _ _ _ (λ o _, meta_result m o)); [| |done].
  - case_bool_decide; [by apply Verity_wf|by eexists].
  - intros [r m3] s' (m4 & -> & H4). case_bool_decide; [by eexists|].
    eapply (wp_call _ _ _ _ (λ o _, meta_result m o)); [| |done].
    + case_bool_decide; [by apply (wp_yields upd_none), Integrity_wf|by eexists].
    + intros [r' m5] s'' (m6 & -> & H6). case_bool_decide; by eexists.
Qed.

Lemma Parse_wf m s a : meta_wf m → yields (cominitParseMetadata (Some m) (Some s) a) (meta_result m).
Proof.
  intros Hm%meta_upd_refl. unfold cominitParseMetadata, yields.
  repeat (wp_step; cbv beta zeta);
  lazymatch goal with
  | |- wp _ _ (cominitParseMetadata_tables _ _ _) _ _ => apply (wp_yields upd_none), Parse_tables_wf, meta_upd_cutCrypt, meta_upd_cutVerint
  | |- meta_result _ _ => eexists; split; [reflexivity|]
  end;
  try (apply meta_upd_crypt; [|by eapply parseCryptField_range]); auto with meta.
Qed.

(** The parsing functions return 0 or -1, and 0 with a structure. *)
Definition code_result (o : outcome (Z * option cominitRfsMetaData_t)) : Prop :=
  match o with Done (r, m) => (r = 0%Z ∨ r = (-1)%Z) ∧ m ≠ None | Ended _ => True end.
Ltac code_auto := repeat (wp_step; cbv beta zeta); split; auto.
Lemma Verity_code m s : yields (cominitGenVerityDmTbl (Some m) (Some s)) code_result.
Proof. unfold yields, cominitGenVerityDmTbl. code_auto. Qed.
Lemma Integrity_code m s a : yields (cominitGenIntegrityDmTbl (Some m) (Some s) a) code_result.
Proof.
  unfold cominitGenIntegrityDmTbl, yields.
  repeat lazymatch goal with
  | |- wp _ _ (bind (cominitGenIntegrityDmTbl_loop _ _ _ _ _ _) _) _ _ =>
      apply wp_skip; [intros [? ?] ?|done]
  | _ => wp_step; cbv beta zeta
  end; code_auto.
Qed.
Lemma Parse_tables_code m s a : yields (cominitParseMetadata_tables m s a) code_result.
Proof.
  eapply (wp_call _ _ _ _ (λ o _, code_result o)); [| |done].
  - case_bool_decide; [apply Verity_code|by split; [left|]].
  - intros [r m3] s' [Hr Hm]. destruct m3 as [m3|]; [|done]. case_bool_decide; [by split; [right|]|].
    eapply (wp_call _ _ _ _ (λ o _, code_result o)); [| |done].
    + case_bool_decide; [apply (wp_yields upd_none), Integrity_code|by split; [left|]].
    + intros [r' m5] s'' [Hr' Hm']. case_bool_decide; by split; auto.
Qed.
Lemma Parse_code m s a : yields (cominitParseMetadata (Some m) (Some s) a) code_result.
Proof.
  unfold cominitParseMetadata, yields.
  repeat (wp_step; cbv beta zeta);
  lazymatch goal with
  | |- wp _ _ (cominitParseMetadata_tables _ _ _) _ _ => apply (wp_yields upd_none), Parse_tables_code
  | |- code_result _ => by split; [right|]
  end.
Qed.

(** ** Loading *)

(** The reads that fill a region of [len] bytes: each asks for what is still
    missing. *)
Fixpoint read_trace (fd : Z) (len : nat) (reads : list (list byte)) : trace :=
  match reads with
  | [] => []
  | bs :: reads => Event (Read fd len) (Ok bs) :: read_trace fd (len - length bs) reads
  end.
(** What they leave in a zeroed buffer: every read stores at its start. *)
Definition region_of (reads : list (list byte)) : list byte :=
  foldl overwrite (replicate COMINIT_PART_META_DATA_SIZE x00) reads.

Lemma region_of_single bs : length bs = COMINIT_PART_META_DATA_SIZE → region_of [bs] = bs.
Proof.
  intros Hl. unfold region_of. cbn [foldl]. unfold overwrite. rewrite drop_ge, app_nil_r; [done|].
  rewrite length_replicate. lia.
Qed.

(** The trace of a successful load: the device is opened and measured, the
    position set to the start of its last [COMINIT_PART_META_DATA_SIZE] bytes,
    the region read, the text with its NUL verified against the bytes that
    follow it, and only then the text parsed. *)
Definition meta_loaded (m : cominitRfsMetaData_t) (keyfile : path)
    (m' : cominitRfsMetaData_t) (t : trace) : Prop :=
  ∃ fd size off reads data sig tv tp,
    t = [Event (Open (cstr (devicePath m)) O_RDONLY) (Ok fd); Event (IoctlBlkGetSize64 fd) (Ok size);
         Event (Lseek fd off) (Ok tt)] ++ read_trace fd COMINIT_PART_META_DATA_SIZE reads ++
        [Event (Close fd) tt] ++ tv ++ tp ∧
    off = i64 (u64 (size - 4096)) ∧ (0 <= off)%Z ∧
    sum_list_with length reads = COMINIT_PART_META_DATA_SIZE ∧
    region_of reads = data ++ x00 :: sig ∧
    nonul data ∧ length data + 1 + length sig = COMINIT_PART_META_DATA_SIZE ∧
    COMINIT_PART_META_SIG_LENGTH < length sig ∧
    verification_trace keyfile (data ++ [x00]) sig tv ∧
    exec (cominitParseMetadata (Some m) (Some data) sig) (Done (0%Z, Some m')) tp.

(** On a device whose size is below 2^63 the offset is the one of the last
    4096 bytes, and there are that many. *)
Lemma region_offset size :
  (0 <= size < 2 ^ 63)%Z → (0 <= i64 (u64 (size - 4096)))%Z →
  i64 (u64 (size - 4096)) = (size - 4096)%Z ∧ (4096 <= size)%Z.
Proof.
  intros Hs. unfold u64. destruct (decide (4096 <= size)%Z).
  - rewrite Z.mod_small, i64_u64 by lia. case_decide; lia.
  - replace (size - 4096)%Z with (size - 4096 + 2 ^ 64 + (-1) * 2 ^ 64)%Z by lia.
    rewrite Z.mod_add, Z.mod_small, i64_u64 by lia. case_decide; lia.
Qed.

Lemma wp_Readall_loop fuel buf fd len t0 :
  wp upd_trace any_env (cominitBinReadall_loop fuel buf fd len)
    (λ o t, match o with
            | Done (r, b) => (r = 0%Z ∧ ∃ reads, t = t0 ++ read_trace fd len reads ∧
                                sum_list_with length reads = len ∧ b = foldl overwrite buf reads) ∨ r = (-1)%Z
            | Ended _ => True end) t0.
Proof.
  revert buf len t0. induction fuel as [|fuel IH]; intros buf len t0; cbn [cominitBinReadall_loop].
  - case_bool_decide; [|done]. left. split; [done|]. exists []. subst. cbn. by rewrite app_nil_r.
  - case_bool_decide.
    { left. split; [done|]. exists []. subst. cbn. by rewrite app_nil_r. }
    apply wp_sys. intros [bs|e] _; [|by right]. case_bool_decide; [done|].
    eapply wp_mono; [|apply IH]. intros [[r b]|e] t; [|done].
    intros [[-> (reads & -> & Hsum & ->)]|Hr]; [left|by right]. split; [done|].
    exists (bs :: reads). unfold upd_trace. rewrite <-app_assoc. split_and!; [done| |done]. cbn. lia.
Qed.
Lemma wp_Readall fuel buf fd off len t0 :
  wp upd_trace any_env (cominitBinReadall fuel (Some buf) fd off len)
    (λ o t, match o with
            | Done (r, b) => (r = 0%Z ∧ (0 <= off)%Z ∧
                                ∃ reads, t = t0 ++ Event (Lseek fd off) (Ok tt) :: read_trace fd len reads ∧
                                sum_list_with length reads = len ∧ b = Some (foldl overwrite buf reads)) ∨ r = (-1)%Z
            | Ended _ => True end) t0.
Proof.
  unfold cominitBinReadall. case_bool_decide; [by right|]. apply wp_sys. intros [[]|e] _; [|by right].
  eapply wp_call; [apply wp_Readall_loop| |done]. intros [r b] t [[-> (reads & -> & Hsum & ->)]|Hr]; [left|by right].
  split; [done|]. split; [lia|]. exists reads. split; [|done]. unfold upd_trace. by rewrite <-app_assoc.
Qed.

Lemma length_region_of reads :
  sum_list_with length reads <= COMINIT_PART_META_DATA_SIZE → length (region_of reads) = COMINIT_PART_META_DATA_SIZE.
Proof.
  unfold region_of. intros Hs.
  assert (∀ buf, sum_list_with length reads <= length buf → length (foldl overwrite buf reads) = length buf) as Hl.
  { clear Hs. induction reads as [|bs reads IH]; intros buf Hb; [done|]. cbn [foldl sum_list_with] in *.
    assert (length (overwrite buf bs) = length buf) as E by (apply length_overwrite; lia).
    rewrite IH by lia. done. }
  rewrite Hl; rewrite length_replicate; done.
Qed.

Lemma wp_LoadVerify fuel m k t0 :
  wp upd_trace any_env (cominitLoadVerifyMetadata fuel m k)
    (λ o t, match o with
            | Done (r, m') => (r = 0%Z ∧ ∃ t', t = t0 ++ t' ∧ meta_loaded m k m' t') ∨ r = (-1)%Z
            | Ended _ => True end) t0.
Proof.
  unfold cominitLoadVerifyMetadata. apply wp_sys. intros [fd|e] _; [|by right].
  unfold cominitCommonGetPartSize. apply wp_bind, wp_sys. intros [size|e] _; [|by right].
  cbn [wp default]. rewrite bool_decide_false by done.
  set (t2 := upd_trace _ _). eapply wp_call; [apply wp_Readall| |done].
  intros [r mb] t3 [[-> (Hoff & reads & -> & Hsum & ->)]| ->]; [rewrite bool_decide_false by done|by right].
  apply wp_sys_. intros [] _. cbn [default]. case_bool_decide as Hmeta; [by right|].
  fold (region_of reads) in *. pose proof (length_region_of reads ltac:(lia)) as Hlen.
  set (metabuf := region_of reads) in *.
  unfold strnlen, id in *. assert (take COMINIT_PART_META_DATA_SIZE metabuf = metabuf) as Et by (apply take_ge; lia).
  rewrite Et in Hmeta |- *. clear Et.
  destruct (cstr_lt_split metabuf) as [sig E].
  { unfold COMINIT_PART_META_DATA_SIZE in *. lia. }
  set (data := cstr metabuf) in *. assert (nonul data) as Hn by apply cstr_nonul.
  assert (length metabuf = length data + 1 + length sig) as El by (rewrite E at 1; rewrite length_app; simpl; lia).
  assert (take (length data + 1) metabuf = data ++ [x00]) as ->.
  { rewrite E, cons_middle, app_assoc. apply take_app_length'. rewrite length_app. done. }
  assert (drop (length data + 1) metabuf = sig) as ->.
  { rewrite E, cons_middle, app_assoc. apply drop_app_length'. rewrite length_app. done. }
  eapply wp_call; [apply wp_VerifySignature| |done].
  intros r t4 [[-> (tv & -> & Hver)]|[-> _]]; [rewrite bool_decide_false by done|by right].
  eapply wp_call; [apply wp_and; [apply wp_exec|apply wp_yields, Parse_code]| |done].
  intros [r m'] t5 [(tp & -> & Hparse) [Hr Hm']]. case_bool_decide; [by right|].
  destruct Hr as [->|]; [|done]. destruct m' as [m'|]; [|done]. left. split; [done|].
  eexists. split; [subst t2; unfold upd_trace; rewrite <-!app_assoc; reflexivity|].
  exists fd, size, (i64 (u64 (size - 4096))), reads, data, sig, tv, tp.
  split_and!; try done; unfold COMINIT_PART_META_DATA_SIZE, COMINIT_PART_META_SIG_LENGTH in *; lia.
Qed.
End Proofs.
