(* ===== verification/MetaSpec.v ===== *)
(** * MetaSpec: what the metadata parser of Meta.v computes

    The printers of this file write metadata in the format of the README;
    the theorems say what the parser makes of printed metadata: the fields of
    the structure, the device mapper tables and their sizes. *)
From S2P Require Import Prelude CString Sys Output Common Crypto Keyring Meta MetaProofs.

(** ** The printed form *)

(** A field of the text: a word without the separators 0xff and NUL. *)
Definition field (s : list byte) : Prop := is_token (lit " ") s ∧ (Byte.xff ∉ s) ∧ nonul s.
#[global] Instance field_dec s : Decision (field s) := ltac:(unfold field, nonul; apply _).
(** Text of a table: no separators. *)
Definition table_text (s : list byte) : Prop := (Byte.xff ∉ s) ∧ nonul s.
#[global] Instance table_text_dec s : Decision (table_text s) := ltac:(unfold table_text, nonul; apply _).

(** Fields separated by single spaces. *)
Fixpoint spaced (ws : list (list byte)) : list byte :=
  match ws with [] => [] | [w] => w | w :: ws => w ++ Byte.x20 :: spaced ws end.

(** Version, file system type, mode, features; the two tables follow. *)
Definition meta_text (ver fs mode feat vtbl ctbl : list byte) : list byte :=
  spaced [ver; fs; mode; feat] ++ Byte.xff :: vtbl ++ Byte.xff :: ctbl.

Lemma field_token s : field s → is_token (lit " ") s.
Proof. by intros []. Qed.
Lemma strtok_field s r : field s → strtok_r (s ++ Byte.x20 :: r) (lit " ") = (Some s, r).
Proof. intros H. apply strtok_r_cons; [by apply field_token|]. apply list_elem_of_singleton. done. Qed.
Lemma strtok_field_last s : field s → strtok_r s (lit " ") = (Some s, []).
Proof. intros H. by apply strtok_r_last, field_token. Qed.
Lemma field_lit_dec (s : list byte) : bool_decide (field s) = true → field s.
Proof. apply bool_decide_eq_true. Qed.

Lemma strchr_head a r : Byte.xff ∉ a → strchr (a ++ Byte.xff :: r) Byte.xff = Some (a, r).
Proof. intros H. by apply strchr_Some. Qed.
Lemma spaced_noff ws : Forall field ws → Byte.xff ∉ spaced ws.
Proof.
  induction 1 as [|w ws Hw Hws IH]; [apply not_elem_of_nil|]. destruct Hw as (_ & Hw & _).
  destruct ws as [|w' ws]; [done|]. cbn [spaced]. rewrite elem_of_app, elem_of_cons.
  by intros [?|[?|?]].
Qed.

Section Spec.
Context `{Libc} `{MbedTLS}.

(** The structure before the tables are generated. *)
Definition with_fields (m : cominitRfsMetaData_t) (fs : list byte) (isro : bool) (c : Z) : cominitRfsMetaData_t :=
  let m := set_fsType m (take (COMINIT_FSTYPE_STR_MAX_LEN - 1)
                           (strncpy (fsType m) fs COMINIT_FSTYPE_STR_MAX_LEN) ++ [x00]) in
  let m := set_crypt (set_ro m isro) c in
  set_dmTableCrypt (set_dmTableVerint m (<[0 := x00]> (dmTableVerint m))) (<[0 := x00]> (dmTableCrypt m)).

(** The parser on printed metadata, up to the tables. *)
Lemma Parse_text m r fs mode feat c vtbl ctbl after :
  field (lit "1" ++ r) → field fs → mode = lit "ro" ∨ mode = lit "rw" → parseCryptField feat = Some c → table_text vtbl →
  cominitParseMetadata (Some m) (Some (meta_text (lit "1" ++ r) fs mode feat vtbl ctbl)) after =
    cominitParseMetadata_tables (with_fields m fs (strcmp_eq mode (lit "ro")) c) vtbl (ctbl ++ x00 :: after).
Proof.
  intros H1 Hfs Hmode Hfeat [Hv _].
  assert (field mode) as Hm by (destruct Hmode; subst; apply field_lit_dec; by vm_compute).
  assert (field feat) as Hf.
  { apply field_lit_dec. revert Hfeat. unfold parseCryptField, strcmp_eq.
    repeat (case_bool_decide; [subst; by vm_compute|]). done. }
  assert (c ≠ 3%Z) as Hc by by apply (parseCryptField_range feat).
  unfold cominitParseMetadata, meta_text.
  replace (strncmp_eq _ _ _) with true by done. cbn [negb].
  rewrite strchr_head by (apply spaced_noff; by repeat (apply Forall_cons; split)).
  rewrite strchr_head by done. cbn [spaced].
  rewrite strtok_field by done. cbv beta zeta. rewrite strtok_field by done. cbv beta zeta.
  rewrite strtok_field by done. cbv beta zeta.
  replace (negb _) with false by (destruct Hmode; subst; by vm_compute). cbv iota.
  rewrite strtok_field_last by done. rewrite Hfeat. cbn [crypt set_crypt].
  rewrite bool_decide_false; [done|]. intros E%Z.lxor_eq. by rewrite E in Hc.
Qed.

Lemma Parse_tables_none m s after :
  crypt m ≠ COMINIT_CRYPTOPT_VERITY → crypt m ≠ COMINIT_CRYPTOPT_INTEGRITY →
  cominitParseMetadata_tables m s after = Ret (0%Z, Some m).
Proof.
  intros Hv Hi. unfold cominitParseMetadata_tables. rewrite (bool_decide_false (_ = COMINIT_CRYPTOPT_VERITY)) by done.
  rewrite bind_ret. rewrite (bool_decide_false (_ = (-1)%Z)) by done.
  rewrite (bool_decide_false (_ = COMINIT_CRYPTOPT_INTEGRITY)) by done. by rewrite bind_ret.
Qed.
Lemma Parse_tables_verity m s after r m' :
  crypt m = COMINIT_CRYPTOPT_VERITY → crypt m' = COMINIT_CRYPTOPT_VERITY → r = 0%Z ∨ r = (-1)%Z →
  cominitGenVerityDmTbl (Some m) (Some s) = Ret (r, Some m') →
  cominitParseMetadata_tables m s after = Ret (r, Some m').
Proof.
  intros Hv Hv' Hr E. unfold cominitParseMetadata_tables. rewrite (bool_decide_true _ Hv), E, bind_ret.
  destruct Hr as [->| ->]; [|done]. rewrite (bool_decide_false (_ = (-1)%Z)) by done.
  rewrite (bool_decide_false (_ = COMINIT_CRYPTOPT_INTEGRITY)) by by rewrite Hv'. by rewrite bind_ret.
Qed.
Lemma Parse_tables_integrity m s after :
  crypt m = COMINIT_CRYPTOPT_INTEGRITY →
  cominitParseMetadata_tables m s after =
    ('(r, m') ← cominitGenIntegrityDmTbl (Some m) (Some s) after;
     if bool_decide (r = -1)%Z then Ret ((-1)%Z, m') else Ret (0%Z, m')).
Proof.
  intros Hi. unfold cominitParseMetadata_tables.
  rewrite (bool_decide_false (_ = COMINIT_CRYPTOPT_VERITY)) by by rewrite Hi.
  rewrite bind_ret. rewrite (bool_decide_false (_ = (-1)%Z)) by done. by rewrite (bool_decide_true _ Hi).
Qed.

(** The feature words without a table of dm-verity or dm-integrity, with the
    mask each stands for: bit 0 is verity, bit 1 integrity, bit 2 encryption. *)
Definition plain_features : list (list byte * Z) :=
  [(lit "plain", 0%Z); (lit "crypt", 4%Z); (lit "crypt-integrity", 6%Z); (lit "crypt-verity", 5%Z)].
Lemma plain_features_parsed feat c :
  (feat, c) ∈ plain_features →
  parseCryptField feat = Some c ∧ c ≠ COMINIT_CRYPTOPT_VERITY ∧ c ≠ COMINIT_CRYPTOPT_INTEGRITY.
Proof.
  unfold plain_features. rewrite !elem_of_cons, elem_of_nil.
  intros [E|[E|[E|[E|[]]]]]; apply pair_eq in E as [-> ->]; (split; [by vm_compute|done]).
Qed.

(** C29: Metadata text printed from a file system type, a mode and one of the feature words plain,
    crypt, crypt-integrity and crypt-verity is parsed back: the type (cut to 31 bytes), read-only
    exactly for "ro", the masks 0, 4, 6 and 5 of these words, both device-mapper tables empty, and the
    device path and the volume size unchanged. *)
Theorem parse_plain_roundtrip m fs mode feat c vtbl ctbl after
    (Hwf : meta_wf m) (Hfs : field fs) (Hmode : mode = lit "ro" ∨ mode = lit "rw")
    (Hfeat : (feat, c) ∈ plain_features) (Htbl : table_text vtbl) :
  ∃ m', cominitParseMetadata (Some m) (Some (meta_text (lit "1") fs mode feat vtbl ctbl)) after = Ret (0%Z, Some m') ∧
    cstr (fsType m') = take 31 fs ∧ (ro m' = true ↔ mode = lit "ro") ∧ crypt m' = c ∧
    cstr (dmTableVerint m') = [] ∧ cstr (dmTableCrypt m') = [] ∧
    devicePath m' = devicePath m ∧ dmVerintDataSizeBytes m' = dmVerintDataSizeBytes m.
Proof.
  destruct (plain_features_parsed feat c Hfeat) as (Hf & Hc1 & Hc2).
  rewrite (Parse_text m [] fs mode feat c) by (done || by apply field_lit_dec).
  rewrite Parse_tables_none by done. eexists. split; [reflexivity|]. cbn.
  destruct Hwf as [_ [Hl _] _ _ _ [Hv _] [Hcl _]]. repeat split; try done.
  - apply (strncpy_cstr COMINIT_FSTYPE_STR_MAX_LEN); [by vm_compute; lia|done|by apply Hfs].
  - intros E. by apply bool_decide_eq_true in E.
  - intros ->. done.
  - destruct (dmTableVerint m); [done|]. done.
  - destruct (dmTableCrypt m); done.
Qed.

(** ** dm-verity *)

Lemma spaced_cons w ws : ws ≠ [] → spaced (w :: ws) = w ++ Byte.x20 :: spaced ws.
Proof. by destruct ws. Qed.
Lemma spaced_nonul ws : Forall field ws → nonul (spaced ws).
Proof.
  induction 1 as [|w ws Hw Hws IH]; [apply nonul_nil|]. destruct Hw as (_ & _ & Hw).
  destruct ws as [|w' ws]; [done|]. cbn [spaced]. apply nonul_app. split; [done|].
  apply nonul_cons. by split.
Qed.
Lemma spaced_ne ws : ws ≠ [] → Forall field ws → spaced ws ≠ [].
Proof.
  intros Hne Hf. destruct Hf as [|w ws Hw Hws]; [done|]. destruct Hw as ((Hw & _) & _).
  destruct ws; [done|]. cbn [spaced]. by destruct w.
Qed.
(** Reading printed words one by one. *)
Lemma strtok_spaced w ws : field w → strtok_r (spaced (w :: ws)) (lit " ") = (Some w, spaced ws).
Proof.
  intros Hw. destruct ws; [by apply strtok_field_last|]. rewrite spaced_cons by done. by apply strtok_field.
Qed.
Lemma field_dec_num n : (0 <= n < 2 ^ 64)%Z → field (dec n).
Proof.
  intros Hn. destruct (dec_spec n Hn) as (Hne & Hd & _). rewrite Forall_forall in Hd.
  split; [|split; [|by apply dec_nonul]].
  - apply token_nospace. split; [done|]. intros Hx%Hd. done.
  - intros Hx%Hd. done.
Qed.
Lemma strtoul_dec10 n : (0 <= n < 2 ^ 64)%Z → st_val (strtoul 10 (dec n)) = n.
Proof.
  intros Hn. destruct (dec_spec n Hn) as (Hne & Hd & Hv). rewrite <-(app_nil_r (dec n)).
  rewrite strtoul_digits; [done|done|done|done|]. rewrite Hv. unfold ULONG_MAX. lia.
Qed.

(** The table: the device twice behind the version, then the given tail. *)
Definition verity_table (dev ver : list byte) (tail : list (list byte)) : list byte :=
  ver ++ lit " " ++ dev ++ lit " " ++ dev ++ lit " " ++ spaced tail.

Lemma GenVerity_table m ver dbs hbs nb hstart alg extra
    (Hm : crypt m = COMINIT_CRYPTOPT_VERITY) (Hver : field ver)
    (Hdbs : (0 <= dbs < 2 ^ 64)%Z) (Hnb : (0 <= nb < 2 ^ 64)%Z)
    (Hhbs : field hbs) (Hhs : field hstart) (Halg : field alg) (Hextra : Forall field extra) :
  let tail := dec dbs :: hbs :: dec nb :: hstart :: alg :: extra in
  let tbl := verity_table (cstr (devicePath m)) ver tail in
  ∃ m', cominitGenVerityDmTbl (Some m) (Some (spaced (ver :: tail))) =
          Ret (if bool_decide (length tbl < COMINIT_DM_TABLE_SIZE_MAX) then 0%Z else (-1)%Z, Some m') ∧
        crypt m' = COMINIT_CRYPTOPT_VERITY ∧ devicePath m' = devicePath m ∧
        fsType m' = fsType m ∧ ro m' = ro m ∧
        (length tbl < COMINIT_DM_TABLE_SIZE_MAX →
           cstr (dmTableVerint m') = tbl ∧ dmVerintDataSizeBytes m' = u64 (dbs * nb)).
Proof.
  intros tail tbl. assert (Forall field (ver :: tail)) as Hall.
  { repeat (apply Forall_cons; split); auto using field_dec_num. }
  inversion Hall as [|? ? _ Htail]; subst.
  unfold cominitGenVerityDmTbl. rewrite bool_decide_false by tauto.
  rewrite strtok_spaced by done. cbv beta iota zeta.
  rewrite strtok_r_rest by by apply spaced_ne. cbv beta iota zeta.
  fold (verity_table (cstr (devicePath m)) ver tail). fold tbl. case_bool_decide as Hfit.
  { rewrite bool_decide_false by lia. eexists. split; [reflexivity|]. split_and!; [done..|lia]. }
  rewrite bool_decide_true by lia. subst tail.
  do 5 (rewrite strtok_spaced by auto using field_dec_num; cbv beta iota zeta).
  eexists. split; [reflexivity|]. cbn [dmTableVerint dmVerintDataSizeBytes set_dmVerintDataSizeBytes
    set_dmTableVerint crypt devicePath]. rewrite !strtoul_dec10 by done. split_and!; [done..|].
  intros _. split; [|done]. apply snprintf_fits; [lia|]. unfold tbl, verity_table. rewrite !nonul_app.
  repeat split; try apply cstr_nonul; try (by apply Hver); try (by apply spaced_nonul);
    by apply (bool_decide_unpack _).
Qed.

(** C28: On printed dm-verity metadata cominitGenVerityDmTbl produces the reference table, the version
    followed by the device path twice and the given tail, and the volume size as block size times block
    count modulo 2^64; it fails exactly when the table does not fit into 1024 bytes. *)
Theorem verity_table_generated m ver dbs hbs nb hstart alg extra
    (Hm : crypt m = COMINIT_CRYPTOPT_VERITY) (Hver : field ver)
    (Hdbs : (0 <= dbs < 2 ^ 64)%Z) (Hnb : (0 <= nb < 2 ^ 64)%Z)
    (Hhbs : field hbs) (Hhs : field hstart) (Halg : field alg) (Hextra : Forall field extra) :
  let tail := dec dbs :: hbs :: dec nb :: hstart :: alg :: extra in
  let tbl := verity_table (cstr (devicePath m)) ver tail in
  ∃ m', cominitGenVerityDmTbl (Some m) (Some (spaced (ver :: tail))) =
          Ret (if bool_decide (length tbl < COMINIT_DM_TABLE_SIZE_MAX) then 0%Z else (-1)%Z, Some m') ∧
        crypt m' = COMINIT_CRYPTOPT_VERITY ∧ devicePath m' = devicePath m ∧
        (length tbl < COMINIT_DM_TABLE_SIZE_MAX →
           cstr (dmTableVerint m') = tbl ∧ dmVerintDataSizeBytes m' = u64 (dbs * nb)).
Proof.
  intros tail tbl. destruct (GenVerity_table m ver dbs hbs nb hstart alg extra) as (m' & E & H1 & H2 & _ & _ & H3); try done.
  by exists m'.
Qed.

(** ** dm-integrity *)

(** An option of the printed table: passed through, or one that names a key of
    the user keyring, [name:alg::desc]. *)
Inductive iopt := Plain (w : list byte) | Keyed (name alg desc : list byte).
Definition print_opt (o : iopt) : list byte :=
  match o with Plain w => w | Keyed name alg desc => name ++ alg ++ lit "::" ++ desc end.
Definition colon : byte := Byte.x3a.
Definition valid_opt (o : iopt) : Prop :=
  field (print_opt o) ∧
  match o with
  | Plain w => optionalKey w = false
  | Keyed name alg desc => name ∈ keyOpts ∧ alg ≠ [] ∧ colon ∉ alg ∧ desc ≠ [] ∧ length desc < 4095
  end.

(** What the kernel must see: the key itself, in hexadecimal. *)
Definition expand_opt (keys : list byte → option (list byte)) (o : iopt) : option (list byte) :=
  match o with
  | Plain w => Some (w ++ lit " ")
  | Keyed name alg desc =>
      match keys desc with
      | Some k => Some (name ++ alg ++ lit ":" ++ bytes_hex k ++ lit " ")
      | None => None
      end
  end.
Fixpoint expand_opts (keys : list byte → option (list byte)) (os : list iopt) : option (list byte) :=
  match os with
  | [] => Some []
  | o :: os => match expand_opt keys o, expand_opts keys os with
               | Some a, Some b => Some (a ++ b) | _, _ => None end
  end.

Lemma strstr_skip a s p : (∀ b r, b ∈ a → take (length p) (b :: r) ≠ p) →
  strstr (a ++ s) p = match strstr s p with Some (x, y) => Some (a ++ x, y) | None => None end.
Proof.
  intros Ha. induction a as [|b a IH]; [cbn [app]; by destruct (strstr s p) as [[]|]|]. cbn [app strstr].
  rewrite bool_decide_false by (apply Ha, elem_of_cons; by left).
  rewrite IH by (intros; apply Ha, elem_of_cons; by right). by destruct (strstr s p) as [[]|].
Qed.
Lemma strstr_here p s : strstr (p ++ s) p = Some ([], p ++ s).
Proof.
  destruct (p ++ s) as [|b r] eqn:E; cbn [strstr]; rewrite <-E; by rewrite bool_decide_true by apply take_app_length.
Qed.
Lemma strstr_keyed name alg desc :
  name ∈ keyOpts → alg ≠ [] → colon ∉ alg →
  strstr (name ++ alg ++ lit "::" ++ desc) (lit "::") = Some (name ++ alg, lit "::" ++ desc).
Proof.
  intros Hn Ha Hc. destruct alg as [|a alg]; [done|].
  assert (∀ (l : list byte) b r, b ∈ l → colon ∉ l → take (length (lit "::")) (b :: r) ≠ lit "::") as Hl.
  { intros l b r Hb Hl E. injection E as -> _. done. }
  destruct (not_elem_of_cons alg colon a) as [Hx _]. destruct (Hx Hc) as [Hca _].
  assert (∃ base, name = base ++ lit ":" ∧ colon ∉ base) as (base & -> & Hb).
  { unfold keyOpts in Hn. rewrite !elem_of_cons, elem_of_nil in Hn. destruct Hn as [->|[->|[->|[]]]].
    - exists (lit "internal_hash"). split; [done|by apply (bool_decide_unpack _)].
    - exists (lit "journal_crypt"). split; [done|by apply (bool_decide_unpack _)].
    - exists (lit "journal_mac"). split; [done|by apply (bool_decide_unpack _)]. }
  rewrite <-!app_assoc. rewrite (strstr_skip base) by (intros; by eapply Hl).
  change (lit ":" ++ (a :: alg) ++ lit "::" ++ desc) with (colon :: (a :: alg) ++ lit "::" ++ desc).
  cbn [strstr]. rewrite bool_decide_false by (intros E; injection E as E; by rewrite E in Hca).
  rewrite (strstr_skip (a :: alg)) by (intros; by eapply Hl).
  by rewrite strstr_here, app_nil_r.
Qed.
Lemma optionalKey_name name s : name ∈ keyOpts → nonul s → optionalKey (name ++ s) = true.
Proof.
  intros Hn Hs. unfold optionalKey. apply existsb_exists. exists name. split; [by apply list_elem_of_In|].
  assert (nonul name) as Hnn.
  { revert Hn. unfold keyOpts. rewrite !elem_of_cons, elem_of_nil.
    intros [->|[->|[->|[]]]]; by apply (bool_decide_unpack _). }
  apply strncmp_eq_prefix; [by apply nonul_app|done|by eexists].
Qed.

(** Every option that takes a key is at least as long as the shortest name. *)
Lemma length_keyOpts name : name ∈ keyOpts → 12 <= length name.
Proof. unfold keyOpts. rewrite !elem_of_cons, elem_of_nil. by intros [->|[->|[->|[]]]]; vm_compute; lia. Qed.
(** The name of the hash is looked up within the option or at its NUL. *)
Lemma hash_name_within opt behind :
  14 <= length opt →
  bool_decide (strcspn_at (drop (length (lit "internal_hash:")) (opt ++ x00 :: behind)) (lit ":") = None) = false.
Proof.
  intros Hl. apply bool_decide_eq_false. change (length (lit "internal_hash:")) with 14.
  apply not_eq_None_Some, strcspn_at_Some. exists x00. rewrite drop_app_le by done.
  rewrite elem_of_app, !elem_of_cons. auto.
Qed.

(** One option of the loop: the text appended for it. *)
Lemma wp_option {S B} (upd : S → event → S) keys kid o behind f (Q : outcome B → S → Prop) s :
  valid_opt o → (∀ d k, keys d = Some k → 1 <= length k <= Z.to_nat COMINIT_KEYRING_PAYLOAD_MAX_SIZE) →
  (∀ s', wp upd (λ _, keyring_env keys kid)
     (f (match expand_opt keys o with Some t => (0%Z, t) | None => ((-1)%Z, []) end)) Q s') →
  wp upd (λ _, keyring_env keys kid) (bind (cominitIntegrityOption (print_opt o) behind) f) Q s.
Proof.
  intros [Hfield Hv] Hsize Hf. unfold cominitIntegrityOption. destruct o as [w|name alg desc]; cbn [print_opt] in *.
  { rewrite Hv. cbn [andb]. apply Hf. }
  destruct Hv as (Hn & Ha & Hc & Hd & Hlen).
  rewrite hash_name_within by (rewrite !length_app; pose proof (length_keyOpts name Hn); destruct alg, desc; simpl; (done || lia)).
  rewrite andb_false_r.
  rewrite optionalKey_name, strstr_keyed; [|done..|by apply (nonul_app name), Hfield].
  rewrite bool_decide_true by (rewrite length_app; destruct desc; [done|simpl; lia]).
  apply wp_bind. change (drop 2 (lit "::" ++ desc)) with desc.
  eapply wp_call; [apply wp_GetKey| |by intros e s'].
  { unfold strnlen. pose proof (cstr_length (take (Z.to_nat 4095) desc)).
    rewrite length_take in *. lia. }
  { intros k Hk%Hsize. lia. }
  intros [r kb] s'. cbn [expand_opt] in Hf. destruct (keys desc) as [k|] eqn:Hk; intros E; apply Done_inj, pair_eq in E as [-> ->]; [|apply Hf].
  specialize (Hsize _ _ Hk). rewrite bool_decide_false by lia. rewrite Nat2Z.id.
  destruct (BytesToHex_ok (replicate (Z.to_nat (2 * COMINIT_KEYRING_PAYLOAD_MAX_SIZE + 1)) x00)
    (overwrite (replicate (Z.to_nat COMINIT_KEYRING_PAYLOAD_MAX_SIZE) x00) k) (length k)) as (d' & -> & _ & Hd').
  { lia. }
  { unfold overwrite. rewrite length_app. lia. }
  { rewrite length_replicate. lia. }
  rewrite bind_ret. cbn [default]. unfold id. rewrite Hd'. unfold overwrite. rewrite take_app_length.
  rewrite (bool_decide_false (0%Z = _)) by done. rewrite <-!app_assoc in *. apply Hf.
Qed.

Lemma wp_Integrity_loop {S} (upd : S → event → S) keys kid os fuel cur behind st after proc s :
  (∀ d k, keys d = Some k → 1 <= length k <= Z.to_nat COMINIT_KEYRING_PAYLOAD_MAX_SIZE) →
  Forall valid_opt os → pending cur st = map print_opt os → length os <= fuel →
  length proc < COMINIT_DM_TABLE_SIZE_MAX →
  wp upd (λ _, keyring_env keys kid) (cominitGenIntegrityDmTbl_loop fuel cur behind st after proc)
    (λ o _, match expand_opts keys os with
            | Some t => if bool_decide (length proc + length t < COMINIT_DM_TABLE_SIZE_MAX)
                        then o = Done (0%Z, proc ++ t) else ∃ p, o = Done ((-1)%Z, p)
            | None => ∃ p, o = Done ((-1)%Z, p) end) s.
Proof.
  intros Hsize Hv. revert fuel cur behind st proc s.
  induction Hv as [|o os Ho _ IH]; intros fuel cur behind st proc s Hp Hf Hproc.
  { destruct cur; [done|]. cbn [expand_opts length]. rewrite bool_decide_true by lia.
    rewrite app_nil_r. by destruct fuel. }
  destruct cur as [opt|]; [|done]. injection Hp as -> Hst. destruct fuel as [|fuel]; [simpl in Hf; lia|].
  cbn [cominitGenIntegrityDmTbl_loop expand_opts]. apply wp_option; [done|done|]. intros s'.
  destruct (expand_opt keys o) as [t|]; [|rewrite bool_decide_true by done; by eexists].
  rewrite (bool_decide_false (0%Z = _)) by done. case_bool_decide as Hfit.
  - destruct (expand_opts keys os) as [t'|]; [|by eexists].
    rewrite bool_decide_false by (rewrite length_app; lia). by eexists.
  - pose proof (pending_strtok st) as Hp'. destruct (strtok_r st _) as [cur' st']. cbn [fst snd] in Hp'.
    eapply wp_mono; [|apply IH; [by rewrite Hp'|simpl in Hf; lia|rewrite length_app; lia]].
    intros out s'' H'. destruct (expand_opts keys os) as [t'|]; [|done].
    rewrite !length_app, app_assoc, Nat.add_assoc in *. exact H'.
Qed.

(** The table of dm-integrity with the given options. *)
Definition integrity_table (dev : list byte) (num blksize : Z) (opts : list byte) : list byte :=
  dev ++ lit " 0 - J " ++ dec (u64 (num + 1)) ++ lit " block_size:" ++ dec blksize ++ lit " " ++ opts.

Lemma words_spaced ws : Forall field ws → words (spaced ws) = ws.
Proof.
  induction 1 as [|w ws Hw Hws IH]; [done|]. apply field_token in Hw. destruct ws as [|w' ws].
  - by apply words_last.
  - rewrite spaced_cons, words_token by done. by rewrite IH.
Qed.
Lemma print_opts_fields os : Forall valid_opt os → Forall field (map print_opt os).
Proof. induction 1 as [|o os [Ho _] _ IH]; by constructor. Qed.
Lemma expand_opts_nonul keys os t : Forall valid_opt os → expand_opts keys os = Some t → nonul t.
Proof.
  intros Hv. revert t. induction Hv as [|o os [(_ & _ & Ho) Hv] _ IH]; intros t.
  { intros [= <-]. apply nonul_nil. }
  cbn [expand_opts]. destruct (expand_opt keys o) as [a|] eqn:Ea; [|done].
  destruct (expand_opts keys os) as [b|]; [|done]. intros [= <-]. apply nonul_app. split; [|by apply IH].
  assert (nonul (lit " ") ∧ nonul (lit ":")) as [Hs Hc] by (split; by apply (bool_decide_unpack _)).
  destruct o as [w|name alg desc]; cbn [expand_opt print_opt] in *.
  { injection Ea as <-. by apply nonul_app. }
  destruct (keys desc) as [k|]; [|done]. apply (inj Some) in Ea as <-. rewrite !nonul_app in *.
  destruct Ho as (? & ? & _). split_and!; try done. apply bytes_hex_nonul.
Qed.

Lemma wp_GenIntegrity {S} (upd : S → event → S) keys kid m blocks blksize num os after s :
  crypt m = COMINIT_CRYPTOPT_INTEGRITY → (0 <= blocks < 2 ^ 64)%Z → (0 <= blksize < 2 ^ 64)%Z →
  (0 <= num < 2 ^ 64)%Z → os ≠ [] → Forall valid_opt os →
  (∀ d k, keys d = Some k → 1 <= length k <= Z.to_nat COMINIT_KEYRING_PAYLOAD_MAX_SIZE) →
  wp upd (λ _, keyring_env keys kid)
    (cominitGenIntegrityDmTbl (Some m)
       (Some (spaced (dec blocks :: dec blksize :: dec num :: map print_opt os))) after)
    (λ o _, ∃ r m', o = Done (r, Some m') ∧ crypt m' = crypt m ∧ devicePath m' = devicePath m ∧
       fsType m' = fsType m ∧ ro m' = ro m ∧
       match option_map (integrity_table (cstr (devicePath m)) num blksize) (expand_opts keys os) with
       | Some tbl => if bool_decide (length tbl < COMINIT_DM_TABLE_SIZE_MAX)
                     then r = 0%Z ∧ cstr (dmTableVerint m') = tbl ∧
                          dmVerintDataSizeBytes m' = u64 (blocks * blksize)
                     else r = (-1)%Z
       | None => r = (-1)%Z end) s.
Proof.
  intros Hm Hb Hs Hn Hne Hv Hsize. unfold cominitGenIntegrityDmTbl. rewrite bool_decide_false by tauto.
  do 3 (rewrite strtok_spaced by auto using field_dec_num; cbv beta iota zeta).
  pose proof (print_opts_fields _ Hv) as Hfl.
  rewrite strtok_r_rest by (apply spaced_ne; [by destruct os|done]). cbv beta iota zeta.
  pose proof (pending_strtok (spaced (map print_opt os))) as Hp. rewrite words_spaced in Hp by done.
  destruct (strtok_r (spaced _) _) as [cur st]. cbn [fst snd] in Hp. rewrite !strtoul_dec10 by done.
  eapply wp_call; [apply (wp_Integrity_loop upd keys kid os); [done|done|done| |]| |].
  { pose proof (length_words (spaced (map print_opt os))) as Hw. rewrite words_spaced in Hw by done.
    by rewrite length_map in Hw. }
  { unfold COMINIT_DM_TABLE_SIZE_MAX. simpl length. lia. }
  2: { intros e s'. destruct (expand_opts keys os) as [t|]; [case_bool_decide|]; [done|by intros []..]. }
  intros [r proc] s'. destruct (expand_opts keys os) as [t|] eqn:Et; cbn [option_map].
  2: { intros [p [= -> ->]]. rewrite bool_decide_true by done. cbn [wp]. eexists _, _. by split_and!. }
  case_bool_decide as Hlen.
  - intros [= -> ->]. cbn [app]. rewrite (bool_decide_false (0%Z = _)) by done.
    fold (integrity_table (cstr (devicePath m)) num blksize t).
    cbn [devicePath set_dmVerintDataSizeBytes dmVerintDataSizeBytes].
    fold (integrity_table (cstr (devicePath m)) num blksize t).
    set (tbl := integrity_table _ _ _ t). case_bool_decide as Hfit; cbn [wp].
    + rewrite bool_decide_false by lia. eexists _, _. by split_and!.
    + rewrite bool_decide_true by lia. eexists _, _. split_and!; [reflexivity|done|done|done|done|done| |done].
      cbn [dmTableVerint set_dmTableVerint]. apply snprintf_fits; [lia|]. unfold tbl, integrity_table.
      rewrite !nonul_app. pose proof (expand_opts_nonul _ _ _ Hv Et).
      split_and!; try done; try apply cstr_nonul; try (apply dec_nonul; try done; apply u64_range);
        by apply (bool_decide_unpack _).
  - intros [p [= -> ->]]. rewrite bool_decide_true by done. cbn [wp].
    eexists _, _. split_and!; [reflexivity|done|done|done|done|].
    rewrite bool_decide_false; [done|]. unfold integrity_table. rewrite !length_app. simpl in Hlen. lia.
Qed.

(** C27: On printed dm-integrity metadata (block count, block size, option count and options, some
    naming keys of the user keyring) cominitGenIntegrityDmTbl produces the reference table: every key
    description replaced by the hexadecimal key, one more option counted, the block size option added,
    and the volume size as the product modulo 2^64. A missing key or a table of 1024 bytes or more gives
    -1. *)
Theorem integrity_table_generated o keys kid m blocks blksize num os after
    (Hk : KeyringContract o keys kid) (Hm : crypt m = COMINIT_CRYPTOPT_INTEGRITY)
    (Hblocks : (0 <= blocks < 2 ^ 64)%Z) (Hblksize : (0 <= blksize < 2 ^ 64)%Z)
    (Hnum : (0 <= num < 2 ^ 64)%Z) (Hne : os ≠ []) (Hos : Forall valid_opt os) :
  let text := spaced (dec blocks :: dec blksize :: dec num :: map print_opt os) in
  ∃ r m', (run o [] (cominitGenIntegrityDmTbl (Some m) (Some text) after)).1 = Done (r, Some m') ∧
    crypt m' = crypt m ∧ devicePath m' = devicePath m ∧
    match option_map (integrity_table (cstr (devicePath m)) num blksize) (expand_opts keys os) with
    | Some tbl => if bool_decide (length tbl < COMINIT_DM_TABLE_SIZE_MAX)
                  then r = 0%Z ∧ cstr (dmTableVerint m') = tbl ∧
                       dmVerintDataSizeBytes m' = u64 (blocks * blksize)
                  else r = (-1)%Z
    | None => r = (-1)%Z end.
Proof.
  intros text. destruct Hk as [Ho Hsize].
  destruct (wp_run upd_none _ _ _ tt o (λ h c, Ho h c) []
    (wp_GenIntegrity upd_none keys kid m blocks blksize num os after tt Hm Hblocks Hblksize Hnum Hne Hos Hsize))
    as (r & m' & ? & ? & ? & _ & _ & ?). by exists r, m'.
Qed.

(** ** Loading *)

(** What parsing needs from the environment to come to an end: no key of the
    keyring is larger than the buffer it is read into. *)
Definition key_fits (e : event) : Prop :=
  let '(Event c r) := e in
  match c return reply c → Prop with
  | KeyctlRead _ n => λ r, match r with Ok (len, bs) => len = Z.of_nat (length bs) ∧ (len <= n)%Z | Err _ => True end
  | _ => λ _, True
  end r.
(** And from the memory behind the text: a search for the end of a hash name
    that starts in it meets a NUL or a colon. *)
Definition hash_ends (after : list byte) : Prop := x00 ∈ after ∨ colon ∈ after.
#[global] Instance hash_ends_dec after : Decision (hash_ends after) := ltac:(unfold hash_ends; apply _).

(** The README pads the metadata region with zeros behind the signature: a
    full read of the region, if its text leaves room for a signature, has a
    NUL (here: or a colon) behind the text. *)
Definition padded (region : list byte) : Prop :=
  length (cstr region) < COMINIT_PART_META_DATA_SIZE - COMINIT_PART_META_SIG_LENGTH - 1 →
  hash_ends (drop (length (cstr region) + 1) region).
#[global] Instance padded_dec region : Decision (padded region) := ltac:(unfold padded; apply _).
Definition region_padded (e : event) : Prop :=
  let '(Event c r) := e in
  match c return reply c → Prop with
  | Read _ n => λ r, match r with
                     | Ok bs => n = COMINIT_PART_META_DATA_SIZE → length bs = n → padded bs
                     | Err _ => True end
  | _ => λ _, True
  end r.
(** Loading needs both, and reads that make progress (the region lies within
    the device). *)
Definition load_env (e : event) : Prop := read_progress e ∧ key_fits e ∧ region_padded e.

Definition returns {A} (o : outcome A) : Prop := match o with Done _ => True | Ended _ => False end.

Section Returns.
Context {S : Type} (upd : S → event → S).
Local Abbreviation returning p s := (wp upd (λ _, key_fits) p (λ o _, returns o) s).

Lemma wp_GetKey_fits buf n desc s :
  wp upd (λ _, key_fits) (cominitKeyringGetKey (Some buf) n (Some desc))
    (λ o _, ∃ len b, o = Done (len, Some b) ∧ (1 <= len → len <= n)%Z ∧ ((1 <= len)%Z → Z.to_nat len <= length b)) s.
Proof.
  unfold cominitKeyringGetKey. case_bool_decide; [eexists _, _; by split|].
  apply wp_sys. intros [id|e] _; [|eexists _, _; by split].
  apply wp_sys. intros [[len bs]|e] Hr; [|eexists _, _; by split]. destruct Hr as [-> Hlen].
  eexists _, _. split; [done|]. unfold overwrite. rewrite length_app. lia.
Qed.

(** An option that takes a key has at least 12 bytes, so the pointer to the
    hash name lies at most one byte behind its NUL. *)
Lemma optionalKey_length opt : optionalKey opt = true → 12 <= length opt.
Proof.
  unfold optionalKey. rewrite existsb_exists. intros (k & Hk%list_elem_of_In & E).
  pose proof (length_keyOpts k Hk) as Hl. unfold strncmp_eq in E. apply bool_decide_eq_true in E.
  rewrite take_app_length in E.
  assert (nonul k) as Hn.
  { revert Hk. unfold keyOpts. rewrite !elem_of_cons, elem_of_nil.
    intros [->|[->|[->|[]]]]; by apply (bool_decide_unpack _). }
  destruct (decide (length k <= length opt)); [lia|]. contradict Hn. intros Hn. apply Hn.
  rewrite <-E, take_ge by solve_length. rewrite elem_of_app, list_elem_of_singleton. auto.
Qed.
Lemma hash_ends_app l l' : hash_ends l' → hash_ends (l ++ l').
Proof. unfold hash_ends. rewrite !elem_of_app. tauto. Qed.
Lemma hash_ends_nul l l' : hash_ends (l ++ x00 :: l').
Proof. left. rewrite elem_of_app, elem_of_cons. auto. Qed.
Lemma hash_ends_tail l : hash_ends (drop 1 l) → hash_ends l.
Proof. destruct l as [|b l]; [done|]. apply (hash_ends_app [b]). Qed.
Lemma hash_name_ends opt behind :
  optionalKey opt = true → hash_ends (drop 1 behind) →
  bool_decide (strcspn_at (drop (length (lit "internal_hash:")) (opt ++ x00 :: behind)) (lit ":") = None) = false.
Proof.
  intros Hk%optionalKey_length Hb. change (length (lit "internal_hash:")) with 14.
  apply bool_decide_eq_false, not_eq_None_Some, strcspn_at_Some. change (lit ":") with [colon].
  assert (hash_ends (drop 14 (opt ++ x00 :: behind))) as [Hx|Hx].
  { destruct (decide (14 <= length opt)); [rewrite drop_app_le by done; apply hash_ends_nul|].
    rewrite drop_app_ge by lia. destruct (decide (length opt = 13)) as [->|].
    - cbn. by apply hash_ends_tail.
    - replace (length opt) with 12 by lia. done. }
  - exists x00. split; [done|]. rewrite elem_of_cons. auto.
  - exists colon. split; [done|]. rewrite !elem_of_cons. auto.
Qed.
Lemma hash_ends_behind str delim after :
  hash_ends (drop 1 after) → hash_ends (drop 1 (strtok_behind str delim after)).
Proof.
  intros Ha. destruct (strtok_behind_cases str delim after) as [->|[l ->]]; [done|].
  destruct l as [|b l]; [by apply hash_ends_tail|apply hash_ends_nul].
Qed.

Lemma returns_IntegrityOption opt behind s :
  hash_ends (drop 1 behind) → returning (cominitIntegrityOption opt behind) s.
Proof.
  intros Hb. unfold cominitIntegrityOption.
  destruct (optionalKey opt) eqn:Ek; [rewrite hash_name_ends by done|]; cbn [andb]; [|done].
  destruct (strstr opt _) as [[before kd]|]; [|done].
  case_bool_decide; [|done]. cbv beta zeta.
  eapply wp_call; [apply wp_GetKey_fits| |by intros e s' (? & ? & ? & ?)].
  intros [len b] s' (len' & b' & E & Hlen). apply Done_inj, pair_eq in E as [-> ->].
  case_bool_decide; [done|]. destruct Hlen as [H3 H4].
  destruct (BytesToHex_ok (replicate (Z.to_nat (2 * COMINIT_KEYRING_PAYLOAD_MAX_SIZE + 1)) x00) b'
    (Z.to_nat len')) as (d' & -> & _ & _); [lia|apply H4; lia|rewrite length_replicate; lia|].
  rewrite bind_ret. by case_bool_decide.
Qed.
Lemma returns_Integrity_loop fuel cur behind st after proc s :
  hash_ends (drop 1 after) → hash_ends (drop 1 behind) → length (pending cur st) <= fuel →
  returning (cominitGenIntegrityDmTbl_loop fuel cur behind st after proc) s.
Proof.
  intros Ha. revert cur behind st proc s.
  induction fuel as [|fuel IH]; intros [opt|] behind st proc s Hb Hf; [simpl in Hf; lia|done| |done].
  cbn [cominitGenIntegrityDmTbl_loop]. eapply wp_call; [by apply returns_IntegrityOption| |done].
  intros [r text] s' _. case_bool_decide; [done|]. case_bool_decide; [done|].
  pose proof (pending_strtok st) as Hp. pose proof (hash_ends_behind st (lit " ") after Ha) as Hb'.
  destruct (strtok_r st _) as [cur' st']. cbn [fst snd] in Hp.
  apply IH; [done|]. rewrite Hp. simpl in Hf. lia.
Qed.
Lemma returns_Integrity m str after s :
  hash_ends (drop 1 after) → returning (cominitGenIntegrityDmTbl m str after) s.
Proof.
  intros Ha. unfold cominitGenIntegrityDmTbl.
  repeat lazymatch goal with
  | |- wp _ _ (bind (cominitGenIntegrityDmTbl_loop _ ?c _ ?st _ _) _) _ _ =>
      eapply wp_call; [apply returns_Integrity_loop| |done]; [done|by apply hash_ends_behind| |intros [? ?] ? _]
  | _ => wp_step; cbv beta zeta
  end; try done.
  match goal with E : strtok_r ?l (lit " ") = (?c, ?st) |- length (pending ?c ?st) <= length ?l =>
    pose proof (pending_strtok l) as Hp; rewrite E in Hp; cbn [fst snd] in Hp; rewrite Hp end.
  apply length_words.
Qed.
Lemma returns_Verity m str s : returning (cominitGenVerityDmTbl m str) s.
Proof. unfold cominitGenVerityDmTbl. repeat (wp_step; cbv beta zeta); done. Qed.
Lemma returns_Parse_tables m str after s :
  hash_ends (drop 1 after) → returning (cominitParseMetadata_tables m str after) s.
Proof.
  intros Ha. eapply wp_call; [apply (wp_and _ _ _ (λ o _, returns o) (λ o _, code_result o))| |by intros ? ? []].
  - case_bool_decide; [apply returns_Verity|done].
  - apply wp_yields. case_bool_decide; [apply Verity_code|by split; [left|]].
  - intros [r m'] s' [_ [_ Hm]]. destruct m' as [m'|]; [|done]. case_bool_decide; [done|].
    eapply (wp_call _ _ _ _ (λ o _, returns o)); [| |done].
    + case_bool_decide; [by apply returns_Integrity|done].
    + intros [r' m2] s'' _. by case_bool_decide.
Qed.
Lemma hash_ends_crypt ctbl after : hash_ends after → hash_ends (drop 1 (ctbl ++ x00 :: after)).
Proof. destruct ctbl as [|b ctbl]; [done|]. intros _. apply hash_ends_nul. Qed.
Lemma returns_Parse m str after s : hash_ends after → returning (cominitParseMetadata m str after) s.
Proof.
  intros Ha. unfold cominitParseMetadata. repeat (wp_step; cbv beta zeta);
  lazymatch goal with
  | |- wp _ _ (cominitParseMetadata_tables _ _ _) _ _ => by apply returns_Parse_tables, hash_ends_crypt
  | |- _ => exact I
  end.
Qed.
End Returns.

Section LoadReturns.
Context {S : Type} (upd : S → event → S).
Local Abbreviation returning p s := (wp upd (λ _, load_env) p (λ o _, returns o) s).

(** Reads that no longer reach the end of the buffer keep its last byte. *)
Lemma returns_Readall_rest fuel buf fd len s :
  len <= fuel → len < length buf → last buf = Some x00 →
  wp upd (λ _, load_env) (cominitBinReadall_loop fuel buf fd len)
    (λ o _, ∃ r b, o = Done (r, b) ∧ length b = length buf ∧ last b = Some x00) s.
Proof.
  revert buf len s. induction fuel as [|fuel IH]; intros buf len s Hf Hl Hn; cbn [cominitBinReadall_loop].
  - rewrite bool_decide_true by lia. by eexists _, _.
  - case_bool_decide; [by eexists _, _|]. apply wp_sys. intros [bs|e] Hr; [|by eexists _, _].
    destruct Hr as [Hr _]. simpl in Hr. rewrite bool_decide_false by lia.
    assert (length (overwrite buf bs) = length buf) as E by (apply length_overwrite; lia).
    rewrite <-E. apply IH; [lia|lia|]. unfold overwrite. rewrite last_app.
    assert (last (drop (length bs) buf) = Some x00) as ->; [|done].
    rewrite last_lookup in *. rewrite length_drop, lookup_drop, <-Hn. f_equal. lia.
Qed.
Lemma padded_last region :
  length region = COMINIT_PART_META_DATA_SIZE → last region = Some x00 → padded region.
Proof.
  intros Hl Hn Hc. left. rewrite last_lookup in Hn. apply list_elem_of_lookup.
  exists (pred (length region) - (length (cstr region) + 1)). rewrite lookup_drop, <-Hn. f_equal.
  unfold COMINIT_PART_META_DATA_SIZE, COMINIT_PART_META_SIG_LENGTH in *. lia.
Qed.
(** The region that was read is padded, in one read or in several. *)
Lemma returns_Readall fuel fd off s :
  COMINIT_PART_META_DATA_SIZE <= fuel →
  wp upd (λ _, load_env) (cominitBinReadall fuel (Some (replicate COMINIT_PART_META_DATA_SIZE x00)) fd off
                            COMINIT_PART_META_DATA_SIZE)
    (λ o _, ∃ r b, o = Done (r, Some b) ∧ (r ≠ (-1)%Z → length b = COMINIT_PART_META_DATA_SIZE ∧ padded b)) s.
Proof.
  intros Hf. unfold cominitBinReadall. case_bool_decide; [by eexists _, _|].
  apply wp_sys. intros [[]|e] _; [|by eexists _, _].
  eapply (wp_call _ _ _ _ (λ o _, ∃ r b, o = Done (r, b) ∧ (r ≠ (-1)%Z → length b = COMINIT_PART_META_DATA_SIZE ∧ padded b)));
    [| |by intros e' s' (? & ? & ? & _)].
  2: { intros [r b] s' (r' & b' & E & Hb). apply Done_inj, pair_eq in E as [-> ->]. by eexists _, _. }
  destruct fuel as [|fuel]; [unfold COMINIT_PART_META_DATA_SIZE in Hf; lia|]. cbn [cominitBinReadall_loop].
  rewrite bool_decide_false by (unfold COMINIT_PART_META_DATA_SIZE; lia).
  set (n := COMINIT_PART_META_DATA_SIZE) in *.
  assert (length (replicate n x00) = n) as Hn by apply length_replicate.
  apply wp_sys. intros [bs|e] (Hr & _ & Hp); [|by eexists _, _]. simpl in Hr, Hp.
  assert (0 < n) by (unfold n, COMINIT_PART_META_DATA_SIZE; lia).
  rewrite bool_decide_false by lia. assert (length (overwrite (replicate n x00) bs) = n) as E.
  { rewrite <-Hn at 2. apply length_overwrite. lia. }
  destruct (decide (length bs = n)) as [Hfull|Hshort].
  - rewrite Hfull, Nat.sub_diag. assert (overwrite (replicate n x00) bs = bs) as ->.
    { unfold overwrite. rewrite drop_ge, app_nil_r by lia. done. }
    destruct fuel; cbn [cominitBinReadall_loop]; eexists _, _; (split; [done|]); intros _; split; [done| |done|];
      by apply Hp.
  - eapply wp_mono; [|apply returns_Readall_rest; [lia|lia|]].
    + intros o' s' (r & b & -> & Hb & Hl). exists r, b. split; [done|]. intros _. split; [lia|].
      apply padded_last; [unfold n in *; lia|done].
    + unfold overwrite. rewrite last_app. rewrite drop_replicate.
      destruct (n - length bs) as [|k] eqn:Ek; [lia|]. by rewrite replicate_S_end, last_snoc.
Qed.
Lemma returns_VerifySignature d sig k s : returning (cominitCryptoVerifySignature d sig k) s.
Proof. unfold cominitCryptoVerifySignature, cominitRsaSetPadding. by repeat (wp_step; cbv beta zeta). Qed.
Lemma returns_LoadVerify fuel m k s :
  COMINIT_PART_META_DATA_SIZE <= fuel → returning (cominitLoadVerifyMetadata fuel m k) s.
Proof.
  intros Hf. unfold cominitLoadVerifyMetadata, cominitCommonGetPartSize.
  apply wp_sys. intros [fd|e] _; [|done]. apply wp_bind, wp_sys. intros [size|e] _; [|by apply wp_sys_].
  cbn [wp]. rewrite bool_decide_false by done. cbv zeta.
  eapply wp_call; [by apply returns_Readall| |by intros ? ? (? & ? & ? & _)].
  intros [r mb] s1 (r' & b & E & Hb). apply Done_inj, pair_eq in E as [-> ->].
  case_bool_decide as Hr; [by apply wp_sys_|]. destruct (Hb Hr) as [Hlen Hpad].
  apply wp_sys_. intros [] _. cbn [default]. unfold id, strnlen. rewrite take_ge by lia.
  case_bool_decide as Hroom; [done|].
  eapply wp_call; [apply returns_VerifySignature|intros ? ? _|done]. case_bool_decide; [done|].
  eapply (wp_call _ _ _ _ (λ o _, returns o)); [|by intros [? ?] ? _; case_bool_decide|done].
  eapply wp_env; [|apply (returns_Parse upd), Hpad; lia|done]. by intros ? ? (_ & ? & _).
Qed.
End LoadReturns.

(** The version test of the parser looks only at a prefix: metadata of any version whose text starts
    with 1, such as 10, is parsed exactly as version 1. *)
Theorem parse_ignores_version_suffix m r fs mode feat c vtbl ctbl after
    (Hr : field (lit "1" ++ r)) (Hfs : field fs) (Hmode : mode = lit "ro" ∨ mode = lit "rw")
    (Hfeat : parseCryptField feat = Some c) (Htbl : table_text vtbl) :
  cominitParseMetadata (Some m) (Some (meta_text (lit "1" ++ r) fs mode feat vtbl ctbl)) after =
  cominitParseMetadata (Some m) (Some (meta_text (lit "1") fs mode feat vtbl ctbl)) after.
Proof.
  rewrite (Parse_text m r fs mode feat c) by done.
  by rewrite (Parse_text m [] fs mode feat c) by (done || by apply field_lit_dec).
Qed.

(** C30: For every input text, if no key of the keyring exceeds its 512-byte buffer and the memory
    behind the text contains a NUL or a colon, cominitParseMetadata returns, with 0 or -1 and a well-
    formed structure: every character array keeps its size and its terminating NUL, the feature mask and
    the 64-bit sizes stay in range; the device path is never changed. *)
Theorem parse_preserves_wf o m s after (Hwf : meta_wf m)
    (Hkeys : ∀ h c, key_fits (Event c (o h c))) (Hafter : hash_ends after) :
  ∃ r m', (run o [] (cominitParseMetadata (Some m) (Some s) after)).1 = Done (r, Some m') ∧
    (r = 0%Z ∨ r = (-1)%Z) ∧ meta_wf m' ∧ devicePath m' = devicePath m.
Proof.
  pose proof (yields_run _ _ o [] (Parse_wf m s after Hwf)) as H1.
  pose proof (yields_run _ _ o [] (Parse_code m s after)) as H2.
  pose proof (wp_run upd_none _ _ _ tt o (λ h c, Hkeys h c) []
    (returns_Parse upd_none (Some m) (Some s) after tt Hafter)) as H3.
  destruct (run _ _ _).1 as [[r m']|e]; [|done]. destruct H1 as (m1 & -> & H1), H2 as [H2 _].
  exists r, m1. by split_and!; [..|apply H1|apply H1].
Qed.

(** C11: In every environment, whenever cominitLoadVerifyMetadata returns it has released every
    descriptor and key context and returns -1, or 0 after exactly this: it opened the device, got its
    size, seeked to size - 4096 (not negative), read 4096 bytes in all (one read fills the region with
    exactly the device's bytes; of several short reads each is written over the start of the buffer),
    closed the device, verified the text up to and including its NUL against the bytes that follow it
    (more than 512), and the parser accepted exactly that text. With a loop bound of 4096 or more it
    fails to return only in an environment that breaks a condition of termination (progress of reads,
    keys that fit, padded region). *)
Theorem load_verify_sound o fuel m keyfile :
  let '(out, t) := run o [] (cominitLoadVerifyMetadata fuel m keyfile) in
  match out with
  | Done (r, m') => held t = [] ∧
      (r = (-1)%Z ∨
       r = 0%Z ∧ ∃ fd size off reads region data sig tv tp,
         t = [Event (Open (cstr (devicePath m)) O_RDONLY) (Ok fd); Event (IoctlBlkGetSize64 fd) (Ok size);
              Event (Lseek fd off) (Ok tt)] ++ read_trace fd 4096 reads ++ [Event (Close fd) tt] ++ tv ++ tp ∧
         off = i64 (u64 (size - 4096)) ∧ (0 <= off)%Z ∧
         ((0 <= size < 2 ^ 63)%Z → off = (size - 4096)%Z ∧ (4096 <= size)%Z) ∧
         sum_list_with length reads = 4096 ∧
         region = foldl overwrite (replicate 4096 x00) reads ∧ (∀ bs, reads = [bs] → region = bs) ∧
         region = data ++ x00 :: sig ∧ nonul data ∧ length region = 4096 ∧ 512 < length sig ∧
         verification_trace keyfile (data ++ [x00]) sig tv ∧
         exec (cominitParseMetadata (Some m) (Some data) sig) (Done (0%Z, Some m')) tp)
  | Ended _ => ¬ (4096 <= fuel ∧ ∀ h c, load_env (Event c (o h c)))
  end.
Proof.
  pose proof (wp_run_trace _ _ o (wp_LoadVerify fuel m keyfile [])) as Hw.
  pose proof (balanced_run (cominitLoadVerifyMetadata fuel m keyfile) o) as Hb.
  pose proof (λ Hf Ho, wp_run upd_none _ _ _ tt o (λ h c, Ho h c) []
    (returns_LoadVerify upd_none fuel m keyfile tt Hf)) as Hret.
  destruct (run _ _ _) as [[[r m']|e] t]; cbn [fst snd] in *; [|intros [Hf Ho]; by apply (Hret Hf Ho)].
  split; [by eapply Hb; [apply balanced_LoadVerify|]|].
  destruct Hw as [[-> (t' & -> & Ht)]|Hr]; [right; split; [done|]|by left].
  destruct Ht as (fd & size & off & reads & data & sig & tv & tp & -> & -> & Hoff & Hsum & Hreg & Hn & Hl & Hs & Hv & Hp).
  exists fd, size, (i64 (u64 (size - 4096))), reads, (region_of reads), data, sig, tv, tp.
  split_and!; try done.
  - intros Hsz. by apply region_offset.
  - intros bs ->. cbn [sum_list_with] in Hsum. rewrite Nat.add_0_r in Hsum. by apply region_of_single.
  - apply length_region_of. by rewrite Hsum.
Qed.

(** If reads within the device make progress, no key of the keyring is larger than the 512-byte buffer
    and the region is padded behind its text, cominitLoadVerifyMetadata returns on every metadata
    region: no loop runs out of its bound and no access is out of bounds. 4096 reads are enough. *)
Theorem load_verify_returns o m keyfile (Ho : ∀ h c, load_env (Event c (o h c))) :
  ∃ r m', (run o [] (cominitLoadVerifyMetadata COMINIT_PART_META_DATA_SIZE m keyfile)).1 = Done (r, m').
Proof.
  pose proof (wp_run upd_none _ _ _ tt o (λ h c, Ho h c) []
    (returns_LoadVerify upd_none COMINIT_PART_META_DATA_SIZE m keyfile tt ltac:(done))) as Hw.
  destruct (run _ _ _).1 as [[r m']|e]; [eauto|done].
Qed.

(** The name of the hash is looked up 14 bytes into every option that takes a key: with the 12 bytes
    of journal_mac: as the last option and an empty dm-crypt table, the search starts behind the text, in
    the signature, and leaves the buffer when neither a NUL nor a colon follows. *)
Theorem integrity_hash_out_of_bounds o m blocks blksize num after
    (Hm : crypt m = COMINIT_CRYPTOPT_INTEGRITY)
    (Hblocks : (0 <= blocks < 2 ^ 64)%Z) (Hblksize : (0 <= blksize < 2 ^ 64)%Z)
    (Hnum : (0 <= num < 2 ^ 64)%Z) (Hafter : ¬ hash_ends after) :
  let text := spaced [dec blocks; dec blksize; dec num; lit "journal_mac:"] in
  (run o [] (cominitGenIntegrityDmTbl (Some m) (Some text) (x00 :: after))).1 = Ended (Undef OutOfBounds).
Proof.
  intros text. unfold cominitGenIntegrityDmTbl. rewrite bool_decide_false by tauto. subst text.
  do 3 (rewrite strtok_spaced by auto using field_dec_num; cbv beta iota zeta).
  cbn [spaced]. change (strtok_r (lit "journal_mac:") []) with (Some (lit "journal_mac:"), @nil byte). cbv beta iota zeta.
  change (strtok_r (lit "journal_mac:") (lit " ")) with (Some (lit "journal_mac:"), @nil byte). cbv beta iota zeta.
  change (strtok_behind (lit "journal_mac:") (lit " ") (x00 :: after)) with (x00 :: after).
  change (length (lit "journal_mac:")) with 12. cbn [cominitGenIntegrityDmTbl_loop].
  unfold cominitIntegrityOption.
  change (drop (length (lit "internal_hash:")) (lit "journal_mac:" ++ x00 :: x00 :: after)) with after.
  replace (optionalKey (lit "journal_mac:")) with true by by vm_compute. cbn [andb].
  rewrite bool_decide_true; [done|]. apply eq_None_not_Some. intros (x & Hx & Hr)%strcspn_at_Some.
  apply Hafter. change (lit ":") with [colon] in Hr. rewrite !elem_of_cons, elem_of_nil in Hr.
  destruct Hr as [->|[->|[]]]; [by left|by right].
Qed.

(** A partition smaller than the 4096-byte metadata region is refused: the subtraction wraps around in
    uint64_t, the offset becomes negative, and the function returns -1 with the metadata unchanged after
    opening, measuring and closing the device, without seeking or reading. *)
Theorem load_small_partition_rejected (o : oracle) fuel m keyfile fd size
    (Hopen : o [] (Open (cstr (devicePath m)) O_RDONLY) = Ok fd)
    (Hioctl : ∀ h, o h (IoctlBlkGetSize64 fd) = Ok size)
    (Hsize : (0 <= size < Z.of_nat COMINIT_PART_META_DATA_SIZE)%Z) :
  let '(out, t) := run o [] (cominitLoadVerifyMetadata fuel m keyfile) in
  out = Done ((-1)%Z, m) ∧
  map ev_call t = [Open (cstr (devicePath m)) O_RDONLY; IoctlBlkGetSize64 fd; Close fd].
Proof.
  unfold cominitLoadVerifyMetadata, cominitCommonGetPartSize.
  rewrite run_sys, Hopen. cbn beta iota. rewrite run_bind, run_sys, Hioctl. cbn [run].
  rewrite (bool_decide_false (0%Z = _)) by done. cbn [default]. unfold id.
  unfold cominitBinReadall. rewrite bool_decide_true; [done|].
  unfold COMINIT_PART_META_DATA_SIZE in *. unfold u64.
  replace (size - Z.of_nat (Z.to_nat 4096))%Z with (size - 4096 + 2 ^ 64 + (-1) * 2 ^ 64)%Z by lia.
  rewrite Z.mod_add, Z.mod_small, i64_u64 by lia. case_decide; lia.
Qed.
End Spec.
