(* ===== verification/Dmctl.v ===== *)
(** * Dmctl: device mapper setup of the rootfs (src/dmctl.c, inc/dmctl.h)

    The three ioctls on /dev/mapper/control carry their argument structure;
    its layout comes from linux/dm-ioctl.h and is a parameter. *)
From S2P Require Import Prelude CString Sys Output Common.

(** Constants and sizes of linux/dm-ioctl.h. *)
Class DmParams := {
  DM_VERSION_MAJOR : Z;
  DM_VERSION_MINOR : Z;
  DM_VERSION_PATCHLEVEL : Z;
  DM_READONLY_FLAG : Z;
  sizeof_dm_ioctl : Z;        (* [sizeof(struct dm_ioctl)] *)
  offsetof_tSpec : Z;         (* of [tSpec] in [cominitDmIoctlData_t] *)
  offsetof_dmTbl : Z;         (* of [dmTbl] in [cominitDmIoctlData_t] *)
  DM_MAX_TYPE_NAME : nat      (* [sizeof(target_type)] *)
}.

Definition COMINIT_ROOTFS_DM_NAME : list byte := lit "rootfs".
Definition DM_CONTROL : path := lit "/dev/mapper/control".
Definition DM_ROOTFS : path := lit "/dev/mapper/" ++ COMINIT_ROOTFS_DM_NAME.
Definition S_IFBLK_BITS : Z := 0x6000.
Definition S_IRUSR : Z := 0x100.
Definition S_IWUSR : Z := 0x80.

Section Dmctl.
Context `{DmParams}.

(** The header, the target specification and the table in one structure; the
    target type and the table are character arrays. *)
Record cominitDmIoctlData_t := DmIoctlData {
  ioctl : dm_ioctl;
  tSpec : dm_target_spec;
  dmTbl : list byte
}.
Definition dm_version_ours : Z * Z * Z := (DM_VERSION_MAJOR, DM_VERSION_MINOR, DM_VERSION_PATCHLEVEL).
Definition cominitIoctlSetVersion (io : dm_ioctl) : dm_ioctl :=
  DmIoctl dm_version_ours (dm_data_size io) (dm_data_start io) (dm_target_count io) (dm_flags io) (dm_dev io)
    (dm_name io).
(** The structures after [memset(..., 0, ...)]. *)
Definition dm_ioctl_zero : dm_ioctl := DmIoctl (0, 0, 0)%Z 0 0 0 0 0 [].
Definition dmi_zero : cominitDmIoctlData_t :=
  DmIoctlData dm_ioctl_zero (DmTargetSpec 0 0 (replicate DM_MAX_TYPE_NAME x00))
    (replicate COMINIT_DM_TABLE_SIZE_MAX x00).

(** On success the kernel returns the device number in the header. *)
Definition cominitDmctlCreateNewDmDevice (dmCtlFd : Z) (dmi : cominitDmIoctlData_t) (name : list byte)
    : prog (res cominitDmIoctlData_t) :=
  let io := cominitIoctlSetVersion dm_ioctl_zero in
  let io := DmIoctl (dm_version io) sizeof_dm_ioctl (dm_data_start io) (dm_target_count io) (dm_flags io)
              (dm_dev io) name in
  r ← sys (IoctlDmDevCreate dmCtlFd io);
  match r with
  | Err e => Ret (Err e)
  | Ok devId =>
      Ret (Ok (DmIoctlData (DmIoctl (dm_version io) (dm_data_size io) (dm_data_start io) (dm_target_count io)
                              (dm_flags io) devId (dm_name io)) (tSpec dmi) (dmTbl dmi)))
  end.
Definition cominitDmctlStartDmDevice (dmCtlFd devId : Z) : prog (res unit) :=
  let io := cominitIoctlSetVersion dm_ioctl_zero in
  sys (IoctlDmDevSuspend dmCtlFd
         (DmIoctl (dm_version io) sizeof_dm_ioctl (dm_data_start io) (dm_target_count io) (dm_flags io) devId
            (dm_name io))).
(** The kernel reads the strings in the two arrays. *)
Definition cominitDmctlLoadDmTable (dmCtlFd : Z) (dmi : cominitDmIoctlData_t) : prog (res unit) :=
  sys (IoctlDmTableLoad dmCtlFd (ioctl dmi)
         (DmTargetSpec (dm_sector_start (tSpec dmi)) (dm_length (tSpec dmi)) (cstr (dm_target_type (tSpec dmi))))
         (cstr (dmTbl dmi))).

(** The target type, or the reason to refuse the metadata. *)
Definition dmTarget (m : cominitRfsMetaData_t) : option (list byte) :=
  if bool_decide (crypt m = COMINIT_CRYPTOPT_VERITY) then
    if ro m then Some (lit "verity") else None
  else if bool_decide (crypt m = COMINIT_CRYPTOPT_INTEGRITY) then Some (lit "integrity")
  else None.

(** The structure of the table load, filled field by field. *)
Definition dmTableData (m : cominitRfsMetaData_t) (dmTgtStr : list byte) (devId : Z) : cominitDmIoctlData_t :=
  let dmi := dmi_zero in
  let io := cominitIoctlSetVersion (ioctl dmi) in
  let '(tbl, dmTblEnd) := stpncpy (dmTbl dmi) (cstr (dmTableVerint m)) (COMINIT_DM_TABLE_SIZE_MAX - 1) in
  DmIoctlData
    (DmIoctl (dm_version io) (offsetof_dmTbl + Z.of_nat dmTblEnd + 1) offsetof_tSpec 1
       (if ro m then DM_READONLY_FLAG else 0) devId (dm_name io))
    (DmTargetSpec 0 (dmVerintDataSizeBytes m / 512)
       (take (DM_MAX_TYPE_NAME - 1) (strncpy (dm_target_type (tSpec dmi)) dmTgtStr DM_MAX_TYPE_NAME) ++ [x00]))
    (<[dmTblEnd := x00]> tbl).
Definition dmNodeMode (m : cominitRfsMetaData_t) : Z :=
  (Z.lor S_IFBLK_BITS S_IRUSR + if ro m then 0 else S_IWUSR)%Z.

(** [dmi] is not initialised in the source; its header is cleared by the first
    helper and all of it before the table is loaded, so it is modelled as zero. *)
Definition cominitSetupDmDevice (rfsMeta : option cominitRfsMetaData_t)
    : prog (Z * option cominitRfsMetaData_t) :=
  match rfsMeta with
  | None => Ret ((-1)%Z, None)
  | Some m =>
      match dmTarget m with
      | None => Ret ((-1)%Z, Some m)
      | Some dmTgtStr =>
          r ← sys (Open DM_CONTROL O_RDWR);
          match r with
          | Err _ => Ret ((-1)%Z, Some m)
          | Ok dmCtlFd =>
              r ← cominitDmctlCreateNewDmDevice dmCtlFd dmi_zero COMINIT_ROOTFS_DM_NAME;
              match r with
              | Err _ => sys_ (Close dmCtlFd);; Ret ((-1)%Z, Some m)
              | Ok dmi =>
                  let devId := dm_dev (ioctl dmi) in
                  r ← cominitDmctlLoadDmTable dmCtlFd (dmTableData m dmTgtStr devId);
                  match r with
                  | Err _ => sys_ (Close dmCtlFd);; Ret ((-1)%Z, Some m)
                  | Ok _ =>
                      r ← cominitDmctlStartDmDevice dmCtlFd devId;
                      match r with
                      | Err _ => sys_ (Close dmCtlFd);; Ret ((-1)%Z, Some m)
                      | Ok _ =>
                          let m := set_devicePath m (overwrite (devicePath m) (DM_ROOTFS ++ [x00])) in
                          r ← sys (Mknod (cstr (devicePath m)) (dmNodeMode m) devId);
                          match r with
                          | Err _ => sys_ (Close dmCtlFd);; Ret ((-1)%Z, Some m)
                          | Ok _ => sys_ (Close dmCtlFd);; Ret (0%Z, Some m)
                          end
                      end
                  end
              end
          end
      end
  end.

(** ** Properties *)

Lemma balanced_SetupDm m : balanced (cominitSetupDmDevice m).
Proof.
  unfold cominitSetupDmDevice, cominitDmctlCreateNewDmDevice, cominitDmctlLoadDmTable, cominitDmctlStartDmDevice.
  balanced_auto.
Qed.

(** What the kernel reads on the table load. *)
Definition dmTableText (m : cominitRfsMetaData_t) : list byte :=
  take (COMINIT_DM_TABLE_SIZE_MAX - 1) (cstr (dmTableVerint m)).
Definition dmTableIoctl (m : cominitRfsMetaData_t) (devId : Z) : dm_ioctl :=
  DmIoctl dm_version_ours (offsetof_dmTbl + Z.of_nat (length (dmTableText m)) + 1) offsetof_tSpec 1
    (if ro m then DM_READONLY_FLAG else 0) devId [].
Definition dmTableSpec (m : cominitRfsMetaData_t) (dmTgtStr : list byte) : dm_target_spec :=
  DmTargetSpec 0 (dmVerintDataSizeBytes m / 512) (take (DM_MAX_TYPE_NAME - 1) dmTgtStr).
Lemma LoadDmTable_data fd m tgt devId : nonul tgt →
  cominitDmctlLoadDmTable fd (dmTableData m tgt devId) =
  sys (IoctlDmTableLoad fd (dmTableIoctl m devId) (dmTableSpec m tgt) (dmTableText m)).
Proof.
  intros Ht. unfold cominitDmctlLoadDmTable, dmTableData, dmTableIoctl, dmTableSpec.
  pose proof (stpncpy_cstr (COMINIT_DM_TABLE_SIZE_MAX - 1) (dmTbl dmi_zero) (cstr (dmTableVerint m))) as Hc.
  unfold stpncpy in *. cbn [fst snd ioctl tSpec dmTbl dm_sector_start dm_length dm_target_type] in *.
  rewrite Hc; [|cbn [dmi_zero dmTbl]; rewrite length_replicate; by vm_compute; lia|apply cstr_nonul].
  assert (cstr (take (DM_MAX_TYPE_NAME - 1) (strncpy (dm_target_type (tSpec dmi_zero)) tgt DM_MAX_TYPE_NAME) ++ [x00])
    = take (DM_MAX_TYPE_NAME - 1) tgt) as ->.
  { destruct (decide (DM_MAX_TYPE_NAME = 0)) as [->|]; [done|].
    apply strncpy_cstr; [lia| |done]. apply length_replicate. }
  unfold dmTableText. by rewrite length_take, Nat.min_comm.
Qed.
Lemma dmTarget_nonul m tgt : dmTarget m = Some tgt → nonul tgt.
Proof. unfold dmTarget. repeat case_match; try done; intros [= <-]; by apply (bool_decide_unpack _). Qed.

(** The supported targets: verity (feature mask 1) read-only, integrity
    (feature mask 2) in either mode. *)
Inductive dm_target_of : Z → bool → list byte → Prop :=
  | verity_target : dm_target_of 1 true (lit "verity")
  | integrity_target readonly : dm_target_of 2 readonly (lit "integrity").
Lemma dmTarget_spec m tgt : dmTarget m = Some tgt ↔ dm_target_of (crypt m) (ro m) tgt.
Proof.
  unfold dmTarget. change COMINIT_CRYPTOPT_VERITY with 1%Z. change COMINIT_CRYPTOPT_INTEGRITY with 2%Z. split.
  - repeat case_bool_decide; try done; [destruct (ro m) eqn:Hro; [|done]|]; intros [= <-]; subst;
      match goal with E : crypt m = _ |- _ => rewrite E end; constructor.
  - by inversion 1.
Qed.

(** The calls of a successful setup, and what becomes of the metadata: a block
    device node (type bits 0x6000) the owner may read, and write if the rootfs
    is writable. *)
Definition dm_setup_trace (m : cominitRfsMetaData_t) (dmTgtStr : list byte) (fd devId : Z) : trace :=
  [Event (Open DM_CONTROL O_RDWR) (Ok fd);
   Event (IoctlDmDevCreate fd (DmIoctl dm_version_ours sizeof_dm_ioctl 0 0 0 0 COMINIT_ROOTFS_DM_NAME)) (Ok devId);
   Event (IoctlDmTableLoad fd (dmTableIoctl m devId) (dmTableSpec m dmTgtStr) (dmTableText m)) (Ok tt);
   Event (IoctlDmDevSuspend fd (DmIoctl dm_version_ours sizeof_dm_ioctl 0 0 0 devId [])) (Ok tt);
   Event (Mknod DM_ROOTFS (if ro m then 0x6100 else 0x6180)%Z devId) (Ok tt);
   Event (Close fd) tt].
Definition with_dm_path (m : cominitRfsMetaData_t) : cominitRfsMetaData_t :=
  set_devicePath m (overwrite (devicePath m) (DM_ROOTFS ++ [x00])).

Lemma cstr_dm_path m : cstr (devicePath (with_dm_path m)) = DM_ROOTFS.
Proof.
  cbn [with_dm_path devicePath set_devicePath]. unfold overwrite. rewrite <-app_assoc.
  apply cstr_app. by apply (bool_decide_unpack _).
Qed.

Lemma wp_SetupDm m t0 :
  wp upd_trace any_env (cominitSetupDmDevice (Some m))
    (λ o t, match o with
            | Done (r, m') =>
                (r = 0%Z ∧ m' = Some (with_dm_path m) ∧
                   ∃ tgt fd devId, dmTarget m = Some tgt ∧ t = t0 ++ dm_setup_trace m tgt fd devId) ∨
                (r = (-1)%Z ∧ (dmTarget m = None → t = t0))
            | Ended _ => False end) t0.
Proof.
  unfold cominitSetupDmDevice, cominitDmctlCreateNewDmDevice, cominitDmctlStartDmDevice.
  destruct (dmTarget m) as [tgt|] eqn:Ht; [|by right].
  pose proof (dmTarget_nonul _ _ Ht) as Hnn.
  repeat (rewrite ?LoadDmTable_data by exact Hnn; wp_step; cbv beta zeta); try (right; by split).
  left. split; [done|]. split; [done|]. eexists tgt, _, _. split; [done|].
  fold (with_dm_path m). rewrite cstr_dm_path.
  repeat match goal with u : unit |- _ => destruct u end.
  repeat match goal with u : reply (Close _) |- _ => destruct u end.
  unfold upd_trace, dm_setup_trace. rewrite <-!app_assoc. unfold dmNodeMode. cbn [ro with_dm_path set_devicePath].
  by destruct (ro m).
Qed.

(** C26: cominitSetupDmDevice always returns. Success means that the feature mask is verity (1) with a
    read-only rootfs, or integrity (2), and exactly this sequence: open the control node, create the
    device "rootfs", load one table with the metadata's text (its first 1023 bytes), the target type
    "verity" or "integrity", the length in sectors and the read-only flag under the interface version of
    the kernel headers, resume the device, create its block node with mode 0400 for a read-only and 0600
    for a writable rootfs, close the control node; the device path of the metadata is then the node. On
    failure no descriptor is left open, and any other mask, or verity on a writable rootfs, is refused
    before any call. *)
Theorem dm_setup_exact o m :
  let '(out, t) := run o [] (cominitSetupDmDevice (Some m)) in
  match out with
  | Done (r, m') =>
      (r = 0%Z ∧ m' = Some (with_dm_path m) ∧
         ∃ tgt fd devId, dm_target_of (crypt m) (ro m) tgt ∧ t = dm_setup_trace m tgt fd devId) ∨
      (r = (-1)%Z ∧ held t = [] ∧ ((∀ tgt, ¬ dm_target_of (crypt m) (ro m) tgt) → t = []))
  | Ended _ => False
  end.
Proof.
  pose proof (wp_run_trace _ _ o (wp_SetupDm m [])) as Hw.
  pose proof (balanced_run (cominitSetupDmDevice (Some m)) o) as Hb.
  destruct (run _ _ _) as [[[r m']|e] t]; [|done]. cbn [fst snd] in *.
  destruct Hw as [(-> & -> & tgt & fd & devId & Htgt & ->)|[-> Hw]]; [left|right].
  - split_and!; [done|done|]. exists tgt, fd, devId. by rewrite <-dmTarget_spec.
  - split_and!; [done|by eapply Hb; [apply balanced_SetupDm|]|]. intros Hno. apply Hw.
    destruct (dmTarget m) as [tgt|] eqn:E; [|done]. by apply dmTarget_spec, Hno in E.
Qed.
End Dmctl.
#[export] Hint Resolve balanced_SetupDm : balanced.
