(* ===== verification/Minsetup.v ===== *)
(** * Minsetup: mounts of the initramfs and the switch into the rootfs
    (src/minsetup.c, inc/minsetup.h) *)
From S2P Require Import Prelude CString Sys Output Common Dmctl.

(** File modes; octal in the source. *)
Definition mode_0755 : Z := 0x1ed.
Definition mode_0555 : Z := 0x16d.
Definition mode_0022 : Z := 0x12.

Section Minsetup.
Context `{DmParams}.

(** [if (mkdir(p, mode) == -1 && errno != EEXIST) return -1;], answering
    whether to go on. *)
Definition mkdirExist (p : path) (mode : Z) : prog bool :=
  r ← sys (Mkdir p mode);
  match r with
  | Ok _ => Ret true
  | Err e => Ret (bool_decide (e = EEXIST))
  end.
(** The same for [mount] and [EBUSY]. *)
Definition mountBusy (tgt : path) (fstype : list byte) (flags : list mount_flag) : prog bool :=
  r ← sys (Mount (lit "none") tgt (Some fstype) flags);
  match r with
  | Ok _ => Ret true
  | Err e => Ret (bool_decide (e = EBUSY))
  end.

Definition cominitSetupSysfiles : prog Z :=
  sys_ (Umask 0);;
  ok ← mkdirExist (lit "/dev") mode_0755;
  if negb ok then Ret (-1)%Z else
  ok ← mountBusy (lit "/dev") (lit "devtmpfs") [MS_NOEXEC; MS_NOSUID];
  if negb ok then Ret (-1)%Z else
  ok ← mkdirExist (lit "/proc") mode_0555;
  if negb ok then Ret (-1)%Z else
  ok ← mountBusy (lit "/proc") (lit "proc") [MS_NODEV; MS_NOEXEC; MS_NOSUID];
  if negb ok then Ret (-1)%Z else
  sys_ (Umask mode_0022);;
  Ret 0%Z.

Definition cominitSetupSysSelinuxfiles : prog Z :=
  ok ← mkdirExist (lit "/sys") mode_0755;
  if negb ok then Ret (-1)%Z else
  ok ← mkdirExist (lit "/sys/fs") mode_0755;
  if negb ok then Ret (-1)%Z else
  ok ← mkdirExist (lit "/sys/fs/selinux") mode_0755;
  if negb ok then Ret (-1)%Z else
  ok ← mountBusy (lit "/sys/fs/selinux") (lit "selinuxfs") [MS_NODEV; MS_NOEXEC; MS_NOSUID];
  if negb ok then Ret (-1)%Z else
  Ret 0%Z.

Definition cominitCleanupSysfiles : prog Z :=
  r ← sys (Umount2Detach (lit "/dev"));
  match r with Err _ => Ret (-1)%Z | Ok _ => Ret 0%Z end.
Definition cominitCleanupSelinuxfiles : prog Z :=
  r ← sys (Umount2Detach (lit "/sys/fs/selinux"));
  match r with Err _ => Ret (-1)%Z | Ok _ => Ret 0%Z end.

Definition cominitSetupRootfs (rfsMeta : option cominitRfsMetaData_t)
    : prog (Z * option cominitRfsMetaData_t) :=
  match rfsMeta with
  | None => Ret ((-1)%Z, None)
  | Some m =>
      if negb (ro m) && strcmp_eq (cstr (fsType m)) (lit "squashfs") then Ret ((-1)%Z, Some m) else
      '(r, m') ← (if bool_decide (crypt m ≠ COMINIT_CRYPTOPT_NONE)
                  then cominitSetupDmDevice (Some m) else Ret (0%Z, Some m));
      if bool_decide (r = -1)%Z then Ret ((-1)%Z, m') else
      match m' with
      | None => Stop (Undef NullDeref)
      | Some m =>
          ok ← mkdirExist (lit "/newroot") mode_0755;
          if negb ok then Ret ((-1)%Z, Some m) else
          r ← sys (Mount (cstr (devicePath m)) (lit "/newroot") (Some (cstr (fsType m)))
                     (if ro m then [MS_RDONLY] else []));
          match r with
          | Err _ => Ret ((-1)%Z, Some m)
          | Ok _ => Ret (0%Z, Some m)
          end
      end
  end.

(** The callback of [nftw]. *)
Definition cominitNftwRemove (e : ftw_entry) : prog Z :=
  match ftw_tflag e with
  | FTW_F | FTW_SL => sys_ (Unlink (ftw_path e));; Ret 0%Z
  | FTW_DP => if bool_decide (ftw_level e > 0)%Z
              then sys_ (Rmdir (ftw_path e));; Ret 0%Z else Ret 0%Z
  | FTW_D | FTW_DNR | FTW_NS | FTW_SLN => Ret 0%Z
  end.
(** [nftw] calls it on the visited entries while it returns 0. *)
Fixpoint nftwEach (es : list ftw_entry) : prog Z :=
  match es with
  | [] => Ret 0%Z
  | e :: es => r ← cominitNftwRemove e; if bool_decide (r = 0)%Z then nftwEach es else Ret r
  end.

Definition cominitSwitchIntoRootfs : prog Z :=
  '(entries, _) ← sys (Nftw (lit "/"));
  nftwEach entries;;
  r ← sys (Chdir (lit "/newroot"));
  match r with Err _ => Ret (-1)%Z | Ok _ =>
  r ← sys (Mount (lit "/newroot") (lit "/") None [MS_MOVE]);
  match r with Err _ => Ret (-1)%Z | Ok _ =>
  r ← sys (Chroot (lit "."));
  match r with Err _ => Ret (-1)%Z | Ok _ =>
  r ← sys (Chdir (lit "/"));
  match r with Err _ => Ret (-1)%Z | Ok _ => Ret 0%Z
  end end end end.

(** ** Resources *)
Lemma balanced_mkdirExist p n : balanced (mkdirExist p n).
Proof. unfold mkdirExist. balanced_auto. Qed.
Lemma balanced_mountBusy p f l : balanced (mountBusy p f l).
Proof. unfold mountBusy. balanced_auto. Qed.
#[local] Hint Resolve balanced_mkdirExist balanced_mountBusy balanced_SetupDm : balanced.
Lemma balanced_Sysfiles : balanced cominitSetupSysfiles.
Proof. unfold cominitSetupSysfiles. balanced_auto. Qed.
Lemma balanced_SysSelinux : balanced cominitSetupSysSelinuxfiles.
Proof. unfold cominitSetupSysSelinuxfiles. balanced_auto. Qed.
Lemma balanced_CleanupSysfiles : balanced cominitCleanupSysfiles.
Proof. unfold cominitCleanupSysfiles. balanced_auto. Qed.
Lemma balanced_CleanupSelinux : balanced cominitCleanupSelinuxfiles.
Proof. unfold cominitCleanupSelinuxfiles. balanced_auto. Qed.
Lemma balanced_SetupRootfs m : balanced (cominitSetupRootfs m).
Proof. unfold cominitSetupRootfs. balanced_auto. Qed.
Lemma balanced_NftwRemove e : balanced (cominitNftwRemove e).
Proof. unfold cominitNftwRemove. balanced_auto. Qed.
#[local] Hint Resolve balanced_NftwRemove : balanced.
Lemma balanced_nftwEach es : balanced (nftwEach es).
Proof. induction es; cbn [nftwEach]; balanced_auto. Qed.
#[local] Hint Resolve balanced_nftwEach : balanced.
Lemma balanced_Switch : balanced cominitSwitchIntoRootfs.
Proof. unfold cominitSwitchIntoRootfs. balanced_auto. Qed.
End Minsetup.
#[export] Hint Resolve balanced_Sysfiles balanced_SysSelinux balanced_CleanupSysfiles
  balanced_CleanupSelinux balanced_SetupRootfs balanced_Switch : balanced.
