(* ===== verification/MinsetupProofs.v ===== *)
(** * MinsetupProofs: what the mount and switch operations of Minsetup.v do *)
From S2P Require Import Prelude CString Sys Output Common Dmctl Minsetup.

(** A successful mount on /newroot. *)
Definition newroot_mounted (e : event) : bool :=
  let '(Event c r) := e in
  match c return reply c → bool with
  | Mount _ tgt _ _ => λ r, match r with Ok _ => bool_decide (tgt = lit "/newroot") | Err _ => false end
  | _ => λ _, false
  end r.

Section Props.
Context `{DmParams}.

(** ** Mounting the rootfs *)

(** The mount of the rootfs described by [m]. *)
Definition rootfs_mount (m : cominitRfsMetaData_t) : event :=
  Event (Mount (cstr (devicePath m)) (lit "/newroot") (Some (cstr (fsType m)))
           (if ro m then [MS_RDONLY] else [])) (Ok tt).

(** [t] mounts the rootfs of [m]: the device itself when the metadata asks for
    no device mapper, and else the device mapper device set up for it. [m1] is
    the metadata afterwards. *)
Definition rootfs_mounted (m m1 : cominitRfsMetaData_t) (t : trace) : Prop :=
  ∃ tdm rm, t = tdm ++ [Event (Mkdir (lit "/newroot") mode_0755) rm; rootfs_mount m1] ∧
    (rm = Ok tt ∨ rm = Err EEXIST) ∧
    ((crypt m = COMINIT_CRYPTOPT_NONE ∧ tdm = [] ∧ m1 = m) ∨
     (crypt m ≠ COMINIT_CRYPTOPT_NONE ∧ m1 = with_dm_path m ∧
        ∃ tgt fd devId, dmTarget m = Some tgt ∧ tdm = dm_setup_trace m tgt fd devId)).

(** The setup of the device mapper mounts nothing. *)
Lemma SetupDm_no_mount m t0 :
  wp upd_trace any_env (cominitSetupDmDevice (Some m))
    (λ o t, ∃ t', t = t0 ++ t' ∧ existsb newroot_mounted t' = false) t0.
Proof.
  unfold cominitSetupDmDevice, cominitDmctlCreateNewDmDevice, cominitDmctlLoadDmTable, cominitDmctlStartDmDevice.
  repeat (wp_step; cbv beta zeta); unfold upd_trace; rewrite <-?app_assoc;
    (eexists; split; [reflexivity|reflexivity]) || (exists []; by rewrite app_nil_r).
Qed.

(** Mounting, from the metadata the device mapper step left. *)
Lemma wp_mount_rootfs m t0 (Q : outcome (Z * option cominitRfsMetaData_t) → trace → Prop) :
  (∀ rm, rm = Ok tt ∨ rm = Err EEXIST →
     Q (Done (0%Z, Some m)) (t0 ++ [Event (Mkdir (lit "/newroot") mode_0755) rm; rootfs_mount m])) →
  (∀ t', existsb newroot_mounted t' = false → Q (Done ((-1)%Z, Some m)) (t0 ++ t')) →
  wp upd_trace any_env
    (ok ← mkdirExist (lit "/newroot") mode_0755;
     if negb ok then Ret ((-1)%Z, Some m) else
     r ← sys (Mount (cstr (devicePath m)) (lit "/newroot") (Some (cstr (fsType m)))
                (if ro m then [MS_RDONLY] else []));
     match r with Err _ => Ret ((-1)%Z, Some m) | Ok _ => Ret (0%Z, Some m) end) Q t0.
Proof.
  intros Hok Hfail. unfold mkdirExist. apply wp_bind, wp_sys. intros rm _. unfold upd_trace.
  assert (∀ rm, rm = Ok tt ∨ rm = Err EEXIST →
    wp upd_trace any_env (r ← sys (Mount (cstr (devicePath m)) (lit "/newroot") (Some (cstr (fsType m)))
                (if ro m then [MS_RDONLY] else []));
     match r with Err _ => Ret ((-1)%Z, Some m) | Ok _ => Ret (0%Z, Some m) end) Q
     (t0 ++ [Event (Mkdir (lit "/newroot") mode_0755) rm])) as Hmount.
  { intros rm' Hrm. apply wp_sys. intros [[]|e] _; cbn [wp]; unfold upd_trace; rewrite <-app_assoc.
    - by apply Hok.
    - by apply Hfail. }
  destruct rm as [[]|e]; cbn [wp negb]; [by apply Hmount; left|].
  case_bool_decide; subst; cbn [negb]; [by apply Hmount; right|by apply Hfail].
Qed.

Lemma wp_SetupRootfs m t0 :
  wp upd_trace any_env (cominitSetupRootfs (Some m))
    (λ o t, match o with
            | Done (r, m') => ∃ t', t = t0 ++ t' ∧
                ((r = 0%Z ∧ (ro m = true ∨ cstr (fsType m) ≠ lit "squashfs") ∧
                    ∃ m1, m' = Some m1 ∧ rootfs_mounted m m1 t') ∨
                 (r = (-1)%Z ∧ existsb newroot_mounted t' = false))
            | Ended _ => False end) t0.
Proof.
  unfold cominitSetupRootfs. destruct (negb (ro m) && _) eqn:Hsq.
  { exists []. rewrite app_nil_r. split; [done|]. by right. }
  assert (ro m = true ∨ cstr (fsType m) ≠ lit "squashfs") as Hro.
  { destruct (ro m); [by left|]. right. by apply bool_decide_eq_false in Hsq. }
  case_bool_decide as Hc.
  - eapply wp_call; [apply wp_and; [apply SetupDm_no_mount|apply wp_SetupDm]| |by intros ? ? []].
    intros [r m'] t [(tdm & -> & Hno) Hdm].
    destruct Hdm as [(-> & -> & tgt & fd & devId & Htgt & E)|[-> _]].
    2: { rewrite bool_decide_true by done. exists tdm. split; [done|]. by right. }
    rewrite (bool_decide_false (0%Z = _)) by done. apply app_inv_head in E as ->.
    apply wp_mount_rootfs.
    + intros rm Hrm. eexists. split; [by rewrite <-app_assoc|]. left. split; [done|]. split; [done|].
      eexists. split; [done|]. eexists _, rm. split; [done|]. split; [done|]. right. eauto 10.
    + intros t' Ht'. eexists. split; [by rewrite <-app_assoc|]. right. split; [done|].
      by rewrite existsb_app, Hno.
  - rewrite bind_ret. cbn beta iota. rewrite (bool_decide_false (0%Z = _)) by done.
    apply wp_mount_rootfs.
    + intros rm Hrm. eexists. split; [done|]. left. split; [done|]. split; [done|].
      eexists. split; [done|]. exists [], rm. eauto 10.
    + intros t' Ht'. eauto.
Qed.

(** C25: cominitSetupRootfs always returns. It returns 0 only when it mounted the rootfs on /newroot
    with the metadata's file system type and mode: the partition itself if no crypto feature is set,
    otherwise the device-mapper node created for the verity or integrity target; a writable squashfs is
    refused. When it returns -1 nothing was mounted on /newroot. *)
Theorem setup_rootfs_sound o m :
  let '(out, t) := run o [] (cominitSetupRootfs (Some m)) in
  (∃ m1, out = Done (0%Z, Some m1) ∧ rootfs_mounted m m1 t ∧
         (ro m = true ∨ cstr (fsType m) ≠ lit "squashfs") ∧ (dmTarget m = None → crypt m = COMINIT_CRYPTOPT_NONE)) ∨
  (∃ m', out = Done ((-1)%Z, m') ∧ existsb newroot_mounted t = false).
Proof.
  pose proof (wp_run_trace _ _ o (wp_SetupRootfs m [])) as Hw.
  destruct (run _ _ _) as [[[r m']|e] t]; [|done]. cbn [fst snd app] in Hw.
  destruct Hw as (t' & -> & [(-> & Hro & m1 & -> & Hm)|[-> Ht]]); [left|right; eauto].
  exists m1. split_and!; [done|done|done|].
  destruct Hm as (? & ? & _ & _ & [[? _]|(_ & _ & ? & ? & ? & ? & _)]); [done|congruence].
Qed.

(** ** Switching *)

(** The removals [nftw] makes cominit do: files, links and the directories
    below the root. *)
Definition removals (es : list ftw_entry) : list call :=
  flat_map (λ e, match ftw_tflag e with
                 | FTW_F | FTW_SL => [Unlink (ftw_path e)]
                 | FTW_DP => if bool_decide (ftw_level e > 0)%Z then [Rmdir (ftw_path e)] else []
                 | _ => []
                 end) es.
(** The calls of the switch, all answered with success, *)
Definition switch_events : trace :=
  [Event (Chdir (lit "/newroot")) (Ok tt); Event (Mount (lit "/newroot") (lit "/") None [MS_MOVE]) (Ok tt);
   Event (Chroot (lit ".")) (Ok tt); Event (Chdir (lit "/")) (Ok tt)].
(** and the same calls refused. *)
Definition switch_errors (e : errno) : trace :=
  [Event (Chdir (lit "/newroot")) (Err e); Event (Mount (lit "/newroot") (lit "/") None [MS_MOVE]) (Err e);
   Event (Chroot (lit ".")) (Err e); Event (Chdir (lit "/")) (Err e)].

Lemma wp_nftwEach es t :
  wp upd_trace any_env (nftwEach es)
    (λ o t', o = Done 0%Z ∧ ∃ tr, t' = t ++ tr ∧ map ev_call tr = removals es) t.
Proof.
  revert t. induction es as [|[p fl lv] es IH]; intros t; [by split; [|exists []; rewrite app_nil_r]|].
  cbn [nftwEach removals flat_map]. unfold cominitNftwRemove. cbn [ftw_tflag ftw_path ftw_level].
  destruct fl; try case_bool_decide;
    repeat (lazymatch goal with |- wp _ _ (nftwEach _) _ _ => fail | _ => wp_step end);
    try (by rewrite bool_decide_true in * by done);
    (eapply wp_mono; [|apply IH]; intros o t' [-> (tr & -> & Htr)]; split; [done|];
     unfold upd_trace; rewrite <-?app_assoc; eexists; split; [reflexivity|]; cbn; by rewrite Htr).
Qed.

(** A complete switch: the initramfs is emptied, then the rootfs becomes the
    root directory. *)
Definition switched (t : trace) : Prop :=
  ∃ es ok tr, t = Event (Nftw (lit "/")) (es, ok) :: tr ++ switch_events ∧ map ev_call tr = removals es.
(** One that broke off: the first [n] of the four calls succeeded, the next one
    failed and is the last call made. *)
Definition switch_failed (t : trace) : Prop :=
  ∃ es ok tr n e failed, switch_errors e !! n = Some failed ∧
    t = Event (Nftw (lit "/")) (es, ok) :: tr ++ take n switch_events ++ [failed] ∧
    map ev_call tr = removals es.

Lemma wp_Switch t0 :
  wp upd_trace any_env cominitSwitchIntoRootfs
    (λ o t, ∃ t', t = t0 ++ t' ∧
       ((o = Done 0%Z ∧ switched t') ∨ (o = Done (-1)%Z ∧ switch_failed t'))) t0.
Proof.
  unfold cominitSwitchIntoRootfs. apply wp_sys. intros [es ok] _.
  eapply wp_call; [apply wp_nftwEach| |by intros e s' [? _]]. intros r t' [_ (tr & -> & Htr)].
  repeat wp_step; unfold upd_trace; rewrite <-?app_assoc; (eexists; split; [reflexivity|]).
  1: left. 2-5: right. all: split; [done|]; repeat match goal with u : unit |- _ => destruct u end.
  - by exists es, ok, tr.
  - by eexists es, ok, tr, 3, _, _.
  - by eexists es, ok, tr, 2, _, _.
  - by eexists es, ok, tr, 1, _, _.
  - by eexists es, ok, tr, 0, _, _.
Qed.

(** C32: cominitSwitchIntoRootfs always returns. It first walks the initramfs and removes the files,
    links and sub-directories reported, never the root itself. It returns 0 exactly when chdir to
    /newroot, the move of the mount to /, chroot and chdir then succeeded in this order; it returns -1
    exactly when one of the four answered an error after its predecessors had succeeded, and then makes
    no further call. *)
Theorem switch_order o :
  let '(out, t) := run o [] cominitSwitchIntoRootfs in
  (out = Done 0%Z ∧ switched t) ∨ (out = Done (-1)%Z ∧ switch_failed t).
Proof.
  pose proof (wp_run_trace _ _ o (wp_Switch [])) as Hw.
  destruct (run _ _ _) as [out t]. cbn [fst snd app] in Hw. by destruct Hw as (t' & -> & Hw).
Qed.
End Props.
