(* ===== verification/Automount.v ===== *)
(** * Automount: finding partitions by their GPT type (src/automount.c,
    inc/automount.h)

    The GPT header is kept as the bytes read from the disk; its fields are read
    the way a little-endian host reads the packed structure. *)
From S2P Require Import Prelude CString Sys Output Common.

Definition COMINIT_ROOTFS_GUID_TYPE : list byte := lit "b921b045-1df0-41c3-af44-4c6f280d3fae".
Definition COMINIT_SECURE_STORAGE_GUID_TYPE : list byte := lit "CA7D7CCB-63ED-4C53-861C-1742536059CC".
Definition GPT_HEADER_DEFAULT_ENTRY_SIZE : Z := 128.

(** Little-endian value of a byte list. *)
Fixpoint le (l : list byte) : Z :=
  match l with [] => 0 | b :: r => bz b + 256 * le r end%Z.
(** The [n]-byte field at offset [off]. *)
Definition fieldAt (l : list byte) (off n : nat) : Z := le (take n (drop off l)).

(** The packed header. *)
Definition sizeof_GPTHeader : nat := 92.
Definition signature (hdr : list byte) : list byte := take 8 hdr.
Definition partitionEntriesLba (hdr : list byte) : Z := fieldAt hdr 72 8.
Definition partitionEntryCount (hdr : list byte) : Z := fieldAt hdr 80 4.
Definition partitionEntrySize (hdr : list byte) : Z := fieldAt hdr 84 4.

Record cominitGPTDisk_t := GPTDisk { diskName : list byte; blockSize : Z; hdr : list byte }.
Definition zero_disk : cominitGPTDisk_t :=
  GPTDisk (replicate COMINIT_ROOTFS_DEV_PATH_MAX x00) 0 (replicate sizeof_GPTHeader x00).

Definition cominitAutomountGetBlockSize (fd : Z) (blockSize : Z) : prog (Z * Z) :=
  r ← sys (IoctlBlkSszGet fd);
  match r with Err _ => Ret (EXIT_FAILURE, blockSize) | Ok n => Ret (EXIT_SUCCESS, n) end.

Definition blacklist : list (list byte) :=
  [lit "loop"; lit "zram"; lit "dm-"; lit "md"; lit "sr"; lit "ram"].
Definition cominitAutomountIsBlacklistedName (name : list byte) : bool :=
  existsb (λ b, strncmp_eq name b (length b)) blacklist.

(** [blockDevice] is the array the name is in. *)
Definition cominitAutomountFindGpt (blockDevice : list byte) (d : cominitGPTDisk_t)
    : prog (Z * cominitGPTDisk_t) :=
  r ← sys (Open (cstr blockDevice) O_RDONLY_CLOEXEC);
  match r with
  | Err _ => Ret (EXIT_FAILURE, d)
  | Ok fd =>
      '(res, d) ←
        ('(r, bs) ← cominitAutomountGetBlockSize fd (blockSize d);
         let d := GPTDisk (diskName d) bs (hdr d) in
         if bool_decide (r = EXIT_FAILURE) then Ret (EXIT_FAILURE, d) else
         r ← sys (Pread fd sizeof_GPTHeader bs);
         match r with
         | Err _ => Ret (EXIT_FAILURE, d)
         | Ok bytes =>
             let d := GPTDisk (diskName d) bs (overwrite (hdr d) bytes) in
             if bool_decide (length bytes ≠ sizeof_GPTHeader) then Ret (EXIT_FAILURE, d) else
             if bool_decide (signature (hdr d) ≠ lit "EFI PART") then Ret (EXIT_FAILURE, d) else
             if bool_decide (length blockDevice < COMINIT_ROOTFS_DEV_PATH_MAX)
             then Stop (Undef OutOfBounds) else
             Ret (EXIT_SUCCESS, GPTDisk (take COMINIT_ROOTFS_DEV_PATH_MAX blockDevice) bs (hdr d))
         end);
      sys_ (Close fd);;
      Ret (res, d)
  end.

(** The text of a GUID in its 16-byte on-disk form. *)
Definition guidText (raw : list byte) : list byte :=
  let b i := hex_fixed 2 (bz (nth i raw x00)) in
  hex_fixed 8 (fieldAt raw 0 4) ++ lit "-" ++ hex_fixed 4 (fieldAt raw 4 2) ++ lit "-" ++
  hex_fixed 4 (fieldAt raw 6 2) ++ lit "-" ++ b 8 ++ b 9 ++ lit "-" ++
  b 10 ++ b 11 ++ b 12 ++ b 13 ++ b 14 ++ b 15.
Definition cominitAutomountFormatGuid (rawGuid guid : list byte) : list byte :=
  snprintf guid 37 (guidText rawGuid).

(** [diskName] is the string, [partitionName] the array it prints to. *)
Definition endsWithDigit (s : list byte) : bool :=
  match last s with Some b => isdigit b | None => false end.
Definition partitionNode (diskName : list byte) (idx : Z) : list byte :=
  diskName ++ (if endsWithDigit diskName then lit "p" else []) ++ dec idx.
Definition cominitAutomountBuildPartitionNode (diskName : list byte) (idx : Z)
    (partitionName : list byte) (partitionNameSize : nat) : Z * list byte :=
  let text := partitionNode diskName idx in
  (if bool_decide (partitionNameSize <= length text) then EXIT_FAILURE else EXIT_SUCCESS,
   snprintf partitionName partitionNameSize text).

(** The loop over the table from [entryIndex]; [n] entries are left. Returns
    the result, the name array and the entry buffer. *)
Fixpoint FindPartitionOnDisk_loop (n : nat) (entryIndex : Z) (d : cominitGPTDisk_t) (fd diskSize : Z)
    (guidType : list byte) (partitionName : list byte) (partitionNameSize : nat) (entryBuffer : list byte)
    : prog (Z * list byte * list byte) :=
  match n with
  | O => Ret (EXIT_FAILURE, partitionName, entryBuffer)
  | S n =>
      let size := partitionEntrySize (hdr d) in
      let tableBaseBytes := u64 (partitionEntriesLba (hdr d) * u64 (blockSize d)) in
      let entryOffsetBytes := u64 (tableBaseBytes + u64 (entryIndex * size)) in
      if bool_decide (entryOffsetBytes > diskSize)%Z then Ret (EXIT_FAILURE, partitionName, entryBuffer) else
      r ← sys (Pread fd (Z.to_nat size) (i64 entryOffsetBytes));
      match r with
      | Err _ => Ret (EXIT_FAILURE, partitionName, entryBuffer)
      | Ok bytes =>
          let entryBuffer := overwrite entryBuffer bytes in
          if bool_decide (Z.of_nat (length bytes) ≠ size) then Ret (EXIT_FAILURE, partitionName, entryBuffer) else
          if forallb (λ b, bool_decide (b = x00)) (take 16 entryBuffer)
          then FindPartitionOnDisk_loop n (u32 (entryIndex + 1)) d fd diskSize guidType
                 partitionName partitionNameSize entryBuffer
          else
            let typeGuidString := cominitAutomountFormatGuid (take 16 entryBuffer) (replicate 37 x00) in
            if strcasecmp_eq (cstr typeGuidString) guidType then
              let '(result, partitionName) :=
                cominitAutomountBuildPartitionNode (cstr (diskName d)) (u32 (entryIndex + 1))
                  partitionName partitionNameSize in
              Ret (result, partitionName, entryBuffer)
            else FindPartitionOnDisk_loop n (u32 (entryIndex + 1)) d fd diskSize guidType
                   partitionName partitionNameSize entryBuffer
      end
  end.

(** [malloc]'s memory is modelled as zeroed; it is read only after [pread]
    filled it. *)
Definition cominitAutomountFindPartitionOnDisk (gptDisk : option cominitGPTDisk_t)
    (guidType : option (list byte)) (partitionName : option (list byte)) (partitionNameSize : nat)
    : prog (Z * option (list byte)) :=
  match gptDisk, guidType, partitionName with
  | Some d, Some guidType, Some partitionName =>
      if bool_decide (head (diskName d) = Some x00) || bool_decide (partitionNameSize = 0)
      then Ret (EXIT_FAILURE, Some partitionName) else
      if negb (terminated (diskName d)) then Stop (Undef OutOfBounds) else
      r ← sys (Open (cstr (diskName d)) O_RDONLY_CLOEXEC);
      match r with
      | Err _ => Ret (EXIT_FAILURE, Some partitionName)
      | Ok fd =>
          '(result, partitionName) ←
            ('(r, diskSize) ← cominitCommonGetPartSize (Some 0%Z) fd;
             if bool_decide (r = -1)%Z then Ret (EXIT_FAILURE, partitionName) else
             let diskSize := default 0%Z diskSize in
             let size := partitionEntrySize (hdr d) in
             if bool_decide (size < GPT_HEADER_DEFAULT_ENTRY_SIZE)%Z || bool_decide (size > diskSize)%Z
             then Ret (EXIT_FAILURE, partitionName) else
             ok ← sys (Malloc size);
             if negb ok then Ret (EXIT_FAILURE, partitionName) else
             '(result, partitionName, entryBuffer) ←
               FindPartitionOnDisk_loop (Z.to_nat (partitionEntryCount (hdr d))) 0 d fd diskSize guidType
                 partitionName partitionNameSize (replicate (Z.to_nat size) x00);
             sys_ (Free entryBuffer);;
             Ret (result, partitionName));
          sys_ (Close fd);;
          Ret (result, Some partitionName)
      end
  | _, _, _ => Ret (EXIT_FAILURE, partitionName)
  end.

(** The scan of /dev; [device] is the local array, which keeps its contents
    from one entry to the next. *)
Fixpoint FindPartition_loop (names : list (list byte)) (device : list byte) (result : Z)
    (gptDisk : cominitGPTDisk_t) (guidType : list byte) (partitionName : list byte) (partitionNameSize : nat)
    : prog (Z * cominitGPTDisk_t * list byte) :=
  match names with
  | [] => Ret (result, gptDisk, partitionName)
  | name :: names =>
      let next := FindPartition_loop names in
      if bool_decide (head name = Some Byte.x2e) then next device result gptDisk guidType partitionName partitionNameSize else
      if cominitAutomountIsBlacklistedName name then next device result gptDisk guidType partitionName partitionNameSize else
      let device := snprintf device (2 * COMINIT_ROOTFS_DEV_PATH_MAX) (lit "/dev/" ++ name) in
      st ← sys (Lstat (cstr device));
      match st with
      | Err _ => next device result gptDisk guidType partitionName partitionNameSize
      | Ok st =>
          if bool_decide (st_kind st = S_IFLNK) then next device result gptDisk guidType partitionName partitionNameSize else
          if bool_decide (st_kind st ≠ S_IFBLK) then next device result gptDisk guidType partitionName partitionNameSize else
          '(result, diskToProbe) ← cominitAutomountFindGpt device zero_disk;
          if bool_decide (result = EXIT_SUCCESS) then
            '(result, pn) ← cominitAutomountFindPartitionOnDisk (Some diskToProbe) (Some guidType)
                              (Some partitionName) partitionNameSize;
            let partitionName := default partitionName pn in
            if bool_decide (result = EXIT_SUCCESS) then Ret (result, diskToProbe, partitionName)
            else next device result gptDisk guidType partitionName partitionNameSize
          else next device result gptDisk guidType partitionName partitionNameSize
      end
  end.

Definition cominitAutomountFindPartition (gptDisk : option cominitGPTDisk_t) (guidType : option (list byte))
    (partitionName : option (list byte)) (partitionNameSize : nat)
    : prog (Z * option cominitGPTDisk_t * option (list byte)) :=
  match gptDisk, guidType, partitionName with
  | Some d, Some guid, Some pn =>
      if bool_decide (partitionNameSize = 0) then Ret (EXIT_FAILURE, gptDisk, partitionName) else
      r ← sys (Opendir (lit "/dev"));
      match r with
      | Err _ => Ret (EXIT_FAILURE, gptDisk, partitionName)
      | Ok names =>
          '(result, d, pn) ← FindPartition_loop names (replicate (2 * COMINIT_ROOTFS_DEV_PATH_MAX) x00)
                               EXIT_FAILURE d guid pn partitionNameSize;
          sys_ Closedir;;
          Ret (result, Some d, Some pn)
      end
  | _, _, _ => Ret (EXIT_FAILURE, gptDisk, partitionName)
  end.

(** ** Resources *)
Lemma balanced_GetBlockSize fd b : balanced (cominitAutomountGetBlockSize fd b).
Proof. unfold cominitAutomountGetBlockSize. balanced_auto. Qed.
#[local] Hint Resolve balanced_GetBlockSize : balanced.
Lemma balanced_FindGpt b d : balanced (cominitAutomountFindGpt b d).
Proof. unfold cominitAutomountFindGpt. balanced_auto. Qed.
Lemma balanced_OnDisk_loop n i d fd sz g p ps b : balanced (FindPartitionOnDisk_loop n i d fd sz g p ps b).
Proof. revert i p b. induction n; intros i p b; cbn [FindPartitionOnDisk_loop]; balanced_auto. Qed.
#[local] Hint Resolve balanced_FindGpt balanced_OnDisk_loop : balanced.
Lemma balanced_OnDisk d g p n : balanced (cominitAutomountFindPartitionOnDisk d g p n).
Proof. unfold cominitAutomountFindPartitionOnDisk. balanced_auto. Qed.
#[export] Hint Resolve balanced_OnDisk : balanced.
Lemma balanced_FindPartition_loop ns dv r d g p n : balanced (FindPartition_loop ns dv r d g p n).
Proof.
  revert dv r d p. induction ns as [|nm ns IH]; intros dv r d p; cbn [FindPartition_loop]; balanced_auto.
Qed.
#[local] Hint Resolve balanced_FindPartition_loop : balanced.
Lemma balanced_FindPartition d g p n : balanced (cominitAutomountFindPartition d g p n).
Proof. unfold cominitAutomountFindPartition. balanced_auto. Qed.
#[export] Hint Resolve balanced_FindPartition : balanced.
