(* ===== verification/AutomountProofs.v ===== *)
(** * AutomountProofs: partition discovery of Automount.v *)
From S2P Require Import Prelude CString Sys Output Common Automount.

(** ** Little-endian fields *)

Lemma le_range l : (0 <= le l < 256 ^ Z.of_nat (length l))%Z.
Proof.
  induction l as [|b l IH]; [simpl; lia|]. cbn [le length]. pose proof (bz_range b).
  rewrite Nat2Z.inj_succ, Z.pow_succ_r by lia. lia.
Qed.
Lemma le_inj l1 l2 : length l1 = length l2 → le l1 = le l2 → l1 = l2.
Proof.
  revert l2. induction l1 as [|b l1 IH]; intros [|b' l2] Hl E; try done. cbn [le] in E.
  pose proof (bz_range b). pose proof (bz_range b').
  assert (bz b = bz b' ∧ le l1 = le l2) as [Hb Hr] by lia.
  f_equal; [by apply bz_inj|]. apply IH; [by injection Hl|done].
Qed.
Lemma fieldAt_range l off n : (0 <= fieldAt l off n < 256 ^ Z.of_nat n)%Z.
Proof.
  unfold fieldAt. pose proof (le_range (take n (drop off l))) as [H1 H2]. split; [done|].
  eapply Z.lt_le_trans; [exact H2|]. apply Z.pow_le_mono_r; [lia|]. rewrite length_take. lia.
Qed.

(** ** GUIDs *)

(** Equal texts have equal fixed-width parts. *)
Lemma app_eq_length {A} (a b c d : list A) : length a = length c → a ++ b = c ++ d → a = c ∧ b = d.
Proof. intros Hl. by apply app_inj_1. Qed.

Lemma hex_field_inj l1 l2 off n :
  off + n <= length l1 → off + n <= length l2 →
  hex_fixed (2 * n) (fieldAt l1 off n) = hex_fixed (2 * n) (fieldAt l2 off n) →
  take n (drop off l1) = take n (drop off l2).
Proof.
  intros H1 H2 E.
  assert (16 ^ Z.of_nat (2 * n) = 256 ^ Z.of_nat n)%Z as Hp.
  { rewrite Nat2Z.inj_mul, Z.pow_mul_r by lia. done. }
  apply hex_fixed_inj in E; [|rewrite Hp; apply fieldAt_range..].
  apply le_inj; [rewrite !length_take, !length_drop; lia|exact E].
Qed.
Lemma hex_byte_inj a b : hex_fixed 2 (bz a) = hex_fixed 2 (bz b) → a = b.
Proof. intros E. apply bz_inj. pose proof (bz_range a). pose proof (bz_range b). eapply (hex_fixed_inj 2); simpl; try lia; done. Qed.

Lemma guidText_length raw : length (guidText raw) = 36.
Proof. unfold guidText. cbv zeta. rewrite !length_app, !hex_fixed_length. done. Qed.
Lemma guidText_nonul raw : nonul (guidText raw).
Proof.
  unfold guidText. cbv zeta. rewrite !nonul_app.
  split_and!; try apply hex_fixed_nonul; by apply (bool_decide_unpack _).
Qed.

Lemma guidText_inj raw1 raw2 :
  length raw1 = 16 → length raw2 = 16 → guidText raw1 = guidText raw2 → raw1 = raw2.
Proof.
  intros H1 H2 E. unfold guidText in E. cbv zeta in E.
  do 14 (apply app_eq_length in E as [? E]; [|by rewrite ?hex_fixed_length]).
  repeat match goal with
  | X : lit "-" = lit "-" |- _ => clear X
  | X : hex_fixed 2 _ = hex_fixed 2 _ |- _ => apply hex_byte_inj in X
  end.
  apply (hex_field_inj raw1 raw2 0 4) in H as E0; [|lia..].
  apply (hex_field_inj raw1 raw2 4 2) in H3 as E4; [|lia..].
  apply (hex_field_inj raw1 raw2 6 2) in H5 as E6; [|lia..].
  do 17 (destruct raw1 as [|? raw1]; try (simpl in H1; lia)).
  do 17 (destruct raw2 as [|? raw2]; try (simpl in H2; lia)).
  clear H H3 H5 H1 H2. cbn [take drop nth] in *. by simplify_eq.
Qed.

Lemma tolower_hexdigit d : (0 <= d < 16)%Z → tolower (hexdigit d) = hexdigit d.
Proof.
  intros Hd. assert (d ∈ seqZ 0 16) as Hin by (apply elem_of_seqZ; lia).
  revert d Hin Hd. refine (λ d Hin _, _).
  repeat (apply elem_of_cons in Hin as [->|Hin]; [by vm_compute|]). by apply elem_of_nil in Hin.
Qed.
Lemma tolower_hex w z : map tolower (hex_fixed w z) = hex_fixed w z.
Proof.
  revert z. induction w as [|w IH]; intros z; [done|]. cbn [hex_fixed]. rewrite map_app, IH. simpl.
  rewrite tolower_hexdigit; [done|]. apply Z.mod_pos_bound. lia.
Qed.
Lemma guidText_lower raw : map tolower (guidText raw) = guidText raw.
Proof. unfold guidText. cbv zeta. by rewrite !map_app, !tolower_hex. Qed.

Lemma FormatGuid_cstr raw buf : cstr (cominitAutomountFormatGuid raw buf) = guidText raw.
Proof.
  unfold cominitAutomountFormatGuid. apply snprintf_fits; [rewrite guidText_length; lia|apply guidText_nonul].
Qed.

(** The comparison of a formatted type GUID with a textual GUID, in either case, decides equality of the
    16 raw bytes: two different GUIDs never match and equal ones always do. *)
Theorem guid_match_exact raw raw' buf guid
    (Hraw : length raw = 16) (Hraw' : length raw' = 16) (Hguid : map tolower guid = guidText raw') :
  strcasecmp_eq (cstr (cominitAutomountFormatGuid raw buf)) guid = bool_decide (raw = raw').
Proof.
  rewrite FormatGuid_cstr. unfold strcasecmp_eq. rewrite guidText_lower, Hguid.
  apply bool_decide_ext. split; [by apply guidText_inj|by intros ->].
Qed.

(** ** Partition nodes *)

Lemma dec_inj a b : (0 <= a < 2 ^ 64)%Z → (0 <= b < 2 ^ 64)%Z → dec a = dec b → a = b.
Proof. intros Ha Hb E. apply dec_spec in Ha as (_ & _ & <-). apply dec_spec in Hb as (_ & _ & <-). by rewrite E. Qed.
Lemma partitionNode_nonul disk idx : nonul disk → (0 <= idx < 2 ^ 64)%Z → nonul (partitionNode disk idx).
Proof.
  intros Hd Hi. unfold partitionNode. rewrite !nonul_app. split_and!; [done| |by apply dec_nonul].
  destruct (endsWithDigit disk); [by apply (bool_decide_unpack _)|apply nonul_nil].
Qed.

(** cominitAutomountBuildPartitionNode succeeds exactly when the node name fits the buffer with its NUL,
    and then the buffer holds the disk name, a "p" if the disk name ends in a digit, and the index;
    different indexes give different nodes. *)
Theorem partition_node_built disk idx idx' pn size
    (Hdisk : nonul disk) (Hidx : (0 <= idx < 2 ^ 32)%Z) (Hidx' : (0 <= idx' < 2 ^ 32)%Z) (Hsize : 0 < size) :
  let '(r, pn') := cominitAutomountBuildPartitionNode disk idx pn size in
  (r = EXIT_SUCCESS ↔ length (partitionNode disk idx) < size) ∧
  (r = EXIT_SUCCESS → cstr pn' = partitionNode disk idx) ∧
  (partitionNode disk idx = partitionNode disk idx' → idx = idx').
Proof.
  unfold cominitAutomountBuildPartitionNode. split_and!.
  - case_bool_decide; (split; [|lia]); [done|lia].
  - case_bool_decide; [done|]. intros _. apply snprintf_fits; [lia|]. apply partitionNode_nonul; [done|lia].
  - unfold partitionNode. intros E%app_inv_head%app_inv_head. apply dec_inj in E; [done|lia..].
Qed.

(** ** Searching a partition table *)

(** The disk [p] with contents [img] behind [fd]: its size and what [pread]
    returns at any position. *)
Definition disk_env (p : path) (fd : Z) (img : list byte) (e : event) : Prop :=
  let '(Event c r) := e in
  match c return reply c → Prop with
  | Open p' _ => λ r, p' = p → r = Ok fd
  | IoctlBlkGetSize64 fd' => λ r, fd' = fd → r = Ok (Z.of_nat (length img))
  | Pread fd' n off => λ r, fd' = fd → (0 <= off)%Z → r = Ok (take n (drop (Z.to_nat off) img))
  | Malloc _ => λ r, r = true
  | _ => λ _, True
  end r.
Class DiskContract (o : oracle) (p : path) (fd : Z) (img : list byte) : Prop := {
  disk_answers : ∀ h c, disk_env p fd img (Event c (o h c))
}.

(** The reference: entry [i] of the table, and the first one of a type. *)
Definition tableBase (d : cominitGPTDisk_t) : Z := partitionEntriesLba (hdr d) * blockSize d.
Definition tableEntry (d : cominitGPTDisk_t) (img : list byte) (i : nat) : list byte :=
  take (Z.to_nat (partitionEntrySize (hdr d)))
    (drop (Z.to_nat (tableBase d + Z.of_nat i * partitionEntrySize (hdr d))) img).
Definition entryHasType (guid e : list byte) : bool :=
  negb (forallb (λ b, bool_decide (b = x00)) (take 16 e)) && strcasecmp_eq (guidText (take 16 e)) guid.
Definition firstOfType (d : cominitGPTDisk_t) (img guid : list byte) (i n : nat) : option nat :=
  List.find (λ j, entryHasType guid (tableEntry d img j)) (seq i n).

(** The table lies on the disk. *)
Definition tableOnDisk (d : cominitGPTDisk_t) (img : list byte) : Prop :=
  (0 <= blockSize d)%Z ∧ (Z.of_nat (length img) < 2 ^ 63)%Z ∧
  (tableBase d + partitionEntryCount (hdr d) * partitionEntrySize (hdr d) <= Z.of_nat (length img))%Z.

Lemma wp_OnDisk_loop {St} (upd : St → event → St) p d fd img guid pn pnSize n i buf s :
  tableOnDisk d img → (GPT_HEADER_DEFAULT_ENTRY_SIZE <= partitionEntrySize (hdr d))%Z →
  i + n = Z.to_nat (partitionEntryCount (hdr d)) → length buf = Z.to_nat (partitionEntrySize (hdr d)) →
  wp upd (λ _, disk_env p fd img)
    (FindPartitionOnDisk_loop n (Z.of_nat i) d fd (Z.of_nat (length img)) guid pn pnSize buf)
    (λ o _, ∃ buf', o = Done (match firstOfType d img guid i n with
        | Some j => let '(r, pn') := cominitAutomountBuildPartitionNode (cstr (diskName d)) (Z.of_nat j + 1) pn pnSize in
                    (r, pn', buf')
        | None => (EXIT_FAILURE, pn, buf') end)) s.
Proof.
  intros (Hbs & Himg & Htab) Hsz. unfold GPT_HEADER_DEFAULT_ENTRY_SIZE in Hsz.
  revert i buf s. induction n as [|n IH]; intros i buf s Hin Hbuf; [by eexists|].
  cbn [FindPartitionOnDisk_loop]. cbv zeta.
  pose proof (fieldAt_range (hdr d) 72 8) as Hlba. pose proof (fieldAt_range (hdr d) 80 4) as Hcnt.
  fold (partitionEntriesLba (hdr d)) in Hlba. fold (partitionEntryCount (hdr d)) in Hcnt.
  change (256 ^ Z.of_nat 4)%Z with (2 ^ 32)%Z in Hcnt.
  set (size := partitionEntrySize (hdr d)) in *. set (cnt := partitionEntryCount (hdr d)) in *.
  assert (0 <= tableBase d)%Z as Hb0 by (unfold tableBase; lia).
  assert ((Z.of_nat i + 1) * size <= cnt * size)%Z as Hmul by (apply Z.mul_le_mono_nonneg_r; lia).
  assert (tableBase d <= tableBase d + cnt * size)%Z as Hge by (pose proof (Z.mul_nonneg_nonneg cnt size); lia).
  assert (u64 (u64 (partitionEntriesLba (hdr d) * u64 (blockSize d)) + u64 (Z.of_nat i * size)) =
          tableBase d + Z.of_nat i * size)%Z as ->.
  { destruct (decide (partitionEntriesLba (hdr d) = 0)%Z) as [E|E].
    - unfold tableBase in *. rewrite E, !Z.mul_0_l in *.
      rewrite (u64_small 0), (u64_small (_ * size)), u64_small by lia. done.
    - assert (blockSize d <= tableBase d)%Z by (unfold tableBase; nia).
      rewrite (u64_small (blockSize d)) by lia. fold (tableBase d).
      rewrite (u64_small (tableBase d)), (u64_small (_ * size)), u64_small by lia. done. }
  rewrite bool_decide_false by lia. rewrite i64_u64, decide_True by lia.
  apply wp_sys. intros r Hr. cbn in Hr. rewrite Hr by lia. clear Hr r.
  fold size. change (take (Z.to_nat size) (drop (Z.to_nat (tableBase d + Z.of_nat i * size)) img))
    with (tableEntry d img i).
  assert (length (tableEntry d img i) = Z.to_nat size) as Hlen.
  { unfold tableEntry. fold size. rewrite length_take, length_drop. lia. }
  rewrite bool_decide_false by lia.
  assert (overwrite buf (tableEntry d img i) = tableEntry d img i) as ->.
  { unfold overwrite. rewrite drop_ge by lia. apply app_nil_r. }
  rewrite FormatGuid_cstr. rewrite u32_small by lia.
  unfold firstOfType. cbn [seq List.find]. unfold entryHasType at 1.
  fold (firstOfType d img guid (S i) n). replace (Z.of_nat i + 1)%Z with (Z.of_nat (S i)) by lia.
  destruct (forallb _ _); cbn [negb andb]; [apply IH; lia|].
  destruct (strcasecmp_eq _ guid); [|apply IH; lia].
  replace (Z.of_nat (S i)) with (Z.of_nat i + 1)%Z by lia.
  destruct (cominitAutomountBuildPartitionNode _ _ _ _). by eexists.
Qed.

(** The reference result of the search on a disk. *)
Definition onDiskResult (d : cominitGPTDisk_t) (img guid pn : list byte) (pnSize : nat) : Z * list byte :=
  match firstOfType d img guid 0 (Z.to_nat (partitionEntryCount (hdr d))) with
  | Some i => cominitAutomountBuildPartitionNode (cstr (diskName d)) (Z.of_nat i + 1) pn pnSize
  | None => (EXIT_FAILURE, pn)
  end.
Lemma wp_OnDisk {St} (upd : St → event → St) d fd img guid pn pnSize s :
  cstr (diskName d) ≠ [] → terminated (diskName d) = true → 0 < pnSize → tableOnDisk d img →
  (GPT_HEADER_DEFAULT_ENTRY_SIZE <= partitionEntrySize (hdr d) <= Z.of_nat (length img))%Z →
  wp upd (λ _, disk_env (cstr (diskName d)) fd img)
    (cominitAutomountFindPartitionOnDisk (Some d) (Some guid) (Some pn) pnSize)
    (λ o _, o = Done ((onDiskResult d img guid pn pnSize).1, Some (onDiskResult d img guid pn pnSize).2)) s.
Proof.
  intros Hname Hterm Hpn Htab Hsz. unfold cominitAutomountFindPartitionOnDisk.
  rewrite (bool_decide_false (head _ = _)), (bool_decide_false (pnSize = 0)), Hterm by
    (lia || by destruct (diskName d); intros [= ->]). cbn [orb negb].
  apply wp_sys. intros r Hr. cbn in Hr. rewrite (Hr eq_refl). unfold cominitCommonGetPartSize.
  apply wp_bind, wp_bind, wp_sys. intros r1 Hr1. cbn in Hr1. rewrite Hr1 by done.
  cbn [wp default]. unfold id. rewrite (bool_decide_false (0%Z = _)) by done.
  rewrite !bool_decide_false by lia. cbn [orb].
  apply wp_sys. intros r' Hr'. cbn in Hr'. subst r'. cbn [negb].
  eapply wp_call; [apply (wp_OnDisk_loop upd _ d fd img guid pn pnSize _ 0); try done| |by intros e s' []].
  { lia. } { apply length_replicate. }
  intros [[r2 pn2] b2] s' [buf' E]. apply Done_inj in E. unfold onDiskResult.
  destruct (firstOfType _ _ _ _ _) as [j|].
  - destruct (cominitAutomountBuildPartitionNode _ _ _ _) as [rr pp]. simplify_eq. by do 2 intros ? ?.
  - simplify_eq. by do 2 intros ? ?.
Qed.

(** On a disk whose partition table lies within the disk, cominitAutomountFindPartitionOnDisk computes
    the reference search: it names the first entry with a non-zero type GUID that equals the wanted one
    without regard to case, numbered from 1, and fails if there is none. *)
Theorem find_partition_first o d fd img guid pn pnSize
    (Ho : DiskContract o (cstr (diskName d)) fd img)
    (Hname : cstr (diskName d) ≠ []) (Hterm : terminated (diskName d) = true) (Hpn : 0 < pnSize)
    (Htab : tableOnDisk d img)
    (Hsz : (GPT_HEADER_DEFAULT_ENTRY_SIZE <= partitionEntrySize (hdr d) <= Z.of_nat (length img))%Z) :
  (run o [] (cominitAutomountFindPartitionOnDisk (Some d) (Some guid) (Some pn) pnSize)).1 =
  Done (match firstOfType d img guid 0 (Z.to_nat (partitionEntryCount (hdr d))) with
        | Some i => let '(r, pn') := cominitAutomountBuildPartitionNode (cstr (diskName d)) (Z.of_nat i + 1) pn pnSize in
                    (r, Some pn')
        | None => (EXIT_FAILURE, Some pn)
        end).
Proof.
  rewrite (wp_run upd_none _ _ _ tt o (λ h c, disk_answers h c) []
    (wp_OnDisk upd_none d fd img guid pn pnSize tt Hname Hterm Hpn Htab Hsz)).
  unfold onDiskResult. destruct (firstOfType _ _ _ _ _) as [i|]; [|done].
  by destruct (cominitAutomountBuildPartitionNode _ _ _ _).
Qed.

(** ** Scanning /dev *)

(** A short path is terminated within the disk name. *)
Lemma short_terminated dev name :
  length dev = 512 → length name <= 250 →
  terminated (take COMINIT_ROOTFS_DEV_PATH_MAX (snprintf dev 512 (lit "/dev/" ++ name))) = true.
Proof.
  intros Hd Hn. unfold terminated. apply bool_decide_eq_true. unfold snprintf.
  rewrite (take_ge (lit "/dev/" ++ name)) by (rewrite length_app; simpl; lia).
  unfold overwrite, COMINIT_ROOTFS_DEV_PATH_MAX. rewrite take_app_ge by (rewrite !length_app; simpl; lia).
  rewrite !elem_of_app. left. right. apply list_elem_of_singleton. done.
Qed.

(** A name the scan may probe, and the path it is probed under. *)
Definition probeName (name : list byte) : Prop :=
  head name ≠ Some Byte.x2e ∧ cominitAutomountIsBlacklistedName name = false.
Definition probePath (name : list byte) : path := cstr (take 511 (lit "/dev/" ++ name)).

(** A device is opened only if it is one of [names], is not hidden or
    blacklisted, and [lstat] has said that it is a block device. *)
Definition probe_guard (names : list (list byte)) (t : trace) (e : event) : Prop :=
  match ev_call e with
  | Open p _ => ∃ name st, name ∈ names ∧ probeName name ∧ p = probePath name ∧
                  Event (Lstat p) (Ok st) ∈ t ∧ st_kind st = S_IFBLK
  | _ => True
  end.
(** [p] may be opened after [t]. *)
Definition probed (names : list (list byte)) (t : trace) (p : path) : Prop :=
  ∃ name st, name ∈ names ∧ probeName name ∧ p = probePath name ∧
    Event (Lstat p) (Ok st) ∈ t ∧ st_kind st = S_IFBLK.
Lemma probed_snoc names t e p : probed names t p → probed names (t ++ [e]) p.
Proof. intros (n & st & ? & ? & ? & ? & ?). exists n, st. rewrite elem_of_app. by split_and!; auto. Qed.

Section Scan.
Context (names : list (list byte)).
Local Abbreviation guard := (guarded (probe_guard names)).

(** One step of a program in a guarded history. *)
Lemma guard_step t c r : (∀ p fl, c = Open p fl → probed names t p) → guard t → guard (t ++ [Event c r]).
Proof. intros Hc Ht. apply guarded_snoc; [done|]. unfold probe_guard. simpl. destruct c; try done. by eapply Hc. Qed.

Ltac guard_auto :=
  repeat (wp_step; cbv beta zeta); unfold upd_trace in *;
  repeat (apply guard_step; [first [by intros ? ? ?|intros ? ? [= <- <-]; try done]|]); try done.

Lemma guard_OnDisk_loop n i d fd sz g p ps b t :
  guard t → wp upd_trace any_env (FindPartitionOnDisk_loop n i d fd sz g p ps b) (λ _ t', guard t') t.
Proof.
  revert i p b t. induction n as [|n IH]; intros i p b t Ht; [done|]. cbn [FindPartitionOnDisk_loop].
  repeat lazymatch goal with
  | |- wp _ _ (FindPartitionOnDisk_loop _ _ _ _ _ _ _ _ _) _ _ => fail
  | _ => wp_step; cbv beta zeta
  end; unfold upd_trace; try apply IH; guard_auto.
Qed.
Lemma guard_OnDisk d g p n t :
  guard t → (terminated (diskName d) = true → probed names t (cstr (diskName d))) →
  wp upd_trace any_env (cominitAutomountFindPartitionOnDisk (Some d) (Some g) (Some p) n) (λ _ t', guard t') t.
Proof.
  intros Ht Hp. unfold cominitAutomountFindPartitionOnDisk, cominitCommonGetPartSize.
  destruct (terminated (diskName d)); [specialize (Hp eq_refl)|by case_goal].
  repeat lazymatch goal with
  | |- wp _ _ (bind (FindPartitionOnDisk_loop _ _ _ _ _ _ _ _ _) _) _ _ =>
      eapply wp_call; [apply guard_OnDisk_loop; guard_auto|intros [[? ?] ?] ? ?|done]
  | _ => wp_step; cbv beta zeta
  end; guard_auto.
Qed.
(** A successful probe leaves the probed name in the disk. *)
Lemma guard_FindGpt dev d t :
  guard t → probed names t (cstr dev) →
  wp upd_trace any_env (cominitAutomountFindGpt dev d)
    (λ o t', guard t' ∧ (∃ t1, t' = t ++ t1) ∧
       match o with Done (r, d') => r = EXIT_SUCCESS → diskName d' = take COMINIT_ROOTFS_DEV_PATH_MAX dev
                  | Ended _ => True end) t.
Proof.
  intros Ht Hp. unfold cominitAutomountFindGpt, cominitAutomountGetBlockSize.
  repeat (wp_step; cbv beta zeta); unfold upd_trace; (split; [guard_auto|]); (split; [|done]);
    rewrite <-?app_assoc; by eexists.
Qed.

Lemma cstr_cut l r : cstr (l ++ x00 :: r) = cstr l.
Proof. unfold cstr. induction l as [|b l IH]; [done|]. cbn. case_bool_decide; [done|]. cbn.
  destruct (span _ (l ++ x00 :: r)), (span _ l). simpl in *. by rewrite IH. Qed.
Lemma cstr_snprintf_cut a n s : 0 < n → cstr (snprintf a n s) = cstr (take (n - 1) s).
Proof.
  intros Hn. destruct n as [|m]; [lia|]. cbn [snprintf]. unfold overwrite. rewrite <-app_assoc.
  rewrite Nat.sub_succ, Nat.sub_0_r. apply cstr_cut.
Qed.
Lemma cstr_take_terminated n a : terminated (take n a) = true → cstr (take n a) = cstr a.
Proof.
  intros [r E]%terminated_split. rewrite <-(take_drop n a) at 2. rewrite E at 2.
  rewrite <-app_assoc. cbn [app]. rewrite cstr_cut. symmetry. apply cstr_id, cstr_nonul.
Qed.

Lemma guard_FindPartition_loop ns dv r d g p n t :
  (∀ x, x ∈ ns → x ∈ names) → guard t →
  wp upd_trace any_env (FindPartition_loop ns dv r d g p n) (λ _ t', guard t') t.
Proof.
  revert dv r d p t. induction ns as [|nm ns IH]; intros dv r d p t Hns Ht; [done|].
  cbn [FindPartition_loop]. cbv zeta.
  assert (∀ x, x ∈ ns → x ∈ names) as Hns' by (intros; apply Hns, elem_of_cons; by right).
  case_bool_decide as Hdot; [by apply IH|]. destruct (cominitAutomountIsBlacklistedName nm) eqn:Hbl; [by apply IH|].
  set (dev := snprintf dv _ _).
  assert (cstr dev = probePath nm) as Hdev.
  { apply (cstr_snprintf_cut dv (2 * COMINIT_ROOTFS_DEV_PATH_MAX)). unfold COMINIT_ROOTFS_DEV_PATH_MAX. lia. }
  apply wp_sys. intros st _. unfold upd_trace at 2.
  assert (guard (t ++ [Event (Lstat (cstr dev)) st])) as Ht1 by by apply guard_step.
  destruct st as [st|e]; [|by apply IH]. case_bool_decide; [by apply IH|]. case_bool_decide as Hblk; [by apply IH|].
  assert (probed names (t ++ [Event (Lstat (cstr dev)) (Ok st)]) (cstr dev)) as Hp.
  { exists nm, st. split_and!; [apply Hns, elem_of_cons; by left|done|done| |].
    - apply elem_of_app. right. by apply list_elem_of_singleton.
    - done. }
  eapply wp_call; [by apply guard_FindGpt| |by intros ? ? []].
  intros [r1 d1] t1 (Ht2 & [t2 ->] & Hd1). case_bool_decide; [|by apply IH]. specialize (Hd1 H0).
  eapply wp_call; [apply guard_OnDisk; [done|]| |done].
  { rewrite Hd1. intros Htm. rewrite (cstr_take_terminated _ _ Htm).
    destruct Hp as (n' & s' & Hp1 & Hp2 & Hp3 & Hp4 & Hp5). exists n', s'. split_and!; try done.
    apply elem_of_app. by left. }
  intros [r2 pn] t3 Ht3. cbv zeta. case_bool_decide; [done|by apply IH].
Qed.
End Scan.

(** C31: During the scan of /dev a device is opened only if it is an entry of /dev whose name is neither
    hidden nor blacklisted and lstat has reported it as a block device before; nothing is opened if /dev
    cannot be listed. *)
Theorem scan_probes_only_disks o d guid pn pnSize :
  let '(out, t) := run o [] (cominitAutomountFindPartition (Some d) (Some guid) (Some pn) pnSize) in
  (∃ names t', t = Event (Opendir (lit "/dev")) (Ok names) :: t' ∧
     guarded (λ t1 e, probe_guard names t1 e) t') ∨ t = [] ∨ (∃ e, t = [Event (Opendir (lit "/dev")) (Err e)]).
Proof.
  unfold cominitAutomountFindPartition. case_bool_decide; [by right; left|]. rewrite run_sys.
  destruct (o [] (Opendir (lit "/dev"))) as [names|e]; [|cbn; eauto].
  set (p := bind _ _).
  assert (wp upd_trace any_env p (λ _ t, guarded (probe_guard names) t) []) as Hw.
  { eapply wp_call; [by apply guard_FindPartition_loop; [|apply guarded_nil]| |done].
    intros [[r d'] pn'] t Ht. apply wp_sys_. intros [] _. cbn [wp]. by apply guard_step. }
  match goal with |- context [run o ?h p] => pose proof (wp_run_from upd_trace p _ [] o h Hw) as Hr;
    destruct (run o h p) as [out t] end.
  rewrite foldl_upd_trace in Hr. left. exists names, t. by split.
Qed.
