(* ===== verification/AutomountScan.v ===== *)
(** * AutomountScan: the scan of /dev against a machine with several disks

    What [cominitAutomountFindPartition] computes, as a search over the disks
    of the machine in the order in which /dev lists them. *)
From S2P Require Import Prelude CString Sys Output Common Automount AutomountProofs.

(** A block device: the descriptor it is opened as, its block size and its
    contents. *)
Record disk := Disk { dk_fd : Z; dk_block : Z; dk_img : list byte }.

(** A machine whose directory /dev lists [names]; [devs] are its block devices. *)
Definition scan_env (names : list (list byte)) (devs : path → option disk) (e : event) : Prop :=
  let '(Event c r) := e in
  match c return reply c → Prop with
  | Opendir _ => λ r, r = Ok names
  | Lstat p => λ r, match devs p with
                    | Some _ => ∃ st, r = Ok st ∧ st_kind st = S_IFBLK
                    | None => ∀ st, r = Ok st → st_kind st ≠ S_IFBLK
                    end
  | Open p _ => λ r, ∀ dk, devs p = Some dk → r = Ok (dk_fd dk)
  | IoctlBlkSszGet fd => λ r, ∀ p dk, devs p = Some dk → fd = dk_fd dk → r = Ok (dk_block dk)
  | IoctlBlkGetSize64 fd => λ r, ∀ p dk, devs p = Some dk → fd = dk_fd dk → r = Ok (Z.of_nat (length (dk_img dk)))
  | Pread fd n off => λ r, ∀ p dk, devs p = Some dk → fd = dk_fd dk → (0 <= off)%Z →
      r = Ok (take n (drop (Z.to_nat off) (dk_img dk)))
  | Malloc _ => λ r, r = true
  | _ => λ _, True
  end r.
Class DevContract (o : oracle) (names : list (list byte)) (devs : path → option disk) : Prop := {
  dev_answers : ∀ h c, scan_env names devs (Event c (o h c))
}.

(** ** The reference search *)

(** The GPT header in the second block. *)
Definition gptHeader (dk : disk) : option (list byte) :=
  let bytes := take sizeof_GPTHeader (drop (Z.to_nat (dk_block dk)) (dk_img dk)) in
  if decide (length bytes = sizeof_GPTHeader ∧ signature bytes = lit "EFI PART") then Some bytes else None.
Definition gptDisk (name : list byte) (dk : disk) (h : list byte) : cominitGPTDisk_t := GPTDisk name (dk_block dk) h.
(** The first entry of a type on a device. *)
Definition onDevice (dk : disk) (guid : list byte) : option nat :=
  match gptHeader dk with
  | Some h => firstOfType (gptDisk [] dk h) (dk_img dk) guid 0 (Z.to_nat (partitionEntryCount h))
  | None => None
  end.
(** The first device with one: its path, the device and the index of the entry. *)
Fixpoint scanDisks (devs : path → option disk) (guid : list byte) (names : list (list byte))
    : option (path * disk * nat) :=
  match names with
  | [] => None
  | name :: names =>
      let p := lit "/dev/" ++ name in
      let rest := scanDisks devs guid names in
      if bool_decide (head name = Some Byte.x2e) || cominitAutomountIsBlacklistedName name then rest else
      match devs p with
      | Some dk => match onDevice dk guid with Some i => Some (p, dk, i) | None => rest end
      | None => rest
      end
  end.

(** Names as /dev has them, short enough for the buffers. *)
Definition devName (name : list byte) : Prop := nonul name ∧ length name < Z.to_nat 200.
(** A disk whose table, if it has a GPT header, lies on the disk. *)
Definition soundDisk (dk : disk) : Prop :=
  (0 <= dk_block dk)%Z ∧ (Z.of_nat (length (dk_img dk)) < 2 ^ 63)%Z ∧
  ∀ h, gptHeader dk = Some h →
    tableOnDisk (gptDisk [] dk h) (dk_img dk) ∧
    (GPT_HEADER_DEFAULT_ENTRY_SIZE <= partitionEntrySize h <= Z.of_nat (length (dk_img dk)))%Z.

Section Scan.
Context (names : list (list byte)) (devs : path → option disk) (guid : list byte).
Local Abbreviation env := (λ (_ : unit), scan_env names devs).

Lemma scan_disk_env p dk e : devs p = Some dk → scan_env names devs e → disk_env p (dk_fd dk) (dk_img dk) e.
Proof.
  intros Hp. destruct e as [c r]. destruct c; cbn; try done.
  - intros Hr ->. by apply Hr.
  - intros Hr -> Hoff. by apply (Hr p).
  - intros Hr ->. by apply (Hr p).
Qed.
Lemma overwrite_header (a b : list byte) : length b = length a → overwrite a b = b.
Proof. intros Hl. unfold overwrite. rewrite Hl, drop_all. apply app_nil_r. Qed.

(** Probing a block device for a GPT. *)
Lemma scan_FindGpt dev dk s :
  devs (cstr dev) = Some dk → (0 <= dk_block dk)%Z → COMINIT_ROOTFS_DEV_PATH_MAX <= length dev →
  wp upd_none env (cominitAutomountFindGpt dev zero_disk)
    (λ o _, match gptHeader dk with
            | Some h => o = Done (EXIT_SUCCESS, gptDisk (take COMINIT_ROOTFS_DEV_PATH_MAX dev) dk h)
            | None => ∃ d, o = Done (EXIT_FAILURE, d) end) s.
Proof.
  intros Hp Hb Hl. unfold cominitAutomountFindGpt, cominitAutomountGetBlockSize.
  apply wp_sys. intros r Hr. cbn in Hr. rewrite (Hr _ Hp). clear r Hr.
  do 2 apply wp_bind. apply wp_sys. intros r Hr. cbn in Hr. rewrite (Hr _ _ Hp eq_refl). cbn [wp]. clear r Hr.
  cbv zeta. rewrite (bool_decide_false (EXIT_SUCCESS = EXIT_FAILURE)) by done.
  apply wp_sys. intros r Hr. cbn [scan_env] in Hr. rewrite (Hr _ _ Hp eq_refl Hb). clear r Hr. unfold gptHeader.
  set (bytes := take sizeof_GPTHeader _). cbn [diskName hdr].
  destruct (decide (length bytes = sizeof_GPTHeader)) as [E1|E1].
  2: { rewrite bool_decide_true by done. rewrite decide_False by (by intros []). cbn [wp]. intros ? ?. by eexists. }
  rewrite bool_decide_false by (by intros Hne). 
  assert (overwrite (hdr zero_disk) bytes = bytes) as ->
    by (apply overwrite_header; rewrite E1; symmetry; apply length_replicate).
  destruct (decide (signature bytes = lit "EFI PART")) as [E2|E2].
  2: { rewrite bool_decide_true by done. rewrite decide_False by (by intros []). cbn [wp]. intros ? ?. by eexists. }
  rewrite bool_decide_false by (by intros Hne). rewrite decide_True by done.
  rewrite bool_decide_false by lia. cbn [wp]. intros ? ?. done.
Qed.

(** The node name fits its buffer. *)
Lemma dec_fuel_length f z : length (dec_fuel f z) <= f.
Proof.
  revert z. induction f as [|f IH]; intros z; [done|]. cbn [dec_fuel]. rewrite length_app. cbn [length].
  case_bool_decide; [simpl; lia|]. specialize (IH (z / 10)%Z). lia.
Qed.
Lemma BuildPartitionNode_fits p i pn size :
  nonul p → length p + 21 < size → (0 <= i < 2 ^ 64)%Z →
  ∃ pn', cominitAutomountBuildPartitionNode p i pn size = (EXIT_SUCCESS, pn') ∧ cstr pn' = partitionNode p i.
Proof.
  intros Hp Hl Hi. unfold cominitAutomountBuildPartitionNode.
  assert (length (partitionNode p i) < size) as Hfit.
  { unfold partitionNode. rewrite !length_app. pose proof (dec_fuel_length 20 i). fold (dec i) in *.
    destruct (endsWithDigit p); simpl length; lia. }
  rewrite bool_decide_false by lia. eexists. split; [done|]. apply snprintf_fits; [done|]. by apply partitionNode_nonul.
Qed.
Lemma devPath_cstr dev name n :
  devName name → length name + 6 < n → cstr (snprintf dev n (lit "/dev/" ++ name)) = lit "/dev/" ++ name.
Proof.
  intros [Hn _] Hl. apply snprintf_fits; [rewrite length_app; simpl; lia|].
  apply nonul_app. split; [by apply (bool_decide_unpack _)|done].
Qed.

(** What a search over [ns] reports. *)
Definition scanReport (ns : list (list byte)) (d : cominitGPTDisk_t) (pn : list byte)
    (o : Z * cominitGPTDisk_t * list byte) : Prop :=
  let '(r, d', pn') := o in
  match scanDisks devs guid ns with
  | Some (p, dk, i) =>
      r = EXIT_SUCCESS ∧ cstr (diskName d') = p ∧ blockSize d' = dk_block dk ∧ gptHeader dk = Some (hdr d') ∧
      cstr pn' = partitionNode p (Z.of_nat i + 1)
  | None => r = EXIT_FAILURE ∧ d' = d ∧ pn' = pn
  end.
Lemma firstOfType_bound d img i : firstOfType d img guid 0 (Z.to_nat (partitionEntryCount (hdr d))) = Some i →
  (0 <= Z.of_nat i + 1 < 2 ^ 64)%Z.
Proof.
  intros [Hi _]%find_some. apply in_seq in Hi.
  pose proof (fieldAt_range (hdr d) 80 4) as Hc. change (256 ^ Z.of_nat 4)%Z with (2 ^ 32)%Z in Hc.
  fold (partitionEntryCount (hdr d)) in Hc. lia.
Qed.

(** One device: either its first entry of the type is reported, or the search
    goes on with everything unchanged. *)
Lemma scan_device name dk dev pn size s :
  devName name → devs (lit "/dev/" ++ name) = Some dk → soundDisk dk → length dev = 512 →
  cstr dev = lit "/dev/" ++ name → terminated (take COMINIT_ROOTFS_DEV_PATH_MAX dev) = true →
  COMINIT_ROOTFS_DEV_PATH_MAX <= size → ∀ h, gptHeader dk = Some h →
  wp upd_none env (cominitAutomountFindPartitionOnDisk (Some (gptDisk (take COMINIT_ROOTFS_DEV_PATH_MAX dev) dk h))
                     (Some guid) (Some pn) size)
    (λ o _, match onDevice dk guid with
            | Some i => ∃ pn', o = Done (EXIT_SUCCESS, Some pn') ∧
                          cstr pn' = partitionNode (lit "/dev/" ++ name) (Z.of_nat i + 1)
            | None => o = Done (EXIT_FAILURE, Some pn) end) s.
Proof.
  intros [Hnn Hnl] Hp (Hb & Himg & Hgpt) Hdev Hc Ht Hsize h Hh. destruct (Hgpt h Hh) as [Htab Hes].
  set (d := gptDisk _ dk h).
  assert (cstr (diskName d) = lit "/dev/" ++ name) as Hd by (cbn; by rewrite (cstr_take_terminated _ _ Ht)).
  eapply wp_env; [|apply (wp_OnDisk upd_none d (dk_fd dk) (dk_img dk) guid pn size); try done|].
  - intros ? e. rewrite Hd. by apply scan_disk_env.
  - by rewrite Hd.
  - unfold COMINIT_ROOTFS_DEV_PATH_MAX in Hsize. lia.
  - intros o ? ->. unfold onDiskResult, onDevice. rewrite Hh, Hd.
    change (firstOfType (gptDisk [] dk h) (dk_img dk) guid 0 (Z.to_nat (partitionEntryCount h)))
      with (firstOfType d (dk_img dk) guid 0 (Z.to_nat (partitionEntryCount (hdr d)))).
    destruct (firstOfType _ _ _ _ _) as [i|] eqn:Ei; [|done].
    destruct (BuildPartitionNode_fits (lit "/dev/" ++ name) (Z.of_nat i + 1) pn size) as (pn' & E & Hpn).
    + apply nonul_app. split; [by apply (bool_decide_unpack _)|done].
    + rewrite length_app. unfold COMINIT_ROOTFS_DEV_PATH_MAX in Hsize. simpl length. lia.
    + by apply firstOfType_bound in Ei.
    + rewrite E. by exists pn'.
Qed.

Lemma scan_loop ns dev d pn size s :
  Forall devName ns → (∀ p dk, devs p = Some dk → soundDisk dk) →
  length dev = 512 → COMINIT_ROOTFS_DEV_PATH_MAX <= size →
  wp upd_none env (FindPartition_loop ns dev EXIT_FAILURE d guid pn size)
    (λ o _, ∃ x, o = Done x ∧ scanReport ns d pn x) s.
Proof.
  intros Hns Hsound. revert dev s. induction Hns as [|name ns Hname Hns IH]; intros dev s Hdev Hsize.
  { by eexists. }
  cbn [FindPartition_loop]. cbv zeta. unfold scanReport. cbn [scanDisks]. fold (scanReport ns d pn).
  case_bool_decide as Edot; cbn [orb]; [by apply IH|].
  destruct (cominitAutomountIsBlacklistedName name) eqn:Ebl; [by apply IH|].
  change (2 * COMINIT_ROOTFS_DEV_PATH_MAX) with 512. set (dev1 := snprintf dev 512 _).
  assert (length dev1 = 512) as Hl1 by (unfold dev1; rewrite snprintf_length; lia).
  destruct Hname as [Hnn Hnl].
  assert (cstr dev1 = lit "/dev/" ++ name) as Hc1 by (apply devPath_cstr; [done|lia]).
  assert (terminated (take COMINIT_ROOTFS_DEV_PATH_MAX dev1) = true) as Ht1 by (apply short_terminated; [done|lia]).
  clearbody dev1. apply wp_sys. intros st Hst. cbn [scan_env] in Hst. rewrite Hc1 in Hst.
  destruct (devs (lit "/dev/" ++ name)) as [dk|] eqn:Ep.
  - destruct Hst as (st' & -> & Hk). rewrite Hk, bool_decide_false by done.
    rewrite bool_decide_false by (by intros Hne). pose proof (Hsound _ _ Ep) as Hs.
    eapply wp_call; [apply (scan_FindGpt dev1 dk); [by rewrite Hc1|by destruct Hs|]| |].
    + unfold COMINIT_ROOTFS_DEV_PATH_MAX. lia.
    + intros [r1 d1] s1 Hgpt. destruct (gptHeader dk) as [h|] eqn:Eh.
      * simplify_eq. rewrite bool_decide_true by done.
        eapply wp_call; [by apply (scan_device name dk dev1 pn size)| |].
        -- intros [r2 pn2] s2 Hr. destruct (onDevice dk guid) as [i|].
           ++ destruct Hr as (pn' & [= -> ->] & Hpn). rewrite bool_decide_true by done. cbn [wp default].
              eexists. split; [reflexivity|]. split_and!; try done. cbn. by rewrite (cstr_take_terminated _ _ Ht1).
           ++ simplify_eq. rewrite bool_decide_false by done. by apply IH.
        -- intros e s2. destruct (onDevice dk guid); [by intros (? & ? & ?)|done].
      * destruct Hgpt as [d2 [= -> ->]]. rewrite bool_decide_false by done. unfold onDevice. rewrite Eh. by apply IH.
    + intros e s1. destruct (gptHeader dk); [done|]. by intros [? ?].
  - destruct st as [st|e]; [|by apply IH]. case_bool_decide; [by apply IH|].
    rewrite bool_decide_true by (by apply Hst). by apply IH.
Qed.
End Scan.

(** The whole scan, as a specification. *)
Lemma wp_scan names devs d guid pn size :
  Forall devName names → (∀ p dk, devs p = Some dk → soundDisk dk) → COMINIT_ROOTFS_DEV_PATH_MAX <= size →
  wp upd_none (λ _, scan_env names devs) (cominitAutomountFindPartition (Some d) (Some guid) (Some pn) size)
    (λ o _, ∃ r d' pn', o = Done (r, Some d', Some pn') ∧ scanReport devs guid names d pn (r, d', pn')) tt.
Proof.
  intros Hnames Hdisks Hsize. unfold cominitAutomountFindPartition.
  rewrite bool_decide_false by (unfold COMINIT_ROOTFS_DEV_PATH_MAX in Hsize; lia).
  apply wp_sys. intros r Hr. cbn [scan_env] in Hr. subst r.
  eapply wp_call; [apply (scan_loop names devs guid names); [done|done|by apply length_replicate|done]| |].
  - intros x s (y & [= ->] & Hx). destruct y as [[r d'] pn']. apply wp_sys_. intros ? _. cbn [wp]. by eexists _, _, _.
  - by intros e s (? & ? & _).
Qed.

(** C23: On a machine with any number of disks, whose partition tables lie on them,
    cominitAutomountFindPartition computes the reference search: among the entries of /dev in listing
    order, without hidden and blacklisted names and without anything that is no block device, the first
    with a GPT header and an entry of the wanted type gives the disk and the node of its first such
    entry; if there is none the function fails and leaves its outputs unchanged. *)
Theorem scan_finds_first o names devs d guid pn size
    (Ho : DevContract o names devs) (Hnames : Forall devName names)
    (Hdisks : ∀ p dk, devs p = Some dk → soundDisk dk) (Hsize : COMINIT_ROOTFS_DEV_PATH_MAX <= size) :
  ∃ r d' pn', (run o [] (cominitAutomountFindPartition (Some d) (Some guid) (Some pn) size)).1 =
                Done (r, Some d', Some pn') ∧
    match scanDisks devs guid names with
    | Some (p, dk, i) =>
        r = EXIT_SUCCESS ∧ cstr (diskName d') = p ∧ blockSize d' = dk_block dk ∧ gptHeader dk = Some (hdr d') ∧
        cstr pn' = partitionNode p (Z.of_nat i + 1)
    | None => r = EXIT_FAILURE ∧ d' = d ∧ pn' = pn
    end.
Proof.
  exact (wp_run upd_none _ _ _ tt o (λ h c, dev_answers h c) [] (wp_scan names devs d guid pn size Hnames Hdisks Hsize)).
Qed.
