(* ===== verification/Subprocess.v ===== *)
(** * Subprocess: running helper programs (src/subprocess.c) and the LUKS
    commands built on it (src/cryptsetup.c, inc/cryptsetup.h)

    After [fork] the model follows the process the answer names: 0 is the
    child. Environment blocks are empty everywhere and not modelled. *)
From S2P Require Import Prelude CString Sys Output Common.

(** [EX_OSERR] of sysexits.h. *)
Definition EX_OSERR : Z := 71.
Definition STDIN_FILENO : Z := 0.

(** [waitpid] and the test of the status; [status] keeps -1, which is no exit
    status, when [waitpid] fails. *)
Definition waitChild (pid : Z) : prog Z :=
  st ← sys (Waitpid pid);
  match st with
  | Ok (WExited code) => Ret (if bool_decide (code = 0)%Z then EXIT_SUCCESS else EXIT_FAILURE)
  | Ok WSignaled | Err _ => Ret EXIT_FAILURE
  end.
(** [execve], then [_exit(EXIT_FAILURE)]. *)
Definition execOrExit (p : path) (argv : list (list byte)) : prog Z :=
  r ← sys (Execve p argv);
  match r with
  | None => Stop (Execed p)
  | Some _ => Stop (Exited EXIT_FAILURE)
  end.

(** [data] is the memory the pointer points to. *)
Definition cominitSubprocessSpawnAndWrite (p : option path) (argv : option (list (list byte)))
    (data : option (list byte)) (dataSize : Z) : prog Z :=
  match p, argv, data with
  | Some p, Some argv, Some data =>
      if bool_decide (dataSize = 0)%Z then Ret EXIT_FAILURE else
      r ← sys Pipe;
      match r with
      | Err _ => Ret EXIT_FAILURE
      | Ok (rd, wr) =>
          pid ← sys Fork;
          if bool_decide (pid < 0)%Z then
            sys_ (Close rd);; sys_ (Close wr);; Ret EXIT_FAILURE
          else if bool_decide (pid = 0)%Z then
            sys_ (Close wr);;
            r ← sys (Dup2 rd STDIN_FILENO);
            match r with
            | Err _ => Stop (Exited EX_OSERR)
            | Ok _ => sys_ (Close rd);; execOrExit p argv
            end
          else
            sys_ (Close rd);;
            if bool_decide (dataSize > Z.of_nat (length data))%Z then Stop (Undef OutOfBounds) else
            written ← sys (Write wr (take (Z.to_nat dataSize) data));
            sys_ (Close wr);;
            match written with
            | Err _ => Ret EXIT_FAILURE
            | Ok _ => waitChild pid
            end
      end
  | _, _, _ => Ret EXIT_FAILURE
  end.

Definition cominitSubprocessSpawn (p : option path) (argv : option (list (list byte))) : prog Z :=
  match p, argv with
  | Some p, Some argv =>
      pid ← sys Fork;
      if bool_decide (pid < 0)%Z then Ret EXIT_FAILURE
      else if bool_decide (pid = 0)%Z then execOrExit p argv
      else waitChild pid
  | _, _ => Ret EXIT_FAILURE
  end.

(** ** src/cryptsetup.c *)

Definition COMINIT_CRYPTSETUP_DIR : path := lit "/usr/sbin/cryptsetup".
Definition COMINIT_PASSPHRASE_SIZE : Z := 32.
Definition COMINIT_TPM_SECURE_STORAGE_NAME : list byte := lit "secureStorage".
Definition COMINIT_TPM_SECURE_STORAGE_KEY_NAME : list byte := COMINIT_TPM_SECURE_STORAGE_NAME.

Definition luksFormatArgv (devCrypt : list byte) : list (list byte) :=
  [COMINIT_CRYPTSETUP_DIR; lit "luksFormat"; lit "--batch-mode"; lit "--type"; lit "luks2";
   lit "--key-size"; lit "512"; lit "--cipher"; lit "aes-xts-plain64"; lit "--iter-time"; lit "10";
   lit "--key-file"; lit "-"; devCrypt].
Definition cominitCryptsetupCreateLuksVolume (devCrypt : option (list byte)) (passphrase : option (list byte))
    (passphraseSize : Z) : prog Z :=
  match devCrypt, passphrase with
  | Some dev, Some pass =>
      if bool_decide (passphraseSize = 0)%Z then Ret EXIT_FAILURE else
      cominitSubprocessSpawnAndWrite (Some COMINIT_CRYPTSETUP_DIR) (Some (luksFormatArgv dev))
        (Some pass) passphraseSize
  | _, _ => Ret EXIT_FAILURE
  end.

Definition luksOpenArgv (devCrypt : list byte) : list (list byte) :=
  [COMINIT_CRYPTSETUP_DIR; lit "luksOpen"; devCrypt; COMINIT_TPM_SECURE_STORAGE_NAME].
Definition cominitCryptsetupOpenLuksVolume (devCrypt : option (list byte)) : prog Z :=
  match devCrypt with
  | Some dev => cominitSubprocessSpawn (Some COMINIT_CRYPTSETUP_DIR) (Some (luksOpenArgv dev))
  | None => Ret EXIT_FAILURE
  end.

Definition luksTokenArgv (devCrypt : list byte) : list (list byte) :=
  [COMINIT_CRYPTSETUP_DIR; lit "token"; lit "add"; lit "--token-type"; lit "keyring";
   lit "--key-slot"; lit "0"; lit "--key-description"; COMINIT_TPM_SECURE_STORAGE_KEY_NAME; devCrypt].
Definition cominitCryptsetupAddToken (devCrypt : option (list byte)) : prog Z :=
  match devCrypt with
  | Some dev => cominitSubprocessSpawn (Some COMINIT_CRYPTSETUP_DIR) (Some (luksTokenArgv dev))
  | None => Ret EXIT_FAILURE
  end.

(** ** Resources *)
Lemma remove_first_next x y s : x ≠ y → remove_first x (y :: s) = y :: remove_first x s.
Proof. intros. simpl. by destruct (decide (x = y)). Qed.
Lemma remove_first_pair x y s : remove_first x (remove_first y (x :: y :: s)) = s.
Proof.
  destruct (decide (y = x)) as [->|Hne]; [by rewrite !remove_first_head|].
  by rewrite (remove_first_next y x) by done; rewrite !remove_first_head.
Qed.
Lemma balanced_waitChild pid : balanced (waitChild pid).
Proof. unfold waitChild. balanced_auto. Qed.
Lemma balanced_execOrExit p a : balanced (execOrExit p a).
Proof. unfold execOrExit. balanced_auto. Qed.
#[local] Hint Resolve balanced_waitChild balanced_execOrExit : balanced.
Lemma balanced_SpawnAndWrite p a d n : balanced (cominitSubprocessSpawnAndWrite p a d n).
Proof.
  unfold cominitSubprocessSpawnAndWrite. intros s. repeat (held_step; cbv zeta beta); held_simpl; try reflexivity.
  apply remove_first_pair.
Qed.
Lemma balanced_Spawn p a : balanced (cominitSubprocessSpawn p a).
Proof. unfold cominitSubprocessSpawn. balanced_auto. Qed.
#[export] Hint Resolve balanced_SpawnAndWrite balanced_Spawn : balanced.
Lemma balanced_LuksFormat d p n : balanced (cominitCryptsetupCreateLuksVolume d p n).
Proof. unfold cominitCryptsetupCreateLuksVolume. balanced_auto. Qed.
Lemma balanced_LuksOpen d : balanced (cominitCryptsetupOpenLuksVolume d).
Proof. unfold cominitCryptsetupOpenLuksVolume. balanced_auto. Qed.
Lemma balanced_LuksToken d : balanced (cominitCryptsetupAddToken d).
Proof. unfold cominitCryptsetupAddToken. balanced_auto. Qed.
#[export] Hint Resolve balanced_LuksFormat balanced_LuksOpen balanced_LuksToken : balanced.

(** ** Properties *)

(** The events of a successful child. *)
Definition child_ok (pid : Z) : trace := [Event (Waitpid pid) (Ok (WExited 0))].

Lemma wp_waitChild pid t0 :
  wp upd_trace any_env (waitChild pid)
    (λ o t, (o = Done EXIT_SUCCESS ∧ t = t0 ++ child_ok pid) ∨
            (o = Done EXIT_FAILURE ∧ ∃ st, st ≠ Ok (WExited 0) ∧ t = t0 ++ [Event (Waitpid pid) st])) t0.
Proof.
  unfold waitChild. apply wp_sys. intros [[code|]|e] _; cbn [wp]; unfold upd_trace;
    [|right; split; [done|]; eexists; (split; [|done]); done..].
  case_bool_decide; subst; [by left|right]. split; [done|]. eexists. split; [|done]. congruence.
Qed.
Lemma wp_execOrExit p argv t0 (Q : outcome Z → trace → Prop) :
  (∀ t, Q (Ended (Execed p)) t) → (∀ t, Q (Ended (Exited EXIT_FAILURE)) t) →
  wp upd_trace any_env (execOrExit p argv) Q t0.
Proof. intros H1 H2. unfold execOrExit. repeat wp_step; auto. Qed.

Definition wait_status_of (e : event) : option (res wait_status) :=
  let '(Event c r) := e in
  match c return reply c → option (res wait_status) with Waitpid _ => λ r, Some r | _ => λ _, None end r.

(** cominitSubprocessSpawn returns EXIT_SUCCESS in the parent exactly when the fork succeeded and the
    child was reaped with exit status 0, EXIT_FAILURE otherwise, and the child never returns: it becomes
    the program or exits with failure. *)
Theorem spawn_success_exact o p argv :
  let '(out, t) := run o [] (cominitSubprocessSpawn (Some p) (Some argv)) in
  (out = Done EXIT_SUCCESS ∧ ∃ pid, (0 < pid)%Z ∧ t = Event Fork pid :: child_ok pid) ∨
  (out = Done EXIT_FAILURE ∧ ∀ pid, t ≠ Event Fork pid :: child_ok pid) ∨
  ((out = Ended (Execed p) ∨ out = Ended (Exited EXIT_FAILURE)) ∧ ∃ t', t = Event Fork 0%Z :: t').
Proof.
  unfold cominitSubprocessSpawn. rewrite run_sys. set (pid := o [] Fork). cbv beta.
  case_bool_decide; [right; left; split; [done|by intros ? [= ->]]|]. case_bool_decide as E0.
  - rewrite E0. set (h := [] ++ _).
    pose proof (wp_run_from upd_trace _ _ [] o h (wp_execOrExit p argv []
      (λ out _, out = Ended (Execed p) ∨ out = Ended (Exited EXIT_FAILURE)) (λ _, or_introl eq_refl) (λ _, or_intror eq_refl))) as Hw.
    destruct (run o h _) as [out t]. right; right. eauto.
  - set (h := [] ++ _). pose proof (wp_run_from upd_trace _ _ [] o h (wp_waitChild pid [])) as Hw.
    destruct (run o h _) as [out t]. rewrite foldl_upd_trace in Hw. cbn [fst snd app] in Hw.
    destruct Hw as [[-> ->]|[-> (st & Hst & ->)]].
    + left. split; [done|]. exists pid. split; [lia|done].
    + right; left. split; [done|]. intros pid' E. apply (f_equal (λ t, wait_status_of <$> t !! 1)) in E. cbn in E. congruence.
Qed.
