(* ===== verification/Securememory.v ===== *)
(** * Securememory: key material in locked memory (src/securememory.c)

    A key buffer is the contents of its memory; the events [Free] and
    [EsysFree] carry the contents the memory has when it is given back. *)
From S2P Require Import Prelude CString Sys Output Common Crypto Keyring Subprocess.

(** [cominitTpmState_t] of inc/tpm.h. *)
Inductive cominitTpmState_t := TpmFailure | TpmPolicyFailure | Unsealed | Sealed.
#[global] Instance tpm_state_eq_dec : EqDecision cominitTpmState_t. Proof. solve_decision. Defined.
Definition POLICY_FAILURE_RC : Z := 0x99d.

(** Stores zeros to the first [bufferSize] bytes. *)
Definition cominitSecurememoryZeroOut (buf : option (list byte)) (bufferSize : nat)
    : prog (Z * option (list byte)) :=
  match buf with
  | None => Ret (EXIT_FAILURE, None)
  | Some b =>
      if bool_decide (bufferSize = 0) then Ret (EXIT_FAILURE, buf) else
      if bool_decide (length b < bufferSize) then Stop (Undef OutOfBounds) else
      Ret (EXIT_SUCCESS, Some (overwrite b (replicate bufferSize x00)))
  end.

Definition cominitSecurememoryVerifyZero (buf : option (list byte)) (bufferSize : nat) : prog Z :=
  match buf with
  | None => Ret EXIT_FAILURE
  | Some b =>
      if bool_decide (bufferSize = 0) then Ret EXIT_FAILURE else
      if forallb (λ x, bool_decide (x = x00)) (take bufferSize b) then
        if bool_decide (length b < bufferSize) then Stop (Undef OutOfBounds) else Ret EXIT_SUCCESS
      else Ret EXIT_FAILURE
  end.

Section Securememory.
Context `{TpmParams}.

(** An [ESYS_CONTEXT] pointer is a number, 0 for NULL. The buffer [Esys_Unseal]
    allocates holds exactly [size] bytes of key. *)
Definition cominitSecurememoryEsysUnseal (ectx : Z) (blobHandle session : option Z)
    : prog cominitTpmState_t :=
  match bool_decide (ectx = 0)%Z, blobHandle, session with
  | false, Some blobHandle, Some session =>
      '(rc, keyBuffer) ← sys (EsysUnseal ectx blobHandle session);
      '(state, keyBuffer) ←
        (if bool_decide (rc ≠ 0)%Z then
           Ret (if bool_decide (rc = POLICY_FAILURE_RC) then TpmPolicyFailure else TpmFailure, keyBuffer)
         else
           r ← sys (Mlock sizeof_TPM2B_SENSITIVE_DATA);
           match r with
           | Err _ => Ret (TpmFailure, keyBuffer)
           | Ok _ =>
               match keyBuffer with
               | None => Stop (Undef NullDeref)
               | Some key =>
                   r ← cominitKeyringAddUserKey (Some COMINIT_TPM_SECURE_STORAGE_KEY_NAME) (Some key);
                   let state := if bool_decide (r = 0)%Z then Unsealed else TpmFailure in
                   '(_, key) ← cominitSecurememoryZeroOut (Some key) (length key);
                   Ret (state, key)
               end
           end);
      match keyBuffer with
      | None => Ret state
      | Some key =>
          cominitSecurememoryVerifyZero (Some key) (length key);;
          sys_ (Munlock sizeof_TPM2B_SENSITIVE_DATA);;
          sys_ (EsysFree key);;
          Ret state
      end
  | _, _, _ => Ret TpmFailure
  end.

(** The [ssize_t] of [cominitKeyringGetKey] is stored in a [size_t]. *)
Definition cominitSecurememoryCreateLuksVolume (devCrypt : option (list byte)) : prog Z :=
  let keyBufferSize := Z.to_nat COMINIT_PASSPHRASE_SIZE in
  match devCrypt with
  | None => Ret EXIT_FAILURE
  | Some dev =>
      ok ← sys (Calloc COMINIT_PASSPHRASE_SIZE);
      if negb ok then Ret EXIT_FAILURE else
      let keyBuffer := replicate keyBufferSize x00 in
      '(result, keyBuffer) ←
        (r ← sys (Mlock COMINIT_PASSPHRASE_SIZE);
         match r with
         | Err _ => Ret (EXIT_FAILURE, keyBuffer)
         | Ok _ =>
             '(len, kb) ← cominitKeyringGetKey (Some keyBuffer) COMINIT_PASSPHRASE_SIZE
                            (Some COMINIT_TPM_SECURE_STORAGE_KEY_NAME);
             let keyBuffer := default keyBuffer kb in
             let keySize := u64 len in
             if bool_decide (keySize <= 0)%Z then Ret (EXIT_FAILURE, keyBuffer) else
             result ← cominitCryptsetupCreateLuksVolume (Some dev) (Some keyBuffer) keySize;
             '(_, kb) ← cominitSecurememoryZeroOut (Some keyBuffer) keyBufferSize;
             Ret (result, default keyBuffer kb)
         end);
      cominitSecurememoryVerifyZero (Some keyBuffer) keyBufferSize;;
      sys_ (Munlock COMINIT_PASSPHRASE_SIZE);;
      sys_ (Free keyBuffer);;
      Ret result
  end.

(** The template of the sealed object; its authorization value is empty. *)
Definition blobPublic (policyDigest : list byte) : tpm_public :=
  TpmPublic TPM2_ALG_KEYEDHASH TPM2_ALG_SHA256
    [TPMA_OBJECT_USERWITHAUTH; TPMA_OBJECT_FIXEDTPM; TPMA_OBJECT_FIXEDPARENT] policyDigest
    (keyedHashDetail TPM2_ALG_NULL).
(** Creates the passphrase and seals it. The key buffer is modelled by its
    [sensitive.data] field, a size and that many bytes; the answer of
    [Esys_Create] is the public and the private part. *)
Definition cominitSecurememoryEsysCreate (ectx : Z) (primaryHandle : option Z)
    (policyDigest : option (list byte)) : prog (Z * option (list byte * list byte)) :=
  let free3 := sys_ (EsysFree []);; sys_ (EsysFree []);; sys_ (EsysFree []) in
  match bool_decide (ectx = 0)%Z, primaryHandle, policyDigest with
  | false, Some primaryHandle, Some policyDigest =>
      ok ← sys (Calloc sizeof_TPM2B_SENSITIVE_CREATE);
      if negb ok then free3;; Ret (EXIT_FAILURE, None) else
      '(result, out, key) ←
        (r ← sys (Mlock sizeof_TPM2B_SENSITIVE_CREATE);
         match r with
         | Err _ => Ret (EXIT_FAILURE, None, [])
         | Ok _ =>
             let size := Z.to_nat COMINIT_PASSPHRASE_SIZE in
             '(result, pass) ← cominitCryptoCreatePassphrase (Some (replicate size x00)) size;
             let pass := default [] pass in
             if bool_decide (result ≠ EXIT_SUCCESS) then Ret (result, None, pass) else
             '(rc, out) ← sys (EsysCreate ectx primaryHandle [] pass (blobPublic policyDigest));
             (* [result] is EXIT_SUCCESS already, whatever [rc] is *)
             '(_, pass) ← cominitSecurememoryZeroOut (Some pass) size;
             Ret (EXIT_SUCCESS, out, default [] pass)
         end);
      cominitSecurememoryVerifyZero (Some key) (length key);;
      sys_ (Munlock sizeof_TPM2B_SENSITIVE_CREATE);;
      sys_ (Free key);;
      free3;;
      Ret (result, out)
  | _, _, _ => free3;; Ret (EXIT_FAILURE, None)
  end.

(** ** Resources *)
Lemma balanced_ZeroOut b n : balanced (cominitSecurememoryZeroOut b n).
Proof. unfold cominitSecurememoryZeroOut. balanced_auto. Qed.
Lemma balanced_VerifyZero b n : balanced (cominitSecurememoryVerifyZero b n).
Proof. unfold cominitSecurememoryVerifyZero. balanced_auto. Qed.
#[local] Hint Resolve balanced_ZeroOut balanced_VerifyZero : balanced.
Lemma balanced_EsysUnseal e b s : balanced (cominitSecurememoryEsysUnseal e b s).
Proof. unfold cominitSecurememoryEsysUnseal. balanced_auto. Qed.
Lemma balanced_CreateLuks d : balanced (cominitSecurememoryCreateLuksVolume d).
Proof. unfold cominitSecurememoryCreateLuksVolume. balanced_auto. Qed.
Lemma balanced_EsysCreate e p d : balanced (cominitSecurememoryEsysCreate e p d).
Proof. unfold cominitSecurememoryEsysCreate. balanced_auto. Qed.
End Securememory.
#[export] Hint Resolve balanced_EsysUnseal balanced_CreateLuks balanced_EsysCreate : balanced.

(** ** Properties *)

Definition all_zero (l : list byte) : bool := forallb (λ x, bool_decide (x = x00)) l.
Lemma all_zero_replicate n : all_zero (replicate n x00) = true.
Proof. unfold all_zero. induction n; [done|]. cbn. done. Qed.
Lemma zeroed b n : n <= length b → overwrite b (replicate n x00) = replicate n x00 ++ drop n b.
Proof. intros _. unfold overwrite. by rewrite length_replicate. Qed.
Lemma zeroed_all b : overwrite b (replicate (length b) x00) = replicate (length b) x00.
Proof. unfold overwrite. by rewrite length_replicate, drop_all, app_nil_r. Qed.

(** Memory given back with something other than zeros in it. *)
Definition frees_secret (e : event) : bool :=
  match ev_call e with Free key | EsysFree key => negb (all_zero key) | _ => false end.
Definition mlocked (e : event) : bool :=
  let '(Event c r) := e in
  match c return reply c → bool with
  | Mlock _ => λ r, match r with Ok _ => true | Err _ => false end
  | _ => λ _, false
  end r.
(** Ghost state: whether a lock succeeded and whether a secret was given back. *)
Definition upd_secret (s : bool * bool) (e : event) : bool * bool :=
  (s.1 || mlocked e, s.2 || frees_secret e).
Lemma foldl_upd_secret t s :
  foldl upd_secret s t = (s.1 || existsb mlocked t, s.2 || existsb frees_secret t).
Proof.
  revert s. induction t as [|e t IH]; intros [a b]; simpl; [by rewrite !orb_false_r|].
  rewrite IH. simpl. by rewrite !orb_assoc.
Qed.
(** A program that never gives a secret back. *)
Definition keeps_secrets {A} (p : prog A) : Prop :=
  ∀ s, wp upd_secret any_env p (λ _ s', s'.2 = s.2) s.
Lemma keeps_bind {A B} (p : prog A) (f : A → prog B) :
  keeps_secrets p → (∀ a, keeps_secrets (f a)) → keeps_secrets (bind p f).
Proof.
  intros Hp Hf s. eapply wp_call; [apply Hp| |by intros e s' ->]. intros a s' E.
  eapply wp_mono; [|apply Hf]. by intros o s'' ->.
Qed.

Section Secrets.
Context `{TpmParams}.

(** C33: Once the memory of the unsealed key could be locked, cominitSecurememoryEsysUnseal gives memory
    back only when it holds zeros, whether or not the keyring accepted the key; and it reports Unsealed
    only after a successful lock. *)
Theorem unsealed_key_zeroed o ectx blob sess :
  let '(out, t) := run o [] (cominitSecurememoryEsysUnseal ectx blob sess) in
  (existsb mlocked t = true → existsb frees_secret t = false) ∧
  (out = Done Unsealed → existsb mlocked t = true).
Proof.
  assert (wp upd_secret any_env (cominitSecurememoryEsysUnseal ectx blob sess)
    (λ out s, (s.1 = true → s.2 = false) ∧ (out = Done Unsealed → s.1 = true)) (false, false)) as Hw.
  { unfold cominitSecurememoryEsysUnseal, cominitKeyringAddUserKey, cominitSecurememoryZeroOut,
      cominitSecurememoryVerifyZero.
    repeat (wp_step; cbv beta zeta); cbn; rewrite ?zeroed_all, ?all_zero_replicate; cbn; try done.
    all: try (by destruct (bool_decide (_ = POLICY_FAILURE_RC))).
    all: match goal with E : bool_decide (length ?l = 0) = true |- _ =>
      apply bool_decide_eq_true, nil_length_inv in E; by subst end. }
  pose proof (wp_run_any upd_secret _ _ _ o Hw) as Hr. rewrite foldl_upd_secret in Hr.
  by destruct (run _ _ _) as [out t].
Qed.

(** The kernel stores no more of a key than it reports and than fits. *)
Definition keyctl_stored (e : event) : Prop :=
  let '(Event c r) := e in
  match c return reply c → Prop with
  | KeyctlRead _ n => λ r, match r with
      | Ok (len, bs) => (Z.of_nat (length bs) <= len < 2 ^ 63)%Z ∧ (Z.of_nat (length bs) <= n)%Z
      | Err _ => True end
  | _ => λ _, True
  end r.

(** The end of [cominitSecurememoryCreateLuksVolume] on a cleared buffer. *)
Lemma wp_release_zero env kb n (r : Z) s :
  all_zero kb = true → s.2 = false →
  wp upd_secret env (cominitSecurememoryVerifyZero (Some kb) n;;
     sys_ (Munlock COMINIT_PASSPHRASE_SIZE);; sys_ (Free kb);; Ret r) (λ _ s, s.2 = false) s.
Proof.
  intros Hz Hs. unfold cominitSecurememoryVerifyZero.
  repeat (wp_step; cbv beta zeta); cbn; rewrite ?Hz, ?Hs; done.
Qed.
Lemma zeroed_buffer b n : length b = n → all_zero (overwrite b (replicate n x00)) = true.
Proof. intros <-. rewrite zeroed_all. apply all_zero_replicate. Qed.

(** C34: With a kernel that stores no more of a key than it reports, cominitSecurememoryCreateLuksVolume
    never frees its key buffer with anything but zeros in it, on every path. *)
Theorem luks_key_zeroed (o : oracle) dev (Ho : ∀ h c, keyctl_stored (Event c (o h c))) :
  existsb frees_secret (run o [] (cominitSecurememoryCreateLuksVolume dev)).2 = false.
Proof.
  assert (wp upd_secret (λ _, keyctl_stored) (cominitSecurememoryCreateLuksVolume dev)
    (λ _ s, s.2 = false) (false, false)) as Hw.
  { unfold cominitSecurememoryCreateLuksVolume, cominitKeyringGetKey, cominitCryptsetupCreateLuksVolume,
      cominitSubprocessSpawnAndWrite, execOrExit, waitChild, cominitSecurememoryZeroOut.
    set (n := Z.to_nat COMINIT_PASSPHRASE_SIZE).
    repeat (lazymatch goal with
      | |- wp _ _ (bind (cominitSecurememoryVerifyZero _ _) _) _ _ => fail
      | _ => wp_step end; cbv beta zeta); try done.
    all: apply wp_release_zero; [cbn [default]; unfold id|done].
    all: try (apply zeroed_buffer; rewrite ?length_overwrite; rewrite ?length_replicate; [done|]).
    all: try apply all_zero_replicate.
    all: match goal with E : keyctl_stored (Event (KeyctlRead _ _) (Ok (?z, ?bs))) |- _ =>
           destruct E as [Hlen Hmax] end; try (unfold n, COMINIT_PASSPHRASE_SIZE in *; lia).
    apply bool_decide_eq_true in Heqb1. rewrite u64_small in Heqb1 by lia.
    assert (l0 = []) as -> by (apply nil_length_inv; lia). apply all_zero_replicate. }
  pose proof (wp_run upd_secret _ _ _ _ o (λ h c, Ho h c) [] Hw) as Hr. rewrite foldl_upd_secret in Hr.
  by destruct (run _ _ _) as [out t].
Qed.

(** C37: If the keyring has no secure storage key, the -1 of cominitKeyringGetKey becomes the size
    2^64-1, passes the test for a missing key, and the write to the child reads beyond the 32-byte
    buffer. *)
Theorem luks_missing_key_out_of_bounds (o : oracle) dev rd wr pid
    (Hcalloc : ∀ h, o h (Calloc COMINIT_PASSPHRASE_SIZE) = true)
    (Hmlock : ∀ h, o h (Mlock COMINIT_PASSPHRASE_SIZE) = Ok tt)
    (Hkey : ∀ h, o h (KeyctlSearch COMINIT_TPM_SECURE_STORAGE_KEY_NAME) = Err ENOENT)
    (Hpipe : ∀ h, o h Pipe = Ok (rd, wr)) (Hfork : ∀ h, o h Fork = pid) (Hpid : (0 < pid)%Z) :
  (run o [] (cominitSecurememoryCreateLuksVolume (Some dev))).1 = Ended (Undef OutOfBounds).
Proof.
  unfold cominitSecurememoryCreateLuksVolume, cominitKeyringGetKey, cominitCryptsetupCreateLuksVolume,
    cominitSubprocessSpawnAndWrite.
  rewrite run_sys, Hcalloc. cbn [negb]. rewrite run_bind, run_sys, Hmlock.
  rewrite (bool_decide_false (strnlen _ _ = _)) by by vm_compute.
  rewrite run_bind, run_sys, Hkey. cbn [run default]. unfold id.
  change (u64 (-1)) with (2 ^ 64 - 1)%Z. rewrite !(bool_decide_false (_ <= 0)%Z), !(bool_decide_false (_ = 0)%Z) by lia.
  rewrite run_bind, run_sys, Hpipe. cbn beta iota. rewrite run_sys, Hfork.
  rewrite (bool_decide_false (pid < 0)%Z), (bool_decide_false (pid = 0)%Z) by lia. cbn [run].
  rewrite bool_decide_true by (rewrite length_replicate; unfold COMINIT_PASSPHRASE_SIZE; lia). done.
Qed.

(** The answer of the last [Esys_Create] of a trace. *)
Definition created_by (e : event) : option (Z * option (list byte * list byte)) :=
  let '(Event c r) := e in
  match c return reply c → option (Z * option (list byte * list byte)) with
  | EsysCreate _ _ _ _ _ => λ r, Some r
  | _ => λ _, None
  end r.
Definition upd_created (s : option (Z * option (list byte * list byte))) (e : event) :=
  match created_by e with Some r => Some r | None => s end.
Definition created (t : trace) := foldl upd_created None t.

(** Once cominitSecurememoryEsysCreate has called Esys_Create it returns EXIT_SUCCESS with the objects
    that call produced, also when the call failed and produced none. *)
Theorem esys_create_failure_masked o ectx parent digest :
  let '(out, t) := run o [] (cominitSecurememoryEsysCreate ectx (Some parent) (Some digest)) in
  ∀ rc sealed, created t = Some (rc, sealed) →
    match out with Done r => r = (EXIT_SUCCESS, sealed) | Ended _ => True end.
Proof.
  assert (wp upd_created any_env (cominitSecurememoryEsysCreate ectx (Some parent) (Some digest))
    (λ out s, ∀ rc sealed, s = Some (rc, sealed) →
       match out with Done r => r = (EXIT_SUCCESS, sealed) | Ended _ => True end) None) as Hw.
  { unfold cominitSecurememoryEsysCreate, cominitCryptoCreatePassphrase, cominitCryptoCreateUniqueString,
      cominitSecurememoryZeroOut, cominitSecurememoryVerifyZero.
    repeat (wp_step; cbv beta zeta); cbn; by intros ? ? [= <- <-]. }
  pose proof (wp_run_any upd_created _ _ _ o Hw) as Hr. by destruct (run _ _ _) as [out t].
Qed.
End Secrets.
