(* ===== verification/Tpm.v ===== *)
(** * Tpm: sealing of the secure storage key and PCR handling (src/tpm.c,
    inc/tpm.h)

    ESYS and TCTI contexts are the pointers of [cominitTpmContext_t]. Handles
    of the TPM software stack are numbers; the contents of its other output
    structures, which the source only frees, are not modelled. *)
From S2P Require Import Prelude CString Sys Output Common Crypto Keyring Subprocess Securememory.

Inductive cominitBlobState_t := BlobIsEmpty | BlobExists | BlobNotFound.

(** A pointer variable: never written, NULL, or pointing to an object. *)
Inductive cptr := PUninit | PNull | PTo (h : Z).
Record cominitTpmContext_t := TpmContext { esysCtx : cptr; tctiCtx : cptr }.
(** Reads a pointer; NULL is the number 0. *)
Definition readPtr (p : cptr) : prog Z :=
  match p with PUninit => Stop (Undef UninitRead) | PNull => Ret 0%Z | PTo h => Ret h end.

Definition COMINIT_TPM_MNT_PT : path := lit "/tpm".
Definition COMINIT_TPM_BLOB_LOCATION : list byte := lit "sealed.blob".
Definition COMINIT_TPM_SECURE_STORAGE_MNT : path := lit "/newroot/mnt".
Definition COMINIT_TPM_SECURE_STORAGE_LOCATION : path := lit "/dev/mapper/" ++ COMINIT_TPM_SECURE_STORAGE_NAME.
Definition BLOB_PATH : path := COMINIT_TPM_MNT_PT ++ lit "/" ++ COMINIT_TPM_BLOB_LOCATION.
Definition S_IRWXU : Z := 0x1c0.

(** [char a[N] = ""] test of a node array. *)
Definition isSet (a : list byte) : bool := negb (bool_decide (head a = Some x00)).

Section Tpm.
Context `{Libc} `{TpmParams}.

(** ** Directories and the blob partition *)

(** The loop over the components of the path. *)
Fixpoint cominitMkdir_loop (fuel : nat) (token : option (list byte)) (state : list byte)
    (currentPath : list byte) (mode : Z) : prog (list byte) :=
  match fuel, token with
  | _, None => Ret currentPath
  | O, Some _ => Stop NoFuel
  | S fuel, Some token =>
      let currentPath := currentPath ++ lit "/" ++ token in
      if bool_decide (COMINIT_ROOTFS_DEV_PATH_MAX <= length currentPath) then Stop (Undef OutOfBounds) else
      r ← sys (Mkdir currentPath mode);
      match r with
      | Err e =>
          if bool_decide (e ≠ EEXIST) then Ret currentPath else
          let '(token, state) := strtok_r state (lit "/") in
          cominitMkdir_loop fuel token state currentPath mode
      | Ok _ =>
          let '(token, state) := strtok_r state (lit "/") in
          cominitMkdir_loop fuel token state currentPath mode
      end
  end.
(** When [stat] fails, its buffer is read uninitialised. *)
Definition cominitMkdir (dirPath : list byte) (mode : Z) : prog Z :=
  let pathBuffer := take (COMINIT_ROOTFS_DEV_PATH_MAX - 1) dirPath in
  let '(token, state) := strtok_r pathBuffer (lit "/") in
  currentPath ← cominitMkdir_loop (length pathBuffer) token state [] mode;
  r ← sys (Stat currentPath);
  match r with
  | Err _ => Stop (Undef UninitRead)
  | Ok _ => Ret EXIT_SUCCESS
  end.

(** [dirname] of a path that does not end in a slash. *)
Definition dirname (p : list byte) : list byte :=
  match span (λ b, negb (bool_decide (b = Byte.x2f))) (rev p) with
  | (_, []) => lit "."
  | (_, _ :: r) => match r with [] => lit "/" | _ => rev r end
  end.

Definition cominitTpmSetupBlob (argCtx : cominitCliArgs_t) : prog cominitBlobState_t :=
  if isSet (devNodeBlob argCtx) then
    r ← cominitMkdir COMINIT_TPM_MNT_PT S_IRWXU;
    if bool_decide (r = EXIT_FAILURE) then Ret BlobNotFound else
    r ← sys (Mount (cstr (devNodeBlob argCtx)) COMINIT_TPM_MNT_PT (Some (lit "ext4")) [MS_NOEXEC]);
    match r with
    | Err _ => Ret BlobNotFound
    | Ok _ =>
        r ← sys (Access BLOB_PATH);
        match r with
        | Ok _ => Ret BlobExists
        | Err ENOENT =>
            r ← cominitMkdir (dirname BLOB_PATH) S_IRWXU;
            if bool_decide (r ≠ EXIT_SUCCESS) then Ret BlobNotFound else Ret BlobIsEmpty
        | Err _ => Ret BlobNotFound
        end
    end
  else Ret BlobNotFound.

Definition cominitTpmUnmountBlob : prog unit := sys_ (Umount COMINIT_TPM_MNT_PT).

(** The structures written are the blob's; a NULL pointer is dereferenced by
    [fwrite]. How much was written is not tested. *)
Definition cominitTpmSaveBlob (out : option (list byte * list byte)) : prog Z :=
  fp ← sys (Fopen BLOB_PATH (lit "wb"));
  match fp with
  | Err _ => Ret EXIT_FAILURE
  | Ok fp =>
      match out with
      | None => Stop (Undef NullDeref)
      | Some (pub, priv) =>
          sys_ (Fwrite fp pub);; sys_ (Fwrite fp priv);; sys_ (Fclose fp);; Ret EXIT_SUCCESS
      end
  end.

(** [fread] of the two structures, with the result code. *)
Definition cominitTpmLoadBlob : prog (Z * (list byte * list byte)) :=
  fp ← sys (Fopen BLOB_PATH (lit "rb"));
  match fp with
  | Err _ => Ret (EXIT_FAILURE, ([], []))
  | Ok fp =>
      pub ← sys (Fread fp sizeof_TPM2B_PUBLIC);
      '(r, priv) ←
        (if bool_decide (Z.of_nat (length pub) = sizeof_TPM2B_PUBLIC) then
           priv ← sys (Fread fp sizeof_TPM2B_PRIVATE);
           Ret (if bool_decide (Z.of_nat (length priv) = sizeof_TPM2B_PRIVATE)
                then EXIT_SUCCESS else EXIT_FAILURE, priv : list byte)
         else Ret (EXIT_FAILURE, []));
      sys_ (Fclose fp);;
      Ret (r, (pub : list byte, priv : list byte))
  end.

(** ** Context *)

Definition cominitTpmLoadDriver : Z := EXIT_SUCCESS.

Definition cominitTpmSelftest (tpmCtx : cominitTpmContext_t) : prog Z :=
  ectx ← readPtr (esysCtx tpmCtx);
  rc ← sys (EsysSelfTest ectx);
  Ret (if bool_decide (rc ≠ 0)%Z then EXIT_FAILURE else EXIT_SUCCESS).

(** A failing call may leave its out-parameter alone. *)
Definition store (old : cptr) (new : option Z) : cptr :=
  match new with Some h => PTo h | None => old end.
Definition cominitInitTpm (tpmCtx : option cominitTpmContext_t) : prog (Z * option cominitTpmContext_t) :=
  match tpmCtx with
  | None => Ret (EXIT_FAILURE, None)
  | Some c =>
      if bool_decide (cominitTpmLoadDriver = EXIT_SUCCESS) then
        '(rc, tcti) ← sys (TctiInitialize (lit "device:/dev/tpm0"));
        let c := TpmContext (esysCtx c) (store (tctiCtx c) tcti) in
        if bool_decide (rc ≠ 0)%Z then Ret (EXIT_FAILURE, Some c) else
        tcti ← readPtr (tctiCtx c);
        '(rc, ectx) ← sys (EsysInitialize tcti);
        let c := TpmContext (store (esysCtx c) ectx) (tctiCtx c) in
        if bool_decide (rc ≠ 0)%Z then Ret (EXIT_FAILURE, Some c) else
        r ← cominitTpmSelftest c;
        Ret (r, Some c)
      else Ret (cominitTpmLoadDriver, Some c)
  end.

Definition cominitTpmExtendPCR (tpmCtx : option cominitTpmContext_t) (keyfile : option path) (pcrIndex : Z)
    : prog Z :=
  match tpmCtx, keyfile with
  | Some c, Some keyfile =>
      '(result, digest) ← cominitCreateSHA256DigestfromKeyfile (Some keyfile)
                            (Some (replicate SHA256_LEN x00)) SHA256_LEN;
      if bool_decide (result ≠ EXIT_SUCCESS) then Ret result else
      let pcrTR := u32 (ESYS_TR_PCR0 + pcrIndex) in
      ectx ← readPtr (esysCtx c);
      rc ← sys (EsysPcrExtend ectx pcrTR TPM2_ALG_SHA256 (default [] digest));
      Ret (if bool_decide (rc ≠ 0)%Z then EXIT_FAILURE else result)
  | _, _ => Ret EXIT_FAILURE
  end.

Definition cominitDeleteTpm (tpmCtx : option cominitTpmContext_t) : prog (Z * option cominitTpmContext_t) :=
  match tpmCtx with
  | None => Ret (EXIT_FAILURE, None)
  | Some c =>
      tcti ← readPtr (tctiCtx c);
      if bool_decide (tcti = 0)%Z then Ret (EXIT_FAILURE, Some c) else
      ectx ← readPtr (esysCtx c);
      if bool_decide (ectx = 0)%Z then Ret (EXIT_FAILURE, Some c) else
      sys_ (TctiFinalize tcti);;
      sys_ (EsysFinalize ectx);;
      Ret (EXIT_SUCCESS, Some (TpmContext PNull PNull))
  end.

(** ** PCR options *)

Definition set_pcr (a : cominitCliArgs_t) (set : bool) (idx : Z) : cominitCliArgs_t :=
  CliArgs set idx (pcrSealCount a) (pcrSeal a) (devNodeBlob a) (devNodeCrypt a)
    (enableSelinux a) (enableEnforceMode a) (devNodeRootFs a) (visibleLogLevel a).
Definition set_pcrSeal (a : cominitCliArgs_t) (count : Z) (seal : list Z) : cominitCliArgs_t :=
  CliArgs (pcrSet a) (pcrIndex a) count seal (devNodeBlob a) (devNodeCrypt a)
    (enableSelinux a) (enableEnforceMode a) (devNodeRootFs a) (visibleLogLevel a).

Definition cominitTpmParsePcrIndex (argCtx : option cominitCliArgs_t) (argValue : option (list byte))
    : Z * option cominitCliArgs_t :=
  match argCtx, argValue with
  | Some a, Some v =>
      let r := strtoul 0 v in
      if negb (st_errno r) && bool_decide (st_end r = []) && bool_decide (st_val r < TPM2_PT_PCR_COUNT)%Z
      then (EXIT_SUCCESS, Some (set_pcr a true (st_val r)))
      else (EXIT_FAILURE, Some (set_pcr a false (pcrIndex a)))
  | _, _ => (EXIT_FAILURE, argCtx)
  end.

(** The loop over the text [p]: the count [i] and the array. Every turn
    consumes a byte. *)
Fixpoint cominitTpmParsePcrIndexes_loop (fuel : nat) (p : list byte) (i : nat) (seal : list Z)
    : prog (nat * list Z) :=
  match fuel, p with
  | _, [] => Ret (i, seal)
  | O, _ :: _ => Stop NoFuel
  | S fuel, b :: rest =>
      if isdigit b then
        let r := strtoul 10 p in
        if negb (st_errno r) && negb (bool_decide (st_end r = p)) &&
           bool_decide (st_val r < TPM2_PT_PCR_COUNT)%Z && bool_decide (i < length seal)
        then cominitTpmParsePcrIndexes_loop fuel (st_end r) (S i) (<[i := st_val r]> seal)
        else Ret (0, seal)
      else cominitTpmParsePcrIndexes_loop fuel rest i seal
  end.
Definition cominitTpmParsePcrIndexes (argCtx : option cominitCliArgs_t) (argValue : option (list byte))
    : prog (Z * option cominitCliArgs_t) :=
  match argCtx with
  | None => Stop (Undef NullDeref)
  | Some a =>
      '(i, seal) ← match argValue with
                   | None => Ret (0, pcrSeal a)
                   | Some v => cominitTpmParsePcrIndexes_loop (length v) v 0 (pcrSeal a)
                   end;
      Ret (if bool_decide (0 < i) then EXIT_SUCCESS else EXIT_FAILURE,
           Some (set_pcrSeal a (Z.of_nat i) seal))
  end.

(** [pcrSelect[pcrIndex / 8] |= 1u << (pcrIndex % 8)] for the sealed PCRs from
    [i]; [n] are left. *)
Fixpoint cominitTpmSelectPcr_loop (n i : nat) (seal : list Z) (sel : list byte) : prog (list byte) :=
  match n with
  | O => Ret sel
  | S n =>
      match seal !! i with
      | None => Stop (Undef OutOfBounds)
      | Some idx =>
          match sel !! Z.to_nat (idx / 8) with
          | None => Stop (Undef OutOfBounds)
          | Some b =>
              cominitTpmSelectPcr_loop n (S i) seal
                (<[Z.to_nat (idx / 8) := zb (Z.lor (bz b) (Z.shiftl 1 (idx mod 8)))]> sel)
          end
      end
  end.
Definition cominitTpmSelectPcr (a : cominitCliArgs_t) (sel : pcr_selection) : prog pcr_selection :=
  s ← cominitTpmSelectPcr_loop (Z.to_nat (pcrSealCount a)) 0 (pcrSeal a) (pcrSelect sel);
  Ret (PcrSelection (selHash sel) (sizeofSelect sel) s).
Definition zero_selection : pcr_selection := PcrSelection TPM2_ALG_SHA256 3 (replicate TPM2_PCR_SELECT_MAX x00).

Definition cominitTpmSecureStorageEnabled (argCtx : option cominitCliArgs_t) : bool :=
  match argCtx with
  | None => false
  | Some a => isSet (devNodeBlob a) && bool_decide (pcrSealCount a > 0)%Z && isSet (devNodeCrypt a)
  end.
Definition cominitTpmExtendEnabled (argCtx : option cominitCliArgs_t) : bool :=
  match argCtx with None => false | Some a => pcrSet a end.

(** ** Sealing *)

Definition cominitTpmSavePrimaryHandle (ectx primaryHandle : Z) : prog Z :=
  rc ← sys (EsysEvictControl ectx primaryHandle TPM2_PERSISTENT_FIRST);
  Ret (if bool_decide (rc ≠ 0)%Z then EXIT_FAILURE else EXIT_SUCCESS).
Definition cominitTpmLoadPrimaryHandle (ectx : Z) : prog (Z * Z) :=
  '(rc, h) ← sys (EsysTrFromTpmPublic ectx TPM2_PERSISTENT_FIRST);
  Ret (if bool_decide (rc ≠ 0)%Z then EXIT_FAILURE else EXIT_SUCCESS, default ESYS_TR_NONE h).

(** The template of the primary key, in the owner hierarchy. *)
Definition primaryPublic : tpm_public :=
  TpmPublic TPM2_ALG_RSA TPM2_ALG_SHA256
    [TPMA_OBJECT_USERWITHAUTH; TPMA_OBJECT_RESTRICTED; TPMA_OBJECT_DECRYPT; TPMA_OBJECT_FIXEDTPM;
     TPMA_OBJECT_FIXEDPARENT; TPMA_OBJECT_SENSITIVEDATAORIGIN] []
    (rsaDetail TPM2_ALG_AES 128 TPM2_ALG_CFB TPM2_ALG_NULL 2048 0).
(** [sess] is read uninitialised when no session call wrote it. The result of
    [cominitSecurememoryEsysCreate] is overwritten: the test after it looks at
    [rc], which is 0 there. *)
Definition cominitTpmSeal (ectx : Z) (argCtx : cominitCliArgs_t)
    : prog (Z * option (list byte * list byte)) :=
  '(rc, ph) ← sys (EsysCreatePrimary ectx primaryPublic);
  let primaryHandle := default ESYS_TR_NONE ph in
  '(result, out, sess) ←
    (if bool_decide (rc ≠ 0)%Z then Ret (EXIT_FAILURE, None, None) else
     '(rc, sess) ← sys (EsysStartAuthSession ectx TPM2_SE_TRIAL TPM2_ALG_SHA256);
     if bool_decide (rc ≠ 0)%Z then Ret (EXIT_FAILURE, None, sess) else
     match sess with
     | None => Stop (Undef UninitRead)
     | Some s =>
         psel ← cominitTpmSelectPcr argCtx zero_selection;
         rc ← sys (EsysPolicyPCR ectx s psel);
         if bool_decide (rc ≠ 0)%Z then Ret (EXIT_FAILURE, None, sess) else
         '(rc, policyDigest) ← sys (EsysPolicyGetDigest ectx s);
         if bool_decide (rc ≠ 0)%Z then Ret (EXIT_FAILURE, None, sess) else
         '(result, out) ← cominitSecurememoryEsysCreate ectx (Some primaryHandle) policyDigest;
         if bool_decide (rc ≠ EXIT_SUCCESS) then Ret (result, out, sess) else
         result ← cominitTpmSavePrimaryHandle ectx primaryHandle;
         Ret (result, out, sess)
     end);
  match sess with
  | None => Stop (Undef UninitRead)
  | Some s =>
      sys_ (EsysFlushContext ectx s);;
      sys_ (EsysFlushContext ectx primaryHandle);;
      sys_ (EsysFree []);; sys_ (EsysFree []);; sys_ (EsysFree []);;
      sys_ (EsysFree []);; sys_ (EsysFree []);;
      Ret (result, out)
  end.

Definition cominitTpmSealBlob (ectx : Z) (argCtx : cominitCliArgs_t) : prog cominitTpmState_t :=
  '(result, out) ← cominitTpmSeal ectx argCtx;
  result ← (if bool_decide (result ≠ EXIT_SUCCESS) then Ret result else cominitTpmSaveBlob out);
  sys_ (EsysFree []);; sys_ (EsysFree []);;
  Ret (if bool_decide (result = EXIT_SUCCESS) then Sealed else TpmFailure).

Definition cominitTpmUnseal (ectx primaryHandle : Z) (pub priv : list byte) (argCtx : cominitCliArgs_t)
    : prog cominitTpmState_t :=
  '(rc, bh) ← sys (EsysLoad ectx primaryHandle priv pub);
  let blobHandle := default ESYS_TR_NONE bh in
  '(state, sess) ←
    (if bool_decide (rc ≠ 0)%Z then Ret (TpmFailure, ESYS_TR_NONE) else
     '(rc, sess) ← sys (EsysStartAuthSession ectx TPM2_SE_POLICY TPM2_ALG_SHA256);
     let sess := default ESYS_TR_NONE sess in
     if bool_decide (rc ≠ 0)%Z then Ret (TpmFailure, sess) else
     psel ← cominitTpmSelectPcr argCtx zero_selection;
     rc ← sys (EsysPolicyPCR ectx sess psel);
     if bool_decide (rc ≠ 0)%Z then Ret (TpmFailure, sess) else
     state ← cominitSecurememoryEsysUnseal ectx (Some blobHandle) (Some sess);
     Ret (state, sess));
  sys_ (EsysFlushContext ectx sess);;
  sys_ (EsysFlushContext ectx blobHandle);;
  Ret state.

Definition cominitTpmUnsealBlob (ectx : Z) (argCtx : cominitCliArgs_t) : prog cominitTpmState_t :=
  '(result, primaryHandle) ← cominitTpmLoadPrimaryHandle ectx;
  if bool_decide (result ≠ EXIT_SUCCESS) then Ret TpmFailure else
  '(result, (pub, priv)) ← cominitTpmLoadBlob;
  if bool_decide (result ≠ EXIT_SUCCESS) then Ret TpmFailure else
  cominitTpmUnseal ectx primaryHandle pub priv argCtx.

(** ** Secure storage *)

Definition mkfsArgv : list (list byte) :=
  [lit "/sbin/mkfs.ext4"; lit "-F"; COMINIT_TPM_SECURE_STORAGE_LOCATION].
Definition cominitTpmFormatSecureStorage : prog Z :=
  cominitSubprocessSpawn (Some (lit "/sbin/mkfs.ext4")) (Some mkfsArgv).

Definition cominitTpmSetupSecureStorage (argCtx : cominitCliArgs_t) (isFirstBoot : bool) : prog Z :=
  let dev := Some (cstr (devNodeCrypt argCtx)) in
  if isFirstBoot then
    result ← cominitSecurememoryCreateLuksVolume dev;
    if bool_decide (result ≠ EXIT_SUCCESS) then Ret result else
    result ← cominitCryptsetupAddToken dev;
    if bool_decide (result ≠ EXIT_SUCCESS) then Ret result else
    result ← cominitCryptsetupOpenLuksVolume dev;
    if bool_decide (result ≠ EXIT_SUCCESS) then Ret result else
    cominitTpmFormatSecureStorage
  else cominitCryptsetupOpenLuksVolume dev.

Definition cominitTpmMountSecureStorage : prog Z :=
  result ← cominitMkdir COMINIT_TPM_SECURE_STORAGE_MNT S_IRWXU;
  if bool_decide (result ≠ EXIT_SUCCESS) then Ret result else
  r ← sys (Mount COMINIT_TPM_SECURE_STORAGE_LOCATION COMINIT_TPM_SECURE_STORAGE_MNT (Some (lit "ext4")) []);
  match r with Err _ => Ret (- EXIT_FAILURE)%Z | Ok _ => Ret EXIT_SUCCESS end.

Definition cominitTpmHandlePolicyFailure (tpmCtx : option cominitTpmContext_t) : Z :=
  match tpmCtx with None => EXIT_FAILURE | Some _ => EXIT_SUCCESS end.

Definition cominitTpmProtectData (tpmCtx : cominitTpmContext_t) (argCtx : cominitCliArgs_t)
    : prog cominitTpmState_t :=
  blobState ← cominitTpmSetupBlob argCtx;
  tpmState ←
    match blobState with
    | BlobIsEmpty =>
        ectx ← readPtr (esysCtx tpmCtx);
        tpmState ← cominitTpmSealBlob ectx argCtx;
        tpmState ← (if bool_decide (tpmState = Sealed) then cominitTpmUnsealBlob ectx argCtx
                    else Ret tpmState);
        if bool_decide (tpmState = Unsealed) then
          r ← cominitTpmSetupSecureStorage argCtx true;
          Ret (if bool_decide (r ≠ EXIT_SUCCESS) then TpmFailure else tpmState)
        else Ret tpmState
    | BlobExists =>
        ectx ← readPtr (esysCtx tpmCtx);
        tpmState ← cominitTpmUnsealBlob ectx argCtx;
        if bool_decide (tpmState = Unsealed) then
          r ← cominitTpmSetupSecureStorage argCtx false;
          Ret (if bool_decide (r ≠ EXIT_SUCCESS) then TpmFailure else tpmState)
        else Ret tpmState
    | BlobNotFound => Ret TpmFailure
    end;
  cominitTpmUnmountBlob;;
  Ret tpmState.
End Tpm.
