(* ===== verification/Footprint.v ===== *)
(** * Footprint: the calls each component can make

    For every function of the components the set of calls it is able to make,
    whatever its arguments and the answers. The facts go into the hint database
    [footprint], from which [only_auto] derives what a larger program does not
    do: run a program, sleep, mount, send a policy to the TPM. *)
From S2P Require Import Prelude CString Sys Output Common Crypto Keyring Meta Dmctl Minsetup.
From S2P Require Import Automount Subprocess Securememory Tpm.

(** ** Sets of calls *)

(** Nothing. *)
Definition no_call (c : call) : bool := false.
(** Reading disks and their directory. *)
Definition probe_call (c : call) : bool :=
  match c with
  | Stat _ | Lstat _ | Open _ O_RDONLY_CLOEXEC | Close _ | IoctlBlkGetSize64 _ | IoctlBlkSszGet _
  | Pread _ _ _ | Opendir _ | Closedir | Malloc _ | Free _ => true
  | _ => false
  end.
(** The same, and waiting. *)
Definition search_call (c : call) : bool :=
  match c with ClockGettime | ClockNanosleep _ _ => true | _ => probe_call c end.
(** Reading the metadata, checking its signature, reading keys. *)
Definition load_call (c : call) : bool :=
  match c with
  | Open _ O_RDONLY | Close _ | IoctlBlkGetSize64 _ | Lseek _ _ | Read _ _
  | PkInit | PkFree | PkParsePublicKeyfile _ | PkGetType | PkCanDoRsa | RsaSetPadding | Sha256 _
  | RsassaPssVerify _ _ | KeyctlSearch _ | KeyctlRead _ _ => true
  | _ => false
  end.
(** Asking for the size of a device, reading a key. *)
Definition size_call (c : call) : bool := match c with IoctlBlkGetSize64 _ => true | _ => false end.
Definition key_call (c : call) : bool := match c with KeyctlSearch _ | KeyctlRead _ _ => true | _ => false end.
(** Enrolling the development keys. *)
Definition enrol_call (c : call) : bool :=
  match c with Stat _ | Fopen _ _ | Fread _ _ | AddKey _ _ => true | _ => false end.
(** Mounting the minimal system. *)
Definition sysfile_call (c : call) : bool :=
  match c with
  | Umask _ | Mkdir _ _ => true
  | Mount _ tgt _ fl =>
      (bool_decide (tgt = lit "/dev") || bool_decide (tgt = lit "/proc")) && bool_decide (MS_MOVE ∉ fl)
  | _ => false
  end.
Definition selinux_mount_call (c : call) : bool :=
  match c with
  | Mkdir _ _ => true
  | Mount _ tgt _ fl => bool_decide (tgt = lit "/sys/fs/selinux") && bool_decide (MS_MOVE ∉ fl)
  | _ => false
  end.
(** Loading policies and setting the mode. *)
Definition selinux_call (c : call) : bool :=
  match c with
  | Mkdir _ _ | Mount _ _ _ _ => selinux_mount_call c
  | Open _ O_RDONLY_CLOEXEC | Open _ O_RDWR_CLOEXEC | Close _ | Fstat _ | Mmap _ _ | Munmap _ | Write _ _ => true
  | _ => false
  end.
(** Detaching /dev or the selinuxfs. *)
Definition detach_call (c : call) : bool :=
  match c with
  | Umount2Detach p => bool_decide (p = lit "/dev") || bool_decide (p = lit "/sys/fs/selinux")
  | _ => false
  end.
(** Setting up and mounting the rootfs. *)
Definition rootfs_call (c : call) : bool :=
  match c with
  | Open _ O_RDWR | Close _ | IoctlDmDevCreate _ _ | IoctlDmTableLoad _ _ _ _ | IoctlDmDevSuspend _ _
  | Mknod _ _ _ | Mkdir _ _ => true
  | Mount _ tgt _ fl => bool_decide (tgt = lit "/newroot") && bool_decide (MS_MOVE ∉ fl)
  | _ => false
  end.
(** Emptying the initramfs and moving into the rootfs. *)
Definition switch_call (c : call) : bool :=
  match c with
  | Nftw _ | Unlink _ | Rmdir _ | Chdir _ | Chroot _ => true
  | Mount src tgt _ fl => bool_decide (src = lit "/newroot") && bool_decide (tgt = lit "/") && bool_decide (fl = [MS_MOVE])
  | _ => false
  end.
(** Creating directories. *)
Definition mkdir_call (c : call) : bool := match c with Mkdir _ _ | Stat _ => true | _ => false end.
(** The TPM code without policy commands and without running programs. *)
Definition tpm_call (c : call) : bool :=
  match c with
  | Mkdir _ _ | Stat _ | Access _ | Fopen _ _ | Fclose _ | Fread _ _ | Fwrite _ _ | Fgets _ _
  | Calloc _ | Free _ | Mlock _ | Munlock _ | KeyctlSearch _ | KeyctlRead _ _ | AddKey _ _
  | PkInit | PkFree | PkParsePublicKeyfile _ | PkWritePubkeyDer _ | Sha256 _
  | EntropyInit | EntropyFree | CtrDrbgInit | CtrDrbgFree | CtrDrbgSeed _ | CtrDrbgRandom _
  | TctiInitialize _ | TctiFinalize _ | EsysInitialize _ | EsysFinalize _ | EsysSelfTest _ | EsysPcrExtend _ _ _ _
  | EsysCreatePrimary _ _ | EsysStartAuthSession _ _ _ | EsysPolicyGetDigest _ _ | EsysEvictControl _ _ _
  | EsysTrFromTpmPublic _ _ | EsysCreate _ _ _ _ _ | EsysLoad _ _ _ _ | EsysUnseal _ _ _
  | EsysFlushContext _ _ | EsysFree _ => true
  | Mount _ tgt _ fl => bool_decide (tgt = COMINIT_TPM_MNT_PT) && bool_decide (MS_MOVE ∉ fl)
  | Umount p => bool_decide (p = COMINIT_TPM_MNT_PT)
  | _ => false
  end.
(** The same with policy commands. *)
Definition seal_call (c : call) : bool := match c with EsysPolicyPCR _ _ _ => true | _ => tpm_call c end.
(** Running a helper program, other than the [execve] itself. *)
Definition spawn_call (c : call) : bool :=
  match c with Pipe | Fork | Dup2 _ _ | Close _ | Write _ _ | Waitpid _ => true | _ => false end.
(** Mounting the secure storage. *)
Definition storage_mount_call (c : call) : bool :=
  match c with
  | Mkdir _ _ | Stat _ => true
  | Mount _ tgt _ fl => bool_decide (tgt = COMINIT_TPM_SECURE_STORAGE_MNT) && bool_decide (MS_MOVE ∉ fl)
  | _ => false
  end.

(** ** Discovery *)

Lemma fp_GetPartSize p fd : only size_call (cominitCommonGetPartSize p fd).
Proof. unfold cominitCommonGetPartSize. only_auto. Qed.
#[export] Hint Resolve fp_GetPartSize : footprint.
Lemma fp_FindGpt b d : only probe_call (cominitAutomountFindGpt b d).
Proof. unfold cominitAutomountFindGpt, cominitAutomountGetBlockSize. only_auto. Qed.
Lemma fp_OnDisk_loop n i d fd sz g p ps b : only probe_call (FindPartitionOnDisk_loop n i d fd sz g p ps b).
Proof. revert i p b. induction n; intros i p b; cbn [FindPartitionOnDisk_loop]; only_auto. Qed.
#[export] Hint Resolve fp_FindGpt fp_OnDisk_loop : footprint.
Lemma fp_OnDisk d g p n : only probe_call (cominitAutomountFindPartitionOnDisk d g p n).
Proof. unfold cominitAutomountFindPartitionOnDisk. only_auto. Qed.
#[export] Hint Resolve fp_OnDisk : footprint.
Lemma fp_FindPartition_loop ns dv r d g p n : only probe_call (FindPartition_loop ns dv r d g p n).
Proof. revert dv r d p. induction ns; intros dv r d p; cbn [FindPartition_loop]; only_auto. Qed.
#[export] Hint Resolve fp_FindPartition_loop : footprint.
Lemma fp_FindPartition d g p n : only probe_call (cominitAutomountFindPartition d g p n).
Proof. unfold cominitAutomountFindPartition. only_auto. Qed.
#[export] Hint Resolve fp_FindPartition : footprint.

(** ** Metadata and keys *)

Lemma fp_GetKey k n d : only key_call (cominitKeyringGetKey k n d).
Proof. unfold cominitKeyringGetKey. only_auto. Qed.
Lemma fp_AddUserKey d k : only enrol_call (cominitKeyringAddUserKey d k).
Proof. unfold cominitKeyringAddUserKey. only_auto. Qed.
#[export] Hint Resolve fp_GetKey fp_AddUserKey : footprint.
Lemma fp_FakeHsm_loop fuel dir cur st : only enrol_call (cominitKeyringInitFakeHsm_loop fuel dir cur st).
Proof. revert cur st. induction fuel; intros [|] st; cbn [cominitKeyringInitFakeHsm_loop]; only_auto. Qed.
#[export] Hint Resolve fp_FakeHsm_loop : footprint.
Lemma fp_FakeHsm descs dir : only enrol_call (cominitKeyringInitFakeHsm descs dir).
Proof. unfold cominitKeyringInitFakeHsm. only_auto. Qed.
#[export] Hint Resolve fp_FakeHsm : footprint.

Section Load.
Context `{Libc} `{MbedTLS}.
Lemma fp_Readall_loop fuel b fd n : only load_call (cominitBinReadall_loop fuel b fd n).
Proof. revert b n. induction fuel; intros b n; cbn [cominitBinReadall_loop]; only_auto. Qed.
#[local] Hint Resolve fp_Readall_loop : footprint.
Lemma fp_Readall fuel b fd off n : only load_call (cominitBinReadall fuel b fd off n).
Proof. unfold cominitBinReadall. only_auto. Qed.
Lemma fp_VerifySignature d s k : only load_call (cominitCryptoVerifySignature d s k).
Proof. unfold cominitCryptoVerifySignature, cominitRsaSetPadding. only_auto. Qed.
Lemma fp_BytesToHex_loop d s i n : only load_call (cominitBytesToHex_loop d s i n).
Proof. revert d i. induction n; intros d i; cbn [cominitBytesToHex_loop]; only_auto. Qed.
#[local] Hint Resolve fp_Readall fp_VerifySignature fp_BytesToHex_loop : footprint.
Lemma fp_BytesToHex d s n : only load_call (cominitBytesToHex d s n).
Proof. unfold cominitBytesToHex. only_auto. Qed.
#[local] Hint Resolve fp_BytesToHex : footprint.
Lemma fp_IntegrityOption o b : only load_call (cominitIntegrityOption o b).
Proof. unfold cominitIntegrityOption. only_auto. Qed.
#[local] Hint Resolve fp_IntegrityOption : footprint.
Lemma fp_Integrity_loop fuel o b st a p : only load_call (cominitGenIntegrityDmTbl_loop fuel o b st a p).
Proof. revert o b st p. induction fuel; intros [|] b st p; cbn [cominitGenIntegrityDmTbl_loop]; only_auto. Qed.
#[local] Hint Resolve fp_Integrity_loop : footprint.
Lemma fp_Integrity m s a : only load_call (cominitGenIntegrityDmTbl m s a).
Proof. unfold cominitGenIntegrityDmTbl. only_auto. Qed.
Lemma fp_Verity m s : only load_call (cominitGenVerityDmTbl m s).
Proof. unfold cominitGenVerityDmTbl. only_auto. Qed.
#[local] Hint Resolve fp_Integrity fp_Verity : footprint.
Lemma fp_Parse_tables m s a : only load_call (cominitParseMetadata_tables m s a).
Proof. unfold cominitParseMetadata_tables. only_auto. Qed.
#[local] Hint Resolve fp_Parse_tables : footprint.
Lemma fp_Parse m s a : only load_call (cominitParseMetadata m s a).
Proof. unfold cominitParseMetadata. only_auto. Qed.
#[local] Hint Resolve fp_Parse : footprint.
Lemma fp_LoadVerify fuel m k : only load_call (cominitLoadVerifyMetadata fuel m k).
Proof. unfold cominitLoadVerifyMetadata. only_auto. Qed.
End Load.
#[export] Hint Resolve fp_Parse fp_LoadVerify : footprint.

(** ** The minimal system and the rootfs *)

Section Setup.
Context `{DmParams}.
Lemma fp_Sysfiles : only sysfile_call cominitSetupSysfiles.
Proof. unfold cominitSetupSysfiles, mkdirExist, mountBusy. only_auto. Qed.
Lemma fp_SysSelinux : only selinux_mount_call cominitSetupSysSelinuxfiles.
Proof. unfold cominitSetupSysSelinuxfiles, mkdirExist, mountBusy. only_auto. Qed.
Lemma fp_CleanupSysfiles : only detach_call cominitCleanupSysfiles.
Proof. unfold cominitCleanupSysfiles. only_auto. Qed.
Lemma fp_CleanupSelinux : only detach_call cominitCleanupSelinuxfiles.
Proof. unfold cominitCleanupSelinuxfiles. only_auto. Qed.
Lemma fp_SetupDm m : only rootfs_call (cominitSetupDmDevice m).
Proof.
  unfold cominitSetupDmDevice, cominitDmctlCreateNewDmDevice, cominitDmctlLoadDmTable, cominitDmctlStartDmDevice.
  only_auto.
Qed.
#[local] Hint Resolve fp_SetupDm : footprint.
Lemma mount_newroot_call src fs (b : bool) :
  rootfs_call (Mount src (lit "/newroot") fs (if b then [MS_RDONLY] else [])) = true.
Proof. by destruct b. Qed.
#[local] Hint Resolve mount_newroot_call : only.
Lemma fp_SetupRootfs m : only rootfs_call (cominitSetupRootfs m).
Proof. unfold cominitSetupRootfs, mkdirExist. only_auto. Qed.
Lemma fp_nftwEach es : only switch_call (nftwEach es).
Proof. induction es; cbn [nftwEach]; unfold cominitNftwRemove; only_auto. Qed.
#[local] Hint Resolve fp_nftwEach : footprint.
Lemma fp_Switch : only switch_call cominitSwitchIntoRootfs.
Proof. unfold cominitSwitchIntoRootfs. only_auto. Qed.
End Setup.
#[export] Hint Resolve fp_Sysfiles fp_SysSelinux fp_CleanupSysfiles fp_CleanupSelinux fp_SetupDm
  fp_SetupRootfs fp_Switch : footprint.

(** ** TPM *)

Section TpmCalls.
Context `{Libc} `{TpmParams}.
Lemma fp_ZeroOut b n : only tpm_call (cominitSecurememoryZeroOut b n).
Proof. unfold cominitSecurememoryZeroOut. only_auto. Qed.
Lemma fp_VerifyZero b n : only tpm_call (cominitSecurememoryVerifyZero b n).
Proof. unfold cominitSecurememoryVerifyZero. only_auto. Qed.
Lemma fp_UniqueString u : only tpm_call (cominitCryptoCreateUniqueString u).
Proof. unfold cominitCryptoCreateUniqueString. only_auto. Qed.
#[local] Hint Resolve fp_ZeroOut fp_VerifyZero fp_UniqueString : footprint.
Lemma fp_Passphrase p n : only tpm_call (cominitCryptoCreatePassphrase p n).
Proof. unfold cominitCryptoCreatePassphrase. only_auto. Qed.
#[local] Hint Resolve fp_Passphrase : footprint.
Lemma fp_EsysUnseal e b s : only tpm_call (cominitSecurememoryEsysUnseal e b s).
Proof. unfold cominitSecurememoryEsysUnseal. only_auto. Qed.
Lemma fp_EsysCreate e p d : only tpm_call (cominitSecurememoryEsysCreate e p d).
Proof. unfold cominitSecurememoryEsysCreate. only_auto. Qed.
Lemma fp_Mkdir_loop fuel tk st cur mode : only mkdir_call (cominitMkdir_loop fuel tk st cur mode).
Proof. revert tk st cur. induction fuel as [|fuel IH]; intros [tk|] st cur; cbn [cominitMkdir_loop]; only_auto. Qed.
#[local] Hint Resolve fp_EsysUnseal fp_EsysCreate fp_Mkdir_loop : footprint.
Lemma fp_Mkdir p mode : only mkdir_call (cominitMkdir p mode).
Proof. unfold cominitMkdir. only_auto. Qed.
#[local] Hint Resolve fp_Mkdir : footprint.
Lemma fp_SelectPcr_loop n i s l : only no_call (cominitTpmSelectPcr_loop n i s l).
Proof. revert i l. induction n; intros i l; cbn [cominitTpmSelectPcr_loop]; only_auto. Qed.
#[local] Hint Resolve fp_SelectPcr_loop : footprint.
Lemma fp_SelectPcr a s : only no_call (cominitTpmSelectPcr a s).
Proof. unfold cominitTpmSelectPcr. only_auto. Qed.
Lemma fp_SetupBlob a : only tpm_call (cominitTpmSetupBlob a).
Proof. unfold cominitTpmSetupBlob. only_auto. Qed.
Lemma fp_UnmountBlob : only tpm_call cominitTpmUnmountBlob.
Proof. unfold cominitTpmUnmountBlob. only_auto. Qed.
Lemma fp_readPtr p : only no_call (readPtr p).
Proof. unfold readPtr. only_auto. Qed.
Lemma fp_SavePrimary e h : only tpm_call (cominitTpmSavePrimaryHandle e h).
Proof. unfold cominitTpmSavePrimaryHandle. only_auto. Qed.
Lemma fp_LoadPrimary e : only tpm_call (cominitTpmLoadPrimaryHandle e).
Proof. unfold cominitTpmLoadPrimaryHandle. only_auto. Qed.
Lemma fp_SaveBlob o : only tpm_call (cominitTpmSaveBlob o).
Proof. unfold cominitTpmSaveBlob. only_auto. Qed.
Lemma fp_LoadBlob : only tpm_call cominitTpmLoadBlob.
Proof. unfold cominitTpmLoadBlob. only_auto. Qed.
#[local] Hint Resolve fp_readPtr : footprint.
#[local] Hint Resolve fp_SelectPcr fp_SavePrimary fp_LoadPrimary fp_SaveBlob fp_LoadBlob : footprint.
Lemma fp_Seal e a : only seal_call (cominitTpmSeal e a).
Proof. unfold cominitTpmSeal. only_auto. Qed.
Lemma fp_Unseal e h p q a : only seal_call (cominitTpmUnseal e h p q a).
Proof. unfold cominitTpmUnseal. only_auto. Qed.
#[local] Hint Resolve fp_Seal fp_Unseal : footprint.
Lemma fp_SealBlob e a : only seal_call (cominitTpmSealBlob e a).
Proof. unfold cominitTpmSealBlob. only_auto. Qed.
Lemma fp_UnsealBlob e a : only seal_call (cominitTpmUnsealBlob e a).
Proof. unfold cominitTpmUnsealBlob. only_auto. Qed.
Lemma fp_InitTpm c : only tpm_call (cominitInitTpm c).
Proof. unfold cominitInitTpm, cominitTpmSelftest. only_auto. Qed.
Lemma fp_Digest k d n : only tpm_call (cominitCreateSHA256DigestfromKeyfile k d n).
Proof. unfold cominitCreateSHA256DigestfromKeyfile. only_auto. Qed.
#[local] Hint Resolve fp_Digest : footprint.
Lemma fp_ExtendPCR c k i : only tpm_call (cominitTpmExtendPCR c k i).
Proof. unfold cominitTpmExtendPCR. only_auto. Qed.
Lemma fp_DeleteTpm c : only tpm_call (cominitDeleteTpm c).
Proof. unfold cominitDeleteTpm. only_auto. Qed.
Lemma fp_MountStorage : only storage_mount_call cominitTpmMountSecureStorage.
Proof. unfold cominitTpmMountSecureStorage. only_auto. Qed.
Lemma fp_ParseSeal_loop fuel p i s : only no_call (cominitTpmParsePcrIndexes_loop fuel p i s).
Proof. revert p i s. induction fuel; intros [|b p] i s; cbn [cominitTpmParsePcrIndexes_loop]; only_auto. Qed.
#[local] Hint Resolve fp_ParseSeal_loop : footprint.
Lemma fp_ParseSeal a v : only no_call (cominitTpmParsePcrIndexes a v).
Proof. unfold cominitTpmParsePcrIndexes. only_auto. Qed.
End TpmCalls.
#[export] Hint Resolve fp_ZeroOut fp_VerifyZero fp_EsysUnseal fp_EsysCreate fp_Mkdir fp_SelectPcr fp_SetupBlob
  fp_UnmountBlob fp_readPtr fp_SavePrimary fp_LoadPrimary fp_SaveBlob fp_LoadBlob fp_InitTpm fp_Digest
  fp_ExtendPCR fp_DeleteTpm fp_MountStorage fp_ParseSeal fp_SealBlob fp_UnsealBlob : footprint.
