(* ===== verification/TpmPcr.v ===== *)
(** * TpmPcr: the PCR options and the PCR selection of Tpm.v *)
From S2P Require Import Prelude CString Sys Output Common Tpm.

Section Pcr.
Context `{Libc} `{TpmParams}.

(** On every decimal number below 2^64 cominitTpmParsePcrIndex accepts exactly those below the PCR bound
    and stores them; a rejected value switches PCR extension off and keeps the stored index. *)
Theorem parse_pcr_index_decimal a n (Hn : (0 <= n < 2 ^ 64)%Z) :
  cominitTpmParsePcrIndex (Some a) (Some (dec n)) =
    if bool_decide (n < TPM2_PT_PCR_COUNT)%Z then (EXIT_SUCCESS, Some (set_pcr a true n))
    else (EXIT_FAILURE, Some (set_pcr a false (pcrIndex a))).
Proof. unfold cominitTpmParsePcrIndex. rewrite strtoul_dec0 by done. cbn. by case_bool_decide. Qed.

(** ** Lists of PCRs *)

Lemma strtoul_digit_end b rest : isdigit b = true →
  length (st_end (strtoul 10 (b :: rest))) < length (b :: rest).
Proof.
  intros Hb. unfold strtoul. cbn [span]. rewrite isdigit_nonspace by done. unfold strto_sign.
  assert (Hd := Hb). unfold isdigit in Hd. apply bool_decide_eq_true in Hd.
  rewrite !bool_decide_false by lia. unfold strto_base. rewrite bool_decide_false by lia.
  cbn [span]. rewrite <-isdigit_base10, Hb.
  pose proof (length_span2 (is_base_digit 10) rest) as Hl.
  destruct (span (is_base_digit 10) rest) as [ds r]. simpl in Hl |- *.
  case_bool_decide; simpl; lia.
Qed.

(** The accepted prefix of the array. *)
Definition sealed (a : cominitCliArgs_t) : list Z := take (Z.to_nat (pcrSealCount a)) (pcrSeal a).
Definition pcr_ok (x : Z) : Prop := (0 <= x < TPM2_PT_PCR_COUNT)%Z.

Lemma take_insert_snoc (l : list Z) i x : i < length l → take (S i) (<[i := x]> l) = take i l ++ [x].
Proof.
  intros Hi. rewrite (take_S_r _ _ x) by by apply list_lookup_insert_eq.
  by rewrite take_insert_ge.
Qed.

Lemma ParsePcrIndexes_loop_sound fuel p i seal :
  length p <= fuel → i <= length seal → Forall pcr_ok (take i seal) →
  ∃ i' seal', cominitTpmParsePcrIndexes_loop fuel p i seal = Ret (i', seal') ∧
    length seal' = length seal ∧ i' <= length seal ∧ Forall pcr_ok (take i' seal').
Proof.
  revert p i seal. induction fuel as [|fuel IH]; intros [|b rest] i seal Hf Hi Hs;
    [by exists i, seal|simpl in Hf; lia|by exists i, seal|]. cbn [cominitTpmParsePcrIndexes_loop].
  destruct (isdigit b) eqn:Hb; [|apply IH; [simpl in Hf; lia|done|done]].
  pose proof (strtoul_digit_end b rest Hb) as Hend. pose proof (strtoul_range (b :: rest)) as Hr.
  destruct (negb _ && _ && _ && _) eqn:Hc.
  2: { exists 0, seal. split_and!; [done|done|lia|by rewrite take_0]. }
  apply andb_true_iff in Hc as [Hc Hlen]. apply andb_true_iff in Hc as [_ Hval].
  apply bool_decide_eq_true in Hlen, Hval.
  destruct (IH (st_end (strtoul 10 (b :: rest))) (S i) (<[i := st_val (strtoul 10 (b :: rest))]> seal))
    as (i' & seal' & -> & H1 & H2 & H3).
  - simpl in *. lia.
  - rewrite length_insert. lia.
  - rewrite take_insert_snoc by done. apply Forall_app. split; [done|]. repeat constructor; lia.
  - exists i', seal'. rewrite length_insert in *. by split_and!.
Qed.

(** For every pcrSeal value cominitTpmParsePcrIndexes returns with the array keeping its size, a count
    within it and only indexes below the PCR bound among the counted ones; it succeeds exactly when
    there is at least one. *)
Theorem parse_pcr_list_sound a v :
  ∃ r a', cominitTpmParsePcrIndexes (Some a) v = Ret (r, Some a') ∧
    length (pcrSeal a') = length (pcrSeal a) ∧
    (0 <= pcrSealCount a' <= Z.of_nat (length (pcrSeal a)))%Z ∧
    Forall pcr_ok (sealed a') ∧ (r = EXIT_SUCCESS ↔ sealed a' ≠ []).
Proof.
  assert (∃ i seal', match v with None => Ret (0, pcrSeal a)
      | Some v => cominitTpmParsePcrIndexes_loop (length v) v 0 (pcrSeal a) end = Ret (i, seal') ∧
    length seal' = length (pcrSeal a) ∧ i <= length (pcrSeal a) ∧ Forall pcr_ok (take i seal'))
    as (i & seal' & E & H1 & H2 & H3).
  { destruct v as [v|]; [|by exists 0, (pcrSeal a); split_and!; [|lia|lia|rewrite take_0]].
    apply ParsePcrIndexes_loop_sound; [done|lia|by rewrite take_0]. }
  unfold cominitTpmParsePcrIndexes. rewrite E, bind_ret. eexists _, _. split; [reflexivity|].
  unfold sealed. cbn [pcrSeal pcrSealCount set_pcrSeal]. rewrite Nat2Z.id. split_and!; [done|lia|lia|done|].
  case_bool_decide as Hi.
  - split; [|done]. intros _ E0. apply (f_equal length) in E0. rewrite length_take in E0. simpl in E0. lia.
  - split; [done|]. assert (i = 0) as -> by lia. by rewrite take_0.
Qed.

(** Printing a list of indexes with single separators. *)
Fixpoint pcr_text (sep : byte) (l : list Z) : list byte :=
  match l with [] => [] | [x] => dec x | x :: l => dec x ++ sep :: pcr_text sep l end.

Lemma strtoul_dec_sep n r : (0 <= n < 2 ^ 64)%Z → match r with [] => True | b :: _ => isdigit b = false end →
  strtoul 10 (dec n ++ r) = StrtoulResult n r false.
Proof.
  intros Hn Hr. destruct (dec_spec n Hn) as (Hne & Hd & Hv).
  rewrite strtoul_digits; [by rewrite Hv|done|done|done|]. rewrite Hv. unfold ULONG_MAX. lia.
Qed.
Lemma ParsePcrIndexes_loop_text sep l fuel i seal :
  isdigit sep = false → Forall (λ x, pcr_ok x ∧ (x < 2 ^ 64)%Z) l → i + length l <= length seal →
  length (pcr_text sep l) <= fuel →
  ∃ seal', cominitTpmParsePcrIndexes_loop fuel (pcr_text sep l) i seal = Ret (i + length l, seal') ∧
    take (i + length l) seal' = take i seal ++ l.
Proof.
  intros Hsep Hl. revert fuel i seal. induction Hl as [|x l [Hx Hx'] Hl IH]; intros fuel i seal Hi Hf.
  { exists seal. rewrite Nat.add_0_r, app_nil_r. by destruct fuel. }
  unfold pcr_ok in Hx. cbn [length] in *.
  assert (∃ r, pcr_text sep (x :: l) = dec x ++ r ∧
    match r with [] => l = [] | b :: r' => b = sep ∧ r' = pcr_text sep l end) as (r & E & Hr).
  { destruct l; [by exists []; rewrite app_nil_r|by eexists]. }
  rewrite E in *. destruct (dec_spec x) as (Hne & Hd & _); [lia|].
  destruct (dec x) as [|b ds] eqn:Ed; [done|]. destruct fuel as [|fuel]; [simpl in Hf; lia|].
  cbn [app cominitTpmParsePcrIndexes_loop]. inversion Hd as [|? ? Hb _]; subst. rewrite Hb.
  change (b :: ds ++ r) with ((b :: ds) ++ r). rewrite <-Ed.
  rewrite strtoul_dec_sep; [|lia|by destruct r as [|? ?]; [|destruct Hr as [-> _]]]. cbn [st_errno st_end st_val negb andb].
  rewrite (bool_decide_false (r = _)), !bool_decide_true by first [lia|rewrite Ed; intros Er; apply (f_equal length) in Er; simpl in Er; rewrite length_app in Er; lia].
  cbn [negb andb]. rewrite length_app in Hf. cbn [length] in Hf.
  destruct r as [|b' r'].
  - subst l. exists (<[i := x]> seal). cbn [length] in *. rewrite Nat.add_1_r.
    split; [by destruct fuel|]. apply take_insert_snoc. lia.
  - destruct Hr as [-> ->]. destruct fuel as [|fuel]; [simpl in Hf; lia|].
    cbn [cominitTpmParsePcrIndexes_loop]. rewrite Hsep.
    destruct (IH fuel (S i) (<[i := x]> seal)) as (seal' & -> & Ht).
    { rewrite length_insert. lia. } { simpl in Hf. lia. }
    exists seal'. rewrite <-Nat.add_succ_comm. split; [done|]. rewrite Ht, take_insert_snoc by lia.
    by rewrite <-app_assoc.
Qed.

(** A non-empty list of valid PCR indexes printed in decimal with any non-digit separator is parsed back
    to the same list. *)
Theorem parse_pcr_list_roundtrip a sep l
    (Hsep : isdigit sep = false) (Hl : Forall (λ x, pcr_ok x ∧ (x < 2 ^ 64)%Z) l)
    (Hlen : 0 < length l <= length (pcrSeal a)) :
  ∃ a', cominitTpmParsePcrIndexes (Some a) (Some (pcr_text sep l)) = Ret (EXIT_SUCCESS, Some a') ∧ sealed a' = l.
Proof.
  destruct (ParsePcrIndexes_loop_text sep l (length (pcr_text sep l)) 0 (pcrSeal a)) as (seal' & E & Ht); [done|done|lia|done|].
  unfold cominitTpmParsePcrIndexes. rewrite E, bind_ret. rewrite bool_decide_true by lia.
  eexists. split; [reflexivity|]. unfold sealed. cbn [pcrSeal pcrSealCount set_pcrSeal]. by rewrite Nat2Z.id.
Qed.

(** ** The selection *)

(** PCR [k] is in the selection. *)
Definition pcrBit (sel : list byte) (k : Z) : bool :=
  match sel !! Z.to_nat (k / 8) with Some b => Z.testbit (bz b) (k mod 8) | None => false end.
Definition selectable (x : Z) : Prop := (0 <= x < 8 * Z.of_nat TPM2_PCR_SELECT_MAX)%Z.

Lemma zb_testbit z j : (0 <= j < 8)%Z → Z.testbit (bz (zb z)) j = Z.testbit z j.
Proof. intros Hj. rewrite bz_zb. change 256%Z with (2 ^ 8)%Z. apply Z.mod_pow2_bits_low; lia. Qed.
Lemma shiftl1_testbit m j : (0 <= m)%Z → (0 <= j)%Z → Z.testbit (Z.shiftl 1 m) j = bool_decide (j = m).
Proof.
  intros Hm Hj. rewrite Z.shiftl_1_l. case_bool_decide as E; [subst; by apply Z.pow2_bits_true|].
  apply Z.pow2_bits_false. congruence.
Qed.
Lemma pcr_coords k x : (0 <= k)%Z → (0 <= x)%Z → k = x ↔ Z.to_nat (k / 8) = Z.to_nat (x / 8) ∧ (k mod 8 = x mod 8)%Z.
Proof.
  intros Hk Hx. pose proof (Z.div_pos k 8). pose proof (Z.div_pos x 8).
  pose proof (Z.div_mod k 8). pose proof (Z.div_mod x 8). split; [by intros ->|]. lia.
Qed.
(** One store sets exactly one bit. *)
Lemma pcrBit_insert sel b x k :
  (0 <= k)%Z → (0 <= x)%Z → sel !! Z.to_nat (x / 8) = Some b →
  pcrBit (<[Z.to_nat (x / 8) := zb (Z.lor (bz b) (Z.shiftl 1 (x mod 8)))]> sel) k =
    pcrBit sel k || bool_decide (k = x).
Proof.
  intros Hk Hx Hb. unfold pcrBit. pose proof (lookup_lt_Some _ _ _ Hb) as Hlt.
  pose proof (Z.mod_pos_bound k 8). pose proof (Z.mod_pos_bound x 8).
  destruct (decide (Z.to_nat (k / 8) = Z.to_nat (x / 8))) as [E|E].
  - rewrite E, list_lookup_insert_eq, Hb by done. rewrite zb_testbit, Z.lor_spec, shiftl1_testbit by lia.
    f_equal. apply bool_decide_ext. rewrite (pcr_coords k x) by done. tauto.
  - rewrite list_lookup_insert_ne by done. rewrite (bool_decide_false (k = x)), orb_false_r; [done|].
    intros ->. done.
Qed.

Lemma SelectPcr_loop_spec n i seal sel :
  length sel = TPM2_PCR_SELECT_MAX → i + n <= length seal → Forall selectable (take n (drop i seal)) →
  ∃ sel', cominitTpmSelectPcr_loop n i seal sel = Ret sel' ∧ length sel' = TPM2_PCR_SELECT_MAX ∧
    ∀ k, (0 <= k)%Z → pcrBit sel' k = pcrBit sel k || bool_decide (k ∈ take n (drop i seal)).
Proof.
  revert i sel. induction n as [|n IH]; intros i sel Hsel Hi Hs.
  { exists sel. split_and!; [done|done|]. intros k _. rewrite bool_decide_false by apply not_elem_of_nil.
    by rewrite orb_false_r. }
  cbn [cominitTpmSelectPcr_loop]. destruct (lookup_lt_is_Some_2 seal i) as [x Hx]; [lia|]. rewrite Hx.
  rewrite (drop_S _ _ _ Hx) in *. cbn [take] in *. inversion Hs as [|? ? Hx1 Hs']; subst. unfold selectable in Hx1.
  destruct (lookup_lt_is_Some_2 sel (Z.to_nat (x / 8))) as [b Hb].
  { rewrite Hsel. pose proof (Z.div_lt_upper_bound x 8 (Z.of_nat TPM2_PCR_SELECT_MAX)).
    pose proof (Z.div_pos x 8). lia. }
  rewrite Hb. destruct (IH (S i) (<[Z.to_nat (x / 8):=zb (Z.lor (bz b) (Z.shiftl 1 (x mod 8)))]> sel))
    as (sel' & -> & Hl & Hbits); [by rewrite length_insert|lia|done|].
  exists sel'. split_and!; [done|done|]. intros k Hk. rewrite Hbits, pcrBit_insert by (done || lia).
  rewrite <-orb_assoc. f_equal. rewrite <-bool_decide_or. apply bool_decide_ext. by rewrite elem_of_cons.
Qed.

Lemma zero_pcrBit n k : pcrBit (replicate n x00) k = false.
Proof.
  unfold pcrBit. destruct (_ !! _) as [b|] eqn:Eb; [|done]. apply lookup_replicate in Eb as [-> _]. by rewrite Z.testbit_0_l.
Qed.
(** The selection of the sealed PCRs. *)
Lemma SelectPcr_spec a :
  (0 <= pcrSealCount a <= Z.of_nat (length (pcrSeal a)))%Z → Forall selectable (sealed a) →
  ∃ sel, cominitTpmSelectPcr a zero_selection = Ret (PcrSelection TPM2_ALG_SHA256 3 sel) ∧
    length sel = TPM2_PCR_SELECT_MAX ∧ ∀ k, (0 <= k)%Z → pcrBit sel k = bool_decide (k ∈ sealed a).
Proof.
  intros Hcount Hsel.
  destruct (SelectPcr_loop_spec (Z.to_nat (pcrSealCount a)) 0 (pcrSeal a) (replicate TPM2_PCR_SELECT_MAX x00))
    as (sel & E & Hl & Hbits); [apply length_replicate|lia|done|].
  exists sel. unfold cominitTpmSelectPcr. cbn [zero_selection pcrSelect sizeofSelect selHash]. rewrite E, bind_ret.
  split_and!; [done|done|]. intros k Hk. rewrite Hbits by done. rewrite drop_0. fold (sealed a).
  by rewrite zero_pcrBit.
Qed.

(** If the sealed PCR indexes lie within the selection bitmap, cominitTpmSelectPcr sets exactly the bits
    of these indexes: bit k of the result is set if and only if k is one of them. *)
Theorem select_pcr_exact a
    (Hcount : (0 <= pcrSealCount a <= Z.of_nat (length (pcrSeal a)))%Z) (Hsel : Forall selectable (sealed a)) :
  ∃ sel, cominitTpmSelectPcr a zero_selection = Ret (PcrSelection TPM2_ALG_SHA256 3 sel) ∧
    length sel = TPM2_PCR_SELECT_MAX ∧ ∀ k, (0 <= k)%Z → pcrBit sel k = bool_decide (k ∈ sealed a).
Proof. by apply SelectPcr_spec. Qed.

Lemma SelectPcr_loop_oob n i seal sel x :
  length sel = TPM2_PCR_SELECT_MAX → i + n <= length seal → x ∈ take n (drop i seal) →
  (8 * Z.of_nat TPM2_PCR_SELECT_MAX <= x)%Z → Forall (λ y, 0 <= y)%Z (take n (drop i seal)) →
  cominitTpmSelectPcr_loop n i seal sel = Stop (Undef OutOfBounds).
Proof.
  revert i sel. induction n as [|n IH]; intros i sel Hsel Hi Hx Hbig Hpos; [by apply elem_of_nil in Hx|].
  cbn [cominitTpmSelectPcr_loop]. destruct (lookup_lt_is_Some_2 seal i) as [y Hy]; [lia|]. rewrite Hy.
  rewrite (drop_S _ _ _ Hy) in *. cbn [take] in *. inversion Hpos as [|? ? Hy0 Hpos']; subst.
  destruct (sel !! Z.to_nat (y / 8)) as [b|] eqn:Eb; [|done].
  apply IH; [by rewrite length_insert|lia| |done|done]. apply elem_of_cons in Hx as [<-|Hx]; [|done].
  apply lookup_lt_Some in Eb. pose proof (Z.div_le_lower_bound x 8 (Z.of_nat TPM2_PCR_SELECT_MAX)). lia.
Qed.

(** C38: If an accepted PCR index is not below eight times the size of the selection bitmap, as the PCR
    bound of the option parser allows, cominitTpmSelectPcr writes outside the bitmap. *)
Theorem select_pcr_out_of_bounds a x
    (Hcount : (0 <= pcrSealCount a <= Z.of_nat (length (pcrSeal a)))%Z)
    (Hok : Forall pcr_ok (sealed a)) (Hx : x ∈ sealed a) (Hbig : (8 * Z.of_nat TPM2_PCR_SELECT_MAX <= x)%Z) :
  cominitTpmSelectPcr a zero_selection = Stop (Undef OutOfBounds).
Proof.
  unfold cominitTpmSelectPcr, zero_selection, sealed in *. cbn [pcrSelect].
  rewrite (SelectPcr_loop_oob _ 0 _ _ x); [done|apply length_replicate|lia|done|done|].
  eapply Forall_impl; [exact Hok|]. by intros y [? _].
Qed.
End Pcr.
