(* ===== verification/TpmProofs.v ===== *)
(** * TpmProofs: what the secure storage code of Tpm.v may do, and when *)
From S2P Require Import Prelude CString Sys Output Common Crypto Keyring Subprocess Securememory.
From S2P Require Import Tpm Footprint.

(** A call other than [execve]. *)
Definition noexec (c : call) : bool := match c with Execve _ _ => false | _ => true end.

(** The passphrase entered the keyring. *)
Definition key_added (e : event) : bool :=
  let '(Event c r) := e in
  match c return reply c → bool with
  | AddKey d _ => λ r, match r with Ok _ => bool_decide (d = COMINIT_TPM_SECURE_STORAGE_KEY_NAME) | Err _ => false end
  | _ => λ _, false
  end r.
(** There is no sealed blob on the blob partition. *)
Definition blob_missing (e : event) : bool :=
  let '(Event c r) := e in
  match c return reply c → bool with
  | Access p => λ r, match r with Err ENOENT => bool_decide (p = BLOB_PATH) | _ => false end
  | _ => λ _, false
  end r.

(** The commands that may run after [t]: opening the volume once the key is in
    the keyring; formatting it only if there was no blob as well. *)
Definition allowed (dev : list byte) (t : trace) (argv : list (list byte)) : Prop :=
  existsb key_added t = true ∧
  (argv = luksOpenArgv dev ∨
   (existsb blob_missing t = true ∧
    (argv = luksFormatArgv dev ∨ argv = luksTokenArgv dev ∨ argv = mkfsArgv))).
Definition exec_guard (dev : list byte) (t : trace) (e : event) : Prop :=
  match ev_call e with Execve _ argv => allowed dev t argv | _ => True end.

Lemma allowed_app dev t t' argv : allowed dev t argv → allowed dev (t ++ t') argv.
Proof.
  intros [H1 H2]. split; [by rewrite existsb_app, H1|]. destruct H2 as [->|[H2 H3]]; [by left|right].
  by rewrite existsb_app, H2.
Qed.

Section Tpm.
Context `{Libc} `{TpmParams}.

(** ** Parts that run programs *)

Section Spawning.
Context (P : call → bool) (HP : ∀ c, tpm_call c || spawn_call c = true → P c = true).
Lemma only_tpm {A} (p : prog A) : only tpm_call p → only P p.
Proof. apply only_mono. intros c Hc. apply HP. by rewrite Hc. Qed.
Lemma only_key {A} (p : prog A) : only key_call p → only P p.
Proof. intros Hp. apply only_tpm. revert Hp. apply only_mono. by intros []. Qed.
Lemma only_waitChild pid : only P (waitChild pid).
Proof. unfold waitChild. apply only_bind; [by apply only_sys, HP|]. intros [[]|]; done. Qed.
Lemma only_execOrExit p argv : P (Execve p argv) = true → only P (execOrExit p argv).
Proof.
  intros Ha. unfold execOrExit. apply only_bind; [by apply only_sys|].
  intros []; [by apply HP|]. exists argv. exact Ha.
Qed.
#[local] Hint Resolve only_waitChild only_execOrExit : only.
#[local] Hint Extern 1 (P _ = true) => apply HP; reflexivity : only.
Lemma only_Spawn p argv : P (Execve p argv) = true → only P (cominitSubprocessSpawn (Some p) (Some argv)).
Proof. intros Ha. unfold cominitSubprocessSpawn. only_auto. Qed.
Lemma only_SpawnAndWrite p argv d n :
  P (Execve p argv) = true → only P (cominitSubprocessSpawnAndWrite (Some p) (Some argv) d n).
Proof. intros Ha. unfold cominitSubprocessSpawnAndWrite. only_auto. Qed.

(** The setup of the storage runs the LUKS commands of its device, and the
    formatter on the first boot. *)
Context (dev : list byte).
Hypothesis Hopen : P (Execve COMINIT_CRYPTSETUP_DIR (luksOpenArgv dev)) = true.
Lemma only_OpenLuks : only P (cominitCryptsetupOpenLuksVolume (Some dev)).
Proof. by apply only_Spawn. Qed.
Hypothesis Htoken : P (Execve COMINIT_CRYPTSETUP_DIR (luksTokenArgv dev)) = true.
Hypothesis Hformat : P (Execve COMINIT_CRYPTSETUP_DIR (luksFormatArgv dev)) = true.
Hypothesis Hmkfs : P (Execve (lit "/sbin/mkfs.ext4") mkfsArgv) = true.
Lemma only_AddToken : only P (cominitCryptsetupAddToken (Some dev)).
Proof. by apply only_Spawn. Qed.
Lemma only_Format : only P cominitTpmFormatSecureStorage.
Proof. by apply only_Spawn. Qed.
Lemma only_LuksFormat p n : only P (cominitCryptsetupCreateLuksVolume (Some dev) p n).
Proof.
  unfold cominitCryptsetupCreateLuksVolume. destruct p; [|done]. destruct (bool_decide _); [done|].
  by apply only_SpawnAndWrite.
Qed.
#[local] Hint Resolve only_OpenLuks only_AddToken only_Format only_LuksFormat only_tpm only_key : only.
#[local] Hint Resolve fp_GetKey fp_ZeroOut fp_VerifyZero : only.
Lemma only_CreateLuks : only P (cominitSecurememoryCreateLuksVolume (Some dev)).
Proof. unfold cominitSecurememoryCreateLuksVolume. only_auto. Qed.
#[local] Hint Resolve only_CreateLuks : only.
Lemma only_SetupFirst a : dev = cstr (devNodeCrypt a) → only P (cominitTpmSetupSecureStorage a true).
Proof. intros E. unfold cominitTpmSetupSecureStorage. rewrite <-E. only_auto. Qed.
Lemma only_SetupLater a : dev = cstr (devNodeCrypt a) → only P (cominitTpmSetupSecureStorage a false).
Proof. intros E. unfold cominitTpmSetupSecureStorage. rewrite <-E. apply only_OpenLuks. Qed.
End Spawning.

(** The calls of the storage setup on the first or a later boot. *)
Definition storage_call (dev : list byte) (first : bool) (c : call) : bool :=
  match c with
  | Execve _ argv =>
      bool_decide (argv = luksOpenArgv dev) ||
      first && (bool_decide (argv = luksFormatArgv dev) || bool_decide (argv = luksTokenArgv dev) ||
                bool_decide (argv = mkfsArgv))
  | _ => true
  end.
Lemma storage_noexec dev first c : tpm_call c || spawn_call c = true → storage_call dev first c = true.
Proof. by destruct c. Qed.

Lemma storage_open dev first p : storage_call dev first (Execve p (luksOpenArgv dev)) = true.
Proof. unfold storage_call. by rewrite bool_decide_true. Qed.
Lemma storage_first dev p argv :
  argv = luksFormatArgv dev ∨ argv = luksTokenArgv dev ∨ argv = mkfsArgv →
  storage_call dev true (Execve p argv) = true.
Proof.
  intros Ha. unfold storage_call. rewrite orb_true_iff. right. cbn [andb]. rewrite !orb_true_iff, !bool_decide_eq_true.
  tauto.
Qed.

Lemma only_SetupSecureStorage a first :
  only (storage_call (cstr (devNodeCrypt a)) first) (cominitTpmSetupSecureStorage a first).
Proof.
  destruct first; [apply (only_SetupFirst _ (storage_noexec _ _) (cstr (devNodeCrypt a)))|
    apply (only_SetupLater _ (storage_noexec _ _) (cstr (devNodeCrypt a)))];
    try done; try apply storage_open; apply storage_first; auto.
Qed.

(** ** What the results tell *)

(** A flag once set is still set at the end. *)
Lemma flag_bind {A B} f (p : prog A) (k : A → prog B) (Q : outcome B → bool → Prop) s :
  (∀ o, Q o true) → s = true → wp (upd_flag f) any_env (bind p k) Q s.
Proof. intros HQ ->. eapply wp_mono; [|apply wp_flag_stays]. intros o s ->. apply HQ. Qed.

Lemma flag_SetupBlob a s :
  wp (upd_flag blob_missing) any_env (cominitTpmSetupBlob a) (λ o s', o = Done BlobIsEmpty → s' = true) s.
Proof.
  unfold cominitTpmSetupBlob. destruct (isSet _); [|done]. apply wp_skip; [intros r s1|done].
  destruct (bool_decide _); [done|]. apply wp_sys. intros [[]|e] _; [|done].
  apply wp_sys. intros [[]|[]] _; try done. apply flag_bind; [done|].
  unfold upd_flag. cbn. by rewrite bool_decide_true, orb_true_r by done.
Qed.
Lemma flag_EsysUnseal e b s f :
  wp (upd_flag key_added) any_env (cominitSecurememoryEsysUnseal e b s) (λ o s', o = Done Unsealed → s' = true) f.
Proof.
  unfold cominitSecurememoryEsysUnseal, cominitKeyringAddUserKey, cominitSecurememoryZeroOut,
    cominitSecurememoryVerifyZero.
  repeat (wp_step; cbv beta zeta); try done; unfold upd_flag; cbn;
    rewrite ?bool_decide_true, ?orb_true_r, ?orb_true_l by done; try done.
  all: try (by destruct (bool_decide (_ = POLICY_FAILURE_RC))).
Qed.
Lemma flag_UnsealBlob e a f :
  wp (upd_flag key_added) any_env (cominitTpmUnsealBlob e a) (λ o s', o = Done Unsealed → s' = true) f.
Proof.
  unfold cominitTpmUnsealBlob. apply wp_skip; [intros [r h] s1|done]. destruct (bool_decide _); [done|].
  apply wp_skip; [intros [r' [pub priv]] s2|done]. destruct (bool_decide _); [done|].
  unfold cominitTpmUnseal. apply wp_sys. intros [rc bh] _. cbv zeta.
  eapply (wp_call _ _ _ _ (λ o s', match o with Done (st, _) => st = Unsealed → s' = true | Ended _ => True end)).
  - destruct (bool_decide _); [done|]. apply wp_sys. intros [rc' sess] _. cbv zeta.
    destruct (bool_decide _); [done|]. apply wp_skip; [intros psel s3|done].
    apply wp_sys. intros rc'' _. destruct (bool_decide _); [done|].
    eapply wp_call; [apply flag_EsysUnseal| |done]. intros st s4 Hst ->. by apply Hst.
  - intros [st sess] s3 Hst. destruct st; [by do 2 intros ? ?..| |by do 2 intros ? ?].
    rewrite Hst by done. by do 2 intros ? ?.
  - done.
Qed.

(** ** The whole operation *)

Lemma SealBlob_state e a : yields (cominitTpmSealBlob e a) (λ o, o ≠ Done Unsealed).
Proof.
  unfold cominitTpmSealBlob, yields. apply wp_skip; [intros [r out] s1|done]. apply wp_skip; [intros r' s2|done].
  do 2 (apply wp_sys_; intros ? _). cbn [wp]. by case_bool_decide.
Qed.

Section Protect.
Context (dev : list byte).
Local Abbreviation safe := (guarded (exec_guard dev)).

Lemma safe_noexec {A} (p : prog A) t :
  only noexec p → safe t → wp upd_trace any_env p (λ _ t', safe t' ∧ ∃ t1, t' = t ++ t1) t.
Proof.
  intros Hp Ht. eapply wp_mono; [|by apply wp_only]. intros o t' (t1 & -> & H1). split; [|by eexists].
  apply guarded_app; [done|]. eapply Forall_impl; [exact H1|]. intros [c r] Hc t0. unfold exec_guard. simpl in *.
  by destruct c.
Qed.
(** Storage programs run under the conditions of [allowed]. *)
Lemma safe_storage {A} (p : prog A) first t :
  only (storage_call dev first) p → existsb key_added t = true →
  (first = true → existsb blob_missing t = true) → safe t →
  wp upd_trace any_env p (λ _ t', safe t' ∧ ∃ t1, t' = t ++ t1) t.
Proof.
  intros Hp Hkey Hfirst Ht. eapply wp_mono; [|by apply wp_only]. intros o t' (t1 & -> & H1).
  split; [|by eexists]. revert t Hkey Hfirst Ht. induction H1 as [|[c r] t1 Hc _ IH]; intros t Hkey Hfirst Ht.
  { by rewrite app_nil_r. }
  rewrite cons_middle, app_assoc. apply IH.
  - by rewrite existsb_app, Hkey.
  - intros Hf. by rewrite existsb_app, Hfirst.
  - apply guarded_snoc; [done|]. unfold exec_guard. simpl in *. destruct c; try done.
    apply orb_true_iff in Hc as [Hc|Hc].
    + apply bool_decide_eq_true in Hc. split; [done|by left].
    + apply andb_true_iff in Hc as [-> Hc]. rewrite !orb_true_iff, !bool_decide_eq_true in Hc.
      split; [done|]. right. split; [by apply Hfirst|tauto].
Qed.

(** The end of [cominitTpmProtectData] once the key may be used. *)
Lemma safe_finish a first st t :
  dev = cstr (devNodeCrypt a) → safe t → (st = Unsealed → existsb key_added t = true) →
  (first = true → existsb blob_missing t = true) →
  wp upd_trace any_env
    (if bool_decide (st = Unsealed) then
       r ← cominitTpmSetupSecureStorage a first;
       Ret (if bool_decide (r ≠ EXIT_SUCCESS) then TpmFailure else st)
     else Ret st)
    (λ o t', safe t' ∧ match o with Done st' => st' = Unsealed → existsb key_added t' = true | Ended _ => True end) t.
Proof.
  intros Hdev Ht Hst Hfirst. case_bool_decide as E; [|done]. specialize (Hst E).
  pose proof (only_SetupSecureStorage a first) as Hs. rewrite <-Hdev in Hs.
  eapply wp_call; [by apply (safe_storage _ first)| |by intros e t' [? _]].
  intros r t' [Ht' [t1 ->]]. cbn [wp]. split; [done|]. intros _. by rewrite existsb_app, Hst.
Qed.
End Protect.

Lemma wp_ProtectData c a :
  let dev := cstr (devNodeCrypt a) in
  wp upd_trace any_env (cominitTpmProtectData c a)
    (λ o t, guarded (exec_guard dev) t ∧
       match o with
       | Done st => (st = Unsealed → existsb key_added t = true) ∧
                    ∃ t' r, t = t' ++ [Event (Umount COMINIT_TPM_MNT_PT) r]
       | Ended _ => True end) [].
Proof.
  intros dev. unfold cominitTpmProtectData.
  eapply wp_call; [apply wp_and; [apply (safe_noexec dev); [only_auto|apply guarded_nil]|
    apply (wp_flag_trace blob_missing), flag_SetupBlob]| |by intros e t [[? _] _]].
  intros bs t [[Ht _] Hbs].
  eapply (wp_call _ _ _ _ (λ o t, guarded (exec_guard dev) t ∧
    match o with Done st => st = Unsealed → existsb key_added t = true | Ended _ => True end)).
  - destruct bs; [| |by split].
    + eapply wp_call; [by apply (safe_noexec dev); [only_auto|]| |by intros e t' [? _]].
      intros ectx t1 [Ht1 [u1 ->]].
      eapply wp_call; [apply wp_and; [by apply (safe_noexec dev); [only_auto|]|
        apply wp_yields, SealBlob_state]| |by intros e t' [[? _] _]].
      intros st t2 [[Ht2 [u2 ->]] Hst].
      eapply (wp_call _ _ _ _ (λ o t', guarded (exec_guard dev) t' ∧ (∃ u3, t' = ((t ++ u1) ++ u2) ++ u3) ∧
        match o with Done st => st = Unsealed → existsb key_added t' = true | Ended _ => True end));
        [| |by intros e t' [? _]].
      * case_bool_decide as E.
        -- eapply wp_mono; [|apply wp_and; [by apply (safe_noexec dev); [only_auto|]|
             apply (wp_flag_trace key_added), flag_UnsealBlob]].
           intros [st'|e] t' [[? ?] Hst']; split_and!; try done. intros ->. by apply Hst'.
        -- cbn [wp]. split_and!; [done|by exists []; rewrite app_nil_r|]. by intros ->.
      * intros st' t3 (Ht3 & [u3 ->] & Hst'). apply safe_finish; [done..|].
        intros _. by rewrite !existsb_app, Hbs by done.
    + eapply wp_call; [by apply (safe_noexec dev); [only_auto|]| |by intros e t' [? _]].
      intros ectx t1 [Ht1 _].
      eapply wp_call; [apply wp_and; [by apply (safe_noexec dev); [only_auto|]|
        apply (wp_flag_trace key_added), flag_UnsealBlob]| |by intros e t' [[? _] _]].
      intros st t2 [[Ht2 _] Hst]. apply safe_finish; [done|done| |done]. intros ->. by apply Hst.
  - intros st t1 [Ht1 Hst]. apply wp_sys_. intros r _. cbn [wp]. unfold upd_trace. split_and!.
    + by apply guarded_snoc.
    + intros E. by rewrite existsb_app, Hst.
    + by eexists _, _.
  - by intros e t1 [? _].
Qed.

(** C19: In every run of cominitTpmProtectData a helper program is executed only after the secure
    storage key was added to the user keyring, and it is then the luksOpen command on the given device;
    luksFormat, the token command and mkfs, which destroy or change the volume, are executed only if the
    blob partition had no sealed blob. The state Unsealed implies that the key is in the keyring, and
    the blob partition is unmounted as the last step. *)
Theorem secure_storage_guarded o c a :
  let '(out, t) := run o [] (cominitTpmProtectData c a) in
  guarded (exec_guard (cstr (devNodeCrypt a))) t ∧
  match out with
  | Done st => (st = Unsealed → existsb key_added t = true) ∧
               ∃ t' r, t = t' ++ [Event (Umount COMINIT_TPM_MNT_PT) r]
  | Ended _ => True
  end.
Proof.
  pose proof (wp_run_trace _ _ o (wp_ProtectData c a)) as Hw. by destruct (run _ _ _) as [out t].
Qed.
End Tpm.
