(* ===== verification/Keystore.v ===== *)
(** * Keystore: the components that meet in the kernel keyring

    The kernel keyring as a state machine: what is stored at a point of a run is
    computed from the additions before it. Against it the writers of the keyring
    (the development keys, the key the TPM unseals) and its readers (the
    dm-integrity table, the LUKS format) are composed. *)
From stdpp Require Import gmap.
From S2P Require Import Prelude CString Sys Output Common Crypto Keyring Meta MetaProofs MetaSpec.
From S2P Require Import Subprocess Securememory Tpm Footprint TpmPcr TpmProofs.

(** ** The keyring *)

Abbreviation keyring := (gmap (list byte) (list byte)).

(** [add_key] creates the key or replaces its payload. *)
Definition ring_step (s : keyring) (e : event) : keyring :=
  let '(Event c r) := e in
  match c return reply c → keyring with
  | AddKey desc key => λ r, match r with Ok _ => <[desc := key]> s | Err _ => s end
  | _ => λ _, s
  end r.
Definition ring (t : trace) : keyring := foldl ring_step ∅ t.
Lemma ring_snoc t e : ring (t ++ [e]) = ring_step (ring t) e.
Proof. unfold ring. by rewrite foldl_app. Qed.

(** Searches and reads answer from the stored keys; an addition may fail, and
    does for a payload beyond the limit of user keys. *)
Definition USER_KEY_MAX : Z := 32767.
Definition add_env (e : event) : Prop :=
  let '(Event c r) := e in
  match c return reply c → Prop with
  | AddKey _ key => λ r, r = Ok tt → (Z.of_nat (length key) <= USER_KEY_MAX)%Z
  | _ => λ _, True
  end r.
Definition store_env (kid : list byte → Z) (t : trace) (e : event) : Prop :=
  keyring_env (ring t !!.) kid e ∧ add_env e.
Class KeyStore (o : oracle) (kid : list byte → Z) : Prop := {
  store_answers : ∀ h c, store_env kid h (Event c (o h c))
}.
(** Code that adds no key leaves the keyring as it is. *)
Definition noadd (c : call) : bool := match c with AddKey _ _ => false | _ => true end.
Lemma ring_noadd t e : noadd (ev_call e) = true → ring (t ++ [e]) = ring t.
Proof. rewrite ring_snoc. by destruct e as [[] r]. Qed.
Lemma wp_frozen {A} kid (p : prog A) P t :
  only noadd p → wp upd_none (λ _, keyring_env (ring t !!.) kid) p (λ o _, P o) tt →
  wp upd_trace (store_env kid) p (λ o t', ring t' = ring t ∧ P o) t.
Proof.
  revert t. induction p as [a|c k IH|e]; simpl; intros t Hp Hw; [done| |done]. destruct Hp as [Hc Hk].
  intros r [Hr _]. assert (ring (upd_trace t (Event c r)) = ring t) as E by by apply ring_noadd.
  eapply wp_mono; [|apply IH; [apply Hk|rewrite E; by apply Hw]]. intros o t' [-> ?]. done.
Qed.

(** ** The key of the secure storage *)

Section Unsealed.
Context `{Libc} `{TpmParams} (kid : list byte → Z).

(** The TPM released [key]. *)
Definition unsealed_by (key : list byte) (e : event) : Prop :=
  let '(Event c r) := e in
  match c return reply c → Prop with EsysUnseal _ _ _ => λ r, r = (0%Z, Some key) | _ => λ _, False end r.
(** What is written to a helper program is a key the TPM released before. *)
Definition key_guard (t : trace) (e : event) : Prop :=
  match ev_call e with Write _ data => Exists (unsealed_by data) t | _ => True end.
(** The TPM releases only keys that fit the buffer of the LUKS format, as the
    ones cominit seals do. *)
Definition unseal_fits (e : event) : Prop :=
  let '(Event c r) := e in
  match c return reply c → Prop with
  | EsysUnseal _ _ _ => λ r, match r with (_, Some key) => (Z.of_nat (length key) <= COMINIT_PASSPHRASE_SIZE)%Z | _ => True end
  | _ => λ _, True
  end r.
Definition luks_env (t : trace) (e : event) : Prop := store_env kid t e ∧ unseal_fits e.
(** The keyring holds a released key for the secure storage. *)
Definition key_ready (t : trace) : Prop :=
  ∃ key, ring t !! COMINIT_TPM_SECURE_STORAGE_KEY_NAME = Some key ∧
    (Z.of_nat (length key) <= COMINIT_PASSPHRASE_SIZE)%Z ∧ Exists (unsealed_by key) t.

(** Before the first helper program: nothing written, no child. *)
Definition nochild (c : call) : bool := match c with Write _ _ | Fork => false | _ => true end.
Definition childless (t : trace) : Prop := Forall (λ e, ev_call e ≠ Fork) t.
Definition undefined {A} (o : outcome A) : Prop := ∃ u, o = Ended (Undef u).
Lemma undefined_ended {A B} e : undefined (Ended e : outcome A) → undefined (Ended e : outcome B).
Proof. intros [u [= ->]]. by eexists. Qed.
Definition early (t : trace) : Prop := guarded key_guard t ∧ childless t.
(** Undefined behaviour, if any, comes before the first child. *)
Definition key_safe {A} (o : outcome A) (t : trace) : Prop :=
  guarded key_guard t ∧ (undefined o → childless t).
Local Abbreviation safe p := (wp upd_trace luks_env p (λ o t, key_safe o t)).
Local Abbreviation safe_unseal p :=
  (wp upd_trace luks_env p (λ o t, early t ∧ (o = Done Unsealed → key_ready t))).

Lemma early_snoc t e : nochild (ev_call e) = true → early t → early (t ++ [e]).
Proof.
  intros He [Ht Hc]. destruct e as [c r]. split.
  - apply guarded_snoc; [done|]. unfold key_guard. by destruct c.
  - apply Forall_app. split; [done|]. apply Forall_singleton. by destruct c.
Qed.
Lemma early_app t u : early t → Forall (λ e, nochild (ev_call e) = true) u → early (t ++ u).
Proof.
  intros Ht Hu. revert t Ht. induction Hu as [|e u He _ IH]; intros t Ht; [by rewrite app_nil_r|].
  rewrite cons_middle, app_assoc. by apply IH, early_snoc.
Qed.
Lemma early_only {A} (p : prog A) t : only nochild p → early t → wp upd_trace luks_env p (λ _ t, early t) t.
Proof.
  intros Hp Ht. eapply wp_env; [|by apply wp_only|]; [done|]. intros o t' (u & -> & Hu). by apply early_app.
Qed.
Lemma early_safe {A} (o : outcome A) t : early t → key_safe o t.
Proof. by intros [? ?]. Qed.
Lemma keysafe_bind {A B} (p : prog A) (f : A → prog B) Q t :
  only nochild p → early t →
  (∀ a t', early t' → wp upd_trace luks_env (f a) Q t') →
  (∀ e t', early t' → Q (Ended e) t') →
  wp upd_trace luks_env (bind p f) Q t.
Proof. intros Hp Ht Hf HQ. eapply wp_call; [by apply early_only|done|done]. Qed.
(** Code that is always defined, whatever was done before. *)
Lemma keysafe_defined {A} (p : prog A) t :
  only (λ c, match c with Write _ _ => false | _ => true end) p → yields p (λ o, ¬ undefined o) →
  guarded key_guard t → wp upd_trace luks_env p (λ o t, guarded key_guard t ∧ ¬ undefined o) t.
Proof.
  intros Hp Hd Ht. eapply wp_env; [|apply wp_and; [by apply wp_only|by apply wp_yields]|]; [done|].
  intros o t' [(u & -> & Hu) ?]. split; [|done]. apply guarded_app; [done|].
  eapply Forall_impl; [exact Hu|]. intros [c r] Hc t0. unfold key_guard. by destruct c.
Qed.

(** Calls after the key was stored keep it. *)
Definition keeps (c : call) : bool := match c with AddKey _ _ | Write _ _ => false | _ => true end.
Lemma ready_snoc t e : keeps (ev_call e) = true → key_ready t → key_ready (t ++ [e]).
Proof.
  intros He (key & Hr & Hl & Hx). exists key. rewrite ring_noadd by (by destruct e as [[] r]).
  split; [done|]. split; [done|]. apply Exists_app. by left.
Qed.

Lemma unseal_ready e b x t : early t → safe_unseal (cominitSecurememoryEsysUnseal e b x) t.
Proof.
  intros Ht. unfold cominitSecurememoryEsysUnseal, cominitKeyringAddUserKey, cominitSecurememoryZeroOut,
    cominitSecurememoryVerifyZero.
  repeat (wp_step; cbv beta zeta).
  all: split; [repeat (apply early_snoc; [done|]); exact Ht|intros E; try done].
  all: try (by case_bool_decide).
  all: repeat (apply ready_snoc; [done|]); eexists; unfold upd_trace; rewrite ring_snoc; cbn [ring_step].
  all: repeat match goal with u : unit |- _ => destruct u end.
  all: rewrite lookup_insert_eq; split; [reflexivity|split; [by match goal with Ha : luks_env _ (Event (EsysUnseal _ _ _) _) |- _ => apply Ha end|]].
  all: rewrite !Exists_app; left; left; right; constructor; cbn [unsealed_by].
  all: match goal with Hz : bool_decide (?z ≠ 0%Z) = false |- _ =>
         apply bool_decide_eq_false in Hz; f_equal; lia end.
Qed.
#[local] Hint Resolve fp_SelectPcr fp_readPtr fp_LoadPrimary fp_LoadBlob fp_SealBlob fp_SetupBlob fp_UnmountBlob
  : footprint.
Lemma ready_Unseal e h pub priv a t : early t → safe_unseal (cominitTpmUnseal e h pub priv a) t.
Proof.
  intros Ht. unfold cominitTpmUnseal. apply wp_sys. intros [rc bh] _. cbv zeta.
  set (t1 := upd_trace _ _). assert (early t1) as Ht1 by by apply early_snoc. clearbody t1.
  eapply (wp_call _ _ _ _ (λ o t, early t ∧ ∀ x, o = Done (Unsealed, x) → key_ready t)).
  - case_bool_decide; [by split|]. apply wp_sys. intros [rc' x] _. cbv zeta.
    set (t2 := upd_trace _ _). assert (early t2) as Ht2 by by apply early_snoc. clearbody t2.
    case_bool_decide; [by split|].
    apply keysafe_bind; [only_auto|done| |by intros; split]. intros sel t3 Ht3. apply wp_sys. intros r _.
    set (t4 := upd_trace _ _). assert (early t4) as Ht4 by by apply early_snoc. clearbody t4.
    case_bool_decide; [by split|]. eapply wp_call; [by apply unseal_ready| |by intros ? ? [? _]].
    intros st t5 [? Hst]. split; [done|]. intros y [= -> _]. by apply Hst.
  - intros [st x] t2 [Ht2 Hst]. do 2 (apply wp_sys_; intros ? _). cbn [wp]. split.
    + by do 2 (apply early_snoc; [done|]).
    + intros [= ->]. do 2 (apply ready_snoc; [done|]). by eapply Hst.
  - by intros ? ? [? _].
Qed.
Lemma ready_UnsealBlob e a t : early t → safe_unseal (cominitTpmUnsealBlob e a) t.
Proof.
  intros Ht. unfold cominitTpmUnsealBlob. apply keysafe_bind; [only_auto|done| |by intros; split].
  intros [r h] t1 Ht1. case_bool_decide; [by split|]. apply keysafe_bind; [only_auto|done| |by intros; split].
  intros [r' [pub priv]] t2 Ht2. case_bool_decide; [by split|]. by apply ready_Unseal.
Qed.

(** The key that is read for the LUKS format is the stored one. *)
Lemma wp_GetKey_store buf n desc key t (Q : outcome (Z * option (list byte)) → trace → Prop) :
  strnlen desc (Z.to_nat 4095) < Z.to_nat 4095 → ring t !! desc = Some key →
  (∀ t', guarded key_guard t' → Exists (unsealed_by key) t' →
     Q (Done (Z.of_nat (length key), Some (overwrite buf (take (Z.to_nat n) key)))) t') →
  guarded key_guard t → Exists (unsealed_by key) t →
  wp upd_trace luks_env (cominitKeyringGetKey (Some buf) n (Some desc)) Q t.
Proof.
  intros Hd Hr HQ Ht Hx. unfold cominitKeyringGetKey. rewrite bool_decide_false by lia.
  apply wp_sys. intros r [[Hs _] _]. cbn in Hs. rewrite Hr in Hs. subst r.
  apply wp_sys. intros r [[Hs _] _]. cbn in Hs. unfold upd_trace in Hs. rewrite ring_noadd in Hs by done.
  rewrite (Hs _ _ eq_refl Hr). cbn [wp]. apply HQ.
  - by do 2 (apply guarded_snoc; [|done]).
  - unfold upd_trace. rewrite !Exists_app. auto.
Qed.
(** The child gets the key, all of it from within the buffer. *)
Lemma keysafe_SpawnAndWrite p argv key size t :
  (0 < size <= Z.of_nat (length key))%Z → Exists (unsealed_by (take (Z.to_nat size) key)) t →
  guarded key_guard t →
  wp upd_trace luks_env (cominitSubprocessSpawnAndWrite p argv (Some key) size)
    (λ o t, guarded key_guard t ∧ ¬ undefined o) t.
Proof.
  intros Hs Hx Ht. unfold cominitSubprocessSpawnAndWrite, execOrExit, waitChild.
  destruct p as [p|], argv as [argv|]; try (split; [done|by intros []]).
  rewrite (bool_decide_false (size = _)), (bool_decide_false (size > _)%Z) by lia.
  repeat (wp_step; cbv beta zeta).
  all: split; [|by intros [? ?]].
  all: repeat (apply guarded_snoc; [|first [done|unfold key_guard; cbn [ev_call]]]); try exact Ht.
  all: unfold upd_trace; rewrite !Exists_app; by do 3 left.
Qed.
Lemma take_overwrite_fits (key : list byte) n :
  length key <= n → take (length key) (overwrite (replicate n x00) (take n key)) = key.
Proof. intros Hl. unfold overwrite. rewrite (take_ge key) by lia. apply take_app_length. Qed.
Lemma keysafe_sys {B} c (f : reply c → prog B) Q t :
  keeps c = true → key_ready t → guarded key_guard t →
  (∀ r t', key_ready t' → guarded key_guard t' → wp upd_trace luks_env (f r) Q t') →
  wp upd_trace luks_env (bind (sys c) f) Q t.
Proof.
  intros Hc Hr Ht Hf. apply wp_sys. intros r _.
  apply Hf; [by apply ready_snoc|]. apply guarded_snoc; [done|]. by destruct c.
Qed.
Lemma keysafe_CreateLuks dev t :
  key_ready t → guarded key_guard t →
  wp upd_trace luks_env (cominitSecurememoryCreateLuksVolume dev) (λ o t, guarded key_guard t ∧ ¬ undefined o) t.
Proof.
  intros Hr Ht. unfold cominitSecurememoryCreateLuksVolume.
  destruct dev as [dev|]; [|split; [done|by intros []]].
  apply keysafe_sys; [done..|]. clear t Hr Ht. intros ok t Hr Ht.
  destruct (negb ok); [split; [done|by intros []]|]. cbv zeta.
  set (n := Z.to_nat COMINIT_PASSPHRASE_SIZE).
  eapply (wp_call _ _ _ _ (λ o t, guarded key_guard t ∧ ¬ undefined o ∧ ∀ r kb, o = Done (r, kb) → length kb = n));
    [|intros [result kb] t' (Ht' & _ & Hkb)|by intros ? ? (? & Hu & _); split; [|intros Hd; eapply Hu, undefined_ended, Hd]].
  2: { specialize (Hkb _ _ eq_refl). apply keysafe_defined; [unfold cominitSecurememoryVerifyZero; only_auto| |done].
       unfold cominitSecurememoryVerifyZero, yields. rewrite (bool_decide_false (length kb < n)) by lia.
       repeat (wp_step; cbv beta zeta); by intros [? ?]. }
  apply keysafe_sys; [done..|]. clear t Hr Ht. intros r t Hr Ht.
  destruct r as [?|?].
  2: { split_and!; [done|by intros []|]. by intros ? ? [= _ <-]. }
  destruct Hr as (key & Hk & Hl & Hx). apply wp_bind.
  eapply wp_GetKey_store; [by vm_compute; lia|exact Hk| |exact Ht|exact Hx]. intros t1 Ht1 Hx1.
  cbn [from_option id]. rewrite u64_small by (unfold COMINIT_PASSPHRASE_SIZE in Hl; lia).
  set (kb := overwrite _ _).
  assert (length kb = n) as Hkb.
  { unfold kb. rewrite length_overwrite; rewrite ?length_take, length_replicate; fold n; lia. }
  case_bool_decide; [split_and!; [done|by intros []|]; by intros ? ? [= _ <-]|].
  eapply (wp_call _ _ _ _ (λ o t, guarded key_guard t ∧ ¬ undefined o)); [|intros r' t2 [Ht2 _]|].
  - unfold cominitCryptsetupCreateLuksVolume. rewrite bool_decide_false by lia.
    apply keysafe_SpawnAndWrite; [lia| |done].
    unfold kb. rewrite Nat2Z.id. fold n. by rewrite take_overwrite_fits by lia.
  - unfold cominitSecurememoryZeroOut. rewrite (bool_decide_false (n = 0)), (bool_decide_false (length kb < n)) by
      (unfold n, COMINIT_PASSPHRASE_SIZE in *; lia). cbn [bind wp]. split_and!; [done|by intros []|].
    intros r2 kb2 E. apply Done_inj, pair_eq in E as [_ <-]. cbn [default]. unfold id.
    rewrite length_overwrite; rewrite ?length_replicate; lia.
  - intros e t' [? Hu]. by split_and!; [|intros Hd; eapply Hu, undefined_ended, Hd|].
Qed.
Lemma keysafe_SetupStorage a first t :
  key_ready t → guarded key_guard t →
  wp upd_trace luks_env (cominitTpmSetupSecureStorage a first) (λ o t, guarded key_guard t ∧ ¬ undefined o) t.
Proof.
  intros Hr Ht. unfold cominitTpmSetupSecureStorage. destruct first.
  - eapply wp_call; [by apply keysafe_CreateLuks|intros r t1 [Ht1 _]|].
    2: { intros e t1 [? Hu]. by split; [|intros Hd; eapply Hu, undefined_ended, Hd]. }
    apply keysafe_defined; [| |done];
    unfold cominitCryptsetupAddToken, cominitCryptsetupOpenLuksVolume, cominitTpmFormatSecureStorage,
      cominitSubprocessSpawn, execOrExit, waitChild; [only_auto; by eexists|].
    unfold yields. repeat (wp_step; cbv beta zeta); by intros [? ?].
  - apply keysafe_defined; [| |done];
    unfold cominitCryptsetupOpenLuksVolume, cominitSubprocessSpawn, execOrExit, waitChild; [only_auto; by eexists|].
    unfold yields. repeat (wp_step; cbv beta zeta); by intros [? ?].
Qed.
Lemma keysafe_after_unseal a first (p : prog cominitTpmState_t) t :
  safe_unseal p t →
  safe (st ← p; if bool_decide (st = Unsealed) then
          r ← cominitTpmSetupSecureStorage a first;
          Ret (if bool_decide (r ≠ EXIT_SUCCESS) then TpmFailure else st)
        else Ret st) t.
Proof.
  intros Hp. eapply wp_call; [exact Hp| |by intros ? ? [? _]; apply early_safe]. intros st t1 [Ht1 Hst].
  case_bool_decide as E; [|by apply early_safe].
  eapply wp_call; [apply keysafe_SetupStorage; [by apply Hst; rewrite E|by destruct Ht1]| |].
  - intros r t2 [? _]. split; [done|by intros []].
  - intros e t2 [? Hu]. split; [done|]. intros Hd. destruct Hu. eapply undefined_ended, Hd.
Qed.
Lemma keysafe_ProtectData c a t : early t → safe (cominitTpmProtectData c a) t.
Proof.
  intros Ht. unfold cominitTpmProtectData. apply keysafe_bind; [only_auto|done| |by intros; apply early_safe].
  intros b t1 Ht1.
  eapply (wp_call _ _ _ _ (λ o t, key_safe o t)); [|intros st t2 [Ht2 _]|].
  2: { eapply wp_mono; [|apply keysafe_defined; [only_auto| |exact Ht2]].
       - intros o t' [? Hu]. by split.
       - unfold yields, cominitTpmUnmountBlob. repeat (wp_step; cbv beta zeta); by intros [? ?]. }
  2: { intros e t2 [? Hu]. split; [done|]. intros Hd. eapply Hu, undefined_ended, Hd. }
  destruct b; [..|by apply early_safe].
  - apply keysafe_bind; [only_auto|done| |by intros; apply early_safe]. intros e t2 Ht2.
    eapply wp_call; [apply wp_and; [by apply early_only; [only_auto|]|apply wp_yields, SealBlob_state]| |
      by intros ? ? [? _]; apply early_safe].
    intros st t3 [Ht3 Hst]. apply keysafe_after_unseal. case_bool_decide; [by apply ready_UnsealBlob|].
    split; [done|]. intros [= ->]. done.
  - apply keysafe_bind; [only_auto|done| |by intros; apply early_safe].
    intros e t2 Ht2. by apply keysafe_after_unseal, ready_UnsealBlob.
Qed.

(** C20: With a kernel keyring that returns what was stored last, and a TPM that releases only keys of
    at most 32 bytes, as the program seals them, every passphrase that cominitTpmProtectData writes to
    cryptsetup is, byte for byte, a key that Esys_Unseal released before in the same run; and a run that
    reaches undefined behaviour does so before any process is forked. *)
Theorem luks_key_from_tpm o c a (Ho : KeyStore o kid) (Hfit : ∀ h c, unseal_fits (Event c (o h c))) :
  let '(out, t) := run o [] (cominitTpmProtectData c a) in
  (∀ t1 fd data r t2, t = t1 ++ Event (Write fd data) r :: t2 → Exists (unsealed_by data) t1) ∧
  ((∃ u, out = Ended (Undef u)) → Forall (λ e, ev_call e ≠ Fork) t).
Proof.
  destruct Ho as [Ho].
  assert (∀ h c, luks_env (foldl upd_trace [] h) (Event c (o h c))) as Hs
    by (intros h c'; rewrite foldl_upd_trace; by split).
  pose proof (wp_run upd_trace luks_env _ _ [] o Hs [] (keysafe_ProtectData c a [] (conj (guarded_nil _) (Forall_nil_2 _)))) as Hw.
  rewrite foldl_upd_trace in Hw. destruct (run o [] _) as [out t]. cbn [fst snd app] in Hw.
  destruct Hw as [Hg Hu]. split; [|exact Hu]. intros t1 fd data r t2 ->. exact (Hg t1 _ t2 eq_refl).
Qed.
End Unsealed.

(** ** The development keys and dm-integrity *)

Section Hsm.
Context `{Libc} (kid : list byte → Z) (files : path → list byte) (fd : path → Z) (descs : list byte) (dir : path).

(** The file of a key, and the keys the files hold. *)
Definition keyfile (d : list byte) : path := take (PATH_MAX - 1) (dir ++ lit "/" ++ d ++ lit ".bin").
Lemma keyfile_eq d : take (PATH_MAX - 1) (dir ++ lit "/" ++ d ++ lit ".bin") = keyfile d.
Proof. reflexivity. Qed.
Definition hsm_keys (d : list byte) : option (list byte) :=
  if decide (d ∈ words descs) then Some (files (keyfile d)) else None.
(** The key files can be read and their keys are accepted. *)
Definition hsm_env (e : event) : Prop :=
  let '(Event c r) := e in
  match c return reply c → Prop with
  | Stat p => λ r, p ∈ map keyfile (words descs) → ∃ st, r = Ok st ∧ st_size st = Z.of_nat (length (files p))
  | Fopen p _ => λ r, p ∈ map keyfile (words descs) → r = Ok (fd p)
  | Fread h n => λ r, ∀ p, p ∈ map keyfile (words descs) → h = fd p → r = take (Z.to_nat n) (files p)
  | AddKey _ key => λ r, (Z.of_nat (length key) <= USER_KEY_MAX)%Z → r = Ok tt
  | _ => λ _, True
  end r.
Class HsmMachine (o : oracle) : Prop := {
  hsm_store :: KeyStore o kid;
  hsm_answers : ∀ h c, hsm_env (Event c (o h c));
  hsm_sizes : ∀ d, d ∈ words descs → 1 <= length (files (keyfile d)) <= Z.to_nat COMINIT_KEYRING_PAYLOAD_MAX_SIZE
}.
Local Abbreviation env := (λ t e, store_env kid t e ∧ hsm_env e).

(** The words enrolled so far are stored with the contents of their files. *)
Definition enrolled_in (l : list (list byte)) (t : trace) : Prop :=
  ∀ d, ring t !! d = if decide (d ∈ l) then Some (files (keyfile d)) else None.
Lemma enrolled_noadd l t e : noadd (ev_call e) = true → enrolled_in l t → enrolled_in l (t ++ [e]).
Proof. intros He Hl d. by rewrite ring_noadd. Qed.
Lemma enrolled_add l t d : enrolled_in l t →
  enrolled_in (l ++ [d]) (t ++ [Event (AddKey d (files (keyfile d))) (Ok tt)]).
Proof.
  intros Hl d'. rewrite ring_snoc. cbn [ring_step]. destruct (decide (d' = d)) as [->|Hne].
  - rewrite lookup_insert_eq, decide_True; [done|]. rewrite elem_of_app, list_elem_of_singleton. auto.
  - rewrite lookup_insert_ne by done. rewrite Hl.
    rewrite (decide_ext (d' ∈ l) (d' ∈ l ++ [d])); [done|].
    rewrite elem_of_app, list_elem_of_singleton. split; [by left|by intros [?|?]].
Qed.
Hypothesis Hsizes :
  ∀ d, d ∈ words descs → 1 <= length (files (keyfile d)) <= Z.to_nat COMINIT_KEYRING_PAYLOAD_MAX_SIZE.
Lemma wp_HsmLoop fuel cur st l t :
  length (pending cur st) <= fuel → words descs = l ++ pending cur st → enrolled_in l t →
  wp upd_trace env (cominitKeyringInitFakeHsm_loop fuel dir cur st)
    (λ o t', o = Done 0%Z ∧ enrolled_in (words descs) t') t.
Proof.
  revert cur st l t. induction fuel as [|fuel IH]; intros [d|] st l t Hf Hw Hl;
    [simpl in Hf; lia|simpl in *; rewrite Hw, app_nil_r; by split| |simpl in *; rewrite Hw, app_nil_r; by split].
  assert (d ∈ words descs) as Hd. { rewrite Hw, elem_of_app. right. by left. }
  assert (keyfile d ∈ map keyfile (words descs)) as Hp by by apply list_elem_of_fmap_2.
  pose proof (Hsizes d Hd) as Hs. unfold COMINIT_KEYRING_PAYLOAD_MAX_SIZE in Hs.
  cbn [cominitKeyringInitFakeHsm_loop]. cbv zeta. rewrite keyfile_eq.
  apply wp_sys. intros r [_ Hr]. destruct (Hr Hp) as (info & -> & Hsz).
  rewrite bool_decide_false by (unfold COMINIT_KEYRING_PAYLOAD_MAX_SIZE; lia).
  apply wp_sys. intros r' [_ Hr']. rewrite (Hr' Hp). apply wp_sys. intros pld [_ Hr'']. cbn in Hr''.
  rewrite (Hr'' _ Hp eq_refl), Hsz, Nat2Z.id, take_ge by lia.
  rewrite !bool_decide_false by lia. cbn [orb]. unfold cominitKeyringAddUserKey. apply wp_bind.
  apply wp_sys. intros r3 [_ Hr3]. rewrite Hr3 by (unfold USER_KEY_MAX; lia). cbn [wp]. rewrite bool_decide_false by done.
  pose proof (pending_strtok st) as Hst. destruct (strtok_r st _) as [cur' st'] eqn:E. cbn [fst snd] in Hst.
  cbn [pending] in Hw, Hf. rewrite <-Hst in Hw, Hf. apply (IH _ _ (l ++ [d])).
  - simpl in Hf. lia.
  - rewrite Hw. by rewrite <-app_assoc.
  - apply enrolled_add. by do 3 (apply enrolled_noadd; [done|]).
Qed.

Lemma keyring_env_ext keys keys' e :
  (∀ d, keys d = keys' d) → keyring_env keys kid e → keyring_env keys' kid e.
Proof.
  intros E. destruct e as [c r]. destruct c; cbn; try done; [by rewrite E|]. intros Hr d k Hd. rewrite <-E. by apply Hr.
Qed.
End Hsm.

(** Enrolment, then the table of a dm-integrity rootfs. *)
Section HsmIntegrity.
Context `{Libc}.
Definition integrity_result (keys : list byte → option (list byte)) (m : cominitRfsMetaData_t)
    (blocks blksize num : Z) (os : list iopt) (r : Z) (m' : cominitRfsMetaData_t) : Prop :=
  match option_map (integrity_table (cstr (devicePath m)) num blksize) (expand_opts keys os) with
  | Some tbl => if bool_decide (length tbl < COMINIT_DM_TABLE_SIZE_MAX)
                then r = 0%Z ∧ cstr (dmTableVerint m') = tbl ∧ dmVerintDataSizeBytes m' = u64 (blocks * blksize)
                else r = (-1)%Z
  | None => r = (-1)%Z
  end.
Lemma wp_HsmIntegrity kid files fd descs dir m blocks blksize num os after
    (text := spaced (dec blocks :: dec blksize :: dec num :: map print_opt os)) :
  (∀ d, d ∈ words descs → 1 <= length (files (keyfile dir d)) <= Z.to_nat COMINIT_KEYRING_PAYLOAD_MAX_SIZE) →
  crypt m = COMINIT_CRYPTOPT_INTEGRITY → (0 <= blocks < 2 ^ 64)%Z → (0 <= blksize < 2 ^ 64)%Z →
  (0 <= num < 2 ^ 64)%Z → os ≠ [] → Forall valid_opt os →
  wp upd_trace (λ t e, store_env kid t e ∧ hsm_env files fd descs dir e)
    (r0 ← cominitKeyringInitFakeHsm descs dir;
     '(r, m') ← cominitGenIntegrityDmTbl (Some m) (Some text) after;
     Ret (r0, r, m'))
    (λ out _, ∃ r m', out = Done (0%Z, r, Some m') ∧
       integrity_result (hsm_keys files descs dir) m blocks blksize num os r m') [].
Proof.
  intros Hsizes Hm Hb Hs Hn Hne Hos. unfold cominitKeyringInitFakeHsm. pose proof (pending_strtok descs) as Hp.
  destruct (strtok_r descs _) as [cur st]. cbn [fst snd] in Hp.
  eapply wp_call; [apply (wp_HsmLoop kid files fd descs dir Hsizes _ cur st []); [|done|]| |].
  - rewrite Hp. apply length_words.
  - by intros d.
  - intros r0 t [[= ->] Ht].
    assert (∀ d k, hsm_keys files descs dir d = Some k → 1 <= length k <= Z.to_nat COMINIT_KEYRING_PAYLOAD_MAX_SIZE) as Hk.
    { intros d k. unfold hsm_keys. destruct (decide _) as [Hd|]; [|done]. intros [= <-]. by apply Hsizes. }
    pose proof (wp_env upd_none (λ _, keyring_env (ring t !!.) kid) _ _ _ _ tt (λ _ e, keyring_env_ext kid _ _ e Ht)
      (wp_GenIntegrity upd_none (hsm_keys files descs dir) kid m blocks blksize num os after tt Hm Hb Hs Hn Hne Hos Hk)
      (λ _ _ Ho, Ho)) as Hw.
    eapply wp_call; [eapply wp_env; [by intros ? ? [? _]|apply wp_frozen; [|exact Hw]|intros o t' Ho; exact Ho]| |].
    + apply (only_mono load_call); [by intros []|apply fp_Integrity].
    + cbn. intros [r m'] t' (_ & r1 & m1 & E & _ & _ & _ & _ & Hr). apply Done_inj, pair_eq in E as [-> ->]. by exists r1, m1.
    + cbn. intros e t' (_ & r1 & m1 & E & _). done.
  - by intros e t [? _].
Qed.

(** C24: With readable key files, cominitKeyringInitFakeHsm followed by cominitGenIntegrityDmTbl puts
    the contents of the files into the table: enrolment returns 0, and the table is the reference table
    in which each key description listed for the development key store stands for the contents of its
    file and every other one is unknown. *)
Theorem hsm_keys_reach_table o kid files fd descs dir m blocks blksize num os after
    (text := spaced (dec blocks :: dec blksize :: dec num :: map print_opt os))
    (Ho : HsmMachine kid files fd descs dir o) (Hm : crypt m = COMINIT_CRYPTOPT_INTEGRITY)
    (Hblocks : (0 <= blocks < 2 ^ 64)%Z) (Hblksize : (0 <= blksize < 2 ^ 64)%Z)
    (Hnum : (0 <= num < 2 ^ 64)%Z) (Hne : os ≠ []) (Hos : Forall valid_opt os) :
  ∃ r m', (run o [] (r0 ← cominitKeyringInitFakeHsm descs dir;
                     '(r, m') ← cominitGenIntegrityDmTbl (Some m) (Some text) after;
                     Ret (r0, r, m'))).1 = Done (0%Z, r, Some m') ∧
    integrity_result (hsm_keys files descs dir) m blocks blksize num os r m'.
Proof.
  destruct Ho as [[Hstore] Hans Hsizes].
  assert (∀ h c, (λ t e, store_env kid t e ∧ hsm_env files fd descs dir e) (foldl upd_trace [] h) (Event c (o h c))) as Hs.
  { intros h c. rewrite foldl_upd_trace. by split. }
  exact (wp_run upd_trace _ _ _ [] o Hs []
    (wp_HsmIntegrity kid files fd descs dir m blocks blksize num os after Hsizes Hm Hblocks Hblksize Hnum Hne Hos)).
Qed.
End HsmIntegrity.
