(* ===== verification/TpmBoot.v ===== *)
(** * TpmBoot: the secure storage of Tpm.v in operation

    The counterpart of TpmProofs.v: the policy that protects the key is over
    exactly the requested PCRs, and on a machine with a working TPM the storage
    is set up on the first boot and opened on every later one. *)
From S2P Require Import Prelude CString Sys Output Common Crypto Keyring Subprocess Securememory Tpm.
From S2P Require Import TpmPcr Footprint TpmProofs.

Section Policy.
Context `{Libc} `{TpmParams}.

(** ** The policy *)

(** The TPM reads the first [sizeofSelect] bytes of the bitmap only, so three
    bytes name the PCRs 0 to 23. *)
Definition selected (sel : pcr_selection) (k : Z) : bool :=
  bool_decide (k < 8 * sizeofSelect sel)%Z && pcrBit (pcrSelect sel) k.
(** [sel] is over the PCRs to seal to, as far as it can name them. *)
Definition selects (a : cominitCliArgs_t) (sel : pcr_selection) : Prop :=
  ∀ k, (0 <= k)%Z → selected sel k = bool_decide (k ∈ sealed a ∧ k < 24)%Z.
Definition policy_guard (a : cominitCliArgs_t) (e : event) : Prop :=
  match ev_call e with EsysPolicyPCR _ _ sel => selects a sel | _ => True end.
(** The options hold a list of PCRs that fit the selection. *)
Definition sealable (a : cominitCliArgs_t) : Prop :=
  (0 <= pcrSealCount a <= Z.of_nat (length (pcrSeal a)))%Z ∧ Forall selectable (sealed a).

Lemma SelectPcr_selects a : sealable a →
  ∃ sel, cominitTpmSelectPcr a zero_selection = Ret sel ∧ selects a sel.
Proof.
  intros [Hcount Hsel]. destruct (SelectPcr_spec a Hcount Hsel) as (sel & E & _ & Hbits).
  eexists. split; [exact E|]. intros k Hk. unfold selected. cbn [sizeofSelect pcrSelect]. rewrite Hbits by done.
  rewrite <-bool_decide_and. apply bool_decide_ext. change (8 * 3)%Z with 24%Z. tauto.
Qed.

(** Every policy command carries [sel]. *)
Definition policy_call (sel : pcr_selection) (c : call) : bool :=
  match c with EsysPolicyPCR _ _ s => bool_decide (s = sel) | _ => true end.

Section Parts.
Context (sel : pcr_selection).
Local Abbreviation pol := (only (policy_call sel)).
Lemma pol_Spawn p argv : pol (cominitSubprocessSpawn p argv).
Proof. unfold cominitSubprocessSpawn, execOrExit, waitChild. only_auto. Qed.
Lemma pol_SpawnAndWrite p argv d n : pol (cominitSubprocessSpawnAndWrite p argv d n).
Proof. unfold cominitSubprocessSpawnAndWrite, execOrExit, waitChild. only_auto. Qed.
#[local] Hint Resolve pol_Spawn pol_SpawnAndWrite : only.
Lemma pol_CreateLuks d : pol (cominitSecurememoryCreateLuksVolume d).
Proof. unfold cominitSecurememoryCreateLuksVolume, cominitCryptsetupCreateLuksVolume. only_auto. Qed.
#[local] Hint Resolve pol_CreateLuks : only.
Lemma pol_SetupStorage a first : pol (cominitTpmSetupSecureStorage a first).
Proof.
  unfold cominitTpmSetupSecureStorage, cominitCryptsetupAddToken, cominitCryptsetupOpenLuksVolume,
    cominitTpmFormatSecureStorage. only_auto.
Qed.
#[local] Hint Resolve pol_SetupStorage : only.

(** The two users of the selection. *)
Context (a : cominitCliArgs_t) (Hsel : cominitTpmSelectPcr a zero_selection = Ret sel).
Lemma pol_PolicyPCR e s : policy_call sel (EsysPolicyPCR e s sel) = true.
Proof. by apply bool_decide_eq_true. Qed.
#[local] Hint Resolve pol_PolicyPCR : only.
Lemma pol_Seal e : pol (cominitTpmSeal e a).
Proof. unfold cominitTpmSeal, cominitTpmSavePrimaryHandle. rewrite Hsel. only_auto. Qed.
Lemma pol_Unseal e h p q : pol (cominitTpmUnseal e h p q a).
Proof. unfold cominitTpmUnseal. rewrite Hsel. only_auto. Qed.
#[local] Hint Resolve pol_Seal pol_Unseal : only.
Lemma pol_SealBlob e : pol (cominitTpmSealBlob e a).
Proof. unfold cominitTpmSealBlob, cominitTpmSaveBlob. only_auto. Qed.
Lemma pol_UnsealBlob e : pol (cominitTpmUnsealBlob e a).
Proof. unfold cominitTpmUnsealBlob, cominitTpmLoadPrimaryHandle, cominitTpmLoadBlob. only_auto. Qed.
#[local] Hint Resolve pol_SealBlob pol_UnsealBlob : only.
Lemma pol_ProtectData c : pol (cominitTpmProtectData c a).
Proof. unfold cominitTpmProtectData, cominitTpmUnmountBlob. only_auto. Qed.
End Parts.

(** C21: In every run of cominitTpmProtectData with sealed PCR indexes that fit the selection bitmap,
    every PCR policy command sent to the TPM, for sealing and for unsealing, is over exactly those PCRs
    given by the pcrSeal option that are below 24; an accepted index from 24 on is set in a byte of the
    bitmap the TPM does not read. *)
Theorem policy_over_requested_pcrs o c a (Ha : sealable a) :
  Forall (policy_guard a) (run o [] (cominitTpmProtectData c a)).2.
Proof.
  destruct (SelectPcr_selects a Ha) as (sel & Hsel & Hbits).
  apply (wp_run_trace (cominitTpmProtectData c a) (λ _ t, Forall (policy_guard a) t) o).
  eapply wp_mono; [|apply (wp_only (policy_call sel)), (pol_ProtectData sel a Hsel)].
  intros out t (t' & -> & Ht). eapply Forall_impl; [exact Ht|]. intros [cl r]. unfold policy_guard.
  destruct cl; try done. cbn. intros ->%bool_decide_eq_true. exact Hbits.
Qed.
End Policy.

(** ** A working TPM *)

(** The answers of a machine with a working TPM and keyring; [present] says
    whether the blob partition has a sealed blob. *)
Definition tpm_works `{TpmParams} (present : bool) (e : event) : Prop :=
  let '(Event c r) := e in
  match c return reply c → Prop with
  | Mkdir _ _ => λ r, r = Ok tt ∨ r = Err EEXIST
  | Mount _ _ _ _ | Mlock _ | AddKey _ _ => λ r, r = Ok tt
  | Stat _ => λ r, ∃ st, r = Ok st
  | Access _ => λ r, r = if present then Ok tt else Err ENOENT
  | Fopen _ _ => λ r, ∃ fp, r = Ok fp
  | Fread _ n => λ r, n = sizeof_TPM2B_PUBLIC ∨ n = sizeof_TPM2B_PRIVATE → Z.of_nat (length r) = n
  | Calloc _ => λ r, r = true
  | CtrDrbgSeed _ => λ r, r = 0%Z
  | CtrDrbgRandom n => λ r, r.1 = 0%Z ∧ length r.2 = n
  | KeyctlSearch _ => λ r, ∃ id, r = Ok id
  | KeyctlRead _ n => λ r, n = COMINIT_PASSPHRASE_SIZE →
      ∃ bs, r = Ok (Z.of_nat (length bs), bs) ∧ (0 < Z.of_nat (length bs) <= n)%Z
  | Pipe => λ r, ∃ fds, r = Ok fds
  | Write _ _ => λ r, ∃ n, r = Ok n
  | Fork => λ r, (0 < r)%Z
  | Waitpid _ => λ r, r = Ok (WExited 0)
  | EsysCreatePrimary _ _ | EsysStartAuthSession _ _ _ | EsysTrFromTpmPublic _ _ | EsysLoad _ _ _ _ =>
      λ r, ∃ h, r = (0%Z, Some h)
  | EsysPolicyPCR _ _ _ | EsysEvictControl _ _ _ => λ r, r = 0%Z
  | EsysPolicyGetDigest _ _ | EsysUnseal _ _ _ => λ r, ∃ bs, r = (0%Z, Some bs)
  | EsysCreate _ _ _ _ _ => λ r, ∃ blob, r = (0%Z, Some blob)
  | _ => λ _, True
  end r.
Class WorkingTpm `{TpmParams} (o : oracle) (present : bool) : Prop := {
  tpm_answers : ∀ h c, tpm_works present (Event c (o h c))
}.

Section Unlock.
Context `{Libc} `{TpmParams}.
Local Abbreviation works b p Q := (wp upd_none (λ _, tpm_works b) p Q tt).

(** The mount point has one component. *)
Lemma works_Mkdir present mode : works present (cominitMkdir COMINIT_TPM_MNT_PT mode) (λ o _, o = Done EXIT_SUCCESS).
Proof.
  unfold cominitMkdir.
  replace (take (COMINIT_ROOTFS_DEV_PATH_MAX - 1) COMINIT_TPM_MNT_PT) with (lit "/tpm") by by vm_compute.
  replace (strtok_r (lit "/tpm") (lit "/")) with (Some (lit "tpm"), [] : list byte) by by vm_compute.
  change (length (lit "/tpm")) with 4. cbn [cominitMkdir_loop app].
  rewrite bool_decide_false by (apply (bool_decide_unpack _); by vm_compute).
  replace (strtok_r [] (lit "/")) with (None : option (list byte), [] : list byte) by by vm_compute.
  by repeat env_step.
Qed.
Lemma works_SetupBlob present a :
  isSet (devNodeBlob a) = true →
  works present (cominitTpmSetupBlob a) (λ o _, o = Done (if present then BlobExists else BlobIsEmpty)).
Proof.
  intros Ha. unfold cominitTpmSetupBlob. rewrite Ha.
  replace (dirname BLOB_PATH) with COMINIT_TPM_MNT_PT by by vm_compute.
  eapply wp_call; [apply works_Mkdir| |by intros ? ? ?]. intros r [] [= ->]. repeat env_step.
  destruct present; [done|].
  eapply wp_call; [apply works_Mkdir| |by intros ? ? ?]. intros r [] [= ->]. by repeat env_step.
Qed.

Lemma works_Spawn present p argv : works present (cominitSubprocessSpawn (Some p) (Some argv)) (λ o _, o = Done EXIT_SUCCESS).
Proof. unfold cominitSubprocessSpawn, waitChild. by repeat env_step. Qed.

Lemma works_GetKey present buf :
  works present (cominitKeyringGetKey (Some buf) COMINIT_PASSPHRASE_SIZE (Some COMINIT_TPM_SECURE_STORAGE_KEY_NAME))
    (λ o _, ∃ bs, o = Done (Z.of_nat (length bs), Some (overwrite buf bs)) ∧
       (0 < Z.of_nat (length bs) <= COMINIT_PASSPHRASE_SIZE)%Z).
Proof.
  unfold cominitKeyringGetKey. rewrite bool_decide_false by by vm_compute. env_step. apply wp_sys.
  intros r Hr. destruct (Hr eq_refl) as (bs & -> & Hlen). repeat env_step. eauto.
Qed.
Lemma works_LuksFormat present dev pass n :
  (0 < n <= Z.of_nat (length pass))%Z →
  works present (cominitCryptsetupCreateLuksVolume (Some dev) (Some pass) n) (λ o _, o = Done EXIT_SUCCESS).
Proof.
  intros Hn. unfold cominitCryptsetupCreateLuksVolume, cominitSubprocessSpawnAndWrite, waitChild.
  repeat env_step. destruct x as [rd wr]. by repeat env_step.
Qed.
Lemma ZeroOut_ok b n : n <= length b →
  ∃ r b', cominitSecurememoryZeroOut (Some b) n = Ret (r, Some b') ∧ length b' = length b.
Proof.
  intros Hn. unfold cominitSecurememoryZeroOut. case_bool_decide; [by eauto|].
  rewrite bool_decide_false by lia. eexists _, _. split; [done|].
  apply length_overwrite. by rewrite length_replicate.
Qed.
Lemma VerifyZero_ok b n : n <= length b → ∃ r, cominitSecurememoryVerifyZero (Some b) n = Ret r.
Proof.
  intros Hn. unfold cominitSecurememoryVerifyZero. rewrite (bool_decide_false (_ < _)) by lia.
  repeat case_match; eauto.
Qed.
Lemma works_CreateLuks present dev :
  works present (cominitSecurememoryCreateLuksVolume (Some dev)) (λ o _, o = Done EXIT_SUCCESS).
Proof.
  unfold cominitSecurememoryCreateLuksVolume. repeat (env_step; cbn [negb]).
  set (buf := replicate _ x00).
  eapply wp_call; [apply works_GetKey| |by intros ? ? (? & ? & ?)].
  intros [len kb] [] (bs & E & Hlen). apply Done_inj, pair_eq in E as [-> ->]. cbn [default]. unfold id.
  unfold COMINIT_PASSPHRASE_SIZE in Hlen. rewrite u64_small, bool_decide_false by lia.
  assert (length (overwrite buf bs) = 32) as Hb.
  { unfold buf. rewrite length_overwrite; rewrite length_replicate; [done|]. unfold COMINIT_PASSPHRASE_SIZE. lia. }
  eapply wp_call; [apply works_LuksFormat; lia| |by intros ? ? ?]. intros r [] [= ->].
  destruct (ZeroOut_ok (overwrite buf bs) (Z.to_nat COMINIT_PASSPHRASE_SIZE)) as (r & b' & -> & Hb'); [by rewrite Hb|].
  destruct (VerifyZero_ok b' (Z.to_nat COMINIT_PASSPHRASE_SIZE)) as (r' & E); [by rewrite Hb', Hb|].
  repeat env_step. cbn [default]. unfold id. rewrite E. by repeat env_step.
Qed.
Lemma works_SetupStorage present a first :
  works present (cominitTpmSetupSecureStorage a first) (λ o _, o = Done EXIT_SUCCESS).
Proof.
  unfold cominitTpmSetupSecureStorage, cominitCryptsetupAddToken, cominitCryptsetupOpenLuksVolume,
    cominitTpmFormatSecureStorage. destruct first; [|apply works_Spawn].
  eapply wp_call; [apply works_CreateLuks| |by intros ? ? ?]. intros r [] [= ->]. env_step.
  do 2 (eapply wp_call; [apply works_Spawn| |by intros ? ? ?]; intros ? [] [= ->]; env_step).
  apply works_Spawn.
Qed.

Lemma works_EsysUnseal present ectx blob sess :
  ectx ≠ 0%Z → works present (cominitSecurememoryEsysUnseal ectx (Some blob) (Some sess)) (λ o _, o = Done Unsealed).
Proof.
  intros He. unfold cominitSecurememoryEsysUnseal, cominitKeyringAddUserKey. rewrite bool_decide_false by done.
  repeat env_step. destruct (ZeroOut_ok x (length x)) as (r & b' & -> & Hb'); [done|]. repeat env_step.
  destruct (VerifyZero_ok b' (length b')) as (r' & E); [done|].
  rewrite E. by repeat env_step.
Qed.
Lemma works_UniqueString present u : works present (cominitCryptoCreateUniqueString u) (λ o _, ∃ r, o = Done r).
Proof.
  unfold cominitCryptoCreateUniqueString. env_step. apply wp_sys. intros [line|] _; [|repeat env_step; eauto].
  apply wp_bind, wp_sys. intros [err h] _. repeat env_step. eauto.
Qed.
Lemma works_Passphrase present n :
  0 < n → works present (cominitCryptoCreatePassphrase (Some (replicate n x00)) n)
            (λ o _, ∃ p, o = Done (EXIT_SUCCESS, Some p) ∧ length p = n).
Proof.
  intros Hn. unfold cominitCryptoCreatePassphrase. repeat env_step.
  eapply wp_call; [apply works_UniqueString| |by intros ? ? []]. intros [r1 u] [] _. cbv zeta.
  env_step. env_step. apply wp_sys. intros [err bytes] [Herr Hlen]. cbn in Herr, Hlen. subst err.
  repeat env_step. eexists. split; [done|]. rewrite length_overwrite; rewrite length_replicate; lia.
Qed.
Lemma works_EsysCreate present ectx h digest :
  ectx ≠ 0%Z →
  works present (cominitSecurememoryEsysCreate ectx (Some h) (Some digest))
    (λ o _, ∃ blob, o = Done (EXIT_SUCCESS, Some blob)).
Proof.
  intros He. unfold cominitSecurememoryEsysCreate. rewrite bool_decide_false by done.
  cbv zeta. repeat (env_step; cbn [negb]).
  eapply wp_call; [apply works_Passphrase; unfold COMINIT_PASSPHRASE_SIZE; lia| |by intros ? ? (? & ? & ?)].
  intros [r p] [] (p' & E & Hp). apply Done_inj, pair_eq in E as [-> ->]. cbn [default]. unfold id.
  repeat env_step. destruct (ZeroOut_ok p' (Z.to_nat COMINIT_PASSPHRASE_SIZE)) as (r1 & b' & -> & Hb'); [by rewrite Hp|].
  repeat env_step. cbn [default]. unfold id. destruct (VerifyZero_ok b' (length b')) as (r2 & ->); [done|].
  repeat env_step. by eexists.
Qed.

Section Seal.
Context (present : bool) (a : cominitCliArgs_t) (Ha : sealable a) (ectx : Z) (He : ectx ≠ 0%Z).
Lemma works_SealBlob : works present (cominitTpmSealBlob ectx a) (λ o _, o = Done Sealed).
Proof.
  destruct (SelectPcr_selects a Ha) as (sel & Hsel & _).
  unfold cominitTpmSealBlob, cominitTpmSeal, cominitTpmSavePrimaryHandle, cominitTpmSaveBlob. rewrite Hsel.
  repeat env_step. cbn [default]. unfold id.
  eapply wp_call; [by apply works_EsysCreate| |by intros ? ? []].
  intros [r out] [] [[pub priv] E]. apply Done_inj, pair_eq in E as [-> ->]. by repeat env_step.
Qed.
Lemma works_UnsealBlob : works present (cominitTpmUnsealBlob ectx a) (λ o _, o = Done Unsealed).
Proof.
  destruct (SelectPcr_selects a Ha) as (sel & Hsel & _).
  unfold cominitTpmUnsealBlob, cominitTpmLoadPrimaryHandle, cominitTpmLoadBlob, cominitTpmUnseal. rewrite Hsel.
  repeat env_step. rewrite (bool_decide_true (Z.of_nat (length r0) = _)) by auto. repeat env_step.
  cbn [default]. unfold id.
  eapply wp_call; [by apply works_EsysUnseal| |by intros ? ? ?]. intros st [] [= ->]. by repeat env_step.
Qed.
End Seal.

Lemma works_ProtectData present a ectx tcti :
  sealable a → isSet (devNodeBlob a) = true → ectx ≠ 0%Z →
  works present (cominitTpmProtectData (TpmContext (PTo ectx) tcti) a) (λ o _, o = Done Unsealed).
Proof.
  intros Ha Hb He. unfold cominitTpmProtectData, cominitTpmUnmountBlob.
  eapply wp_call; [by apply works_SetupBlob| |by intros ? ? ?]. intros st [] [= ->].
  destruct present; cbn [esysCtx readPtr]; repeat env_step.
  2: (eapply wp_call; [by apply works_SealBlob| |by intros ? ? ?]); intros st [] [= ->]; env_step.
  all: (eapply wp_call; [by apply works_UnsealBlob| |by intros ? ? ?]); intros st [] [= ->]; env_step.
  all: eapply wp_call; [by apply works_SetupStorage| |by intros ? ? ?]; intros r [] [= ->].
  all: by repeat env_step.
Qed.

(** With a working TPM, keyring and helper programs, cominitTpmProtectData returns Unsealed with the key
    in the user keyring, both on the first boot, where the key is created, sealed and saved and the
    volume is formatted, and on later boots, where the saved blob is unsealed and the volume is opened. *)
Theorem working_tpm_unlocks_storage o present a ectx tcti
    (Ho : WorkingTpm o present) (Ha : sealable a) (Hblob : isSet (devNodeBlob a) = true) (Hctx : ectx ≠ 0%Z) :
  let '(out, t) := run o [] (cominitTpmProtectData (TpmContext (PTo ectx) tcti) a) in
  out = Done Unsealed ∧ existsb key_added t = true.
Proof.
  pose proof (wp_run upd_none (λ _, tpm_works present) _ _ tt o (λ h c, tpm_answers h c) []
    (works_ProtectData present a ectx tcti Ha Hblob Hctx)) as Hout.
  pose proof (wp_run_trace _ _ o (wp_ProtectData (TpmContext (PTo ectx) tcti) a)) as Hkey.
  destruct (run _ _ _) as [out t]. cbn [fst snd] in *. subst out. split; [done|].
  destruct Hkey as (_ & Hk & _). by apply Hk.
Qed.
End Unlock.
