(* ===== verification/TpmWorld.v ===== *)
(** * TpmWorld: a TPM, the blob partitions and the storage key as state

    Sys.v lets the environment answer the calls of the TPM code freely. Here the
    answers come from a machine with a state: PCR values, policy sessions, loaded
    objects, the blob file of every partition, the partitions mounted for it and
    the storage key in the keyring. [world_step] computes the state from the calls
    answered so far, [ideal] is the promise that answers agree with it. The machine
    may fail at any call; what it does when it succeeds follows the TPM library
    specification. A partition is identified by the device node it is mounted
    from. *)
From stdpp Require Import gmap.
From S2P Require Import Prelude CString Sys Output Common Crypto Keyring Subprocess Securememory Tpm.
From S2P Require Import TpmPcr Footprint TpmProofs TpmBoot.

(** ** State *)

(** A sealed object: public area, authorization value and data. *)
Record sealed_object := SealedObject { ob_public : tpm_public; ob_auth : list byte; ob_data : list byte }.

(** The functions a TPM computes. [unwrap] reads the two parts of an object that
    were written by [Esys_Create]; [policy_extend] is the policy digest after
    [Esys_PolicyPCR] with a selection and the values of the selected PCRs. *)
Class TpmModel := {
  unwrap : list byte * list byte → option sealed_object;
  policy_extend : list byte → pcr_selection → list (list byte) → list byte;
  pcr_extend : list byte → list byte → list byte;
  sha256 : list byte → list byte;
  ESYS_TR_PASSWORD : Z
}.
(** The digest a policy session starts with. *)
Definition policy0 : list byte := replicate SHA256_LEN x00.

Record world := World {
  pcrs : Z → list byte;
  sessions : gmap Z (session_type * list byte);
  objects : gmap Z sealed_object;
  parents : gset Z;                    (* handles of the primary key *)
  blobs : gmap path (list byte);       (* the file sealed.blob of the partitions *)
  mounts : list path;                  (* what is mounted on /tpm, last first *)
  streams : gmap Z (path * nat);       (* streams open on a blob file, with their positions *)
  storage_key : option (list byte);
  drawn : list (nat * list byte)       (* random numbers asked for and got *)
}.
Definition set_pcrs (w : world) v :=
  World v (sessions w) (objects w) (parents w) (blobs w) (mounts w) (streams w) (storage_key w) (drawn w).
Definition set_handles (w : world) ss obs ps :=
  World (pcrs w) ss obs ps (blobs w) (mounts w) (streams w) (storage_key w) (drawn w).
Definition set_files (w : world) b s :=
  World (pcrs w) (sessions w) (objects w) (parents w) b (mounts w) s (storage_key w) (drawn w).
Definition set_mounts (w : world) v :=
  World (pcrs w) (sessions w) (objects w) (parents w) (blobs w) v (streams w) (storage_key w) (drawn w).
Definition set_key (w : world) v :=
  World (pcrs w) (sessions w) (objects w) (parents w) (blobs w) (mounts w) (streams w) v (drawn w).
Definition set_drawn (w : world) v :=
  World (pcrs w) (sessions w) (objects w) (parents w) (blobs w) (mounts w) (streams w) (storage_key w) v.
(** The partition that the path of the blob file leads to. *)
Definition mounted (w : world) : option path := head (mounts w).

(** The values of the selected PCRs, in order. *)
Definition selected_values (vals : Z → list byte) (sel : pcr_selection) : list (list byte) :=
  map vals (filter (λ k, selected sel k = true) (seqZ 0 24)).
Definition write_at (pos : nat) (data b : list byte) : list byte :=
  take pos b ++ data ++ drop (pos + length data) b.

Section Step.
Context `{TpmParams} `{TpmModel}.

(** Opening the blob file when nothing is mounted gives a file of the initramfs,
    which is not followed. The primary key is derived from its template: every
    primary key the TPM creates and the persistent one are the same parent. *)
Definition world_step (w : world) (e : event) : world :=
  let '(Event c r) := e in
  match c return reply c → world with
  | Mount src tgt _ _ => λ r, match r with
      | Ok _ => if decide (tgt = COMINIT_TPM_MNT_PT) then set_mounts w (src :: mounts w) else w
      | Err _ => w end
  | Umount p => λ r, match r with
      | Ok _ => if decide (p = COMINIT_TPM_MNT_PT) then set_mounts w (tail (mounts w)) else w
      | Err _ => w end
  | Fopen p mode => λ r, match r, mounted w with
      | Ok h, Some dev =>
          if decide (p = BLOB_PATH)
          then set_files w (if decide (mode = lit "wb") then <[dev := []]> (blobs w) else blobs w)
                 (<[h := (dev, 0)]> (streams w))
          else set_files w (blobs w) (delete h (streams w))
      | Ok h, None => set_files w (blobs w) (delete h (streams w))
      | Err _, _ => w end
  | Fwrite h data => λ n, match streams w !! h with
      | Some (dev, pos) =>
          let data := take (Z.to_nat n) data in
          set_files w (alter (write_at pos data) dev (blobs w)) (<[h := (dev, pos + length data)]> (streams w))
      | None => w end
  | Fread h _ => λ r, match streams w !! h with
      | Some (dev, pos) => set_files w (blobs w) (<[h := (dev, pos + length r)]> (streams w))
      | None => w end
  | Fclose h => λ _, set_files w (blobs w) (delete h (streams w))
  | AddKey desc key => λ r, match r with
      | Ok _ => if decide (desc = COMINIT_TPM_SECURE_STORAGE_KEY_NAME) then set_key w (Some key) else w
      | Err _ => w end
  | CtrDrbgRandom n => λ r, if decide (r.1 = 0)%Z then set_drawn w ((n, r.2) :: drawn w) else w
  | EsysPcrExtend _ pcr _ digest => λ rc,
      if decide (rc = 0)%Z then
        let k := (pcr - ESYS_TR_PCR0)%Z in
        set_pcrs w (λ j, if decide (j = k) then pcr_extend (pcrs w j) digest else pcrs w j)
      else w
  | EsysCreatePrimary _ _ => λ r, match r with
      | (0%Z, Some h) => set_handles w (sessions w) (objects w) ({[h]} ∪ parents w)
      | _ => w end
  | EsysTrFromTpmPublic _ _ => λ r, match r with
      | (0%Z, Some h) => set_handles w (sessions w) (objects w) ({[h]} ∪ parents w)
      | _ => w end
  | EsysStartAuthSession _ ty _ => λ r, match r with
      | (0%Z, Some h) => set_handles w (<[h := (ty, policy0)]> (sessions w)) (objects w) (parents w)
      | _ => w end
  | EsysPolicyPCR _ s sel => λ rc,
      if decide (rc = 0)%Z then
        set_handles w
          (alter (λ '(ty, d), (ty, policy_extend d sel (selected_values (pcrs w) sel))) s (sessions w)) (objects w) (parents w)
      else w
  | EsysLoad _ _ priv pub => λ r, match r, unwrap (pub, priv) with
      | (0%Z, Some h), Some ob => set_handles w (sessions w) (<[h := ob]> (objects w)) (parents w)
      | _, _ => w end
  | EsysFlushContext _ h => λ _, set_handles w (delete h (sessions w)) (delete h (objects w)) (parents w ∖ {[h]})
  | _ => λ _, w
  end r.

(** [Esys_Unseal] is a USER role command: a policy session whose digest is the
    policy of the object authorises it, and, for an object with the attribute
    userWithAuth, also a password session with the authorization value, which
    [ESYS_TR_PASSWORD] stands for and is empty unless it was set. *)
Definition authorised (w : world) (ob : sealed_object) (sess : Z) : bool :=
  bool_decide (sessions w !! sess = Some (TPM2_SE_POLICY, authPolicy (ob_public ob))) ||
  bool_decide (sess = ESYS_TR_PASSWORD) &&
  bool_decide (TPMA_OBJECT_USERWITHAUTH ∈ objectAttributes (ob_public ob)) && bool_decide (ob_auth ob = []).

(** The two parts of [ob] as they are stored. *)
Definition packs (ob : sealed_object) (pub priv : list byte) : Prop :=
  unwrap (pub, priv) = Some ob ∧
  Z.of_nat (length pub) = sizeof_TPM2B_PUBLIC ∧ Z.of_nat (length priv) = sizeof_TPM2B_PRIVATE.

(** [rk] is the public key in the rootfs key file, in DER form. *)
Definition ideal (rk : list byte) (w : world) (e : event) : Prop :=
  let '(Event c r) := e in
  match c return reply c → Prop with
  | PkWritePubkeyDer n => λ r, (0 < r.1)%Z → drop (n - Z.to_nat r.1) r.2 = rk
  | Sha256 data => λ r, r.1 = 0%Z → r.2 = sha256 data ∧ length r.2 = SHA256_LEN
  | Access p => λ r, p = BLOB_PATH → ∀ dev, mounted w = Some dev →
      match r with Ok _ => blobs w !! dev ≠ None | Err ENOENT => blobs w !! dev = None | Err _ => True end
  | Fopen p mode => λ r, p = BLOB_PATH → mode ≠ lit "wb" → ∀ dev, mounted w = Some dev → blobs w !! dev = None → ∃ e, r = Err e
  | Fread h n => λ r, ∀ dev pos b, streams w !! h = Some (dev, pos) → blobs w !! dev = Some b →
      r = take (Z.to_nat n) (drop pos b)
  | EsysStartAuthSession _ _ _ => λ r, r.1 = 0%Z → ∃ h, r.2 = Some h ∧ h ≠ ESYS_TR_PASSWORD
  | EsysPolicyGetDigest _ s => λ r, r.1 = 0%Z → ∃ ty d, sessions w !! s = Some (ty, d) ∧ r.2 = Some d
  | EsysCreate _ parent auth data inPublic => λ r, match r with
      | (0%Z, out) => parent ∈ parents w ∧ ∃ pub priv, out = Some (pub, priv) ∧ packs (SealedObject inPublic auth data) pub priv
      | (_, out) => out = None end
  | EsysLoad _ parent priv pub => λ r, r.1 = 0%Z → parent ∈ parents w ∧ ∃ h ob, r.2 = Some h ∧ unwrap (pub, priv) = Some ob
  | EsysUnseal _ h s => λ r, r.1 = 0%Z →
      ∃ ob, objects w !! h = Some ob ∧ authorised w ob s = true ∧ r.2 = Some (ob_data ob)
  | _ => λ _, True
  end r.

(** ** Rules *)

(** Calls that touch neither the TPM's state nor the mounts nor the blob files nor
    the key; other files may be opened. *)
Definition calm_call (c : call) : bool :=
  match c with
  | Fopen p _ => bool_decide (p ≠ BLOB_PATH)
  | Mount _ _ _ _ | Umount _ | Fwrite _ _ | Fread _ _ | AddKey _ _ | EsysPcrExtend _ _ _ _ | EsysCreatePrimary _ _
  | EsysTrFromTpmPublic _ _ | EsysStartAuthSession _ _ _ | EsysPolicyPCR _ _ _ | EsysLoad _ _ _ _ | EsysFlushContext _ _ => false
  | _ => true
  end.
(** The same world but for open streams and random numbers drawn. *)
Definition calm (w w' : world) : Prop :=
  set_drawn (set_files w' (blobs w') (streams w)) (drawn w) = w.
Lemma calm_refl w : calm w w.
Proof. by destruct w. Qed.
Lemma calm_parents w w' : calm w w' → parents w' = parents w.
Proof. by intros <-. Qed.
Lemma calm_trans w1 w2 w3 : calm w1 w2 → calm w2 w3 → calm w1 w3.
Proof. unfold calm. intros <- <-. by destruct w3. Qed.
Lemma calm_step w c r : calm_call c = true → calm w (world_step w (Event c r)).
Proof.
  destruct c; try done; intros Hc; cbn [world_step]; try apply calm_refl; try by destruct w.
  - destruct r as [h|]; [|apply calm_refl]. apply bool_decide_eq_true in Hc.
    destruct (mounted w); [rewrite decide_False by done|]; by destruct w.
  - case_decide; [by destruct w|apply calm_refl].
Qed.
Context (rk : list byte).
Local Abbreviation in_world p Q := (wp world_step (ideal rk) p Q).
Lemma wp_calm {A} (p : prog A) w : only calm_call p → in_world p (λ _ w', calm w w') w.
Proof.
  intros Hp. enough (∀ w0, calm w0 w → in_world p (λ _ w', calm w0 w') w) by auto using calm_refl.
  revert w. induction p as [a|c k IH|e]; intros w w0 Hw; simpl; [done| |done]. destruct Hp as [Hc Hk].
  intros r _. apply IH; [done|]. eapply calm_trans; [done|]. by apply calm_step.
Qed.
Lemma wp_calm_call {A B} (p : prog A) (f : A → prog B) Q w :
  only calm_call p → (∀ a w', calm w w' → in_world (f a) Q w') → (∀ e w', calm w w' → Q (Ended e) w') →
  in_world (bind p f) Q w.
Proof. intros Hp Hf He. eapply wp_call; [by apply wp_calm|done|done]. Qed.
End Step.

Section Parts.
Context `{Libc} `{TpmParams} `{TpmModel} (rk : list byte).
Local Abbreviation in_world p Q := (wp world_step (ideal rk) p Q).

(** The selection made from the options, and the policy it gives. *)
Definition sel_of (a : cominitCliArgs_t) : pcr_selection :=
  match cominitTpmSelectPcr a zero_selection with Ret sel => sel | _ => zero_selection end.
Definition policy_of (a : cominitCliArgs_t) (vals : Z → list byte) : list byte :=
  policy_extend policy0 (sel_of a) (selected_values vals (sel_of a)).
Lemma sel_of_eq a : sealable a → cominitTpmSelectPcr a zero_selection = Ret (sel_of a).
Proof. intros Ha. unfold sel_of. by destruct (SelectPcr_selects a Ha) as (sel & -> & _). Qed.

(** The passphrase is created without touching the blob file. *)
Lemma calm_UniqueString u : only calm_call (cominitCryptoCreateUniqueString u).
Proof.
  unfold cominitCryptoCreateUniqueString. apply only_bind; [apply only_sys; by vm_compute|intros ?]. only_auto.
Qed.
#[local] Hint Resolve calm_UniqueString : only.
Lemma calm_Passphrase p n : only calm_call (cominitCryptoCreatePassphrase p n).
Proof. unfold cominitCryptoCreatePassphrase. only_auto. Qed.
#[local] Hint Resolve calm_Passphrase : only.
Lemma calm_ZeroOut b n : only calm_call (cominitSecurememoryZeroOut b n).
Proof. unfold cominitSecurememoryZeroOut. only_auto. Qed.
Lemma calm_VerifyZero b n : only calm_call (cominitSecurememoryVerifyZero b n).
Proof. unfold cominitSecurememoryVerifyZero. only_auto. Qed.
#[local] Hint Resolve calm_ZeroOut calm_VerifyZero : only.
Lemma calm_EsysCreate ectx h d : only calm_call (cominitSecurememoryEsysCreate ectx h d).
Proof. unfold cominitSecurememoryEsysCreate. only_auto. Qed.

(** What [cominitSecurememoryEsysCreate] returns is an object with the template
    of the blob, an empty authorization value and the digest as its policy. *)
Definition fresh_object (d : list byte) (out : option (list byte * list byte)) : Prop :=
  match out with Some (pub, priv) => ∃ key, packs (SealedObject (blobPublic d) [] key) pub priv | None => True end.
Definition created_object (d : list byte) (o : outcome (Z * option (list byte * list byte))) : Prop :=
  match o with Done (_, out) => fresh_object d out | Ended _ => True end.
Lemma EsysCreate_object ectx h d w :
  in_world (cominitSecurememoryEsysCreate ectx (Some h) (Some d)) (λ o _, created_object d o) w.
Proof.
  unfold cominitSecurememoryEsysCreate.
  assert (∀ (r : Z) out w, fresh_object d out →
    in_world (sys_ (EsysFree []);; sys_ (EsysFree []);; sys_ (EsysFree []);; Ret (r, out)) (λ o _, created_object d o) w)
    as Hfree by (intros; do 3 (apply wp_sys_; intros ? _); done).
  destruct (bool_decide (ectx = 0)%Z); [by apply Hfree|]. apply wp_sys. intros ok _. cbv zeta.
  destruct (negb ok); [by apply Hfree|].
  eapply (wp_call _ _ _ _ (λ o _, match o with Done (_, out, _) => fresh_object d out | Ended _ => True end)).
  - apply wp_sys. intros [?|?] _; [|done]. apply wp_calm_call; [only_auto| |done].
    intros [r p] w' _. case_bool_decide; [done|]. apply wp_sys. intros [rc out] Hr. cbn in Hr.
    apply wp_calm_call; [only_auto| |done]. intros [? ?] ? _. cbn [wp].
    destruct rc; [destruct Hr as (_ & pub & priv & -> & Hp); by eexists|by rewrite Hr..].
  - intros [[r out] key] w' Hout. apply wp_calm_call; [only_auto| |done]. intros ? ? _.
    do 2 (apply wp_sys_; intros ? _). by apply Hfree.
  - done.
Qed.

(** ** Sealing *)

(** PCRs, blob files and key as before; sessions and objects come and go. *)
Definition same (w w' : world) : Prop := pcrs w' = pcrs w ∧ blobs w' = blobs w ∧ storage_key w' = storage_key w.
Definition same_call (c : call) : bool :=
  match c with
  | Fopen p mode => bool_decide (p ≠ BLOB_PATH ∨ mode ≠ lit "wb")
  | Fwrite _ _ | AddKey _ _ | EsysPcrExtend _ _ _ _ => false
  | _ => true
  end.
Lemma same_step w c r : same_call c = true → same w (world_step w (Event c r)).
Proof.
  destruct c; try done; intros Hc; cbn [world_step]; unfold same; try by repeat case_match.
  destruct r; [|done]. destruct (mounted w); [|done]. case_decide; [|done].
  apply bool_decide_eq_true in Hc. rewrite decide_False by tauto; done.
Qed.
Lemma same_trans w1 w2 w3 : same w1 w2 → same w2 w3 → same w1 w3.
Proof. unfold same. intros (?&?&?) (?&?&?). split_and!; congruence. Qed.
Lemma wp_same {A} (p : prog A) w0 w : only same_call p → same w0 w → in_world p (λ _ w', same w0 w') w.
Proof.
  revert w. induction p as [a|c k IH|e]; intros w Hp Hw; simpl; [done| |done]. destruct Hp as [Hc Hk].
  intros r _. apply IH; [done|]. eapply same_trans; [done|]. by apply same_step.
Qed.
Lemma wp_same_call {A B} (p : prog A) (f : A → prog B) Q w0 w :
  only same_call p → same w0 w → (∀ a w', same w0 w' → in_world (f a) Q w') →
  (∀ e w', same w0 w' → Q (Ended e) w') → in_world (bind p f) Q w.
Proof. intros Hp Hw Hf He. eapply wp_call; [by apply wp_same|done|done]. Qed.

(** The mounts as before too. *)
Definition kept (w w' : world) : Prop := same w w' ∧ mounts w' = mounts w.
Definition kept_call (c : call) : bool :=
  same_call c && match c with Mount _ _ _ _ | Umount _ => false | _ => true end.
Lemma kept_same w w' : kept w w' → same w w'.
Proof. by intros []. Qed.
Lemma kept_mounted w w' dev : kept w w' → mounted w = Some dev → mounted w' = Some dev.
Proof. unfold mounted. by intros [_ ->]. Qed.
Lemma kept_refl w : kept w w.
Proof. done. Qed.
Lemma kept_step w c r : kept_call c = true → kept w (world_step w (Event c r)).
Proof.
  unfold kept_call. rewrite andb_true_iff. intros [Hs Hm]. split; [by apply same_step|].
  destruct c; try done; cbn [world_step]; by repeat case_match.
Qed.
Lemma kept_trans w1 w2 w3 : kept w1 w2 → kept w2 w3 → kept w1 w3.
Proof. intros [? ?] [? ?]. split; [by eapply same_trans|congruence]. Qed.
Lemma wp_kept {A} (p : prog A) w0 w : only kept_call p → kept w0 w → in_world p (λ _ w', kept w0 w') w.
Proof.
  revert w. induction p as [a|c k IH|e]; intros w Hp Hw; simpl; [done| |done]. destruct Hp as [Hc Hk].
  intros r _. apply IH; [done|]. eapply kept_trans; [done|]. by apply kept_step.
Qed.
Lemma wp_kept_call {A B} (p : prog A) (f : A → prog B) Q w0 w :
  only kept_call p → kept w0 w → (∀ a w', kept w0 w' → in_world (f a) Q w') →
  (∀ e w', kept w0 w' → Q (Ended e) w') → in_world (bind p f) Q w.
Proof. intros Hp Hw Hf He. eapply wp_call; [by apply wp_kept|done|done]. Qed.
Lemma kept_mono {A} (p : prog A) : only calm_call p → only kept_call p.
Proof.
  apply only_mono. intros []; try done. intros Hp%bool_decide_eq_true. unfold kept_call. cbn. rewrite andb_true_r.
  apply bool_decide_eq_true. by left.
Qed.

(** The policy digest a session reaches. *)
Lemma session_policy w ectx s ty psel :
  sessions w !! s = Some (ty, policy0) →
  sessions (world_step w (Event (EsysPolicyPCR ectx s psel) 0%Z)) !! s =
    Some (ty, policy_extend policy0 psel (selected_values (pcrs w) psel)).
Proof. intros Hs. cbn [world_step]. rewrite decide_True by done. cbn [sessions set_handles]. by rewrite lookup_alter_eq, Hs. Qed.

Section Options.
Context (a : cominitCliArgs_t) (Ha : sealable a).

Lemma Seal_object ectx w :
  in_world (cominitTpmSeal ectx a) (λ o _, created_object (policy_of a (pcrs w)) o) w.
Proof.
  unfold cominitTpmSeal, cominitTpmSavePrimaryHandle. rewrite (sel_of_eq a Ha).
  apply wp_sys. intros [rc ph] _. cbv zeta. set (w1 := world_step w _).
  assert (pcrs w1 = pcrs w) as <- by by apply (kept_step w). clearbody w1. clear w. rename w1 into w.
  eapply (wp_call _ _ _ _ (λ o _, match o with Done (_, out, _) => fresh_object (policy_of a (pcrs w)) out | Ended _ => True end)).
  - case_bool_decide; [done|]. apply wp_sys. intros [rc' sess] Hsess. cbn in Hsess.
    case_bool_decide as Hrc'; [done|]. subst. destruct (Hsess eq_refl) as (s & -> & _).
    rewrite bind_ret. apply wp_sys. intros rc2 _.
    case_bool_decide as Hrc2; [done|]. subst. set (w2 := world_step _ _).
    assert (sessions w2 !! s = Some (TPM2_SE_TRIAL, policy_of a (pcrs w))) as Hs.
    { apply session_policy. cbn. by rewrite lookup_insert_eq. }
    clearbody w2. apply wp_sys. intros [rc3 dig] Hd. cbn in Hd. case_bool_decide as Hrc3; [done|].
    subst. destruct (Hd eq_refl) as (ty & d & Hs' & ->).
    rewrite Hs in Hs'. injection Hs' as <- <-.
    eapply wp_call; [apply EsysCreate_object| |done]. intros [r out] w3 Hout.
    rewrite bool_decide_false by (intros Hne; by apply Hne). apply wp_bind, wp_sys. intros r' _. cbn [wp]. done.
  - intros [[r out] sess] w' Hout. destruct sess as [s|]; [|done].
    do 7 (apply wp_sys_; intros ? _). done.
  - done.
Qed.
#[local] Hint Resolve calm_EsysCreate : only.
Lemma kept_EsysCreate ectx h d : only kept_call (cominitSecurememoryEsysCreate ectx h d).
Proof. apply kept_mono, calm_EsysCreate. Qed.
#[local] Hint Resolve kept_EsysCreate : only.
Lemma kept_Seal ectx : only kept_call (cominitTpmSeal ectx a).
Proof. unfold cominitTpmSeal, cominitTpmSavePrimaryHandle. rewrite (sel_of_eq a Ha). only_auto. Qed.

(** The blob file holds [key] sealed with the policy digest [d]. *)
Definition holds (key d : list byte) (b : option (list byte)) : Prop :=
  ∃ pub priv, b = Some (pub ++ priv) ∧ packs (SealedObject (blobPublic d) [] key) pub priv.

Lemma write_end b data : write_at (length b) data b = b ++ data.
Proof. unfold write_at. rewrite take_ge, drop_ge by lia. by rewrite app_nil_r. Qed.
(** A file that does not hold two parts of the right sizes. *)
Definition unreadable (b : list byte) : Prop :=
  ∀ pub priv rest, Z.of_nat (length pub) = sizeof_TPM2B_PUBLIC → Z.of_nat (length priv) = sizeof_TPM2B_PRIVATE →
    b ≠ pub ++ priv ++ rest.
Hypothesis Hsize : (0 < sizeof_TPM2B_PUBLIC)%Z.
Lemma unreadable_empty : unreadable [].
Proof. intros [|] priv rest Hp _; [simpl in Hp; lia|done]. Qed.
Lemma unreadable_short b :
  (Z.of_nat (length b) < sizeof_TPM2B_PUBLIC + sizeof_TPM2B_PRIVATE)%Z → unreadable b.
Proof. intros Hb pub priv rest Hp Hq ->. rewrite !length_app in Hb. lia. Qed.
(** Saving fails before touching the file or writes the two parts to it, as far
    as there is room; the NULL objects of a failed creation empty it. *)
Definition other_blobs (dev : path) (w w' : world) : Prop := ∀ d, d ≠ dev → blobs w' !! d = blobs w !! d.
Lemma same_other dev w w' : same w w' → other_blobs dev w w'.
Proof. by intros (_ & E & _) d _; rewrite E. Qed.
Lemma other_trans dev w1 w2 w3 : other_blobs dev w1 w2 → other_blobs dev w2 w3 → other_blobs dev w1 w3.
Proof. intros Ha' Hb d Hd. by rewrite (Hb d Hd), (Ha' d Hd). Qed.
Context (dev : path).
Lemma SaveBlob_world out w :
  mounted w = Some dev →
  in_world (cominitTpmSaveBlob out) (λ o w', pcrs w' = pcrs w ∧ storage_key w' = storage_key w ∧ mounts w' = mounts w ∧
    other_blobs dev w w' ∧
    match out with
    | Some (pub, priv) => (∃ n m, o = Done EXIT_SUCCESS ∧ blobs w' !! dev = Some (take n pub ++ take m priv)) ∨
                          o = Done EXIT_FAILURE ∧ blobs w' !! dev = blobs w !! dev
    | None => (∀ r, o = Done r → r = EXIT_FAILURE ∧ blobs w' !! dev = blobs w !! dev) ∧
              (blobs w' !! dev = blobs w !! dev ∨ blobs w' !! dev = Some [])
    end) w.
Proof.
  intros Hdev. unfold cominitTpmSaveBlob. apply wp_sys. intros [fp|e] _.
  2: { cbn. split_and!; [done..|]. destruct out as [[pub priv]|]; [by right|]. split; [|by left]. by intros r [= <-]. }
  cbn [world_step]. rewrite Hdev, !decide_True by done.
  assert (other_blobs dev w (set_files w (<[dev:=[]]> (blobs w)) (<[fp:=(dev, 0)]> (streams w)))) as Ho1.
  { intros d Hd. cbn. by rewrite lookup_insert_ne. }
  destruct out as [[pub priv]|].
  2: { cbn. split_and!; [done..|right]. apply lookup_insert_eq. }
  apply wp_sys_. intros n _. apply wp_sys_. intros m _. apply wp_sys_. intros ? _. cbn [wp world_step].
  cbn [streams set_files]. rewrite lookup_insert_eq. cbn [streams set_files]. rewrite lookup_insert_eq. cbv zeta.
  cbn [blobs pcrs storage_key mounts set_files]. split_and!; [done..| |left].
  - intros d Hd. cbn [blobs set_files]. by rewrite !lookup_alter_ne, lookup_insert_ne.
  - exists (Z.to_nat n), (Z.to_nat m). split; [done|]. rewrite !lookup_alter_eq, lookup_insert_eq. cbn [fmap option_fmap option_map]. f_equal.
    rewrite (write_end []), app_nil_l. apply write_end.
Qed.
(** What was written is all or cannot be read. *)
Lemma written_blob d key pub priv n m :
  packs (SealedObject (blobPublic d) [] key) pub priv →
  unreadable (take n pub ++ take m priv) ∨ holds key d (Some (take n pub ++ take m priv)).
Proof.
  intros (Hu & Hp & Hq).
  destruct (decide (length pub <= n ∧ length priv <= m)) as [[Hn Hm]|Hnm].
  - right. exists pub, priv. by rewrite !take_ge.
  - left. apply unreadable_short. rewrite length_app, !length_take. lia.
Qed.

(** How sealing leaves the blob file: as it was, without success; with contents
    that cannot be read; or with a key sealed to the current PCRs. *)
Definition sealed_file (d : list byte) (b b' : option (list byte)) (fails : Prop) : Prop :=
  fails ∧ b' = b ∨ (∃ x, b' = Some x ∧ unreadable x) ∨ ∃ key, holds key d b'.
Lemma SealBlob_world ectx w :
  mounted w = Some dev →
  in_world (cominitTpmSealBlob ectx a) (λ o w', pcrs w' = pcrs w ∧ storage_key w' = storage_key w ∧ mounts w' = mounts w ∧
    other_blobs dev w w' ∧
    sealed_file (policy_of a (pcrs w)) (blobs w !! dev) (blobs w' !! dev) (o ≠ Done Sealed)) w.
Proof.
  intros Hdev. unfold cominitTpmSealBlob.
  eapply wp_call; [apply wp_and; [apply Seal_object|apply (wp_kept _ w), kept_refl; apply kept_Seal]| |].
  2: { intros e w1 [_ [(?&Eb&?) ?]]. split_and!; [done..|by apply same_other|left]. split; [done|by rewrite Eb]. }
  intros [r out] w1 [Hout Hk1]. cbn [created_object] in Hout. pose proof (kept_mounted _ _ _ Hk1 Hdev) as Hdev1.
  destruct Hk1 as [(Hp & Hb & Hk) Hm].
  eapply (wp_call _ _ _ _ (λ o w', pcrs w' = pcrs w ∧ storage_key w' = storage_key w ∧ mounts w' = mounts w ∧
    other_blobs dev w w' ∧ sealed_file (policy_of a (pcrs w)) (blobs w !! dev) (blobs w' !! dev) (o ≠ Done EXIT_SUCCESS))).
  - case_bool_decide.
    { cbn [wp]. split_and!; [done..|by apply same_other|left]. split; [congruence|by rewrite Hb]. }
    eapply wp_mono; [|by apply SaveBlob_world]. intros o w2 (Hp2 & Hk2 & Hm2 & Ho2 & Hs).
    split_and!; [congruence..|by eapply other_trans; [by apply same_other|]|].
    unfold sealed_file. rewrite <-Hb. destruct out as [[pub priv]|].
    + destruct Hs as [(n & m & -> & ->)|[-> Hs]]; [right|by left].
      destruct Hout as [key Hpk]. destruct (written_blob _ _ _ _ n m Hpk); eauto.
    + destruct Hs as [Hd [Hs|Hs]]; [left|right; left; eauto using unreadable_empty].
      split; [|done]. intros ->. by destruct (Hd _ eq_refl).
  - intros r2 w2 (Hp2 & Hk2 & Hm2 & Ho2 & Hs). do 2 (apply wp_sys_; intros ? _). cbn [wp world_step]. split_and!; [done..|].
    destruct Hs as [[Hr Hs]|Hs]; [left|by right]. split; [|done]. rewrite bool_decide_false; [done|]. by intros ->.
  - intros e w2 (?&?&?&?&[[_ ?]|?]); split_and!; try done; [by left|by right].
Qed.

(** ** Unsealing *)

(** Only the storage key changes; [P key] says which key it can become. *)
Definition key_set (P : list byte → Prop) (w : world) (o : outcome cominitTpmState_t) (w' : world) : Prop :=
  pcrs w' = pcrs w ∧ blobs w' = blobs w ∧
  (o ≠ Done Unsealed ∧ storage_key w' = storage_key w ∨
   o ≠ Done Sealed ∧ ∃ key, storage_key w' = Some key ∧ P key).
Lemma key_set_kept P w o w' : same w w' → o ≠ Done Unsealed → key_set P w o w'.
Proof. intros (?&?&?) ?. split_and!; [done|done|by left]. Qed.
Lemma key_set_then P w0 w o w' : same w0 w → key_set P w o w' → key_set P w0 o w'.
Proof. unfold key_set. intros (->&->&->). done. Qed.
Lemma key_set_kept_r P w o w' w'' : key_set P w o w' → same w' w'' → key_set P w o w''.
Proof. unfold key_set. intros Hk (->&->&->). done. Qed.
Lemma key_set_mono (P P' : list byte → Prop) w o w' : (∀ key, P key → P' key) → key_set P w o w' → key_set P' w o w'.
Proof. intros HP (?&?&[?|(?&key&?&?)]); (split; [done|split; [done|]]); [by left|right; split; [done|]; eauto]. Qed.

Lemma EsysUnseal_key ectx h s w :
  in_world (cominitSecurememoryEsysUnseal ectx (Some h) (Some s))
    (key_set (λ key, ∃ ob, objects w !! h = Some ob ∧ authorised w ob s = true ∧ key = ob_data ob) w) w.
Proof.
  unfold cominitSecurememoryEsysUnseal, cominitKeyringAddUserKey, cominitSecurememoryZeroOut, cominitSecurememoryVerifyZero.
  repeat (wp_step; cbv beta zeta).
  all: try (apply key_set_kept; [split_and!; done|by repeat case_bool_decide]).
  all: cbn [world_step]; split_and!; [done|done|right; split; [done|]].
  all: eexists; split; [reflexivity|].
  all: match goal with Hi : ideal _ _ (Event (EsysUnseal _ _ _) (?rc, Some ?k)), Hrc : bool_decide (?rc ≠ 0%Z) = false |- _ =>
         apply bool_decide_eq_false, dec_stable in Hrc; destruct (Hi Hrc) as (ob & ? & ? & [= ?]); by exists ob end.
Qed.

(** A key that is the data of the object in [pub] and [priv], released for the
    current PCR values. *)
Definition released (vals : Z → list byte) (pub priv key : list byte) : Prop :=
  ∃ ob, unwrap (pub, priv) = Some ob ∧ authPolicy (ob_public ob) = policy_of a vals ∧ key = ob_data ob.
Lemma authorised_policy w ob s d :
  s ≠ ESYS_TR_PASSWORD → sessions w !! s = Some (TPM2_SE_POLICY, d) → authorised w ob s = true → authPolicy (ob_public ob) = d.
Proof.
  unfold authorised. intros Hs ->. rewrite (bool_decide_false (s = _)) by done. cbn [andb]. rewrite orb_false_r.
  by intros [= ->]%bool_decide_eq_true.
Qed.
Lemma Unseal_key ectx ph pub priv w :
  in_world (cominitTpmUnseal ectx ph pub priv a) (key_set (released (pcrs w) pub priv) w) w.
Proof.
  unfold cominitTpmUnseal. rewrite (sel_of_eq a Ha). apply wp_sys. intros [rc bh] Hl. cbv zeta.
  set (w1 := world_step _ _). assert (same w w1) as Hk1 by by apply same_step.
  eapply (wp_call _ _ _ _ (λ o w', match o with
     | Done (st, _) => key_set (released (pcrs w) pub priv) w (Done st) w'
     | Ended e => key_set (released (pcrs w) pub priv) w (Ended e) w' end)).
  - case_bool_decide; [by apply key_set_kept|]. subst rc. destruct (Hl eq_refl) as (_ & h & ob & Eh & Hob). cbn in Eh. subst bh.
    assert (objects w1 !! h = Some ob) as Hob1.
    { unfold w1. cbn [world_step]. rewrite Hob. cbn [objects set_handles]. apply lookup_insert_eq. }
    clearbody w1. apply wp_sys. intros [rc s0] Hs.
    case_bool_decide; [by apply key_set_kept; [apply (same_trans _ w1); [|apply same_step]|]|]. subst rc.
    destruct (Hs eq_refl) as (s & Es & Hpw). cbn in Es. subst s0. cbn [default]. rewrite bind_ret. apply wp_sys. intros rc _.
    set (w2 := world_step w1 _). set (w3 := world_step w2 _).
    assert (same w w3) as Hk3.
    { apply (same_trans _ w2); [|by apply same_step]. by apply (same_trans _ w1); [|apply same_step]. }
    case_bool_decide; [by apply key_set_kept|]. subst rc.
    assert (sessions w3 !! s = Some (TPM2_SE_POLICY, policy_of a (pcrs w))) as Hs3.
    { destruct Hk1 as (<- & _). apply (session_policy w2). unfold w2. cbn. apply lookup_insert_eq. }
    assert (objects w3 !! h = Some ob) as Hob3 by done. clearbody w3.
    eapply wp_call; [apply EsysUnseal_key| |].
    all: intros st w4 Hst; cbn [wp]; eapply key_set_then; [exact Hk3|]; eapply key_set_mono; [|exact Hst].
    all: intros key (ob' & Hob' & Hauth & ->); unfold id in Hob'; rewrite Hob3 in Hob'; injection Hob' as <-.
    all: exists ob; split_and!; [done| |done]; by eapply authorised_policy.
  - intros [st s] w2 Hst. apply wp_sys_. intros ? _. apply wp_sys_. intros ? _. cbn [wp].
    do 2 (eapply key_set_kept_r; [|by apply same_step]). done.
  - done.
Qed.
Lemma LoadBlob_world w :
  mounted w = Some dev →
  in_world cominitTpmLoadBlob (λ o w', kept w w' ∧ ∀ pub priv, o = Done (EXIT_SUCCESS, (pub, priv)) →
    Z.of_nat (length pub) = sizeof_TPM2B_PUBLIC ∧ Z.of_nat (length priv) = sizeof_TPM2B_PRIVATE ∧
    ∃ rest, blobs w !! dev = Some (pub ++ priv ++ rest)) w.
Proof.
  intros Hdev. apply wp_and; [apply wp_kept; [unfold cominitTpmLoadBlob; only_auto; by vm_compute|done]|].
  unfold cominitTpmLoadBlob. apply wp_sys. intros [fp|e] Hf; [|done]. cbn in Hf.
  destruct (blobs w !! dev) as [b|] eqn:Eb; [|by destruct (Hf eq_refl ltac:(by vm_compute) dev Hdev Eb)].
  set (w1 := world_step w _). assert (streams w1 !! fp = Some (dev, 0) ∧ blobs w1 !! dev = Some b) as [Hs1 Hb1].
  { unfold w1. cbn [world_step]. rewrite Hdev, decide_True, decide_False by done. split; [apply lookup_insert_eq|done]. }
  clearbody w1. apply wp_sys. intros pub Hr. specialize (Hr _ _ _ Hs1 Hb1). rewrite drop_0 in Hr.
  set (w2 := world_step w1 _). assert (streams w2 !! fp = Some (dev, length pub) ∧ blobs w2 !! dev = Some b) as [Hs2 Hb2].
  { unfold w2. cbn [world_step]. rewrite Hs1. split; [apply lookup_insert_eq|done]. }
  clearbody w2. case_bool_decide as Hp; [|by apply wp_sys_; intros ? _]. apply wp_bind, wp_sys. intros priv Hr2.
  specialize (Hr2 _ _ _ Hs2 Hb2). apply wp_sys_. intros ? _. cbn [wp]. case_bool_decide as Hq; [|done].
  intros ? ? [= <- <-]. split_and!; [done|done|]. exists (drop (Z.to_nat sizeof_TPM2B_PRIVATE) (drop (length pub) b)).
  f_equal. rewrite Hr2 at 1. rewrite take_drop. rewrite Hr at 1. rewrite <-Hp at 1. rewrite Nat2Z.id. by rewrite take_drop.
Qed.
(** The key in the contents [b] of a blob file, for the current PCRs. *)
Definition in_blob (vals : Z → list byte) (b : option (list byte)) (key : list byte) : Prop :=
  ∃ pub priv rest, b = Some (pub ++ priv ++ rest) ∧
    Z.of_nat (length pub) = sizeof_TPM2B_PUBLIC ∧ Z.of_nat (length priv) = sizeof_TPM2B_PRIVATE ∧
    released vals pub priv key.
Lemma UnsealBlob_key ectx w :
  mounted w = Some dev →
  in_world (cominitTpmUnsealBlob ectx a) (key_set (in_blob (pcrs w) (blobs w !! dev)) w) w.
Proof.
  intros Hdev. unfold cominitTpmUnsealBlob, cominitTpmLoadPrimaryHandle.
  apply (wp_kept_call _ _ _ w); [only_auto|done| |by intros; apply key_set_kept; [apply kept_same|]].
  intros [r ph] w1 Hk1. case_bool_decide; [by apply key_set_kept; [apply kept_same|]|].
  eapply wp_call; [apply LoadBlob_world; by eapply kept_mounted| |].
  2: { intros e w2 [Hk2 _]. apply key_set_kept; [by eapply kept_same, kept_trans|done]. }
  intros [r2 [pub priv]] w2 [Hk2 Hld]. assert (same w w2) as Hk by by eapply kept_same, kept_trans.
  case_bool_decide; [by apply key_set_kept|]. subst r2. destruct (Hld _ _ eq_refl) as (Hp & Hq & rest & Hb).
  eapply wp_mono; [|apply Unseal_key]. intros o w3 Hs. eapply key_set_then; [exact Hk|]. eapply key_set_mono; [|exact Hs].
  destruct Hk as (-> & _ & _), Hk1 as [(_ & <- & _) _]. intros key Hkey. by exists pub, priv, rest.
Qed.

(** ** The whole handler *)

Lemma holds_released key d vals pub priv rest key' :
  holds key d (Some (pub ++ priv ++ rest)) →
  Z.of_nat (length pub) = sizeof_TPM2B_PUBLIC → Z.of_nat (length priv) = sizeof_TPM2B_PRIVATE →
  released vals pub priv key' → key' = key ∧ policy_of a vals = d.
Proof.
  intros (pub0 & priv0 & [= E] & Hu & Hp & Hq) Hp' Hq' (ob & Hob & Hpol & ->).
  apply app_inj_1 in E as [<- E]; [|lia]. apply (f_equal (take (length priv))) in E.
  rewrite take_app_length, take_ge in E by lia. subst priv0. rewrite Hu in Hob. by injection Hob as <-.
Qed.

Lemma kept_Spawn p argv : only kept_call (cominitSubprocessSpawn p argv).
Proof. unfold cominitSubprocessSpawn, execOrExit, waitChild. only_auto; by eexists. Qed.
Lemma kept_SpawnAndWrite p argv d n : only kept_call (cominitSubprocessSpawnAndWrite p argv d n).
Proof. unfold cominitSubprocessSpawnAndWrite, execOrExit, waitChild. only_auto; by eexists. Qed.
#[local] Hint Resolve kept_Spawn kept_SpawnAndWrite : only.
Lemma kept_CreateLuks d : only kept_call (cominitSecurememoryCreateLuksVolume d).
Proof.
  unfold cominitSecurememoryCreateLuksVolume, cominitCryptsetupCreateLuksVolume, cominitSecurememoryZeroOut,
    cominitSecurememoryVerifyZero. only_auto.
Qed.
#[local] Hint Resolve kept_CreateLuks : only.
Lemma kept_SetupStorage first : only kept_call (cominitTpmSetupSecureStorage a first).
Proof.
  unfold cominitTpmSetupSecureStorage, cominitCryptsetupAddToken, cominitCryptsetupOpenLuksVolume,
    cominitTpmFormatSecureStorage. only_auto.
Qed.
#[local] Hint Resolve kept_SetupStorage : only.
Lemma same_kept {A} (p : prog A) : only kept_call p → only same_call p.
Proof. apply only_mono. intros c. unfold kept_call. by intros [? _]%andb_true_iff. Qed.
Lemma same_SetupStorage first : only same_call (cominitTpmSetupSecureStorage a first).
Proof. apply same_kept, kept_SetupStorage. Qed.
Lemma same_SetupBlob : only same_call (cominitTpmSetupBlob a).
Proof. unfold cominitTpmSetupBlob. only_auto. Qed.
Lemma kept_Mkdir p mode : only kept_call (cominitMkdir p mode).
Proof. eapply only_mono; [|apply fp_Mkdir]. by intros []. Qed.
#[local] Hint Resolve same_SetupStorage same_SetupBlob kept_Mkdir : only.

(** The partition named by the options is reported as it is, and is the one
    mounted when the code goes on with it. *)
Hypothesis Hdev : dev = cstr (devNodeBlob a).
Lemma SetupBlob_world w :
  in_world (cominitTpmSetupBlob a) (λ o w', same w w' ∧
    match o with
    | Done BlobExists => mounted w' = Some dev ∧ blobs w !! dev ≠ None
    | Done BlobIsEmpty => mounted w' = Some dev ∧ blobs w !! dev = None
    | _ => True end) w.
Proof.
  apply wp_and; [by apply wp_same; [apply same_SetupBlob|]|].
  unfold cominitTpmSetupBlob. destruct (isSet _); [|done].
  apply (wp_same_call _ _ _ w); [apply same_kept, kept_Mkdir|done| |done]. intros r w1 Hk1. case_bool_decide; [done|].
  apply wp_sys. intros [?|?] _; [|done]. cbn [world_step]. rewrite decide_True by done. rewrite <-Hdev.
  set (w2 := set_mounts _ _). assert (mounted w2 = Some dev) as Hm by done. assert (blobs w2 = blobs w) as Hb by apply Hk1.
  clearbody w2. apply wp_sys. intros r2 Hr. specialize (Hr eq_refl _ Hm). rewrite Hb in Hr. cbn [world_step].
  destruct r2 as [?|[]]; try done. apply (wp_kept_call _ _ _ w2); [only_auto|done| |done].
  intros r3 w3 Hk3. case_bool_decide; [done|]. cbn [wp]. split; [by eapply kept_mounted|done].
Qed.

Lemma key_set_unsealed P w w1 w2 o :
  key_set P w (Done Unsealed) w1 → same w1 w2 → o ≠ Done Sealed → key_set P w o w2.
Proof. unfold key_set. intros (?&?&[[? _]|[_ Hk]]) (->&->&->) Ho; [done|]. split_and!; [done|done|by right]. Qed.
Lemma key_set_storage P (p : prog cominitTpmState_t) first w w1 :
  in_world p (key_set P w) w1 →
  in_world (st ← p; if bool_decide (st = Unsealed) then
          r ← cominitTpmSetupSecureStorage a first;
          Ret (if bool_decide (r ≠ EXIT_SUCCESS) then TpmFailure else st)
        else Ret st) (key_set P w) w1.
Proof.
  intros Hp. eapply wp_call; [exact Hp| |].
  2: { intros e w2 (?&?&[[_ ?]|[_ ?]]); split_and!; auto. }
  intros st w2 Hst. case_bool_decide; [|done]. subst st.
  apply (wp_same_call _ _ _ w2); [only_auto|done| |]; intros x w3 Hk3; [cbn [wp]|];
    eapply key_set_unsealed; [done..| |done|done|done]. by case_bool_decide.
Qed.

(** How one run changes the world: the blob files of other partitions stay. With
    no blob it may leave a fresh key sealed under the current PCR values, possibly
    in the keyring; with a blob it changes nothing but the keyring, which can get
    the key in the blob. *)
Definition protects (w : world) (o : outcome cominitTpmState_t) (w' : world) : Prop :=
  other_blobs dev w w' ∧
  match blobs w !! dev with
  | Some b => key_set (in_blob (pcrs w) (Some b)) w o w'
  | None =>
      pcrs w' = pcrs w ∧
      (storage_key w' = storage_key w ∧ o ≠ Done Unsealed ∧
         (blobs w' !! dev = None ∨ ∃ b, blobs w' !! dev = Some b ∧ unreadable b) ∨
       ∃ key, holds key (policy_of a (pcrs w)) (blobs w' !! dev) ∧
         (storage_key w' = storage_key w ∧ o ≠ Done Unsealed ∨ storage_key w' = Some key))
  end.
Lemma protects_kept w w1 o w' : same w w1 → protects w1 o w' → protects w o w'.
Proof. unfold protects, other_blobs, key_set. intros (Hp & Hb & Hk). by rewrite Hp, Hb, Hk. Qed.
Lemma protects_kept_r w o w1 w' : protects w o w1 → same w1 w' → protects w o w'.
Proof. unfold protects, other_blobs, key_set. intros Hpr (Hp & Hb & Hk). by rewrite Hp, Hb, Hk. Qed.
Lemma protects_nothing w o : o ≠ Done Unsealed → protects w o w.
Proof. intros Ho. split; [done|]. destruct (blobs w !! dev) eqn:E; [split_and!; [done|done|by left]|auto 6]. Qed.
Lemma protects_same w w1 o : o ≠ Done Unsealed → same w w1 → protects w o w1.
Proof. intros Ho Hs. eapply protects_kept_r; [by apply protects_nothing|done]. Qed.
(** A key sealed in this run and then unsealed. *)
Lemma protects_sealed w w1 o w2 key :
  blobs w !! dev = None → pcrs w1 = pcrs w → storage_key w1 = storage_key w → other_blobs dev w w1 →
  holds key (policy_of a (pcrs w)) (blobs w1 !! dev) →
  key_set (in_blob (pcrs w1) (blobs w1 !! dev)) w1 o w2 →
  protects w o w2.
Proof.
  intros E Hp Hk Ho Hh (Hp2 & Hb2 & Hk2). split; [unfold other_blobs; by rewrite Hb2|].
  rewrite E. split; [congruence|]. right. exists key.
  rewrite Hb2. split; [done|]. destruct Hk2 as [[? ?]|[_ (key' & -> & pub & priv & rest & Eb & Hl1 & Hl2 & Hrel)]].
  - left. split; [congruence|done].
  - right. rewrite Eb in Hh. by destruct (holds_released _ _ _ _ _ _ _ Hh Hl1 Hl2 Hrel) as [-> _].
Qed.

Lemma protects_first ectx w w1 :
  same w w1 → mounted w1 = Some dev → blobs w !! dev = None →
  in_world (tpmState ← cominitTpmSealBlob ectx a;
        tpmState ← (if bool_decide (tpmState = Sealed) then cominitTpmUnsealBlob ectx a else Ret tpmState);
        if bool_decide (tpmState = Unsealed) then
          r ← cominitTpmSetupSecureStorage a true;
          Ret (if bool_decide (r ≠ EXIT_SUCCESS) then TpmFailure else tpmState)
        else Ret tpmState) (protects w) w1.
Proof.
  intros Hk Hm Hb. eapply wp_mono; [intros o w'; by apply protects_kept|]. destruct Hk as (_ & E & _). rewrite <-E in Hb. clear E w.
  assert (∀ (o : outcome cominitTpmState_t) w2, o ≠ Done Unsealed → pcrs w2 = pcrs w1 → storage_key w2 = storage_key w1 →
    other_blobs dev w1 w2 →
    sealed_file (policy_of a (pcrs w1)) (blobs w1 !! dev) (blobs w2 !! dev) True → protects w1 o w2) as Hno.
  { intros o w2 Ho Hp Hk Hot Hbl. split; [done|]. rewrite Hb. split; [done|]. unfold sealed_file in Hbl. rewrite Hb in Hbl.
    destruct Hbl as [[_ ?]|[?|[key ?]]]; [left; auto..|right; exists key; auto]. }
  eapply wp_call; [apply wp_and; [by apply SealBlob_world|apply wp_yields, SealBlob_state]| |].
  2: { intros e w2 [(Hp & Hk & _ & Hot & Hs) _]. apply Hno; [done..|]. by destruct Hs as [[_ ?]|?]; [left|right]. }
  intros st w2 [(Hp & Hk & Hm2 & Hot & Hs) Hst].
  destruct (bool_decide (st = Sealed)) eqn:E.
  - apply bool_decide_eq_true in E as ->. destruct Hs as [[? _]|Hs]; [done|].
    eapply wp_mono; [|apply key_set_storage, UnsealBlob_key; unfold mounted in *; by rewrite Hm2]. intros o w3 Hks.
    destruct Hs as [(b & Eb & Hun)|[key Hh]]; [|by eapply protects_sealed].
    destruct Hks as (Hp3 & Hb3 & [[Ho Hk3]|(_ & key & _ & pub & priv & rest & E & Hl1 & Hl2 & _)]).
    + apply Hno; [done|congruence|congruence|unfold other_blobs; by rewrite Hb3|]. right. left. exists b. by rewrite Hb3.
    + exfalso. apply (Hun pub priv rest Hl1 Hl2). congruence.
  - apply bool_decide_eq_false in E. rewrite bind_ret. rewrite bool_decide_false by congruence.
    cbn [wp]. apply Hno; [congruence|done..|]. by destruct Hs as [[_ ?]|?]; [left|right].
Qed.
Lemma protects_later ectx w w1 :
  same w w1 → mounted w1 = Some dev → blobs w !! dev ≠ None →
  in_world (tpmState ← cominitTpmUnsealBlob ectx a;
        if bool_decide (tpmState = Unsealed) then
          r ← cominitTpmSetupSecureStorage a false;
          Ret (if bool_decide (r ≠ EXIT_SUCCESS) then TpmFailure else tpmState)
        else Ret tpmState) (protects w) w1.
Proof.
  intros Hk Hm Hb. eapply wp_mono; [intros o w'; by apply protects_kept|]. destruct Hk as (_ & E & _). rewrite <-E in Hb. clear E w.
  eapply wp_mono; [|by apply key_set_storage, UnsealBlob_key]. intros o w2 Hks. split.
  - destruct Hks as (_ & E & _). intros d _. by rewrite E.
  - by destruct (blobs w1 !! dev) as [b|].
Qed.
Lemma ProtectData_world c w : in_world (cominitTpmProtectData c a) (protects w) w.
Proof.
  unfold cominitTpmProtectData, cominitTpmUnmountBlob.
  eapply wp_call; [apply SetupBlob_world| |].
  2: { intros e w1 [Hk _]. by apply protects_same. }
  intros b w1 [Hk Hb].
  eapply (wp_call _ _ _ _ (protects w)).
  2: { intros st w2 Hst. apply wp_sys_. intros ? _. cbn [wp]. eapply protects_kept_r; [exact Hst|]. by apply same_step. }
  2: done.
  destruct b; [destruct Hb as [Hm Hb]..|].
  - destruct (esysCtx c) as [| |ectx]; [by apply protects_same|..].
    all: cbn [readPtr]; rewrite bind_ret; by apply protects_first.
  - destruct (esysCtx c) as [| |ectx]; [by apply protects_same|..].
    all: cbn [readPtr]; rewrite bind_ret; by apply protects_later.
  - by apply protects_same.
Qed.
End Options.
End Parts.
