(* ===== verification/TpmExact.v ===== *)
(** * TpmExact: a machine without faults unlocks exactly for the sealed PCR values

    TpmWorld.v shows what can happen when calls may fail. Here the calls succeed
    and [Esys_Unseal] answers by the authorisation rule alone: then the outcome of
    [cominitTpmProtectData] is determined by the blob file and the PCRs. *)
From stdpp Require Import gmap.
From S2P Require Import Prelude CString Sys Output Common Crypto Keyring Subprocess Securememory Tpm.
From S2P Require Import TpmPcr Footprint TpmProofs TpmBoot TpmWorld.

Section Exact.
Context `{Libc} `{TpmParams} `{TpmModel}.

(** No faults: what can be answered with success is. *)
Definition steady (w : world) (e : event) : Prop :=
  let '(Event c r) := e in
  match c return reply c → Prop with
  | Access p => λ r, p = BLOB_PATH → ∀ dev, mounted w = Some dev → r = if blobs w !! dev then Ok tt else Err ENOENT
  | Fopen p mode => λ r,
      p ≠ BLOB_PATH ∨ mode = lit "wb" ∨ (∃ dev, mounted w = Some dev ∧ blobs w !! dev ≠ None) → ∃ fp, r = Ok fp
  | Fread _ _ => λ _, True
  | Fwrite _ data => λ n, n = Z.of_nat (length data)
  | EsysPolicyGetDigest _ s => λ r, sessions w !! s ≠ None → r.1 = 0%Z
  | EsysCreate _ parent auth data inPublic => λ r, parent ∈ parents w →
      (∃ pub priv, packs (SealedObject inPublic auth data) pub priv) → r.1 = 0%Z
  | EsysLoad _ parent priv pub => λ r, parent ∈ parents w → unwrap (pub, priv) ≠ None → r.1 = 0%Z
  | EsysUnseal _ h s => λ r, ∀ ob, objects w !! h = Some ob →
      r = if authorised w ob s then (0%Z, Some (ob_data ob)) else (POLICY_FAILURE_RC, None)
  | _ => λ r, tpm_works true (Event _ r)
  end r.
Definition reliable (rk : list byte) (w : world) (e : event) : Prop := ideal rk w e ∧ steady w e.
Class ReliableTpm (o : oracle) (rk : list byte) (w : world) : Prop := {
  reliable_answers : ∀ h c, reliable rk (foldl world_step w h) (Event c (o h c))
}.

(** The calls for which both notions of a working machine agree. *)
Definition plain_call (c : call) : bool :=
  match c with
  | Fopen p _ => bool_decide (p ≠ BLOB_PATH)
  | Access _ | Fread _ _ | EsysPolicyGetDigest _ _ | EsysCreate _ _ _ _ _ | EsysLoad _ _ _ _ | EsysUnseal _ _ _ => false
  | _ => true
  end.
Context (rk : list byte).
Local Abbreviation sure p Q := (wp world_step (reliable rk) p Q).
Local Abbreviation works p Q := (wp upd_none (λ _, tpm_works true) p Q tt).
Lemma sure_works {A} (p : prog A) (Q : outcome A → Prop) w :
  only plain_call p → works p (λ o _, Q o) → sure p (λ o _, Q o) w.
Proof. apply wp_transfer_only. intros w' [c r] Hc [_ Hs]. destruct c; try done. apply bool_decide_eq_true in Hc. apply Hs. by left. Qed.
Lemma sure_world {A} (p : prog A) (Q : outcome A → world → Prop) w :
  wp world_step (ideal rk) p Q w → sure p Q w.
Proof. intros Hp. eapply wp_env; [|exact Hp|done]. by intros w' e [? _]. Qed.

Lemma plain_Mkdir p mode : only plain_call (cominitMkdir p mode).
Proof. eapply only_mono; [|apply fp_Mkdir]. by intros []. Qed.
#[local] Hint Resolve plain_Mkdir : only.
Lemma plain_Spawn p argv : only plain_call (cominitSubprocessSpawn p argv).
Proof. unfold cominitSubprocessSpawn, execOrExit, waitChild. only_auto; by eexists. Qed.
Lemma plain_SpawnAndWrite p argv d n : only plain_call (cominitSubprocessSpawnAndWrite p argv d n).
Proof. unfold cominitSubprocessSpawnAndWrite, execOrExit, waitChild. only_auto; by eexists. Qed.
#[local] Hint Resolve plain_Spawn plain_SpawnAndWrite : only.
Lemma plain_ZeroOut b n : only plain_call (cominitSecurememoryZeroOut b n).
Proof. unfold cominitSecurememoryZeroOut. only_auto. Qed.
Lemma plain_VerifyZero b n : only plain_call (cominitSecurememoryVerifyZero b n).
Proof. unfold cominitSecurememoryVerifyZero. only_auto. Qed.
#[local] Hint Resolve plain_ZeroOut plain_VerifyZero : only.
Lemma plain_CreateLuks d : only plain_call (cominitSecurememoryCreateLuksVolume d).
Proof. unfold cominitSecurememoryCreateLuksVolume, cominitCryptsetupCreateLuksVolume. only_auto. Qed.
#[local] Hint Resolve plain_CreateLuks : only.
Lemma plain_SetupStorage a first : only plain_call (cominitTpmSetupSecureStorage a first).
Proof.
  unfold cominitTpmSetupSecureStorage, cominitCryptsetupAddToken, cominitCryptsetupOpenLuksVolume,
    cominitTpmFormatSecureStorage. only_auto.
Qed.
Lemma plain_UniqueString u : only plain_call (cominitCryptoCreateUniqueString u).
Proof.
  unfold cominitCryptoCreateUniqueString. apply only_bind; [apply only_sys; by vm_compute|intros ?]. only_auto.
Qed.
#[local] Hint Resolve plain_SetupStorage plain_UniqueString : only.
Lemma plain_Passphrase p n : only plain_call (cominitCryptoCreatePassphrase p n).
Proof. unfold cominitCryptoCreatePassphrase. only_auto. Qed.

(** Takes the branch of a call that did not fail. *)
Ltac no_error := rewrite bool_decide_false by (intros Hne; by apply Hne).

(** Random numbers are remembered. *)
Lemma drawn_step w e : drawn w ⊆ drawn (world_step w e).
Proof. destruct e as [c r]. destruct c; cbn [world_step]; repeat case_match; cbn; set_solver. Qed.
Lemma wp_drawn {A} (p : prog A) x w : x ∈ drawn w → sure p (λ _ w', x ∈ drawn w') w.
Proof.
  revert w. induction p as [a|c k IH|e]; intros w Hx; simpl; [done| |done]. intros r _. apply IH. by apply (drawn_step w (Event c r)).
Qed.
(** And each comes from the random generator. *)
Lemma drawn_trace n bs w t :
  (n, bs) ∈ drawn (foldl world_step w t) → (n, bs) ∈ drawn w ∨ Event (CtrDrbgRandom n) (0%Z, bs) ∈ t.
Proof.
  revert w. induction t as [|e t IH]; intros w; [by left|]. cbn [foldl]. intros [Hd|Ht]%IH; [|right; by right].
  destruct e as [c r]. destruct c; cbn [world_step] in Hd; repeat case_match; try (by left).
  cbn [drawn set_drawn] in Hd. apply elem_of_cons in Hd as [[= -> ->]|]; [|by left]. right.
  destruct r as [rc bytes]. cbn in *. subst rc. by left.
Qed.

Section Options.
Context (a : cominitCliArgs_t) (Ha : sealable a).
Local Abbreviation dev := (cstr (devNodeBlob a)).
Lemma SetupBlob_exact w :
  isSet (devNodeBlob a) = true →
  sure (cominitTpmSetupBlob a) (λ o w', o = Done (if blobs w !! dev then BlobExists else BlobIsEmpty)) w.
Proof.
  intros Hset. unfold cominitTpmSetupBlob. rewrite Hset.
  replace (dirname BLOB_PATH) with COMINIT_TPM_MNT_PT by by vm_compute.
  assert (∀ w w', kept w w' → sure (cominitMkdir COMINIT_TPM_MNT_PT S_IRWXU) (λ o w', o = Done EXIT_SUCCESS ∧ kept w w') w') as Hmk.
  { intros w0 w' Hk. apply wp_and; [apply (sure_works _ (λ o, o = Done EXIT_SUCCESS)); [only_auto|apply works_Mkdir]|].
    apply sure_world, wp_kept; [apply kept_Mkdir|done]. }
  eapply wp_call; [by apply (Hmk w)| |by intros ? ? [? _]]. intros r w1 [[= ->] Hk1]. rewrite bool_decide_false by done.
  apply wp_sys. intros r [_ Hr]. cbn in Hr. subst r. cbn [world_step]. rewrite decide_True by done.
  set (w2 := set_mounts _ _). assert (mounted w2 = Some dev) as Hm by done.
  assert (blobs w2 = blobs w) as E by apply Hk1. clearbody w2.
  apply wp_sys. intros r [_ Hr]. specialize (Hr eq_refl _ Hm). rewrite E in Hr. subst r.
  destruct (blobs w !! dev); [done|]. eapply wp_call; [by apply (Hmk w2)| |by intros ? ? [? _]].
  intros r w3 [[= ->] _]. no_error. done.
Qed.

Lemma LoadBlob_exact w pub priv :
  mounted w = Some dev → blobs w !! dev = Some (pub ++ priv) →
  Z.of_nat (length pub) = sizeof_TPM2B_PUBLIC → Z.of_nat (length priv) = sizeof_TPM2B_PRIVATE →
  sure cominitTpmLoadBlob (λ o _, o = Done (EXIT_SUCCESS, (pub, priv))) w.
Proof.
  intros Hm Hb Hp Hq. unfold cominitTpmLoadBlob. apply wp_sys. intros r [_ Hr].
  destruct Hr as [fp ->]; [right; right; exists dev; by rewrite Hb|].
  set (w1 := world_step w _). assert (streams w1 !! fp = Some (dev, 0) ∧ blobs w1 !! dev = Some (pub ++ priv)) as [Hs1 Hb1].
  { unfold w1. cbn [world_step]. rewrite Hm, decide_True, decide_False by done. split; [apply lookup_insert_eq|done]. }
  clearbody w1. apply wp_sys. intros r [Hr _]. specialize (Hr _ _ _ Hs1 Hb1).
  rewrite <-Hp, Nat2Z.id, drop_0, take_app_length in Hr. subst r. rewrite <-Hp, bool_decide_true by done.
  set (w2 := world_step w1 _).
  assert (streams w2 !! fp = Some (dev, length pub) ∧ blobs w2 !! dev = Some (pub ++ priv)) as [Hs2 Hb2].
  { unfold w2. cbn [world_step]. rewrite Hs1. split; [apply lookup_insert_eq|done]. }
  clearbody w2. apply wp_bind, wp_sys. intros r [Hr _]. specialize (Hr _ _ _ Hs2 Hb2).
  rewrite <-Hq, Nat2Z.id, drop_app_length, take_ge in Hr by lia. subst r. rewrite <-Hq, bool_decide_true by done.
  by apply wp_sys_; intros ? _.
Qed.

Lemma EsysUnseal_exact ectx h s ob w :
  ectx ≠ 0%Z → objects w !! h = Some ob →
  sure (cominitSecurememoryEsysUnseal ectx (Some h) (Some s)) (λ o w',
    o = Done (if authorised w ob s then Unsealed else TpmPolicyFailure) ∧
    storage_key w' = if authorised w ob s then Some (ob_data ob) else storage_key w) w.
Proof.
  intros He Hob. unfold cominitSecurememoryEsysUnseal, cominitKeyringAddUserKey. rewrite bool_decide_false by done.
  apply wp_sys. intros r [_ Hr]. specialize (Hr _ Hob). subst r. destruct (authorised w ob s).
  - no_error. apply wp_bind, wp_sys. intros r [_ Hr]. cbn in Hr. subst r.
    apply wp_bind, wp_sys. intros r [_ Hr]. cbn in Hr. subst r. cbn [wp].
    destruct (ZeroOut_ok (ob_data ob) (length (ob_data ob))) as (r & b' & -> & Hb'); [done|]. rewrite bind_ret. cbn [wp].
    destruct (VerifyZero_ok b' (length b')) as (r' & ->); [done|]. rewrite bind_ret.
    do 2 (apply wp_sys_; intros ? _). done.
  - rewrite bool_decide_true by done. rewrite bind_ret, bool_decide_true by done. done.
Qed.

(** The result for a blob with the policy [d] and the key [key]. *)
Definition opens (d key : list byte) (w : world) (o : outcome cominitTpmState_t) (w' : world) : Prop :=
  if decide (policy_of a (pcrs w) = d) then o = Done Unsealed ∧ storage_key w' = Some key
  else o = Done TpmPolicyFailure ∧ storage_key w' = storage_key w.
Lemma opens_kept d key w0 w o w' : same w0 w → opens d key w o w' → opens d key w0 o w'.
Proof. unfold opens. by intros (-> & _ & ->). Qed.
Lemma opens_kept_r d key w o w' w'' : opens d key w o w' → same w' w'' → opens d key w o w''.
Proof. unfold opens. by intros Ho (_ & _ & ->). Qed.
Lemma authorised_session w ob s d :
  s ≠ ESYS_TR_PASSWORD → sessions w !! s = Some (TPM2_SE_POLICY, d) →
  authorised w ob s = bool_decide (d = authPolicy (ob_public ob)).
Proof.
  unfold authorised. intros Hs ->. rewrite (bool_decide_false (s = _)) by done. cbn [andb]. rewrite orb_false_r.
  apply bool_decide_ext. split; [by intros [= ->]|by intros ->].
Qed.
Lemma Unseal_exact ectx ph pub priv ob w :
  ectx ≠ 0%Z → ph ∈ parents w → unwrap (pub, priv) = Some ob →
  sure (cominitTpmUnseal ectx ph pub priv a) (opens (authPolicy (ob_public ob)) (ob_data ob) w) w.
Proof.
  intros He Hph Hob. unfold cominitTpmUnseal. rewrite (sel_of_eq a Ha). apply wp_sys. intros [rc h0] [Hl Hrc]. cbv zeta.
  cbn in Hrc. rewrite Hob in Hrc. rewrite Hrc in * by done. clear Hrc.
  destruct (Hl eq_refl) as (_ & h & ob' & E & _). cbn in E. subst h0.
  set (w1 := world_step _ _). assert (same w w1) as Hk1 by by apply same_step.
  assert (objects w1 !! h = Some ob) as Hob1.
  { unfold w1. cbn [world_step]. rewrite Hob. cbn [objects set_handles]. apply lookup_insert_eq. }
  clearbody w1. no_error.
  eapply (wp_call _ _ _ _ (λ o w', ∃ st s, o = Done (st, s) ∧
    opens (authPolicy (ob_public ob)) (ob_data ob) w (Done st) w')).
  - apply wp_sys. intros r [Hs [s ->]]. destruct (Hs eq_refl) as (s' & [= <-] & Hpw). cbn [default].
    no_error. rewrite bind_ret. apply wp_sys. intros r [_ Hr]. cbn in Hr. subst r.
    no_error.
    set (w2 := world_step w1 _). set (w3 := world_step w2 _).
    assert (same w w3) as Hk3.
    { apply (same_trans _ w2); [|by apply same_step]. by apply (same_trans _ w1); [|apply same_step]. }
    assert (sessions w3 !! s = Some (TPM2_SE_POLICY, policy_of a (pcrs w))) as Hs3.
    { destruct Hk1 as (<- & _). apply (session_policy w2). unfold w2. cbn. apply lookup_insert_eq. }
    assert (objects w3 !! h = Some ob) as Hob3 by done. clearbody w3.
    eapply wp_call; [by apply (EsysUnseal_exact _ _ _ ob)| |by intros ? ? [? _]].
    intros st w4 [[= ->] Hst]. cbn [wp]. eexists _, _. split; [done|]. unfold id in *.
    rewrite (authorised_session w3 ob _ _ Hpw Hs3) in *. destruct Hk3 as (_ & _ & Hk3). unfold opens. rewrite Hst, Hk3.
    case_bool_decide; [by rewrite decide_True|by rewrite decide_False].
  - intros x w2 (st & s & [= ->] & Hst). do 2 (apply wp_sys_; intros ? _).
    do 2 (eapply opens_kept_r; [|by apply same_step]). done.
  - by intros e w2 (? & ? & ? & _).
Qed.
(** The blob file is read without flushing the primary key. *)
Lemma LoadBlob_parents w : sure cominitTpmLoadBlob (λ _ w', parents w' = parents w) w.
Proof.
  unfold cominitTpmLoadBlob. apply wp_sys. intros [fp|e] _.
  2: done.
  set (w1 := world_step w _). assert (parents w1 = parents w) as <- by (unfold w1; cbn; by repeat case_match).
  clearbody w1. apply wp_sys. intros pub _.
  set (w2 := world_step w1 _). assert (parents w2 = parents w1) as <- by (unfold w2; cbn; by repeat case_match).
  clearbody w2. case_bool_decide; [|by apply wp_sys_; intros ? _]. apply wp_bind, wp_sys. intros priv _.
  apply wp_sys_. intros ? _. cbn. by repeat case_match.
Qed.
Lemma UnsealBlob_exact ectx key d w :
  ectx ≠ 0%Z → mounted w = Some dev → holds key d (blobs w !! dev) →
  sure (cominitTpmUnsealBlob ectx a) (opens d key w) w.
Proof.
  intros He Hm (pub & priv & Hb & Hu & Hp & Hq). unfold cominitTpmUnsealBlob, cominitTpmLoadPrimaryHandle.
  apply wp_bind, wp_sys. intros r [_ [ph ->]]. cbn [wp default]. unfold id. no_error.
  set (w1 := world_step _ _). assert (kept w w1) as Hk1 by by apply kept_step.
  assert (ph ∈ parents w1) as Hph by (unfold w1; cbn; set_solver). pose proof (kept_mounted _ _ _ Hk1 Hm) as Hm1.
  assert (blobs w1 !! dev = Some (pub ++ priv)) as Hb1 by (by destruct Hk1 as [(_ & -> & _) _]). clearbody w1.
  eapply wp_call; [apply wp_and; [by apply LoadBlob_exact|apply wp_and; [apply LoadBlob_parents|by apply sure_world, (LoadBlob_world rk dev)]]| |
    by intros ? ? [? _]].
  intros x w2 [[= ->] [Hpar [Hk _]]]. no_error.
  rewrite <-Hpar in Hph. eapply wp_mono; [|exact (Unseal_exact _ _ _ _ _ w2 He Hph Hu)]. intros o w3 Hw3.
  eapply opens_kept; [|exact Hw3]. eapply kept_same, kept_trans; done.
Qed.

Lemma opens_storage d key first ectx w :
  (∀ w, sure (cominitTpmSetupSecureStorage a first) (λ o _, o = Done EXIT_SUCCESS) w) →
  sure (cominitTpmUnsealBlob ectx a) (opens d key w) w →
  sure (st ← cominitTpmUnsealBlob ectx a;
        if bool_decide (st = Unsealed) then
          r ← cominitTpmSetupSecureStorage a first;
          Ret (if bool_decide (r ≠ EXIT_SUCCESS) then TpmFailure else st)
        else Ret st) (opens d key w) w.
Proof.
  intros Hst Hu. eapply wp_call; [exact Hu| |by unfold opens; intros e w1; case_decide; intros [? _]].
  intros st w1 Hw1. case_bool_decide; [subst st|done].
  eapply wp_call; [apply wp_and; [apply Hst|by apply sure_world, (wp_same _ _ w1); [apply same_SetupStorage|]]| |by intros ? ? [? _]].
  intros r w2 [[= ->] Hk]. no_error. by eapply opens_kept_r.
Qed.
Lemma SetupStorage_exact first w : sure (cominitTpmSetupSecureStorage a first) (λ o _, o = Done EXIT_SUCCESS) w.
Proof. apply (sure_works _ (λ o, o = Done EXIT_SUCCESS)); [only_auto|apply works_SetupStorage]. Qed.

Context (ectx : Z) (He : ectx ≠ 0%Z) (Hset : isSet (devNodeBlob a) = true) (tcti : cptr).

(** A passphrase can be sealed with the policy [d]. *)
Definition creatable (d : list byte) : Prop :=
  ∀ key, Z.of_nat (length key) = COMINIT_PASSPHRASE_SIZE →
    ∃ pub priv, packs (SealedObject (blobPublic d) [] key) pub priv.
(** The passphrase is what the random generator answered. *)
Lemma Passphrase_exact n w :
  0 < n →
  sure (cominitCryptoCreatePassphrase (Some (replicate n x00)) n)
    (λ o w', ∃ p, o = Done (EXIT_SUCCESS, Some p) ∧ length p = n ∧ (n, p) ∈ drawn w') w.
Proof.
  intros Hn. unfold cominitCryptoCreatePassphrase. rewrite bool_decide_false by lia. do 2 (apply wp_sys_; intros ? _).
  eapply wp_call; [apply (sure_works _ (λ o, ∃ x, o = Done x)); [only_auto|apply works_UniqueString]| |by intros ? ? []].
  intros [ru u] w1 _. cbv zeta. apply wp_sys. intros err [_ Herr]. cbn in Herr. subst err. rewrite bool_decide_true by done.
  apply wp_bind, wp_sys. intros [err bytes] [_ [Herr Hlen]]. cbn in Herr, Hlen. subst err. cbn [wp].
  assert (overwrite (replicate n x00) bytes = bytes) as ->.
  { unfold overwrite. rewrite drop_ge, app_nil_r; [done|]. rewrite length_replicate. lia. }
  do 2 (apply wp_sys_; intros ? _). cbn [wp]. exists bytes. split_and!; [by rewrite bool_decide_true|done|].
  cbn. rewrite decide_True by done. cbn. by left.
Qed.
Lemma EsysCreate_exact h d w :
  h ∈ parents w → creatable d →
  sure (cominitSecurememoryEsysCreate ectx (Some h) (Some d)) (λ o w', ∃ pub priv key,
    o = Done (EXIT_SUCCESS, Some (pub, priv)) ∧ packs (SealedObject (blobPublic d) [] key) pub priv ∧
    (Z.to_nat COMINIT_PASSPHRASE_SIZE, key) ∈ drawn w') w.
Proof.
  intros Hh Hfit. unfold cominitSecurememoryEsysCreate. rewrite bool_decide_false by done. cbv zeta.
  apply wp_sys. intros r [_ Hr]. cbn in Hr. subst r. cbn [negb].
  apply wp_bind, wp_sys. intros r [_ Hr]. cbn in Hr. subst r. cbn [world_step].
  set (n := Z.to_nat COMINIT_PASSPHRASE_SIZE).
  eapply wp_call; [apply wp_and; [apply (Passphrase_exact n); unfold n, COMINIT_PASSPHRASE_SIZE; lia|
    apply sure_world, wp_calm, calm_Passphrase]| |by intros ? ? [(? & ? & ?) _]].
  intros [r p] w1 [(p' & E & Hp & Hdr) Hcalm]. apply Done_inj, pair_eq in E as [-> ->]. cbn [default]. unfold id. no_error.
  apply wp_sys. intros [rc out] [Hi Hr]. cbn in Hi, Hr.
  rewrite Hr in Hi by first [by rewrite (calm_parents _ _ Hcalm)|apply Hfit; rewrite Hp; done].
  destruct Hi as (_ & pub & priv & -> & Hpk).
  destruct (ZeroOut_ok p' n) as (r1 & b' & -> & Hb'); [by rewrite Hp|]. rewrite bind_ret. cbn [wp default]. unfold id.
  destruct (VerifyZero_ok b' (length b')) as (r2 & ->); [done|]. rewrite bind_ret.
  do 2 (apply wp_sys_; intros ? _). apply wp_bind. do 2 (apply wp_sys_; intros ? _). apply wp_sys__last. intros ? _.
  exists pub, priv, p'. by split_and!.
Qed.
Lemma Seal_exact w :
  creatable (policy_of a (pcrs w)) → sure (cominitTpmSeal ectx a) (λ o w', ∃ pub priv key,
    o = Done (EXIT_SUCCESS, Some (pub, priv)) ∧ packs (SealedObject (blobPublic (policy_of a (pcrs w))) [] key) pub priv ∧
    (Z.to_nat COMINIT_PASSPHRASE_SIZE, key) ∈ drawn w') w.
Proof.
  intros Hfit. unfold cominitTpmSeal, cominitTpmSavePrimaryHandle. rewrite (sel_of_eq a Ha).
  apply wp_sys. intros r [_ [ph ->]]. cbv zeta. cbn [default]. unfold id. no_error.
  set (w1 := world_step w _). assert (pcrs w1 = pcrs w) as Hp1 by by apply (same_step w).
  assert (ph ∈ parents w1) as Hph by (unfold w1; cbn; set_solver). rewrite <-Hp1 in *. clearbody w1.
  apply wp_bind, wp_sys. intros r [_ [s ->]]. no_error. rewrite bind_ret. apply wp_sys. intros r [_ Hr]. cbn in Hr. subst r. no_error.
  set (w2 := world_step _ _). assert (sessions w2 !! s = Some (TPM2_SE_TRIAL, policy_of a (pcrs w1))) as Hs.
  { refine (session_policy _ ectx s TPM2_SE_TRIAL (sel_of a) _). cbn. by rewrite lookup_insert_eq. }
  assert (ph ∈ parents w2) as Hph2 by exact Hph.
  clearbody w2. apply wp_sys. intros [rc dig] [Hd Hr]. cbn in Hd, Hr. rewrite Hs in Hr. rewrite Hr in * by done.
  destruct (Hd eq_refl) as (ty & d & Hs' & ->). rewrite Hs in Hs'. injection Hs' as <- <-. clear Hr. no_error.
  eapply wp_call; [by apply EsysCreate_exact| |by intros ? ? (?&?&?&?&_)]. intros [r out] w3 (pub & priv & key & E & Hpk & Hdr).
  apply Done_inj, pair_eq in E as [-> ->]. no_error. apply wp_bind, wp_sys. intros r [_ Hr]. cbn in Hr. subst r. cbn [wp].
  do 7 (apply wp_sys_; intros ? _). rewrite bool_decide_false by (intros Hne; by apply Hne). by exists pub, priv, key.
Qed.
Lemma SaveBlob_exact pub priv w :
  mounted w = Some dev →
  sure (cominitTpmSaveBlob (Some (pub, priv)))
    (λ o w', o = Done EXIT_SUCCESS ∧ pcrs w' = pcrs w ∧ mounts w' = mounts w ∧ blobs w' !! dev = Some (pub ++ priv)) w.
Proof.
  intros Hm. unfold cominitTpmSaveBlob. apply wp_sys. intros r [_ Hr]. destruct Hr as [fp ->]; [by right; left|].
  apply wp_sys_. intros n [_ Hn]. apply wp_sys_. intros m [_ Hq]. apply wp_sys_. intros ? _. cbn in Hn, Hq. subst n m.
  cbn [wp world_step]. rewrite Hm, !decide_True by done. cbn [streams set_files]. rewrite lookup_insert_eq.
  cbn [streams set_files]. rewrite lookup_insert_eq. cbv zeta. rewrite !Nat2Z.id, !firstn_all.
  cbn [blobs pcrs mounts set_files]. split_and!; [done..|]. rewrite !lookup_alter_eq, lookup_insert_eq.
  cbn [fmap option_fmap option_map]. f_equal. rewrite (write_end []), app_nil_l. apply write_end.
Qed.
Lemma SealBlob_exact w :
  mounted w = Some dev → creatable (policy_of a (pcrs w)) →
  sure (cominitTpmSealBlob ectx a) (λ o w', o = Done Sealed ∧ pcrs w' = pcrs w ∧ mounts w' = mounts w ∧
    ∃ key, holds key (policy_of a (pcrs w)) (blobs w' !! dev) ∧ (Z.to_nat COMINIT_PASSPHRASE_SIZE, key) ∈ drawn w') w.
Proof.
  intros Hm Hfit. unfold cominitTpmSealBlob.
  eapply wp_call; [apply wp_and; [by apply Seal_exact|apply sure_world, (wp_kept _ _ w);
    [by apply kept_Seal|done]]| |by intros ? ? [(?&?&?&?&_) _]].
  intros [r out] w1 [(pub & priv & key & E & Hpk & Hdr) Hk1]. apply Done_inj, pair_eq in E as [-> ->]. no_error.
  pose proof (kept_mounted _ _ _ Hk1 Hm) as Hm1. destruct Hk1 as [(Hp & _ & _) Hmm].
  eapply wp_call; [apply wp_and; [by apply SaveBlob_exact|by apply wp_drawn]| |by intros ? ? [[? _] _]].
  intros r w2 [([= ->] & Hp2 & Hm2 & Hb2) Hdr2]. do 2 (apply wp_sys_; intros ? _). cbn [wp world_step].
  split_and!; [done|congruence|congruence|]. exists key. split; [|done]. exists pub, priv. by rewrite Hb2.
Qed.
Lemma first_exact w :
  blobs w !! dev = None → creatable (policy_of a (pcrs w)) →
  sure (cominitTpmProtectData (TpmContext (PTo ectx) tcti) a) (λ o w', o = Done Unsealed ∧
    ∃ key, storage_key w' = Some key ∧ holds key (policy_of a (pcrs w)) (blobs w' !! dev) ∧
      (Z.to_nat COMINIT_PASSPHRASE_SIZE, key) ∈ drawn w') w.
Proof.
  intros Hb Hfit. unfold cominitTpmProtectData, cominitTpmUnmountBlob.
  eapply wp_call; [apply wp_and; [by apply SetupBlob_exact|by apply sure_world, (SetupBlob_world rk a dev)]| |by intros ? ? [? _]].
  intros st w1 [[= ->] [Hk1 Hst]]. rewrite Hb in *. destruct Hst as [Hm1 _].
  cbn [esysCtx readPtr]. rewrite bind_ret. apply wp_bind. destruct Hk1 as (Hp1 & _ & _).
  eapply wp_call; [apply SealBlob_exact; [done|by rewrite Hp1]| |by intros ? ? [? _]].
  intros st w2 ([= ->] & Hp & Hm2 & key & Hh & Hdr). rewrite bool_decide_true by done. rewrite Hp1 in *.
  assert (mounted w2 = Some dev) as Hdev2 by (unfold mounted in *; by rewrite Hm2).
  eapply wp_mono; [|apply wp_and; [apply (wp_drawn _ _ _ Hdr)|apply wp_and; [apply (opens_storage (policy_of a (pcrs w)) key);
    [apply SetupStorage_exact|by apply UnsealBlob_exact]|by apply sure_world, key_set_storage, (UnsealBlob_key rk a Ha dev)]]].
  intros o w3 [Hdr3 [Hop (_ & Hb3 & _)]]. unfold opens in Hop. rewrite Hp, decide_True in Hop by done. destruct Hop as [-> Hkey].
  apply wp_sys_. intros r _. cbn [wp]. split; [done|]. exists key.
  assert (same w3 (world_step w3 (Event (Umount COMINIT_TPM_MNT_PT) r))) as (_ & -> & ->) by by apply same_step.
  split_and!; [done|by rewrite Hb3|by apply drawn_step].
Qed.
Lemma later_exact key d w :
  holds key d (blobs w !! dev) →
  sure (cominitTpmProtectData (TpmContext (PTo ectx) tcti) a) (λ o w', blobs w' = blobs w ∧ opens d key w o w') w.
Proof.
  intros Hh. unfold cominitTpmProtectData, cominitTpmUnmountBlob.
  eapply wp_call; [apply wp_and; [by apply SetupBlob_exact|by apply sure_world, (SetupBlob_world rk a dev)]| |by intros ? ? [? _]].
  intros st w1 [[= ->] [Hk1 Hst]]. destruct (blobs w !! dev) as [b|] eqn:Hb; [|by destruct Hh as (?&?&?&?)].
  destruct Hst as [Hm1 _].
  cbn [esysCtx readPtr]. rewrite bind_ret. apply wp_bind. assert (blobs w1 = blobs w) as Hb1 by apply Hk1.
  eapply wp_mono; [|apply wp_and; [apply (opens_storage d key);
    [apply SetupStorage_exact|apply UnsealBlob_exact; [done|done|by rewrite Hb1, Hb]]|
    by apply sure_world, key_set_storage, (UnsealBlob_key rk a Ha dev)]].
  intros o w2 [Hop (_ & Hb2 & _)]. apply (opens_kept _ _ _ _ _ _ Hk1) in Hop.
  destruct o as [st|e]; [apply wp_sys_; intros r _; cbn [wp]|split; [congruence|done]].
  assert (same w2 (world_step w2 (Event (Umount COMINIT_TPM_MNT_PT) r))) as Hs by by apply same_step.
  split; [destruct Hs as (_ & -> & _); congruence|by eapply opens_kept_r].
Qed.

(** On a machine without faults whose blob file holds a key sealed by the program, cominitTpmProtectData
    returns Unsealed with exactly that key in the keyring if the policy digest over the current PCRs is
    the sealed one, and TpmPolicyFailure with the keyring unchanged if it is not; the blob file is
    unchanged in both cases. *)
Theorem later_boot_unlocks_iff_pcrs_match o w key d
    (Ho : ReliableTpm o rk w) (Hblob : holds key d (blobs w !! dev)) :
  let '(out, t) := run o [] (cominitTpmProtectData (TpmContext (PTo ectx) tcti) a) in
  let w' := foldl world_step w t in
  blobs w' = blobs w ∧
  if decide (policy_of a (pcrs w) = d) then out = Done Unsealed ∧ storage_key w' = Some key
  else out = Done TpmPolicyFailure ∧ storage_key w' = storage_key w.
Proof.
  destruct Ho as [Ho]. pose proof (wp_run world_step _ _ _ w o Ho [] (later_exact key d w Hblob)) as Hw.
  by destruct (run _ _ _) as [out t].
Qed.

(** On a machine without faults and without a sealed blob, cominitTpmProtectData returns Unsealed; the
    blob file then holds a fresh key sealed with the policy over the current values of the selected
    PCRs, and that key is in the keyring. *)
Theorem first_boot_seals_to_pcrs o w
    (Ho : ReliableTpm o rk w) (Hblob : blobs w !! dev = None) (Hfit : creatable (policy_of a (pcrs w))) :
  let '(out, t) := run o [] (cominitTpmProtectData (TpmContext (PTo ectx) tcti) a) in
  let w' := foldl world_step w t in
  out = Done Unsealed ∧
  ∃ key, storage_key w' = Some key ∧ holds key (policy_of a (pcrs w)) (blobs w' !! dev).
Proof.
  destruct Ho as [Ho]. pose proof (wp_run world_step _ _ _ w o Ho [] (first_exact w Hblob Hfit)) as Hw.
  destruct (run _ _ _) as [out t]. destruct Hw as [Hout (key & ? & ? & _)]. split; [exact Hout|]. by exists key.
Qed.

(** ** The way around the policy

    The sealed object has the attribute userWithAuth and an empty authorization
    value, so the TPM also releases it to a password session. *)
Definition unseal_with_password (ctx : Z) (pub priv : list byte) : prog (option (list byte)) :=
  '(_, parent) ← sys (EsysTrFromTpmPublic ctx TPM2_PERSISTENT_FIRST);
  '(_, h) ← sys (EsysLoad ctx (default ESYS_TR_NONE parent) priv pub);
  '(_, key) ← sys (EsysUnseal ctx (default ESYS_TR_NONE h) ESYS_TR_PASSWORD);
  Ret key.
Lemma password_releases rk' ctx pub priv d key w :
  packs (SealedObject (blobPublic d) [] key) pub priv →
  wp world_step (reliable rk') (unseal_with_password ctx pub priv) (λ o _, o = Done (Some key)) w.
Proof.
  intros (Hu & _). unfold unseal_with_password. apply wp_sys. intros r [_ [ph ->]]. cbn [default]. unfold id.
  set (w1 := world_step w _). assert (ph ∈ parents w1) as Hph by (unfold w1; cbn; set_solver). clearbody w1.
  apply wp_sys. intros [rc h0] [Hl Hr]. cbn in Hr. rewrite Hu in Hr.
  rewrite Hr in * by done. destruct (Hl eq_refl) as (_ & h & ob & E & _). cbn in E. subst h0. cbn [default]. unfold id.
  apply wp_sys. intros r [_ Hs]. cbn [world_step] in Hs. rewrite Hu in Hs.
  specialize (Hs (SealedObject (blobPublic d) [] key) (lookup_insert_eq _ _ _)). unfold authorised in Hs.
  rewrite (bool_decide_true (ESYS_TR_PASSWORD = _)) in Hs by done. cbn [ob_public ob_auth ob_data] in Hs.
  rewrite !(bool_decide_true (_ ∈ _)), !(bool_decide_true ([] = [])), !orb_true_r in Hs
    by first [done|apply (bool_decide_unpack _); by vm_compute]. by subst r.
Qed.

(** C40: After the first boot of a reliable machine the PCR policy can be passed by: because the sealed
    object has the attribute userWithAuth and an empty authorization value, loading it below the
    persistent primary key and unsealing it with a password session yields the storage key in every
    later state of the machine, whatever the PCRs hold. *)
Theorem sealed_key_opens_without_policy o w
    (Ho : ReliableTpm o rk w) (Hblob : blobs w !! dev = None) (Hfit : creatable (policy_of a (pcrs w))) :
  let t := (run o [] (cominitTpmProtectData (TpmContext (PTo ectx) tcti) a)).2 in
  let w1 := foldl world_step w t in
  ∃ pub priv key, blobs w1 !! dev = Some (pub ++ priv) ∧ storage_key w1 = Some key ∧
    ∀ o' rk' w' ctx, ReliableTpm o' rk' w' →
      (run o' [] (unseal_with_password ctx pub priv)).1 = Done (Some key).
Proof.
  destruct Ho as [Ho]. pose proof (wp_run world_step _ _ _ w o Ho [] (first_exact w Hblob Hfit)) as Hw.
  destruct Hw as (_ & key & Hk & (pub & priv & Hb & Hp) & _). exists pub, priv, key. split_and!; [exact Hb|exact Hk|].
  intros o' rk' w' ctx [Ho'].
  exact (wp_run world_step _ _ _ w' o' Ho' [] (password_releases rk' ctx pub priv _ key w' Hp)).
Qed.
End Options.
End Exact.

(** ** A reference machine

    An executable TPM that keeps the contract: its calls and those on the blob file
    are answered from the world, with success where that is possible; all others
    by [base]. *)
#[global] Instance sealed_object_eq_dec : EqDecision sealed_object. Proof. solve_decision. Defined.

Section Sim.
Context `{Libc} `{TpmParams} `{TpmModel}.
#[global] Instance packs_dec ob pub priv : Decision (packs ob pub priv).
Proof. unfold packs. apply _. Defined.

Context (wrap : sealed_object → list byte * list byte) (base : ∀ c, reply c).
Definition mounted_blob (w : world) : option (list byte) := mounted w ≫= (blobs w !!.).
Definition sim_reply (rk : list byte) (w : world) (c : call) : reply c :=
  match c return reply c with
  | Access _ => if bool_decide (mounted_blob w = None) then Err ENOENT else Ok tt
  | Fopen p mode =>
      if bool_decide (p = BLOB_PATH ∧ mode ≠ lit "wb" ∧ mounted_blob w = None) then Err ENOENT else Ok 7%Z
  | Fread h n =>
      match streams w !! h with
      | Some (dev, pos) => take (Z.to_nat n) (drop pos (default [] (blobs w !! dev)))
      | None => []
      end
  | PkWritePubkeyDer n =>
      if bool_decide (length rk <= n) then (Z.of_nat (length rk), replicate (n - length rk) x00 ++ rk) else (-1, [])%Z
  | Sha256 data => (if bool_decide (length (sha256 data) = SHA256_LEN) then 0 else 1, sha256 data)%Z
  | Fwrite _ data => Z.of_nat (length data)
  | EsysStartAuthSession _ _ _ => (0, Some 4)%Z
  | EsysPolicyGetDigest _ s => match sessions w !! s with Some (_, d) => (0, Some d) | None => (1, None) end%Z
  | EsysCreate _ parent auth data inPublic =>
      let ob := SealedObject inPublic auth data in
      if decide (parent ∈ parents w ∧ packs ob (wrap ob).1 (wrap ob).2) then (0%Z, Some (wrap ob)) else (1%Z, None)
  | EsysLoad _ parent priv pub =>
      if decide (parent ∈ parents w) then match unwrap (pub, priv) with Some _ => (0, Some 6) | None => (1, None) end%Z
      else (1%Z, None)
  | EsysUnseal _ h s =>
      match objects w !! h with
      | Some ob => if authorised w ob s then (0%Z, Some (ob_data ob)) else (POLICY_FAILURE_RC, None)
      | None => (1%Z, None)
      end
  | c => base c
  end.
Definition sim (rk : list byte) (w : world) : oracle := λ h c, sim_reply rk (foldl world_step w h) c.

Hypothesis wrap_packs : ∀ ob pub priv, packs ob pub priv → packs ob (wrap ob).1 (wrap ob).2.
Hypothesis base_works : ∀ c, tpm_works true (Event c (base c)).
Hypothesis password_handle : ESYS_TR_PASSWORD ≠ 4%Z.
Lemma sim_ideal rk w c : ideal rk w (Event c (sim_reply rk w c)).
Proof.
  destruct c; try exact I; cbn [ideal sim_reply].
  - intros _ dev Hd. unfold mounted_blob. rewrite Hd. cbn. by case_bool_decide.
  - intros Hp Hm dev Hd Hb. unfold mounted_blob. rewrite Hd. cbn. rewrite bool_decide_true by done. by eexists.
  - intros dev pos b -> ->. done.
  - intros E. case_bool_decide; [|done]. by split.
  - case_bool_decide; cbn [fst snd]; [|lia]. intros _. rewrite Nat2Z.id. rewrite drop_app_ge by (rewrite length_replicate; lia).
    by rewrite length_replicate, Nat.sub_diag, drop_0.
  - intros _. exists 4%Z. by split.
  - destruct (sessions w !! sess) as [[ty d]|]; [|done]. intros _. by exists ty, d.
  - cbv zeta. case_decide as E; [|done]. destruct E as [? ?]. split; [done|].
    eexists _, _. split; [apply f_equal, surjective_pairing|done].
  - case_decide; [|done]. destruct (unwrap _) as [ob|]; [|done]. intros _. split; [done|]. by exists 6%Z, ob.
  - destruct (objects w !! blob) as [ob|]; [|done]. destruct (authorised _ _ _) eqn:E; [|done]. intros _. by exists ob.
Qed.
Lemma sim_steady rk w c : steady w (Event c (sim_reply rk w c)).
Proof.
  destruct c; try exact I; cbn [steady sim_reply]; try exact (base_works _).
  - intros _ dev Hd. unfold mounted_blob. rewrite Hd. cbn. destruct (blobs w !! dev); [by rewrite bool_decide_false|by rewrite bool_decide_true].
  - intros Hc. rewrite bool_decide_false; [by eexists|]. unfold mounted_blob. intros (Hp & Hm & Hn).
    destruct Hc as [?|[?|(dev & Hd & Hb)]]; [done..|]. by rewrite Hd in Hn.
  - done.
  - by eexists.
  - by destruct (sessions w !! sess) as [[ty d]|].
  - intros Hpar (pub & priv & Hp). by rewrite decide_True by (split; [done|by eapply wrap_packs]).
  - intros Hpar. rewrite decide_True by done. by destruct (unwrap _).
  - intros ob ->. done.
Qed.
Lemma sim_reliable rk w : ReliableTpm (sim rk w) rk w.
Proof. constructor. intros h c. split; [apply sim_ideal|apply sim_steady]. Qed.
End Sim.
