(* ===== verification/Cominit.v ===== *)
(** * Cominit: the main program (src/cominit.c)

    The build modelled has [COMINIT_USE_TPM]; whether it has
    [COMINIT_FAKE_HSM], and the paths the build system passes in, are
    parameters. [main] is a program that normally ends in [execve]; the value
    it returns is its exit status. *)
From S2P Require Import Prelude CString Sys Output Common Crypto Keyring Meta Dmctl Minsetup.
From S2P Require Import Automount Subprocess Securememory Tpm.

(** Values the build passes to the compiler. *)
Class Build := {
  INITRD_SELINUX_POLICY_PATH : path;
  ROOTFS_SELINUX_POLICY_PATH : path;
  COMINIT_FAKE_HSM : option (list byte * path);  (* key descriptions and key directory *)
  COMINIT_VERSION_MAJOR : list byte; COMINIT_VERSION_MINOR : list byte; COMINIT_VERSION_MICRO : list byte;
  COMINIT_VERSION_GIT : list byte                (* empty without a commit hash *)
}.

Definition COMINIT_ROOT_WAIT_TRIES : nat := 10.
Definition COMINIT_ROOT_WAIT_INTERVAL_MILLIS : Z := 500.

(** ** Options *)

(** [strncmp] over the literal with its NUL: equality. *)
Definition cominitParamCheck (inputParam cmpShort cmpLong : list byte) : bool :=
  strncmp_eq inputParam cmpShort (length cmpShort + 1) || strncmp_eq inputParam cmpLong (length cmpLong + 1).

Definition cominitParseArgValue (arg key1 key2 : list byte) : option (list byte) :=
  let value key :=
    if strncmp_eq arg key (length key) && bool_decide (arg !! length key = Some Byte.x3d)
    then Some (drop (length key + 1) arg) else None in
  match value key1 with Some v => Some v | None => value key2 end.

(** [device] is the array the node is copied to. *)
Definition cominitParseDeviceNode (device argValue : option (list byte)) : Z * option (list byte) :=
  match device, argValue with
  | Some d, Some v =>
      if strncmp_eq v (lit "/dev/") 5 then
        let devNodeLen := strnlen v COMINIT_ROOTFS_DEV_PATH_MAX in
        if bool_decide (devNodeLen < COMINIT_ROOTFS_DEV_PATH_MAX)
        then (EXIT_SUCCESS, Some (overwrite d (take (devNodeLen + 1) (v ++ [x00]))))
        else (EXIT_FAILURE, device)
      else (EXIT_FAILURE, device)
  | _, _ => (EXIT_FAILURE, device)
  end.

(** How the option loop ends. *)
Inductive options := Options (a : cominitCliArgs_t) | ShowVersion | ShowUsage.

Definition set_devNodeRootFs (a : cominitCliArgs_t) v :=
  CliArgs (pcrSet a) (pcrIndex a) (pcrSealCount a) (pcrSeal a) (devNodeBlob a) (devNodeCrypt a)
    (enableSelinux a) (enableEnforceMode a) v (visibleLogLevel a).
Definition set_devNodeBlob (a : cominitCliArgs_t) v :=
  CliArgs (pcrSet a) (pcrIndex a) (pcrSealCount a) (pcrSeal a) v (devNodeCrypt a)
    (enableSelinux a) (enableEnforceMode a) (devNodeRootFs a) (visibleLogLevel a).
Definition set_devNodeCrypt (a : cominitCliArgs_t) v :=
  CliArgs (pcrSet a) (pcrIndex a) (pcrSealCount a) (pcrSeal a) (devNodeBlob a) v
    (enableSelinux a) (enableEnforceMode a) (devNodeRootFs a) (visibleLogLevel a).
Definition set_selinux (a : cominitCliArgs_t) en enf :=
  CliArgs (pcrSet a) (pcrIndex a) (pcrSealCount a) (pcrSeal a) (devNodeBlob a) (devNodeCrypt a)
    en enf (devNodeRootFs a) (visibleLogLevel a).
Definition set_visibleLogLevel (a : cominitCliArgs_t) l :=
  CliArgs (pcrSet a) (pcrIndex a) (pcrSealCount a) (pcrSeal a) (devNodeBlob a) (devNodeCrypt a)
    (enableSelinux a) (enableEnforceMode a) (devNodeRootFs a) l.

Section Main.
Context `{Libc} `{MbedTLS} `{TpmParams} `{DmParams} `{Build}.

(** ** Version and usage *)

(** The size of a string literal counts its NUL. *)
Definition cominitGetVersionString : list byte :=
  let version := COMINIT_VERSION_MAJOR ++ lit "." ++ COMINIT_VERSION_MINOR ++ lit "." ++ COMINIT_VERSION_MICRO in
  if bool_decide (1 < length COMINIT_VERSION_GIT + 1) then version ++ lit "." ++ COMINIT_VERSION_GIT else version.
Definition cominitPrintVersion : prog unit :=
  sys_ (Printf (lit "Compact Init (cominit) version " ++ cominitGetVersionString ++ [Byte.x0a])).
Definition usage_text : list byte :=
  lit "USAGE: cominit must be started by the Kernel as PID 1 from initramfs to set up a rootfs according to its" ++
  [Byte.x0a] ++ lit "       metadata and then switch into it. The location of the rootfs partition (e.g. " ++
  lit "/dev/<blkdevice><partno>)" ++ [Byte.x0a] ++
  lit "       is determined through an argument passed to cominit by the bootloader on the kernel command line." ++
  [Byte.x0a].
Definition cominitPrintUsage : prog unit := cominitPrintVersion;; sys_ (Printf usage_text).

(** ** The option loop *)

(** The initialiser of [argCtx]: every member it does not name is zero. *)
Definition initArgs : cominitCliArgs_t :=
  let node := replicate COMINIT_ROOTFS_DEV_PATH_MAX x00 in
  CliArgs false 0 0 (replicate (Z.to_nat TPM2_PT_PCR_COUNT) 0%Z) node node false false node
    COMINIT_LOG_LEVEL_INVALID.

(** An option that takes a value: [Some a'] to go on with the remaining tests
    of this argument, [None] with the state for [continue]. *)
Definition withValue (arg key1 key2 : list byte) (a : cominitCliArgs_t)
    (parse : list byte → prog (Z * cominitCliArgs_t))
    (rest : cominitCliArgs_t → prog cominitCliArgs_t) : prog cominitCliArgs_t :=
  match cominitParseArgValue arg key1 key2 with
  | None => rest a
  | Some v => '(r, a) ← parse v; if bool_decide (r = EXIT_FAILURE) then Ret a else rest a
  end.
Definition parseNode (d : list byte) (set : list byte → cominitCliArgs_t) (v : list byte)
    : prog (Z * cominitCliArgs_t) :=
  let '(r, d') := cominitParseDeviceNode (Some d) (Some v) in Ret (r, set (default d d')).

(** The body of the option loop after the tests for [-V] and [-h]. *)
Definition parseArg (arg : list byte) (a : cominitCliArgs_t) : prog cominitCliArgs_t :=
  withValue arg (lit "root") (lit "cominit.rootfs") a (parseNode (devNodeRootFs a) (set_devNodeRootFs a)) (λ a,
  withValue arg (lit "logLevel") (lit "cominit.logLevel") a
    (λ v, let '(r, l) := cominitOutputParseLogLevel (visibleLogLevel a) (Some v) in
          Ret (r, set_visibleLogLevel a l)) (λ a,
  let a := if cominitParamCheck arg (lit "selinux") (lit "cominit.selinux")
           then set_selinux a true (enableEnforceMode a) else a in
  let a := if cominitParamCheck arg (lit "enforcing") (lit "cominit.enforcing")
           then set_selinux a (enableSelinux a) true else a in
  withValue arg (lit "pcrExtend") (lit "cominit.pcrExtend") a
    (λ v, let '(r, a') := cominitTpmParsePcrIndex (Some a) (Some v) in Ret (r, default a a')) (λ a,
  withValue arg (lit "blob") (lit "cominit.blob") a (parseNode (devNodeBlob a) (set_devNodeBlob a)) (λ a,
  withValue arg (lit "pcrSeal") (lit "cominit.pcrSeal") a
    (λ v, '(r, a') ← cominitTpmParsePcrIndexes (Some a) (Some v); Ret (r, default a a')) (λ a,
  withValue arg (lit "crypt") (lit "cominit.crypt") a (parseNode (devNodeCrypt a) (set_devNodeCrypt a)) (λ a,
  Ret a)))))).

(** The loop. Asked for the version or the usage, [main] prints it and returns
    at once. *)
Fixpoint parseArgs (argv : list (list byte)) (a : cominitCliArgs_t) : prog options :=
  match argv with
  | [] => Ret (Options a)
  | arg :: argv =>
      if cominitParamCheck arg (lit "-V") (lit "--version") then Ret ShowVersion else
      if cominitParamCheck arg (lit "-h") (lit "--help") then Ret ShowUsage else
      a ← parseArg arg a;
      parseArgs argv a
  end.

Definition cominitUseTpm (argCtx : option cominitCliArgs_t) : bool :=
  if cominitTpmExtendEnabled argCtx then true else cominitTpmSecureStorageEnabled argCtx.

(** ** Waiting for the rootfs *)

(** [clock_nanosleep] answers its error as a positive number and never -1, so
    neither test of [ret == -1] can succeed. *)
Definition cominitMicroSleep (micros : Z) : prog Z :=
  r ← sys ClockGettime;
  match r with
  | Err _ => Ret (-1)%Z
  | Ok (sec, nsec0) =>
      let sec := (sec + micros / 1000000)%Z in
      let nsec := (micros mod 1000000 * 1000 + nsec0)%Z in
      let sec := (sec + nsec / 1000000000)%Z in
      let nsec := (nsec mod 1000000000)%Z in
      sys_ (ClockNanosleep sec nsec);;
      Ret 0%Z
  end.

Definition cominitDiscoverRootfs (argCtx : option cominitCliArgs_t) (rfsMeta : option cominitRfsMetaData_t)
    (gptDiskRoot : option cominitGPTDisk_t)
    : prog (bool * option cominitRfsMetaData_t * option cominitGPTDisk_t) :=
  match argCtx, rfsMeta, gptDiskRoot with
  | Some a, Some m, Some d =>
      if isSet (devNodeRootFs a) then
        r ← sys (Stat (cstr (devNodeRootFs a)));
        match r with
        | Ok _ => Ret (true, Some (set_devicePath m (devNodeRootFs a)), Some d)
        | Err _ => Ret (false, Some m, Some d)
        end
      else
        '(r, d', pn) ← cominitAutomountFindPartition (Some d) (Some COMINIT_ROOTFS_GUID_TYPE)
                         (Some (devicePath m)) COMINIT_ROOTFS_DEV_PATH_MAX;
        Ret (bool_decide (r = EXIT_SUCCESS), Some (set_devicePath m (default (devicePath m) pn)), d')
  | _, _, _ => Ret (false, rfsMeta, gptDiskRoot)
  end.

(** The loop around it; [n] further tries are left. *)
Fixpoint discoverLoop (n : nat) (a : cominitCliArgs_t) (m : cominitRfsMetaData_t) (d : cominitGPTDisk_t)
    : prog (bool * cominitRfsMetaData_t * cominitGPTDisk_t) :=
  '(found, m', d') ← cominitDiscoverRootfs (Some a) (Some m) (Some d);
  let m := default m m' in
  let d := default d d' in
  if found : bool then Ret (true, m, d) else
  match n with
  | O => Ret (false, m, d)
  | S n => cominitMicroSleep (COMINIT_ROOT_WAIT_INTERVAL_MILLIS * 1000);; discoverLoop n a m d
  end.

(** ** SELinux *)

Definition SELINUX_LOAD : path := lit "/sys/fs/selinux/load".
Definition SELINUX_ENFORCE : path := lit "/sys/fs/selinux/enforce".

Definition cominitLoadSelinuxPolicy (policyPath : option path) : prog Z :=
  match policyPath with
  | None => Ret EXIT_FAILURE
  | Some p =>
      r ← sys (Open p O_RDONLY_CLOEXEC);
      match r with
      | Err _ => Ret EXIT_FAILURE
      | Ok fd =>
          result ←
            (r ← sys (Fstat fd);
             match r with
             | Err _ => Ret EXIT_FAILURE
             | Ok sb =>
                 r ← sys (Mmap fd (st_size sb));
                 match r with
                 | Err _ => Ret EXIT_FAILURE
                 | Ok data =>
                     result ←
                       (r ← sys (Open SELINUX_LOAD O_RDWR_CLOEXEC);
                        match r with
                        | Err _ => Ret EXIT_FAILURE
                        | Ok lfd =>
                            w ← sys (Write lfd data);
                            sys_ (Close lfd);;
                            Ret (match w with Err _ => EXIT_FAILURE | Ok _ => EXIT_SUCCESS end)
                        end);
                     sys_ (Munmap (st_size sb));;
                     Ret result
                 end
             end);
          sys_ (Close fd);;
          Ret result
      end
  end.

Definition cominitSetSelinuxMode (value : Z) : prog Z :=
  r ← sys (Open SELINUX_ENFORCE O_RDWR_CLOEXEC);
  match r with
  | Err _ => Ret EXIT_FAILURE
  | Ok fd =>
      let buf := if bool_decide (value < 0)%Z then lit "-" ++ dec (- value) else dec value in
      w ← sys (Write fd buf);
      sys_ (Close fd);;
      Ret (match w with Err _ => EXIT_FAILURE | Ok _ => EXIT_SUCCESS end)
  end.

Definition mainSelinux (a : cominitCliArgs_t) : prog unit :=
  if enableSelinux a then
    r ← cominitSetupSysSelinuxfiles;
    if bool_decide (r = -1)%Z then Ret tt else
    cominitLoadSelinuxPolicy (Some INITRD_SELINUX_POLICY_PATH);;
    cominitLoadSelinuxPolicy (Some ROOTFS_SELINUX_POLICY_PATH);;
    if enableEnforceMode a then cominitSetSelinuxMode 1;; Ret tt else Ret tt
  else Ret tt.

(** ** TPM *)

(** The node of the secure storage: given, or found on the rootfs disk, or
    searched on all disks. *)
Definition mainFindCrypt (a : cominitCliArgs_t) (gptDiskRoot : cominitGPTDisk_t) : prog cominitCliArgs_t :=
  if isSet (devNodeCrypt a) then Ret a else
  if isSet (diskName gptDiskRoot) then
    '(_, pn) ← cominitAutomountFindPartitionOnDisk (Some gptDiskRoot) (Some COMINIT_SECURE_STORAGE_GUID_TYPE)
                 (Some (devNodeCrypt a)) COMINIT_ROOTFS_DEV_PATH_MAX;
    Ret (set_devNodeCrypt a (default (devNodeCrypt a) pn))
  else
    '(_, _, pn) ← cominitAutomountFindPartition (Some zero_disk) (Some COMINIT_SECURE_STORAGE_GUID_TYPE)
                    (Some (devNodeCrypt a)) COMINIT_ROOTFS_DEV_PATH_MAX;
    Ret (set_devNodeCrypt a (default (devNodeCrypt a) pn)).

(** [tpmCtx] is an uninitialised local. *)
Definition mainTpm (a : cominitCliArgs_t) : prog unit :=
  if cominitUseTpm (Some a) then
    '(result, c) ← cominitInitTpm (Some (TpmContext PUninit PUninit));
    let c := default (TpmContext PUninit PUninit) c in
    (if bool_decide (result ≠ EXIT_SUCCESS) then Ret tt else
     (if cominitTpmExtendEnabled (Some a)
      then cominitTpmExtendPCR (Some c) (Some COMINIT_ROOTFS_KEY_LOCATION) (pcrIndex a);; Ret tt
      else Ret tt);;
     (if cominitTpmSecureStorageEnabled (Some a) then
        state ← cominitTpmProtectData c a;
        match state with
        | TpmPolicyFailure => let _ := cominitTpmHandlePolicyFailure (Some c) in Ret tt
        | Unsealed | Sealed | TpmFailure => Ret tt
        end
      else Ret tt));;
    cominitDeleteTpm (Some c);;
    Ret tt
  else Ret tt.

(** ** main *)

Definition rescue : prog Z :=
  r ← sys (Execve (lit "/bin/sh") [lit "/bin/sh"]);
  match r with None => Stop (Execed (lit "/bin/sh")) | Some _ => Ret EXIT_FAILURE end.

(** From the mounted rootfs to its init. *)
Definition mainSwitch (a : cominitCliArgs_t) : prog Z :=
  (if cominitTpmSecureStorageEnabled (Some a) then cominitTpmMountSecureStorage;; Ret tt else Ret tt);;
  mainSelinux a;;
  (if enableSelinux a then cominitCleanupSelinuxfiles;; Ret tt else Ret tt);;
  cominitCleanupSysfiles;;
  r ← cominitSwitchIntoRootfs;
  if bool_decide (r = -1)%Z then rescue else
  r ← sys (Execve (lit "/sbin/init") [lit "/sbin/init"]);
  match r with None => Stop (Execed (lit "/sbin/init")) | Some _ => rescue end.

(** From the verified metadata to the mounted rootfs. *)
Definition mainMount (a : cominitCliArgs_t) (m : cominitRfsMetaData_t) (d : cominitGPTDisk_t) : prog Z :=
  if bool_decide (Z.land (crypt m) COMINIT_CRYPTOPT_CRYPT ≠ 0)%Z then rescue else
  a ← mainFindCrypt a d;
  mainTpm a;;
  '(r, _) ← cominitSetupRootfs (Some m);
  if bool_decide (r = -1)%Z then rescue else
  mainSwitch a.

Definition main (argv : list (list byte)) : prog Z :=
  args ← parseArgs argv initArgs;
  match args with
  | ShowVersion => cominitPrintVersion;; Ret EXIT_FAILURE
  | ShowUsage => cominitPrintUsage;; Ret EXIT_FAILURE
  | Options a =>
      sys_ Setsid;;
      sys_ (Umask 0);;
      r ← cominitSetupSysfiles;
      if bool_decide (r = -1)%Z then rescue else
      (match COMINIT_FAKE_HSM with
       | Some (descs, dir) => cominitKeyringInitFakeHsm descs dir;; Ret tt
       | None => Ret tt
       end);;
      '(found, m, d) ← discoverLoop COMINIT_ROOT_WAIT_TRIES a zero_meta zero_disk;
      if negb found then rescue else
      '(r, m) ← cominitLoadVerifyMetadata COMINIT_PART_META_DATA_SIZE m COMINIT_ROOTFS_KEY_LOCATION;
      if bool_decide (r = -1)%Z then rescue else
      mainMount a m d
  end.
End Main.
