(* ===== verification/CominitArgs.v ===== *)
(** * CominitArgs: the option parsing of Cominit.v *)
From S2P Require Import Prelude CString Sys Output Common Crypto Dmctl Tpm TpmPcr Cominit.

(** ** key=value arguments *)

(** [arg] is [key=v]. *)
Definition assigns (key v arg : list byte) : Prop := arg = key ++ Byte.x3d :: v.

Lemma assigns_value arg key v :
  nonul arg → nonul key →
  (if strncmp_eq arg key (length key) && bool_decide (arg !! length key = Some Byte.x3d)
   then Some (drop (length key + 1) arg) else None) = Some v ↔ assigns key v arg.
Proof.
  intros Ha Hk. unfold assigns. split.
  - destruct (strncmp_eq _ _ _) eqn:E; [|done]. apply strncmp_eq_prefix in E as [r ->]; [|done|done].
    cbn [andb]. case_bool_decide as Eq; [|done]. rewrite lookup_app_r, Nat.sub_diag in Eq by lia.
    destruct r as [|b r]; [done|]. injection Eq as ->. intros [= <-].
    rewrite drop_app_ge by lia. replace (length key + 1 - length key) with 1 by lia. done.
  - intros ->. assert (strncmp_eq (key ++ Byte.x3d :: v) key (length key) = true) as ->.
    { apply strncmp_eq_prefix; [done|done|by eexists]. }
    rewrite bool_decide_true by by rewrite lookup_app_r, Nat.sub_diag. cbn [andb].
    rewrite drop_app_ge by lia. replace (length key + 1 - length key) with 1 by lia. done.
Qed.

(** cominitParseArgValue returns v exactly when the argument is key1=v or, not being an assignment to
    key1, is key2=v. *)
Theorem parse_arg_value_exact arg key1 key2 v
    (Harg : nonul arg) (Hk1 : nonul key1) (Hk2 : nonul key2) :
  cominitParseArgValue arg key1 key2 = Some v ↔
    assigns key1 v arg ∨ ((∀ v', ¬ assigns key1 v' arg) ∧ assigns key2 v arg).
Proof.
  unfold cominitParseArgValue. cbv zeta.
  destruct (if strncmp_eq arg key1 (length key1) && _ then _ else None) as [v1|] eqn:E1.
  - apply assigns_value in E1; [|done|done]. split.
    + intros [= <-]. by left.
    + intros [H1|[H1 _]]; [|by destruct (H1 v1)]. unfold assigns in *. subst arg.
      apply app_inv_head in H1. congruence.
  - assert (∀ v', ¬ assigns key1 v' arg) as Hno.
    { intros v' Hv'. apply assigns_value in Hv'; [|done|done]. congruence. }
    rewrite assigns_value by done. split; [by right|]. intros [H1|[_ H1]]; [by destruct (Hno v)|done].
Qed.

(** ** Device nodes *)

Lemma strnlen_nonul s n : nonul s → strnlen s n = Nat.min n (length s).
Proof. intros Hs. unfold strnlen. rewrite cstr_id by by apply nonul_take. apply length_take. Qed.

Lemma ParseDeviceNode_spec d v :
  char_array COMINIT_ROOTFS_DEV_PATH_MAX d → nonul v →
  let '(r, d') := cominitParseDeviceNode (Some d) (Some v) in
  ((r = EXIT_SUCCESS ∧ (∃ s, v = lit "/dev/" ++ s) ∧ length v < COMINIT_ROOTFS_DEV_PATH_MAX ∧
      ∃ a, d' = Some a ∧ cstr a = v ∧ char_array COMINIT_ROOTFS_DEV_PATH_MAX a) ∨
   (r = EXIT_FAILURE ∧ d' = Some d ∧
      ((¬ ∃ s, v = lit "/dev/" ++ s) ∨ COMINIT_ROOTFS_DEV_PATH_MAX <= length v))).
Proof.
  intros Hd Hv. unfold cominitParseDeviceNode.
  assert (strncmp_eq v (lit "/dev/") 5 = true ↔ ∃ s, v = lit "/dev/" ++ s) as Hp.
  { apply (strncmp_eq_prefix v (lit "/dev/")); [done|by apply (bool_decide_unpack _)]. }
  destruct (strncmp_eq v (lit "/dev/") 5); [|right; split_and!; [done|done|left; by rewrite <-Hp]].
  rewrite strnlen_nonul by done. case_bool_decide as Hl.
  2: { right. split_and!; [done|done|right; lia]. }
  rewrite Nat.min_r by lia. left. split_and!; [done|by apply Hp|lia|]. eexists. split; [reflexivity|].
  rewrite take_ge by (rewrite length_app; simpl; lia). unfold overwrite.
  destruct Hd as [Hlen _]. split_and!.
  - rewrite <-app_assoc. by apply cstr_app.
  - split; [rewrite !length_app, length_drop; simpl; lia|]. unfold terminated. apply bool_decide_eq_true. rewrite !elem_of_app. left; right. by apply list_elem_of_singleton.
Qed.

(** cominitParseDeviceNode accepts exactly the strings that start with /dev/ and have fewer than 256
    bytes; it then stores the string in the array, and otherwise leaves the array unchanged. *)
Theorem parse_device_node_exact d v
    (Hd : char_array COMINIT_ROOTFS_DEV_PATH_MAX d) (Hv : nonul v) :
  let '(r, d') := cominitParseDeviceNode (Some d) (Some v) in
  ((r = EXIT_SUCCESS ∧ (∃ s, v = lit "/dev/" ++ s) ∧ length v < COMINIT_ROOTFS_DEV_PATH_MAX ∧
      ∃ a, d' = Some a ∧ cstr a = v ∧ char_array COMINIT_ROOTFS_DEV_PATH_MAX a) ∨
   (r = EXIT_FAILURE ∧ d' = Some d ∧
      ((¬ ∃ s, v = lit "/dev/" ++ s) ∨ COMINIT_ROOTFS_DEV_PATH_MAX <= length v))).
Proof. exact (ParseDeviceNode_spec d v Hd Hv). Qed.

(** ** The whole command line *)

(** Well-formed options: the nodes are strings in arrays of their size, the
    PCRs are below the bound, the count is the number of valid entries. *)
Record args_wf `{TpmParams} (a : cominitCliArgs_t) : Prop := {
  awf_rootfs : char_array COMINIT_ROOTFS_DEV_PATH_MAX (devNodeRootFs a);
  awf_blob : char_array COMINIT_ROOTFS_DEV_PATH_MAX (devNodeBlob a);
  awf_crypt : char_array COMINIT_ROOTFS_DEV_PATH_MAX (devNodeCrypt a);
  awf_index : pcrSet a = true → pcr_ok (pcrIndex a);
  awf_count : (0 <= pcrSealCount a <= Z.of_nat (length (pcrSeal a)))%Z;
  awf_seal : Forall pcr_ok (sealed a);
  awf_size : length (pcrSeal a) = Z.to_nat TPM2_PT_PCR_COUNT
}.

Section Args.
Context `{Libc} `{MbedTLS} `{TpmParams} `{DmParams} `{Build}.

Lemma char_array_zero : char_array COMINIT_ROOTFS_DEV_PATH_MAX (replicate COMINIT_ROOTFS_DEV_PATH_MAX x00).
Proof. split; by vm_compute. Qed.
Lemma initArgs_wf : args_wf initArgs.
Proof.
  split; try apply char_array_zero; cbn; try done; [rewrite length_replicate; lia|by rewrite length_replicate].
Qed.

(** Total and well-formed. *)
Definition wf_ret (p : prog cominitCliArgs_t) : Prop := ∃ a, p = Ret a ∧ args_wf a.

Lemma ParseArgValue_nonul arg k1 k2 v : nonul arg → cominitParseArgValue arg k1 k2 = Some v → nonul v.
Proof.
  intros Ha. unfold cominitParseArgValue. cbv zeta.
  repeat (case_goal; simplify_eq); intros [= <-]; by apply nonul_drop.
Qed.
Lemma withValue_wf arg k1 k2 a parse rest :
  nonul arg → args_wf a → (∀ v, nonul v → ∃ r a', parse v = Ret (r, a') ∧ args_wf a') →
  (∀ a, args_wf a → wf_ret (rest a)) → wf_ret (withValue arg k1 k2 a parse rest).
Proof.
  intros Harg Ha Hp Hr. unfold withValue. destruct (cominitParseArgValue arg k1 k2) as [v|] eqn:E; [|by apply Hr].
  apply ParseArgValue_nonul in E; [|done].
  destruct (Hp v E) as (r & a' & -> & Ha'). rewrite bind_ret. case_bool_decide; [by eexists|by apply Hr].
Qed.
Lemma parseNode_wf d set v :
  char_array COMINIT_ROOTFS_DEV_PATH_MAX d → nonul v →
  (∀ d', char_array COMINIT_ROOTFS_DEV_PATH_MAX d' → args_wf (set d')) →
  ∃ r a', parseNode d set v = Ret (r, a') ∧ args_wf a'.
Proof.
  intros Hd Hv Hset. unfold parseNode. pose proof (ParseDeviceNode_spec d v Hd Hv) as Hs.
  destruct (cominitParseDeviceNode _ _) as [r d']. eexists _, _. split; [reflexivity|]. apply Hset.
  destruct Hs as [(_ & _ & _ & a & -> & _ & Ha)|(_ & -> & _)]; done.
Qed.
Lemma set_pcr_wf a idx : args_wf a → pcr_ok idx → args_wf (set_pcr a true idx).
Proof. intros [] ?. by split. Qed.
Lemma unset_pcr_wf a idx : args_wf a → args_wf (set_pcr a false idx).
Proof. intros []. by split. Qed.
Lemma set_pcrSeal_wf a n seal : args_wf a → length seal = length (pcrSeal a) →
  (0 <= n <= Z.of_nat (length (pcrSeal a)))%Z → Forall pcr_ok (take (Z.to_nat n) seal) → args_wf (set_pcrSeal a n seal).
Proof. intros [] Hl ? ?. split; try done; cbn; rewrite Hl; done. Qed.
Lemma strtoul0_nonneg v : (0 <= st_val (strtoul 0 v))%Z.
Proof.
  unfold strtoul. destruct (span isspace v) as [? s1], (strto_sign s1) as [neg s2].
  assert (0 <= (strto_base 0 s2).1)%Z as Hb by (unfold strto_base; repeat case_match; simpl; lia).
  destruct (strto_base 0 s2) as [b s3]. simpl in Hb.
  destruct (span (is_base_digit b) s3) as [[|d ds] rest]; [simpl; lia|].
  pose proof (digits_value_nonneg b (d :: ds) Hb). unfold ULONG_MAX.
  case_bool_decide; cbn [st_val]; [lia|]. destruct neg; [apply u64_range|lia].
Qed.
Lemma ParsePcrIndex_wf a v : args_wf a →
  ∃ r a', cominitTpmParsePcrIndex (Some a) (Some v) = (r, Some a') ∧ args_wf a'.
Proof.
  intros Ha. unfold cominitTpmParsePcrIndex. destruct (_ && _) eqn:E; eexists _, _; (split; [reflexivity|]).
  - apply set_pcr_wf; [done|]. apply andb_true_iff in E as [_ E%bool_decide_eq_true].
    split; [|done]. apply strtoul0_nonneg.
  - by apply unset_pcr_wf.
Qed.
Lemma ParsePcrIndexes_wf a v : args_wf a →
  ∃ r a', cominitTpmParsePcrIndexes (Some a) (Some v) = Ret (r, Some a') ∧ args_wf a'.
Proof.
  intros Ha. unfold cominitTpmParsePcrIndexes.
  destruct (ParsePcrIndexes_loop_sound (length v) v 0 (pcrSeal a)) as (i & seal & -> & Hs1 & Hs2 & Hs3);
    [done|lia|by rewrite take_0|].
  rewrite bind_ret. eexists _, _. split; [reflexivity|]. apply set_pcrSeal_wf; [done|done|lia|by rewrite Nat2Z.id].
Qed.

Lemma parseArg_wf arg a : nonul arg → args_wf a → wf_ret (parseArg arg a).
Proof.
  intros Harg Ha. unfold parseArg.
  apply withValue_wf; [done|done|intros v Hv; apply parseNode_wf; [by apply Ha|done|by destruct Ha]|clear a Ha; intros a Ha].
  apply withValue_wf; [done|done| |clear a Ha; intros a Ha].
  { intros v _. destruct (cominitOutputParseLogLevel _ _) as [r l]. eexists _, _. split; [reflexivity|]. by destruct Ha. }
  cbv zeta. set (a1 := if cominitParamCheck arg (lit "selinux") _ then _ else _).
  assert (args_wf a1) as Ha1 by (unfold a1; case_match; [by destruct Ha|done]).
  set (a2 := if cominitParamCheck arg (lit "enforcing") _ then _ else _).
  assert (args_wf a2) as Ha2 by (unfold a2; case_match; [by destruct Ha1|done]).
  clearbody a2. clear a a1 Ha Ha1.
  apply withValue_wf; [done|done| |clear a2 Ha2; intros a Ha].
  { intros v _. destruct (ParsePcrIndex_wf a2 v Ha2) as (r & a' & -> & Ha'). by eexists _, _. }
  apply withValue_wf; [done|done|intros v Hv; apply parseNode_wf; [by apply Ha|done|by destruct Ha]|clear a Ha; intros a Ha].
  apply withValue_wf; [done|done| |clear a Ha; intros a Ha].
  { intros v _. destruct (ParsePcrIndexes_wf a v Ha) as (r & a' & -> & Ha'). rewrite bind_ret. by eexists _, _. }
  apply withValue_wf; [done|done|intros v Hv; apply parseNode_wf; [by apply Ha|done|by destruct Ha]|clear a Ha; intros a Ha].
  by eexists.
Qed.

Lemma parseArgs_wf argv a : Forall nonul argv → args_wf a →
  ∃ r, parseArgs argv a = Ret r ∧ (∀ a', r = Options a' → args_wf a').
Proof.
  intros Hv. revert a. induction Hv as [|arg argv Harg _ IH]; intros a Ha.
  { eexists. split; [reflexivity|]. by intros a' [= <-]. }
  cbn [parseArgs]. case_match; [by eexists|]. case_match; [by eexists|].
  destruct (parseArg_wf arg a Harg Ha) as (a' & -> & Ha'). rewrite bind_ret. by apply IH.
Qed.

(** C35: For every argument vector the option loop of main ends without undefined behaviour, and the
    options it leaves are well-formed: device nodes are terminated strings in arrays of 256 bytes, the
    PCR count is within the array and all counted indexes and a set extension index are below the PCR
    bound. *)
Theorem parse_args_total_wf argv (Hargv : Forall nonul argv) :
  ∃ r, parseArgs argv initArgs = Ret r ∧ (∀ a, r = Options a → args_wf a).
Proof. apply parseArgs_wf; [done|apply initArgs_wf]. Qed.

(** ** Version and usage *)

(** The information options; [true] for the usage. *)
Definition info_arg (arg : list byte) : option bool :=
  if decide (arg = lit "-V" ∨ arg = lit "--version") then Some false
  else if decide (arg = lit "-h" ∨ arg = lit "--help") then Some true else None.
Definition version_line : list byte :=
  lit "Compact Init (cominit) version " ++ cominitGetVersionString ++ [Byte.x0a].

Lemma ParamCheck_exact arg s l : nonul arg → nonul s → nonul l →
  cominitParamCheck arg s l = bool_decide (arg = s ∨ arg = l).
Proof.
  intros Ha Hs Hl. unfold cominitParamCheck. apply Bool.eq_iff_eq_true.
  rewrite orb_true_iff, bool_decide_eq_true. by rewrite !strncmp_eq_full by (done || lia).
Qed.
Lemma parseArgs_info argv a : Forall nonul argv → args_wf a →
  ∃ r, parseArgs argv a = Ret r ∧
    match head (omap info_arg argv) with
    | Some usage => r = (if usage : bool then ShowUsage else ShowVersion)
    | None => ∃ a', r = Options a'
    end.
Proof.
  intros Hv. revert a. induction Hv as [|arg argv Harg _ IH]; intros a Ha; [eexists; split; [reflexivity|by eexists]|].
  cbn [parseArgs omap list_omap]. rewrite !ParamCheck_exact by (done || by apply (bool_decide_unpack _)).
  destruct (decide (arg = lit "-V" ∨ arg = lit "--version")) as [E1|E1].
  { rewrite bool_decide_true by done. unfold info_arg. rewrite decide_True by done. by eexists. }
  destruct (decide (arg = lit "-h" ∨ arg = lit "--help")) as [E2|E2].
  { rewrite bool_decide_false, bool_decide_true by done. unfold info_arg.
    rewrite decide_False, decide_True by done. by eexists. }
  rewrite !bool_decide_false by done. unfold info_arg at 1. rewrite !decide_False by done.
  destruct (parseArg_wf arg a Harg Ha) as (a' & -> & Ha'). rewrite bind_ret. by apply IH.
Qed.

(** If the arguments contain -V, --version, -h or --help, the first of them decides: main prints the
    version line, and after it the usage text for the latter two, makes no other call and returns
    EXIT_FAILURE; without them its first call is setsid. *)
Theorem info_options_only_print o argv (Hargv : Forall nonul argv) :
  let '(out, t) := run o [] (main argv) in
  match head (omap info_arg argv) with
  | Some usage =>
      out = Done EXIT_FAILURE ∧
      map ev_call t = Printf version_line :: (if usage : bool then [Printf usage_text] else [])
  | None => head (map ev_call t) = Some Setsid
  end.
Proof.
  destruct (parseArgs_info argv initArgs Hargv initArgs_wf) as (r & Hr & Hi). unfold main. rewrite Hr, bind_ret.
  destruct (head _) as [[]|]; [subst r..|destruct Hi as [a ->]]; [done|done|].
  rewrite run_bind. cbn [run sys_]. by destruct (run _ _ _).
Qed.
End Args.
