(* ===== verification/BootSpec.v ===== *)
(** * BootSpec: the boot as an abstract machine

    What a boot promises, without the code: the phases it goes through, the
    calls each phase may make, and what leads from one phase to the next. The
    events also act on the mount namespace of the process, and an invariant of
    the machine says which file system is the root directory in each phase.
    CominitRefine.v shows that every run of [main] is a run of this machine. *)
From S2P Require Import Prelude CString Sys Output Common Crypto Keyring Meta MetaProofs Dmctl.
From S2P Require Import Minsetup MinsetupProofs Subprocess Tpm Footprint.

Definition INIT : path := lit "/sbin/init".
Definition SHELL : path := lit "/bin/sh".

(** ** The mount namespace

    The effect of the calls of mount(2), umount(2), chdir(2) and chroot(2) on
    the mounts, the working directory and the root directory of the process. A
    file system is identified by the arguments it was mounted with; [None] is
    the initramfs. *)
Record filesystem := Fs { fs_source : path; fs_kind : option (list byte); fs_flags : list mount_flag }.
Record namespace := Ns { mounts : list (path * filesystem); cwd : option filesystem; root : option filesystem }.
Definition initramfs : namespace := Ns [] None None.

(** The file system mounted last at a path. *)
Fixpoint mount_at (p : path) (l : list (path * filesystem)) : option filesystem :=
  match l with [] => None | (q, f) :: l => if decide (p = q) then Some f else mount_at p l end.
Fixpoint unmount (p : path) (l : list (path * filesystem)) : list (path * filesystem) :=
  match l with [] => [] | (q, f) :: l => if decide (p = q) then l else (q, f) :: unmount p l end.
(** The file system of a directory: "/" names the root directory itself, below
    whatever was mounted over it. *)
Definition dir_fs (ns : namespace) (p : path) : option filesystem :=
  if decide (p = lit ".") then cwd ns else if decide (p = lit "/") then root ns else mount_at p (mounts ns).

Definition ns_step (ns : namespace) (e : event) : namespace :=
  let '(Event c r) := e in
  match c return reply c → namespace with
  | Mount src tgt ty fl => λ r, match r with
      | Err _ => ns
      | Ok _ =>
          if decide (MS_MOVE ∈ fl) then
            match mount_at src (mounts ns) with
            | Some f => Ns ((tgt, f) :: unmount src (mounts ns)) (cwd ns) (root ns)
            | None => ns
            end
          else Ns ((tgt, Fs src ty fl) :: mounts ns) (cwd ns) (root ns)
      end
  | Umount p | Umount2Detach p => λ r, match r with
      | Err _ => ns
      | Ok _ => Ns (unmount p (mounts ns)) (cwd ns) (root ns)
      end
  | Chdir p => λ r, match r with Err _ => ns | Ok _ => Ns (mounts ns) (dir_fs ns p) (root ns) end
  | Chroot p => λ r, match r with Err _ => ns | Ok _ => Ns (mounts ns) (cwd ns) (dir_fs ns p) end
  | _ => λ _, ns
  end r.
(** The namespace after a trace. *)
Definition ns_after (t : trace) : namespace := foldl ns_step initramfs t.

(** ** The machine *)

Section Machine.
Context `{Libc} `{MbedTLS} `{DmParams}.

(** [Verified m]: metadata [m] was accepted. [Mounted m m1]: the rootfs it
    describes is at /newroot, with [m1] the metadata afterwards. [Failed]: the
    boot is given up, only the rescue shell can follow. *)
Inductive phase :=
  | Idle | Searching
  | Verified (m : cominitRfsMetaData_t)
  | Mounted (m m1 : cominitRfsMetaData_t)
  | Switched (m m1 : cominitRfsMetaData_t)
  | Failed
  | InitRuns (m m1 : cominitRfsMetaData_t)
  | ShellRuns | GivenUp.

(** A program the secure storage needs. *)
Definition helper (p : path) : bool :=
  bool_decide (p = COMINIT_CRYPTSETUP_DIR) || bool_decide (p = lit "/sbin/mkfs.ext4").

(** The calls of a phase that do not leave it. Before the metadata is verified
    nothing is mounted and nothing runs; helper programs and TPM commands are
    confined to the time before the rootfs is mounted. *)
Definition work_call (s : phase) (c : call) : bool :=
  match s with
  | Idle => match c with Setsid | Umask _ => true | _ => false end
  | Searching => search_call c || load_call c || enrol_call c
  | Verified _ =>
      probe_call c || tpm_call c || spawn_call c ||
      match c with EsysPolicyPCR _ _ _ => true | Execve p _ => helper p | _ => false end
  | Mounted _ _ => storage_mount_call c || selinux_call c || detach_call c
  | Switched _ _ | Failed | InitRuns _ _ | ShellRuns | GivenUp => false
  end.
(** What a phase may have tried before it gives up. *)
Definition attempt (s : phase) (e : event) : bool :=
  match s with
  | Idle => sysfile_call (ev_call e)
  | Searching => load_call (ev_call e)
  | Verified _ => rootfs_call (ev_call e) && negb (newroot_mounted e)
  | Mounted _ _ => switch_call (ev_call e)
  | Switched _ _ => match ev_call e with Execve p _ => bool_decide (p = INIT) | _ => false end
  | Failed | InitRuns _ _ | ShellRuns | GivenUp => false
  end.
Definition running (s : phase) : bool :=
  match s with Failed | InitRuns _ _ | ShellRuns | GivenUp => false | _ => true end.

(** The minimal system is there: directories exist, the file systems are
    mounted or were before. *)
Definition made (r : res unit) : Prop := r = Ok tt ∨ r = Err EEXIST.
Definition there (r : res unit) : Prop := r = Ok tt ∨ r = Err EBUSY.
Definition sysfiles_ready (t : trace) : Prop :=
  ∃ r1 r2 r3 r4, made r1 ∧ there r2 ∧ made r3 ∧ there r4 ∧
    t = [Event (Umask 0) tt;
         Event (Mkdir (lit "/dev") mode_0755) r1;
         Event (Mount (lit "none") (lit "/dev") (Some (lit "devtmpfs")) [MS_NOEXEC; MS_NOSUID]) r2;
         Event (Mkdir (lit "/proc") mode_0555) r3;
         Event (Mount (lit "none") (lit "/proc") (Some (lit "proc")) [MS_NODEV; MS_NOEXEC; MS_NOSUID]) r4;
         Event (Umask mode_0022) tt].

Inductive bstep : phase → trace → phase → Prop :=
  | bs_info t : Forall (λ e, match ev_call e with Printf _ => True | _ => False end) t → bstep Idle t GivenUp
  | bs_work s c r : work_call s c = true → bstep s [Event c r] s
  | bs_minimal t : sysfiles_ready t → bstep Idle t Searching
  | bs_verify m m' t :
      meta_loaded m COMINIT_ROOTFS_KEY_LOCATION m' t →
      Z.land (crypt m') COMINIT_CRYPTOPT_CRYPT = 0%Z → bstep Searching t (Verified m')
  | bs_mount m m1 t : rootfs_mounted m m1 t → bstep (Verified m) t (Mounted m m1)
  | bs_switch m m1 t : switched t → bstep (Mounted m m1) t (Switched m m1)
  | bs_init m m1 : bstep (Switched m m1) [Event (Execve INIT [INIT]) None] (InitRuns m m1)
  | bs_fail s t : running s = true → Forall (λ e, attempt s e = true) t → bstep s t Failed
  | bs_shell : bstep Failed [Event (Execve SHELL [SHELL]) None] ShellRuns
  | bs_halt e : bstep Failed [Event (Execve SHELL [SHELL]) (Some e)] GivenUp.

(** Reachable phases, with the trace that leads there. *)
Inductive breach : trace → phase → Prop :=
  | br_start : breach [] Idle
  | br_step t s u s' : breach t s → bstep s u s' → breach (t ++ u) s'.

Lemma breach_work t s u : breach t s → Forall (λ e, work_call s (ev_call e) = true) u → breach (t ++ u) s.
Proof.
  intros Ht Hu. revert t Ht. induction Hu as [|[c r] u Hc _ IH]; intros t Ht; [by rewrite app_nil_r|].
  rewrite cons_middle, app_assoc. apply IH. eapply br_step; [done|]. by constructor.
Qed.

(** ** The root directory *)

(** The file system the metadata describes. *)
Definition rootfs_fs (m1 : cominitRfsMetaData_t) : filesystem :=
  Fs (cstr (devicePath m1)) (Some (cstr (fsType m1))) (if ro m1 then [MS_RDONLY] else []).
(** [t] has read [m] from a device and verified it with the rootfs key. *)
Definition verified (t : trace) (m : cominitRfsMetaData_t) : Prop :=
  ∃ m0 ta tv tb, t = ta ++ tv ++ tb ∧
    meta_loaded m0 COMINIT_ROOTFS_KEY_LOCATION m tv ∧
    Z.land (crypt m) COMINIT_CRYPTOPT_CRYPT = 0%Z.
(** [m1] names the partition of [m] itself, or the device mapper device that
    guards it. *)
Definition guards (m m1 : cominitRfsMetaData_t) : Prop :=
  (crypt m = COMINIT_CRYPTOPT_NONE ∧ m1 = m) ∨ (dmTarget m ≠ None ∧ m1 = with_dm_path m).

(** The namespace in every phase. *)
Definition ns_inv (t : trace) (s : phase) (ns : namespace) : Prop :=
  match s with
  | Idle => ns = initramfs
  | Searching =>
      Forall (λ '(p, _), p = lit "/dev" ∨ p = lit "/proc") (mounts ns) ∧ cwd ns = None ∧ root ns = None
  | Verified m => mount_at (lit "/newroot") (mounts ns) = None ∧ cwd ns = None ∧ root ns = None ∧ verified t m
  | Mounted m m1 =>
      mount_at (lit "/newroot") (mounts ns) = Some (rootfs_fs m1) ∧ cwd ns = None ∧ root ns = None ∧
      verified t m ∧ guards m m1
  | Switched m m1 | InitRuns m m1 => root ns = Some (rootfs_fs m1) ∧ verified t m ∧ guards m m1
  | Failed | ShellRuns | GivenUp => True
  end.

(** A call that leaves the mount at /newroot and the two directories alone. *)
Definition ns_neutral (c : call) : bool :=
  match c with
  | Mount _ tgt _ fl => bool_decide (tgt ≠ lit "/newroot") && bool_decide (MS_MOVE ∉ fl)
  | Umount p | Umount2Detach p => bool_decide (p ≠ lit "/newroot")
  | Chdir _ | Chroot _ => false
  | _ => true
  end.
Definition ns_same (ns ns' : namespace) : Prop :=
  mount_at (lit "/newroot") (mounts ns') = mount_at (lit "/newroot") (mounts ns) ∧
  cwd ns' = cwd ns ∧ root ns' = root ns.

Lemma mount_at_unmount p q l : p ≠ q → mount_at p (unmount q l) = mount_at p l.
Proof.
  intros Hne. induction l as [|[k f] l IH]; simpl; [done|].
  destruct (decide (q = k)) as [->|]; [by rewrite decide_False|]. simpl. by destruct (decide (p = k)).
Qed.
Lemma ns_neutral_step ns c r : ns_neutral c = true → ns_same ns (ns_step ns (Event c r)).
Proof.
  unfold ns_same. destruct c; try done; cbn [ns_neutral ns_step]; intros Hc.
  - apply andb_true_iff in Hc as [Ht%bool_decide_eq_true Hm%bool_decide_eq_true].
    destruct r; [|done]. rewrite decide_False by done. cbn [mounts cwd root mount_at].
    by rewrite decide_False by congruence.
  - apply bool_decide_eq_true in Hc. destruct r; [|done]. cbn [mounts cwd root]. by rewrite mount_at_unmount by congruence.
  - apply bool_decide_eq_true in Hc. destruct r; [|done]. cbn [mounts cwd root]. by rewrite mount_at_unmount by congruence.
Qed.
Lemma ns_neutral_steps ns t :
  Forall (λ e, ns_neutral (ev_call e) = true) t → ns_same ns (foldl ns_step ns t).
Proof.
  intros Ht. revert ns. induction Ht as [|[c r] t Hc _ IH]; intros ns; [done|]. simpl.
  pose proof (ns_neutral_step ns c r Hc) as (E1 & E2 & E3).
  destruct (IH (ns_step ns (Event c r))) as (F1 & F2 & F3). unfold ns_same. simpl in *. by rewrite F1, F2, F3.
Qed.

(** ** The invariant holds *)

Lemma verified_app t u m : verified t m → verified (t ++ u) m.
Proof.
  intros (m0 & ta & tv & tb & -> & Hv). exists m0, ta, tv, (tb ++ u). split; [by rewrite <-!app_assoc|done].
Qed.
Lemma no_newroot l : Forall (λ '(p, _), p = lit "/dev" ∨ p = lit "/proc") l → mount_at (lit "/newroot") l = None.
Proof. induction 1 as [|[p f] l Hp _ IH]; [done|]. simpl. rewrite decide_False; [done|]. by destruct Hp as [->| ->]. Qed.

(** The calls of the search do nothing to the namespace. *)
Lemma searching_step ns c r :
  work_call Searching c = true → ns_step ns (Event c r) = ns.
Proof. by destruct c. Qed.
Lemma loading_steps ns t : Forall (λ e, load_call (ev_call e) = true) t → foldl ns_step ns t = ns.
Proof. induction 1 as [|[c r] t Hc _ IH]; [done|]. cbn [foldl]. replace (ns_step ns _) with ns; [done|by destruct c]. Qed.
Lemma meta_loaded_calls m k m' t :
  meta_loaded m k m' t → Forall (λ e, load_call (ev_call e) = true) t.
Proof.
  intros (fd & size & off & reads & data & sig & tv & tp & -> & _ & _ & _ & _ & _ & _ & _ & (hash & pad & _ & ->) & Hparse).
  apply only_exec with (P := load_call) in Hparse; [|apply fp_Parse].
  assert (∀ n, Forall (λ e, load_call (ev_call e) = true) (read_trace fd n reads)) as Hread.
  { induction reads as [|bs reads IH]; intros n; constructor; [done|apply IH]. }
  rewrite !Forall_app. repeat first [done|split|constructor].
Qed.
Lemma minimal_ns t :
  sysfiles_ready t → ns_inv t Searching (foldl ns_step initramfs t).
Proof.
  intros (r1 & r2 & r3 & r4 & _ & [->| ->] & _ & [->| ->] & ->); cbn; split_and!; try done;
    repeat (constructor; auto).
Qed.

(** Neither helper nor housekeeping touches the rootfs mount. *)
Lemma work_neutral s c :
  match s with Verified _ | Mounted _ _ => True | _ => False end → work_call s c = true → ns_neutral c = true.
Proof.
  destruct s; try done; intros _; destruct c; try done; cbn [work_call ns_neutral probe_call tpm_call spawn_call
    storage_mount_call selinux_call selinux_mount_call detach_call orb];
    rewrite ?orb_false_r, ?orb_true_iff, ?andb_true_iff, ?bool_decide_eq_true; intros Hc;
    destruct_or?; destruct_and?; subst; by try split.
Qed.
Lemma rootfs_mounted_ns ns m m1 t :
  rootfs_mounted m m1 t →
  guards m m1 ∧ foldl ns_step ns t = Ns ((lit "/newroot", rootfs_fs m1) :: mounts ns) (cwd ns) (root ns).
Proof.
  assert (∀ ns u rm, foldl ns_step ns u = ns →
    foldl ns_step ns (u ++ [Event (Mkdir (lit "/newroot") mode_0755) rm; rootfs_mount m1]) =
    Ns ((lit "/newroot", rootfs_fs m1) :: mounts ns) (cwd ns) (root ns)) as Hm.
  { intros ns' u rm Hu. rewrite foldl_app, Hu. cbn. unfold rootfs_fs. by destruct (ro m1). }
  intros (tdm & rm & -> & _ & [(Hc & -> & ->)|(_ & -> & tgt & fd & devId & Ht & ->)]).
  - split; [by left|]. by apply (Hm ns [] rm).
  - split; [right; by rewrite Ht|]. by apply Hm.
Qed.
Lemma removals_neutral es : Forall (λ c, ns_neutral c = true) (removals es).
Proof.
  unfold removals. induction es as [|[p fl lv] es IH]; [done|]. cbn [flat_map]. apply Forall_app. split; [|done].
  cbn. destruct fl; try case_bool_decide; by repeat constructor.
Qed.
Lemma switched_ns ns m1 t :
  switched t → mount_at (lit "/newroot") (mounts ns) = Some (rootfs_fs m1) →
  root (foldl ns_step ns t) = Some (rootfs_fs m1).
Proof.
  intros (es & ok & tr & -> & Htr) Hm. cbn [foldl ns_step]. rewrite foldl_app.
  assert (Forall (λ e, ns_neutral (ev_call e) = true) tr) as Hn.
  { apply (Forall_fmap ev_call (λ c, ns_neutral c = true)). change (ev_call <$> tr) with (map ev_call tr). rewrite Htr. apply removals_neutral. }
  destruct (ns_neutral_steps ns tr Hn) as (E1 & E2 & E3). rewrite Hm in E1.
  set (ns1 := foldl ns_step ns tr) in *.
  assert (dir_fs ns1 (lit "/newroot") = Some (rootfs_fs m1)) as Hd by (unfold dir_fs; by rewrite !decide_False).
  cbn [switch_events foldl ns_step mounts]. rewrite Hd, E1.
  rewrite (decide_True (P := MS_MOVE ∈ [MS_MOVE])) by by apply list_elem_of_singleton.
  cbn [mounts cwd root]. unfold dir_fs. by rewrite decide_True.
Qed.

(** The invariant is kept by every step. *)
Lemma ns_inv_step t s u s' ns :
  ns_inv t s ns → bstep s u s' → ns_inv (t ++ u) s' (foldl ns_step ns u).
Proof.
  intros Hi Hs. destruct Hs as [|s c r Hc|u Hu|m m' u Hu Hcr|m m1 u Hu|m m1 u Hu|m m1| | |]; try done.
  - cbn [foldl]. destruct s as [| |m|m m1|m m1| | | |]; try done; cbn [ns_inv] in *.
    + subst ns. by destruct c.
    + by rewrite searching_step.
    + destruct (ns_neutral_step ns c r (work_neutral (Verified m) c I Hc)) as (-> & -> & ->).
      destruct Hi as (? & ? & ? & ?). split_and!; try done. by apply verified_app.
    + destruct (ns_neutral_step ns c r (work_neutral (Mounted m m1) c I Hc)) as (-> & -> & ->).
      destruct Hi as (? & ? & ? & ? & ?). split_and!; try done. by apply verified_app.
  - cbn [ns_inv] in Hi. subst ns. by apply minimal_ns.
  - cbn [ns_inv] in *. destruct Hi as (Hm & Hcwd & Hroot). rewrite loading_steps by by eapply meta_loaded_calls.
    split_and!; [by apply no_newroot|done|done|]. exists m, t, u, []. by rewrite app_nil_r.
  - cbn [ns_inv] in *. destruct Hi as (Hm & Hcwd & Hroot & Hv).
    destruct (rootfs_mounted_ns ns m m1 u Hu) as [Hg ->]. cbn [mounts cwd root mount_at].
    rewrite decide_True by done. split_and!; try done. by apply verified_app.
  - cbn [ns_inv] in *. destruct Hi as (Hm & _ & _ & Hv & Hg). split_and!; [by apply switched_ns|by apply verified_app|done].
  - cbn [ns_inv] in *. destruct Hi as (Hr & Hv & Hg). split_and!; [done|by apply verified_app|done].
Qed.
(** It holds in every reachable phase. *)
Lemma breach_inv t s : breach t s → ns_inv t s (ns_after t).
Proof.
  induction 1 as [|t s u s' _ IH Hs]; [done|]. unfold ns_after. rewrite foldl_app. by eapply ns_inv_step.
Qed.
End Machine.
