(* ===== verification/CominitProofs.v ===== *)
(** * CominitProofs: what a boot by Cominit.v guarantees *)
From S2P Require Import Prelude CString Sys Output Common Crypto Keyring Meta MetaProofs Dmctl.
From S2P Require Import Minsetup MinsetupProofs Automount Subprocess Securememory Tpm TpmProofs.
From S2P Require Import Footprint BootSpec Cominit.

(** A call other than the start of the rootfs init. *)
Definition noinit (c : call) : bool :=
  match c with Execve p _ => negb (bool_decide (p = INIT)) | _ => true end.
Lemma noinit_noexec c : noexec c = true → noinit c = true.
Proof. by destruct c. Qed.
Lemma only_noinit {A} (p : prog A) : only noexec p → only noinit p.
Proof. apply only_mono, noinit_noexec. Qed.

(** ** Footprints *)

Section Calls.
Context `{Libc} `{MbedTLS} `{TpmParams} `{DmParams} `{Build}.

Lemma fp_LoadPolicy p : only selinux_call (cominitLoadSelinuxPolicy p).
Proof. unfold cominitLoadSelinuxPolicy. only_auto. Qed.
Lemma fp_SetMode v : only selinux_call (cominitSetSelinuxMode v).
Proof. unfold cominitSetSelinuxMode. only_auto. Qed.
#[local] Hint Resolve fp_LoadPolicy fp_SetMode : footprint.
Lemma fp_mainSelinux a : only selinux_call (mainSelinux a).
Proof. unfold mainSelinux. only_auto. Qed.
Lemma fp_mainFindCrypt a d : only probe_call (mainFindCrypt a d).
Proof. unfold mainFindCrypt. only_auto. Qed.
Lemma fp_MicroSleep n : only search_call (cominitMicroSleep n).
Proof. unfold cominitMicroSleep. only_auto. Qed.
Lemma fp_Discover a m d : only probe_call (cominitDiscoverRootfs a m d).
Proof. unfold cominitDiscoverRootfs. only_auto. Qed.
#[local] Hint Resolve fp_MicroSleep fp_Discover : footprint.
Lemma fp_discoverLoop n a m d : only search_call (discoverLoop n a m d).
Proof. revert m d. induction n; intros m d; cbn [discoverLoop]; only_auto. Qed.
Lemma fp_withValue arg k1 k2 a parse rest :
  (∀ v, only no_call (parse v)) → (∀ a, only no_call (rest a)) → only no_call (withValue arg k1 k2 a parse rest).
Proof. intros Hp Hr. unfold withValue. only_auto. Qed.
Lemma fp_parseArg arg a : only no_call (parseArg arg a).
Proof.
  unfold parseArg. repeat (apply fp_withValue; [|let x := fresh in intros x; cbv zeta]);
    try (let v := fresh in intros v); unfold parseNode; only_auto.
Qed.
#[local] Hint Resolve fp_parseArg : footprint.
Lemma fp_parseArgs argv a : only no_call (parseArgs argv a).
Proof. revert a. induction argv as [|x argv IH]; intros a; cbn [parseArgs]; only_auto. Qed.
End Calls.
#[export] Hint Resolve fp_LoadPolicy fp_SetMode fp_mainSelinux fp_mainFindCrypt fp_Discover fp_discoverLoop
  fp_parseArgs : footprint.

(** ** The boot *)

(** What has happened before the rootfs init may start: metadata [m'] was read
    from a device and verified with the rootfs key, no feature of it is
    unsupported, the file system it describes was mounted (behind the device
    mapper if it asks for that), and it is the root directory now. *)
Definition boot_ready `{Libc} `{MbedTLS} `{DmParams} (t : trace) : Prop :=
  ∃ m m' m1 ta tv tb tm tc ts,
    t = ta ++ tv ++ tb ++ tm ++ tc ++ ts ∧
    meta_loaded m COMINIT_ROOTFS_KEY_LOCATION m' tv ∧
    Z.land (crypt m') COMINIT_CRYPTOPT_CRYPT = 0%Z ∧
    rootfs_mounted m' m1 tm ∧ switched ts.
Definition init_guard `{Libc} `{MbedTLS} `{DmParams} (t : trace) (e : event) : Prop :=
  match ev_call e with Execve p _ => p = INIT → boot_ready t | _ => True end.

Section Boot.
Context `{Libc} `{MbedTLS} `{TpmParams} `{DmParams} `{Build}.
#[local] Hint Resolve only_noinit : only.

Lemma noinit_SetupStorage a first : only noinit (cominitTpmSetupSecureStorage a first).
Proof.
  destruct first; [apply (only_SetupFirst noinit ltac:(by intros []) (cstr (devNodeCrypt a)))|
    apply (only_SetupLater noinit ltac:(by intros []) (cstr (devNodeCrypt a)))]; done.
Qed.
#[local] Hint Resolve noinit_SetupStorage : only.
Lemma noinit_ProtectData c a : only noinit (cominitTpmProtectData c a).
Proof. unfold cominitTpmProtectData, cominitTpmUnmountBlob. only_auto. Qed.
#[local] Hint Resolve noinit_ProtectData : only.
Lemma noinit_mainTpm a : only noinit (mainTpm a).
Proof. unfold mainTpm. only_auto. Qed.
Lemma noinit_rescue : only noinit rescue.
Proof. unfold rescue. only_auto. Qed.
#[local] Hint Resolve noinit_mainTpm noinit_rescue : only.

Local Abbreviation safe := (guarded init_guard).

Lemma safe_only {A} (p : prog A) t :
  only noinit p → safe t → wp upd_trace any_env p (λ _ t', safe t' ∧ ∃ t1, t' = t ++ t1) t.
Proof.
  intros Hp Ht. eapply wp_mono; [|by apply wp_only]. intros o t' (t1 & -> & Hall). split; [|by eexists].
  apply guarded_app; [done|]. eapply Forall_impl; [exact Hall|]. intros [c r] Hc t0. unfold init_guard. cbn [ev_call] in *.
  destruct c; try done. intros ->. unfold noinit in Hc. by rewrite bool_decide_true in Hc.
Qed.
(** A part of [main] that does not start init, and what follows. *)
Lemma safe_bind {A B} (p : prog A) (f : A → prog B) t :
  only noinit p → safe t → (∀ a t1, safe (t ++ t1) → wp upd_trace any_env (f a) (λ _ t', safe t') (t ++ t1)) →
  wp upd_trace any_env (bind p f) (λ _ t', safe t') t.
Proof.
  intros Hp Ht Hf. eapply wp_call; [by apply safe_only| |by intros ? ? [? _]].
  intros a t' [Ht' [t1 ->]]. by apply Hf.
Qed.
Lemma safe_last {A} (p : prog A) t : only noinit p → safe t → wp upd_trace any_env p (λ _ t', safe t') t.
Proof. intros Hp Ht. eapply wp_mono; [|by apply safe_only]. by intros ? ? [? _]. Qed.

Lemma safe_mainSwitch a m m' m1 ta tv tb tm :
  meta_loaded m COMINIT_ROOTFS_KEY_LOCATION m' tv →
  Z.land (crypt m') COMINIT_CRYPTOPT_CRYPT = 0%Z → rootfs_mounted m' m1 tm →
  let t := ta ++ tv ++ tb ++ tm in
  safe t → wp upd_trace any_env (mainSwitch a) (λ _ t', safe t') t.
Proof.
  intros Hm Hc Hr t Ht. unfold mainSwitch.
  apply safe_bind; [only_auto|done|intros _ u1 Ht1].
  apply safe_bind; [only_auto|done|intros _ u2 Ht2].
  apply safe_bind; [only_auto|done|intros _ u3 Ht3].
  apply safe_bind; [only_auto|done|intros _ u4 Ht4].
  eapply wp_call; [apply wp_and; [by apply safe_only; [only_auto|]|apply wp_Switch]| |by intros ? ? [[? _] _]].
  intros r t' [[Ht' _] (ts & -> & Hs)]. case_bool_decide; [by apply safe_last; [only_auto|]|].
  apply wp_sys. intros r' _.
  assert (safe ((((((t ++ u1) ++ u2) ++ u3) ++ u4) ++ ts) ++ [Event (Execve (lit "/sbin/init") [lit "/sbin/init"]) r'])) as Hsafe.
  { apply guarded_snoc; [done|]. intros _. exists m, m', m1, ta, tv, tb, tm, (u1 ++ u2 ++ u3 ++ u4), ts.
    split_and!; try done; [unfold t; by rewrite <-!app_assoc|].
    by destruct Hs as [[_ Hs]|[[= ->] _]]. }
  destruct r'; [|exact Hsafe]. by apply safe_last; [only_auto|].
Qed.

Lemma safe_mainMount a m m' d ta tv :
  meta_loaded m COMINIT_ROOTFS_KEY_LOCATION m' tv →
  safe (ta ++ tv) → wp upd_trace any_env (mainMount a m' d) (λ _ t', safe t') (ta ++ tv).
Proof.
  intros Hm Ht. unfold mainMount. case_bool_decide as Hc; [by apply safe_last; [only_auto|]|].
  apply safe_bind; [only_auto|done|intros a' u1 Ht1].
  apply safe_bind; [only_auto|done|intros _ u2 Ht2].
  eapply wp_call; [apply wp_and; [by apply safe_only; [only_auto|]|apply wp_SetupRootfs]| |by intros ? ? [_ ?]].
  intros [r m2] t' [[Ht' _] (tm & -> & Hr)]. case_bool_decide; [by apply safe_last; [only_auto|]|].
  destruct Hr as [(_ & _ & m1 & _ & Hr)|[? _]]; [|done].
  pose proof (safe_mainSwitch a' m m' m1 ta tv (u1 ++ u2) tm Hm ltac:(done) Hr) as Hw.
  cbv zeta in Hw. rewrite <-!app_assoc in *. by apply Hw.
Qed.

Lemma safe_main argv : wp upd_trace any_env (main argv) (λ _ t, safe t) [].
Proof.
  unfold main. apply safe_bind; [only_auto|apply guarded_nil|intros [a| |] u0 Ht0;
    [|by apply safe_last; [unfold cominitPrintUsage, cominitPrintVersion; only_auto|]..]].
  apply safe_bind; [only_auto|done|intros _ u1 Ht1].
  apply safe_bind; [only_auto|done|intros _ u2 Ht2].
  apply safe_bind; [only_auto|done|intros r u3 Ht3].
  destruct (bool_decide _); [by apply safe_last; [only_auto|]|].
  apply safe_bind; [only_auto|done|intros _ u4 Ht4].
  apply safe_bind; [only_auto|done|intros [[found m] d] u5 Ht5].
  destruct found; cbn [negb]; [|by apply safe_last; [only_auto|]].
  eapply wp_call; [apply wp_and; [by apply safe_only; [only_auto|]|apply wp_LoadVerify]| |by intros ? ? [[? _] _]].
  intros [r' m'] t' [[Ht' _] Hl]. case_bool_decide as E; [by apply safe_last; [only_auto|]|].
  destruct Hl as [(_ & tv & -> & Hl)|?]; [|done]. by apply (safe_mainMount a m).
Qed.

(** C3: Whatever the command line is and whatever kernel, crypto library and TPM stack answer, main
    calls execve on /sbin/init only after a boot in which, in this order, the metadata of the rootfs
    partition was read and its signature was verified with /etc/rootfs_key_pub.pem, the metadata asks
    for no dm-crypt, the file system it describes was mounted on /newroot (through the dm-verity or dm-
    integrity device if it asks for one), and the root directory was switched to it. *)
Theorem boot_only_verified_rootfs o argv : guarded init_guard (run o [] (main argv)).2.
Proof. exact (wp_run_trace _ _ o (safe_main argv)). Qed.
End Boot.
