(* ===== verification/Crash.v ===== *)
(** * Crash: the states between two calls

    A weakest precondition speaks about the state in which a run ends. When the
    power can fail at any moment, every state on the way counts too: [always]
    asks a property of each of them. For the machine of TpmWorld.v the two
    agree on properties of the PCRs, the blob file and the key: from any state a
    run can go on with nothing but failures, which leave these three alone, so a
    property of all final states holds at every moment. *)
From stdpp Require Import gmap.
From S2P Require Import Prelude CString Sys Output Common Crypto Keyring Subprocess Securememory Tpm TpmWorld.

(** ** Every state of a run *)

Section Always.
Context {S : Type} (upd : S → event → S) (env : S → event → Prop).

Fixpoint always {A} (R : S → Prop) (p : prog A) (s : S) : Prop :=
  R s ∧ match p with
        | Ret _ | Stop _ => True
        | Act c k => ∀ r, env s (Event c r) → always R (k r) (upd s (Event c r))
        end.
(** [always] holds after any number of calls of a run. *)
Lemma always_take {A} (R : S → Prop) (p : prog A) o s :
  (∀ h c, env (foldl upd s h) (Event c (o h c))) → always R p s → ∀ n, R (foldl upd s (take n (run o [] p).2)).
Proof.
  intros Ho Hp.
  enough (∀ h, always R p (foldl upd s h) → ∀ n, R (foldl upd (foldl upd s h) (take n (run o h p).2))) as Hgen
    by by apply (Hgen []).
  clear Hp. induction p as [a|c k IH|e]; intros h [Hs Hk] n; simpl; [by rewrite take_nil| |by rewrite take_nil].
  specialize (IH (o h c) (h ++ [Event c (o h c)])). rewrite foldl_snoc in IH.
  destruct (run _ _ (k (o h c))) as [out t]. cbn [snd] in *. destruct n; [done|]. by apply IH, Hk.
Qed.
End Always.

(** ** Failing from now on *)

Section Fault.
Context `{TpmParams} `{TpmModel} (rk : list byte).

(** An answer by which the call fails, or has no effect. *)
Definition fault (w : world) (c : call) : reply c :=
  match c return reply c with
  | Access _ => Err (EOTHER 5)
  | Fopen _ _ => Err (EOTHER 5)
  | Fread h n => match streams w !! h with Some (dev, pos) => take (Z.to_nat n) (drop pos (default [] (blobs w !! dev))) | None => [] end
  | Fwrite _ _ => 0%Z
  | AddKey _ _ => Err (EOTHER 5)
  | PkWritePubkeyDer _ => (0%Z, [])
  | Sha256 _ => (1%Z, [])
  | EsysPcrExtend _ _ _ _ => 1%Z
  | EsysStartAuthSession _ _ _ => (1%Z, None)
  | EsysPolicyPCR _ _ _ => 1%Z
  | EsysPolicyGetDigest _ _ => (1%Z, None)
  | EsysCreate _ _ _ _ _ => (1%Z, None)
  | EsysLoad _ _ _ _ => (1%Z, None)
  | EsysUnseal _ _ _ => (1%Z, None)
  | c => default_reply c
  end.
Lemma fault_ideal w c : ideal rk w (Event c (fault w c)).
Proof.
  destruct c; cbn; try done; try (intros ?; lia); try by eexists. intros dev pos b Hs Hb. by rewrite Hs, Hb.
Qed.
Lemma fault_same w c : same w (world_step w (Event c (fault w c))).
Proof.
  destruct c; try done; try by apply same_step. cbn [world_step fault].
  destruct (streams w !! h) as [[dev pos]|]; [|done]. split_and!; [done| |done].
  cbn [blobs set_files]. rewrite Z2Nat.inj_0, take_0. apply map_eq. intros d. destruct (decide (d = dev)) as [->|].
  - rewrite lookup_alter_eq. destruct (blobs w !! dev) as [b|]; [|done]. cbn. unfold write_at.
    by rewrite app_nil_l, Nat.add_0_r, take_drop.
  - by rewrite lookup_alter_ne.
Qed.
(** Some run ends with the PCRs, the blob and the key as they are now. *)
Lemma wp_fault {A} (p : prog A) Q w : wp world_step (ideal rk) p Q w → ∃ o w', same w w' ∧ Q o w'.
Proof.
  revert w. induction p as [a|c k IH|e]; intros w Hp; [by eexists _, w|..|by eexists _, w].
  destruct (IH _ _ (Hp _ (fault_ideal w c))) as (o & w' & Hk & HQ). exists o, w'. split; [|done].
  eapply same_trans; [apply fault_same|done].
Qed.
(** A property of the PCRs, the blob and the key that holds however a run ends
    holds all the time. *)
Lemma wp_always {A} (R : world → Prop) (p : prog A) w :
  (∀ w1 w2, same w1 w2 → R w2 → R w1) →
  wp world_step (ideal rk) p (λ _ w', R w') w → always world_step (ideal rk) R p w.
Proof.
  intros HR. revert w. induction p as [a|c k IH|e]; intros w Hp; cbn [always]; [done| |done].
  split; [|auto]. destruct (wp_fault _ _ _ Hp) as (_ & w' & Hk & Hw'). by eapply HR.
Qed.
End Fault.
