(* ===== verification/Lifetime.v ===== *)
(** * Lifetime: the secure storage over all boots of a machine

    TpmWorld.v follows one run. A machine boots many times: the blob files stay,
    the PCRs start from new values and the keyring is empty again. Here the runs
    of main are chained over the life of a machine; the power may fail between any
    two calls. What the storage promises is the abstract [vault]; the boots refine
    it. *)
From stdpp Require Import gmap.
From S2P Require Import Prelude CString Sys Output Common Crypto Keyring Meta Dmctl Minsetup Automount Subprocess.
From S2P Require Import Securememory Tpm TpmPcr Footprint TpmProofs TpmBoot TpmWorld TpmExact Crash Cominit CominitArgs BootSpec CominitProofs.

(** ** One boot *)

Section Boot.
Context `{Libc} `{MbedTLS} `{TpmParams} `{DmParams} `{Build} `{TpmModel} (rk : list byte).
Local Abbreviation in_world p Q := (wp world_step (ideal rk) p Q).

(** The PCR a handle names. *)
Definition pcr_of (idx : Z) : Z := u32 (ESYS_TR_PCR0 + idx) - ESYS_TR_PCR0.
(** Nothing but the chosen PCR may have changed, by one extension with the digest
    of the rootfs key, and that only if the options ask for it. *)
Definition measured (a : cominitCliArgs_t) (w w' : world) : Prop :=
  blobs w' = blobs w ∧ storage_key w' = storage_key w ∧
  (pcrs w' = pcrs w ∨
   pcrSet a = true ∧
   ∀ j, pcrs w' j = if decide (j = pcr_of (pcrIndex a)) then pcr_extend (pcrs w j) (sha256 rk) else pcrs w j).

Lemma same_InitTpm c : only same_call (cominitInitTpm c).
Proof. unfold cominitInitTpm, cominitTpmSelftest. only_auto. Qed.
Lemma same_DeleteTpm c : only same_call (cominitDeleteTpm c).
Proof. unfold cominitDeleteTpm. only_auto. Qed.
Lemma same_Digest k d n : only same_call (cominitCreateSHA256DigestfromKeyfile k d n).
Proof. unfold cominitCreateSHA256DigestfromKeyfile. only_auto. Qed.
#[local] Hint Resolve same_InitTpm same_DeleteTpm same_Digest : only.
Lemma measured_same a w w' : same w w' → measured a w w'.
Proof. intros (?&?&?). split_and!; auto. Qed.
Lemma Digest_world keyfile w :
  in_world (cominitCreateSHA256DigestfromKeyfile (Some keyfile) (Some (replicate SHA256_LEN x00)) SHA256_LEN)
    (λ o _, ∀ d, o = Done (EXIT_SUCCESS, d) → d = Some (sha256 rk)) w.
Proof.
  unfold cominitCreateSHA256DigestfromKeyfile. rewrite bool_decide_false by lia. apply wp_sys_. intros ? _.
  apply wp_sys. intros err _. case_bool_decide; [|by apply wp_sys_; intros ? _].
  apply wp_bind, wp_sys. intros [len der] Hder. unfold ideal, fst, snd in Hder. case_bool_decide as Hlen; [|by apply wp_sys_; intros ? _].
  case_bool_decide; [done|]. cbv zeta. rewrite Hder by lia. apply wp_sys. intros [err2 h] Hh. cbn in Hh.
  case_bool_decide; apply wp_sys_; intros ? _; cbn [wp]; [|done]. intros d [= <-].
  destruct Hh as [-> Hlh]; [done|]. f_equal. unfold overwrite. rewrite drop_ge, app_nil_r; [done|]. by rewrite Hlh.
Qed.
Lemma ExtendPCR_world c keyfile a w :
  pcrSet a = true → in_world (cominitTpmExtendPCR c keyfile (pcrIndex a)) (λ _ w', measured a w w') w.
Proof.
  intros Hset. unfold cominitTpmExtendPCR. destruct c as [c|]; [|by apply measured_same]. destruct keyfile; [|by apply measured_same].
  eapply wp_call; [apply wp_and; [apply Digest_world|by apply (wp_same _ _ w); [apply same_Digest|]]| |].
  2: { intros e w1 [_ Hk1]. by apply measured_same. }
  intros [r digest] w1 [Hd Hk1]. case_bool_decide; [by apply measured_same|]. subst r. rewrite (Hd _ eq_refl). cbv zeta.
  apply (wp_same_call _ _ _ _ w); [only_auto|done| |by intros; apply measured_same]. intros ectx w2 (Hp & Hb & Hk).
  apply wp_sys. intros rc _. cbn [wp world_step]. case_decide; [|by apply measured_same].
  unfold measured. cbn [blobs storage_key pcrs set_pcrs]. split_and!; [done|done|right]. split; [done|]. intros j. by rewrite Hp.
Qed.

Hypothesis Hsize : (0 < sizeof_TPM2B_PUBLIC)%Z.
(** One run of the TPM part of main: a measurement, then [protects] with the
    partition the options name. *)
Definition booted (a : cominitCliArgs_t) (w w' : world) : Prop :=
  ∃ w1 o, measured a w w1 ∧ protects a (cstr (devNodeBlob a)) w1 o w'.
Lemma booted_measured a w w1 : measured a w w1 → booted a w w1.
Proof. intros Hm. exists w1, (Done TpmFailure). split; [done|]. by apply protects_nothing. Qed.
Lemma booted_same a w w1 w' : booted a w w1 → same w1 w' → booted a w w'.
Proof. intros (w2 & o & Hm & Hp) Hk. exists w2, o. split; [done|]. by eapply protects_kept_r. Qed.
Lemma mainTpm_world a w : sealable a → in_world (mainTpm a) (λ _ w', booted a w w') w.
Proof.
  intros Ha. unfold mainTpm.
  assert (∀ w1, same w w1 → booted a w w1) as Hsame by (intros w1 Hk; by apply booted_measured, measured_same).
  destruct (cominitUseTpm _); [|by apply Hsame].
  apply (wp_same_call _ _ _ _ w); [only_auto|done| |by intros; apply Hsame]. intros [result c] w1 Hk1. cbv zeta.
  eapply (wp_call _ _ _ _ (λ _ w', booted a w w')); [| |done].
  2: { intros _ w2 Hw2. apply (wp_same_call _ _ _ _ w2); [only_auto|done| |]; intros ? w3 Hk3; by eapply booted_same. }
  case_bool_decide; [by apply Hsame|].
  eapply (wp_call _ _ _ _ (λ _ w', measured a w w')); [| |by intros; apply booted_measured].
  - destruct (cominitTpmExtendEnabled _) eqn:Hset; [|by apply measured_same].
    eapply wp_call; [by apply (ExtendPCR_world _ _ a)| |]; intros ? w2 (Hb & Hk & Hp); destruct Hk1 as (Hp1 & Hb1 & Hk1).
    all: unfold measured; cbn [wp]; rewrite Hp1, Hb1, Hk1 in *; done.
  - intros _ w2 Hm. destruct (cominitTpmSecureStorageEnabled _); [|by apply booted_measured].
    eapply wp_call; [by apply ProtectData_world| |].
    + intros st w3 Hst. assert (booted a w w3) by by exists w2, (Done st). by destruct st.
    + intros e w3 He. by exists w2, (Ended e).
Qed.

(** The other parts of main leave the world alone. *)
#[local] Hint Resolve fp_mainSelinux fp_mainFindCrypt fp_discoverLoop fp_LoadVerify : footprint.
Lemma same_rescue : only same_call rescue.
Proof. unfold rescue. only_auto. Qed.
#[local] Hint Resolve same_rescue : only.
Lemma same_mainSwitch a : only same_call (mainSwitch a).
Proof. unfold mainSwitch. only_auto. Qed.
Lemma same_Print : only same_call cominitPrintVersion ∧ only same_call cominitPrintUsage.
Proof. unfold cominitPrintVersion, cominitPrintUsage. split; only_auto. Qed.
#[local] Hint Resolve same_mainSwitch : only.

(** The options of a command line. *)
Definition options_of (argv : list (list byte)) : cominitCliArgs_t :=
  match parseArgs argv initArgs with Ret (Options a) => a | _ => initArgs end.
Lemma parseArgs_pure argv : (∃ r, parseArgs argv initArgs = Ret r) ∨ ∃ e, parseArgs argv initArgs = Stop e.
Proof.
  pose proof (fp_parseArgs argv initArgs) as Hp. destruct (parseArgs argv initArgs) as [r|c k|e]; [by left; eexists| |by right; eexists].
  by destruct Hp.
Qed.
Lemma booted_crypt a v w w' : booted (set_devNodeCrypt a v) w w' → booted a w w'.
Proof. by destruct a. Qed.
Lemma booted_same_l a w0 w w' : same w0 w → booted a w w' → booted a w0 w'.
Proof.
  intros (Hp & Hb & Hk) (w1 & o & Hm & Hpr). exists w1, o. split; [|done]. unfold measured in *. by rewrite <-Hp, <-Hb, <-Hk.
Qed.
Lemma FindCrypt_options a d :
  yields (mainFindCrypt a d) (λ o, match o with Done a' => ∃ v, a' = set_devNodeCrypt a v | Ended _ => True end).
Proof.
  unfold mainFindCrypt, yields. case_match; [exists (devNodeCrypt a); by destruct a|].
  case_match; (apply wp_skip; [|done]); [intros [? ?] ?|intros [[? ?] ?] ?]; by eexists.
Qed.
Lemma mainMount_world a m d w w0 :
  sealable a → same w0 w → in_world (mainMount a m d) (λ _ w', booted a w0 w') w.
Proof.
  intros Ha Hw. assert (∀ w1, same w0 w1 → booted a w0 w1) as Hsame by (intros w1 Hk; by apply booted_measured, measured_same).
  unfold mainMount. case_bool_decide; [eapply wp_mono; [|by apply wp_same; [apply same_rescue|exact Hw]]; auto|].
  eapply wp_call; [apply wp_and; [apply wp_yields, FindCrypt_options|by apply (wp_same _ _ w0); [only_auto|]]| |].
  2: { intros e w1 [_ Hk]. auto. }
  intros a' w1 [[v ->] Hk1]. assert (sealable (set_devNodeCrypt a v)) as Ha' by by destruct a.
  eapply (wp_call _ _ _ _ (λ _ w', booted a w0 w')); [|intros _ w2 Hw2|done].
  { eapply wp_mono; [|by apply mainTpm_world]. intros o w2 Hb. apply (booted_crypt a v). by apply (booted_same_l _ _ w1). }
  assert (∀ A (p : prog A), only same_call p → in_world p (λ _ w', booted a w0 w') w2) as Hrest.
  { intros A p Hp. eapply wp_mono; [|by apply (wp_same _ _ w2)]. intros o w3. by apply booted_same. }
  apply Hrest. only_auto.
Qed.
Lemma main_world argv w :
  COMINIT_FAKE_HSM = None → sealable (options_of argv) → in_world (main argv) (λ _ w', booted (options_of argv) w w') w.
Proof.
  intros Hhsm Ha. unfold main. rewrite Hhsm. unfold options_of in *.
  assert (∀ w1, same w w1 → booted (options_of argv) w w1) as Hsame by (intros w1 Hk; by apply booted_measured, measured_same).
  unfold options_of in Hsame.
  assert (∀ A (p : prog A), only same_call p → in_world p (λ _ w', booted (options_of argv) w w') w) as Hrest.
  { intros A p Hp. eapply wp_mono; [|by apply (wp_same _ _ w)]. auto. }
  unfold options_of in Hrest.
  destruct (parseArgs_pure argv) as [[r E]|[e E]]; rewrite E in *; [rewrite bind_ret|].
  2: { apply (Hrest Z (Stop e)). destruct e; [by exists []|done..]. }
  destruct r as [a| |]; [|by apply Hrest; destruct same_Print; only_auto..].
  do 2 (apply wp_sys_; intros ? _). cbn [world_step].
  apply (wp_same_call _ _ _ _ w); [only_auto|done| |auto]. intros r1 w1 Hk1.
  case_bool_decide; [eapply wp_mono; [|by apply (wp_same _ _ w); [apply same_rescue|]]; auto|]. rewrite bind_ret.
  apply (wp_same_call _ _ _ _ w); [only_auto|done| |auto]. intros [[found m] d] w2 Hk2.
  destruct found; cbn [negb]; [|eapply wp_mono; [|by apply (wp_same _ _ w); [apply same_rescue|]]; auto].
  apply (wp_same_call _ _ _ _ w); [only_auto|done| |auto]. intros [r2 m2] w3 Hk3.
  case_bool_decide; [eapply wp_mono; [|by apply (wp_same _ _ w); [apply same_rescue|]]; auto|].
  by apply mainMount_world.
Qed.
End Boot.

(** ** All boots *)

(** How a boot ends: it runs to its end and the machine is shut down later, or the
    power fails after some of its calls. Then buffered writes can be lost: of a
    file that was written, [None] leaves what the disk had before and [Some n] the
    first [n] bytes. *)
Inductive power := Stays | Fails (calls : nat) (written : option nat).
(** A boot: the PCR values the firmware and the boot loader leave, the rootfs key,
    the command line, the machine's answers and the power supply. *)
Record boot := Boot {
  b_pcrs : Z → list byte; b_key : list byte; b_argv : list (list byte); b_oracle : oracle; b_power : power }.
(** Power-on: only the blob files survive. *)
Definition power_on (vals : Z → list byte) (w : world) : world := World vals ∅ ∅ ∅ (blobs w) [] ∅ None [].
(** A blob file on the disk after a power failure. *)
Definition on_disk (old new : option (list byte)) (written : option nat) : option (list byte) :=
  if decide (new = old) then old else match written with Some n => take n <$> new | None => old end.
Definition power_off (old : gmap path (list byte)) (written : option nat) (w : world) : world :=
  World (pcrs w) ∅ ∅ ∅ (merge (λ o n, on_disk o n written) old (blobs w)) [] ∅ None [].
Lemma power_off_blob old written w dev :
  blobs (power_off old written w) !! dev = on_disk (old !! dev) (blobs w !! dev) written.
Proof. cbn. rewrite lookup_merge. unfold diag_None. by destruct (old !! dev), (blobs w !! dev). Qed.

(** *** What the secure storage promises

    A vault is empty, holds one key under one policy, or is spoiled. A boot under
    policy [d] shows a key or none. *)
Inductive vault := VEmpty | VSpoiled | VKey (key d : list byte).
Inductive vault_step (d : list byte) : vault → option (list byte) → vault → Prop :=
  | vault_locked v : vault_step d v None v
  | vault_spoil : vault_step d VEmpty None VSpoiled
  | vault_seal key : vault_step d VEmpty None (VKey key d)
  | vault_seal_open key : vault_step d VEmpty (Some key) (VKey key d)
  | vault_open key : vault_step d (VKey key d) (Some key) (VKey key d).
#[export] Hint Constructors vault_step : core.
(** The vault over the boots with the given policies and keys shown. *)
Inductive vault_life : vault → list (list byte * option (list byte)) → vault → Prop :=
  | vault_life_nil v : vault_life v [] v
  | vault_life_cons v1 d out v2 l v3 :
      vault_step d v1 out v2 → vault_life v2 l v3 → vault_life v1 ((d, out) :: l) v3.
(** A vault that holds a key only ever shows it, under its policy. *)
Lemma vault_life_key key d l v' :
  vault_life (VKey key d) l v' → Forall (λ '(d', out), ∀ x, out = Some x → x = key ∧ d' = d) l.
Proof.
  remember (VKey key d) as v eqn:Ev. induction 1 as [|v1 d' out v2 l v3 Hs _ IH]; [done|]. subst v1.
  inversion Hs; subst; (constructor; [|by apply IH]); intros x [= <-]; done.
Qed.
Lemma vault_life_spoiled l v' : vault_life VSpoiled l v' → v' = VSpoiled ∧ Forall (λ x, x.2 = None) l.
Proof.
  remember VSpoiled as v eqn:Ev. induction 1 as [|v1 d' out v2 l v3 Hs _ IH]; [by subst|]. subst v1.
  inversion Hs; subst. destruct IH as [-> Hl]; [done|]. split; [done|by constructor].
Qed.
Lemma vault_life_stays key d l v' : vault_life (VKey key d) l v' → v' = VKey key d.
Proof.
  remember (VKey key d) as v eqn:Ev. induction 1 as [|v1 d' out v2 l v3 Hs _ IH]; [done|]. subst v1.
  inversion Hs; subst; by apply IH.
Qed.
(** So there is one key and one policy for the whole life. *)
Lemma vault_life_one l v' :
  vault_life VEmpty l v' → ∃ key d, Forall (λ '(d', out), ∀ x, out = Some x → x = key ∧ d' = d) l.
Proof.
  remember VEmpty as v eqn:Ev. induction 1 as [|v1 d' out v2 l v3 Hs Hl IH]; [by exists [], []|]. subst v1.
  inversion Hs; subst.
  - destruct IH as (key & d & IH); [done|]. exists key, d. by constructor.
  - apply vault_life_spoiled in Hl as [_ Hl]. exists [], []. constructor; [done|].
    eapply Forall_impl; [exact Hl|]. intros [? ?] E. cbn in E. by subst.
  - apply vault_life_key in Hl. exists key, d'. by constructor.
  - apply vault_life_key in Hl. exists key, d'. constructor; [|done]. by intros x [= <-].
Qed.

Section Life.
Context `{Libc} `{MbedTLS} `{TpmParams} `{DmParams} `{Build} `{TpmModel}.

Definition b_args (b : boot) : cominitCliArgs_t := options_of (b_argv b).
Definition after_boot (b : boot) (w : world) : world :=
  let w0 := power_on (b_pcrs b) w in
  let t := (run (b_oracle b) [] (main (b_argv b))).2 in
  match b_power b with
  | Stays => foldl world_step w0 t
  | Fails calls written => power_off (blobs w) written (foldl world_step w0 (take calls t))
  end.
(** The worlds in which the boots end. *)
Fixpoint lifetime (w : world) (bs : list boot) : list world :=
  match bs with [] => [] | b :: bs => after_boot b w :: lifetime (after_boot b w) bs end.
(** The machine after the boots. *)
Definition after_boots (w : world) (bs : list boot) : world := foldl (λ w b, after_boot b w) w bs.
(** Every boot runs on an ideal machine with options that can be sealed to. *)
Fixpoint honest (w : world) (bs : list boot) : Prop :=
  match bs with
  | [] => True
  | b :: bs =>
      sealable (b_args b) ∧
      (∀ h c, ideal (b_key b) (foldl world_step (power_on (b_pcrs b) w) h) (Event c (b_oracle b h c))) ∧
      honest (after_boot b w) bs
  end.
(** A file that cannot be read, left by a first boot that failed or by a short
    write. *)
Definition spoiled (b : option (list byte)) : Prop := ∃ x, b = Some x ∧ unreadable x.
(** The vault a blob file stands for. *)
Definition vault_in (v : vault) (b : option (list byte)) : Prop :=
  match v with VEmpty => b = None | VSpoiled => spoiled b | VKey key d => holds key d b end.
(** The partition a boot takes the blob from. *)
Definition b_dev (b : boot) : path := cstr (devNodeBlob (b_args b)).
(** What a boot shows of the vault on partition [dev]: the policy of its options
    for its PCR values, and, if its command line names the partition, the key in
    the keyring at its end. *)
Definition shows (dev : path) (b : boot) (w' : world) : list byte * option (list byte) :=
  (policy_of (b_args b) (pcrs w'), if decide (b_dev b = dev) then storage_key w' else None).

(** A production build: no keys are enrolled from files. *)
Hypothesis Hhsm : COMINIT_FAKE_HSM = None.
Hypothesis Hsize : (0 < sizeof_TPM2B_PUBLIC)%Z.

(** At every moment of a boot the world is one that a whole run could leave. *)
Lemma boot_always b w n :
  sealable (b_args b) →
  (∀ h c, ideal (b_key b) (foldl world_step (power_on (b_pcrs b) w) h) (Event c (b_oracle b h c))) →
  booted (b_key b) (b_args b) (power_on (b_pcrs b) w)
    (foldl world_step (power_on (b_pcrs b) w) (take n (run (b_oracle b) [] (main (b_argv b))).2)).
Proof.
  intros Ha Ho. refine (always_take world_step (ideal (b_key b)) _ _ _ _ Ho _ n). apply wp_always.
  - intros w1 w2 (?&?&?) Hb. eapply booted_same; [exact Hb|]. by split_and!.
  - by apply main_world.
Qed.
Context (dev : path).
(** The abstract step of such a world. *)
Lemma booted_steps rk a w w' v :
  booted rk a w w' → vault_in v (blobs w !! dev) → storage_key w = None →
  ∃ v', vault_in v' (blobs w' !! dev) ∧
    vault_step (policy_of a (pcrs w')) v (if decide (cstr (devNodeBlob a) = dev) then storage_key w' else None) v' ∧
    (blobs w' !! dev = blobs w !! dev ∧ v' = v ∨ v = VEmpty).
Proof.
  intros (w1 & o & (Hb & Hk & _) & Hot & Hp) Hv Hn. rewrite <-Hb in *. rewrite <-Hk in *.
  case_decide as Ed.
  2: { exists v. rewrite Hot by congruence. split; [done|]. split; [constructor|by left]. }
  rewrite Ed in *. destruct (blobs w1 !! dev) as [bs|] eqn:E1.
  - destruct Hp as (Hp & Hb' & Hk'). rewrite Hb', E1, Hp. exists v. split; [done|]. split; [|by left].
    destruct Hk' as [[_ ->]|(_ & key' & -> & pub & priv & rest & [= ->] & Hl1 & Hl2 & Hrel)]; [rewrite Hn; constructor|].
    destruct v as [| |key d]; [done| |].
    + destruct Hv as (x & [= <-] & Hx). by destruct (Hx pub priv rest).
    + by destruct (holds_released _ _ _ _ _ _ _ _ Hv Hl1 Hl2 Hrel) as [-> ->].
  - assert (v = VEmpty) as -> by (destruct v; [done|by destruct Hv as (?&?&?)|by destruct Hv as (?&?&?&?)]).
    destruct Hp as (-> & [(-> & _ & Hb')|(key & Hh & Hk')]).
    + rewrite Hn. destruct Hb' as [->|Hs]; [exists VEmpty|exists VSpoiled]; auto.
    + exists (VKey key (policy_of a (pcrs w1))). split; [done|]. split; [|by right].
      destruct Hk' as [[-> _]| ->]; [rewrite Hn|]; auto.
Qed.
(** Losing writes leaves a key that is there, or spoils it. *)
Lemma take_vault v n b : vault_in v b → vault_in v (take n <$> b) ∨ v ≠ VEmpty ∧ vault_in VSpoiled (take n <$> b).
Proof.
  destruct v as [| |key d]; [intros ->; by left|intros (x & -> & Hx)|intros (pub & priv & -> & Hu & Hp & Hq)]; cbn.
  - right. split; [done|]. eexists. split; [done|]. intros pub priv rest Hl1 Hl2 E.
    apply (Hx pub priv (rest ++ drop n x)); [done..|]. rewrite !app_assoc, <-(app_assoc pub), <-E. by rewrite take_drop.
  - destruct (decide (length (pub ++ priv) <= n)); [left; rewrite take_ge by done; by exists pub, priv|].
    right. split; [done|]. eexists. split; [done|]. apply unreadable_short. rewrite length_take. rewrite length_app in *. lia.
Qed.
Lemma boot_steps b w v :
  sealable (b_args b) →
  (∀ h c, ideal (b_key b) (foldl world_step (power_on (b_pcrs b) w) h) (Event c (b_oracle b h c))) →
  vault_in v (blobs w !! dev) →
  ∃ v', vault_in v' (blobs (after_boot b w) !! dev) ∧
    vault_step (shows dev b (after_boot b w)).1 v (shows dev b (after_boot b w)).2 v'.
Proof.
  intros Ha Ho Hv. pose proof (λ n, boot_always b w n Ha Ho) as Hb. unfold after_boot, shows, b_dev. cbn [fst snd].
  set (t := (run _ _ _).2) in *. clearbody t. destruct (b_power b) as [|n written]; cbv zeta.
  - specialize (Hb (length t)). rewrite take_ge in Hb by done.
    destruct (booted_steps _ _ _ _ v Hb) as (v' & ? & ? & _); eauto.
  - specialize (Hb n). set (w' := foldl _ _ _) in *. clearbody w'.
    destruct (booted_steps _ _ _ _ v Hb) as (v' & Hv' & Hs & Hor); [done..|].
    rewrite power_off_blob. cbn [power_off blobs pcrs storage_key power_on] in *.
    assert ((if decide (cstr (devNodeBlob (b_args b)) = dev) then None else None) = @None (list byte)) as -> by by case_decide.
    unfold on_disk. destruct (decide (blobs w' !! dev = blobs w !! dev)) as [E|E]; [exists v; auto|]. destruct Hor as [[E2 _]| ->]; [by destruct (E E2)|].
    destruct written as [j|]; [|exists VEmpty; auto].
    destruct (take_vault v' j _ Hv') as [Ht|[_ Ht]]; [exists v'|exists VSpoiled]; (split; [done|]); [|auto].
    inversion Hs; subst; auto.
Qed.
Lemma life_refines bs w v :
  vault_in v (blobs w !! dev) → honest w bs →
  ∃ v', vault_life v (zip_with (shows dev) bs (lifetime w bs)) v' ∧ vault_in v' (blobs (after_boots w bs) !! dev).
Proof.
  revert w v. induction bs as [|b bs IH]; intros w v Hv Hh; [by exists v; split; [constructor|]|].
  destruct Hh as (Ha & Ho & Hh). destruct (boot_steps b w v Ha Ho Hv) as (v1 & Hv1 & Hs).
  destruct (IH _ _ Hv1 Hh) as (v' & Hl & Hv'). exists v'. split; [by econstructor|exact Hv'].
Qed.
(** One key and one policy for all boots with this partition that end with a key. *)
Definition unlocked (key d : list byte) (b : boot) (w' : world) : Prop :=
  ∀ x, b_dev b = dev → storage_key w' = Some x → x = key ∧ policy_of (b_args b) (pcrs w') = d.
Lemma lifetime_length bs w : length (lifetime w bs) = length bs.
Proof. revert w. induction bs as [|b bs IH]; intros w; [done|]. cbn. by rewrite IH. Qed.
Lemma life_unlocked bs w : blobs w !! dev = None → honest w bs → ∃ key d, Forall2 (unlocked key d) bs (lifetime w bs).
Proof.
  intros Hw Hh. destruct (life_refines bs w VEmpty Hw Hh) as (v' & Hl & _).
  destruct (vault_life_one _ _ Hl) as (key & d & Hf). exists key, d.
  apply Forall2_same_length_lookup_2; [by rewrite lifetime_length|]. intros i b w' Hb Hw' x Hd Hx.
  rewrite Forall_lookup in Hf. apply (Hf i (shows dev b w')); [by apply lookup_zip_with_Some; eauto 6|].
  by rewrite decide_True.
Qed.

(** A hash function does not map the two given values to the same digest. *)
Definition no_collision {A B} (f : A → B) (x y : A) : Prop := f x = f y → x = y.
(** The sealed PCRs of options: those the policy is over. *)
Lemma sealed_values a v v' k :
  sealable a → k ∈ sealed a → (0 <= k < 24)%Z →
  selected_values v (sel_of a) = selected_values v' (sel_of a) → v k = v' k.
Proof.
  intros Ha Hk Hr. destruct (SelectPcr_selects a Ha) as (sel & E & Hsel). unfold sel_of. rewrite E.
  assert (k ∈ filter (λ k, selected sel k = true) (seqZ 0 24)) as Hin.
  { apply list_elem_of_filter. split; [|apply elem_of_seqZ; lia]. rewrite Hsel by lia.
    apply bool_decide_eq_true. split; [done|lia]. }
  unfold selected_values. revert Hin. generalize (filter (λ k, selected sel k = true) (seqZ 0 24)).
  induction l as [|x l IH]; intros Hin; [by apply elem_of_nil in Hin|]. cbn [map]. intros [= Ex El].
  apply elem_of_cons in Hin as [->|Hin]; [done|by apply IH].
Qed.

(** The PCRs at the end of a boot in a lifetime are those of a moment of a boot. *)
Lemma life_booted w bs i b w' :
  honest w bs → bs !! i = Some b → lifetime w bs !! i = Some w' →
  sealable (b_args b) ∧ ∃ w0 w1, booted (b_key b) (b_args b) (power_on (b_pcrs b) w0) w1 ∧ pcrs w' = pcrs w1.
Proof.
  revert w i. induction bs as [|b0 bs IH]; intros w i Hh Hb Hw; [done|]. destruct Hh as (Ha & Ho & Hh).
  destruct i as [|i]; cbn in Hb, Hw; [|by apply (IH _ i Hh)]. injection Hb as ->. injection Hw as <-.
  split; [done|]. pose proof (λ n, boot_always b w n Ha Ho) as Hn. unfold after_boot. set (t := (run _ _ _).2) in *.
  destruct (b_power b) as [|n written]; [specialize (Hn (length t)); rewrite take_ge in Hn by done|specialize (Hn n)].
  all: by eexists _, _.
Qed.
Lemma booted_pcrs rk a w w' :
  booted rk a w w' →
  pcrs w' = pcrs w ∨
  pcrSet a = true ∧
  ∀ j, pcrs w' j = if decide (j = pcr_of (pcrIndex a)) then pcr_extend (pcrs w j) (sha256 rk) else pcrs w j.
Proof.
  intros (w1 & o & (_ & _ & Hm) & _ & Hp). assert (pcrs w' = pcrs w1) as ->; [|done].
  destruct (blobs w1 !! _); by destruct Hp.
Qed.
End Life.

Section Theorems.
Context `{Libc} `{MbedTLS} `{TpmParams} `{DmParams} `{Build} `{TpmModel}.

(** C13: For every blob partition the boots of a machine refine an abstract vault that is empty, spoiled
    or holds one key under one policy: a boot leaves it as it is, or fills or spoils an empty one, and
    shows only the key it holds, under its policy. This holds for any number of boots of a production
    build of main, with command lines that may name other partitions and whose sealed PCRs fit the
    selection, with faults at any call, short writes, and power failures between any two calls that lose
    buffered writes; in particular a sealed key is never lost or replaced. *)
Theorem lifetime_refines_vault dev w bs v
    (Hhsm : COMINIT_FAKE_HSM = None) (Hsize : (0 < sizeof_TPM2B_PUBLIC)%Z)
    (Hv : vault_in v (blobs w !! dev)) (Hbs : honest w bs) :
  ∃ v', vault_life v (zip_with (shows dev) bs (lifetime w bs)) v' ∧ vault_in v' (blobs (after_boots w bs) !! dev).
Proof. by apply life_refines. Qed.

(** C17: Over the whole life of a machine, any number of boots of a production build of main whose
    command lines have sealed PCRs that fit the selection, starting without a sealed blob on a
    partition: any two boots that take the blob from this partition and end with a secure storage key in
    the keyring end with the same key, and the policy digests over their selected PCR values are equal.
    Boots in between may use other partitions. The TPM, the file system and the keyring may fail at any
    call of any boot, writes of the blob file may be short, and the power may fail between any two calls
    and lose buffered writes. *)
Theorem storage_key_never_changes dev w bs i j bi bj wi wj ki kj
    (Hhsm : COMINIT_FAKE_HSM = None) (Hsize : (0 < sizeof_TPM2B_PUBLIC)%Z)
    (Hnew : blobs w !! dev = None) (Hbs : honest w bs)
    (Hbi : bs !! i = Some bi) (Hwi : lifetime w bs !! i = Some wi) (Hdi : b_dev bi = dev) (Hki : storage_key wi = Some ki)
    (Hbj : bs !! j = Some bj) (Hwj : lifetime w bs !! j = Some wj) (Hdj : b_dev bj = dev) (Hkj : storage_key wj = Some kj) :
  ki = kj ∧ policy_of (b_args bi) (pcrs wi) = policy_of (b_args bj) (pcrs wj).
Proof.
  destruct (life_unlocked Hhsm Hsize dev bs w Hnew Hbs) as (key & d & Hu).
  destruct (Forall2_lookup_lr _ _ _ _ _ _ Hu Hbi Hwi _ Hdi Hki) as [-> ->].
  by destruct (Forall2_lookup_lr _ _ _ _ _ _ Hu Hbj Hwj _ Hdj Hkj) as [-> ->].
Qed.

(** C18: In such a life, unless two inputs collide under the TPM's hash functions, two boots with the
    same options that get the storage key agree in every sealed PCR below 24. If pcrExtend was not given
    for that PCR its value is the one the firmware left and the firmware left the same in both boots; if
    it was given, and the PCR started from the same value and was extended, the rootfs public keys of
    both boots have the same digest. *)
Theorem storage_bound_to_platform w bs a i j bi bj wi wj ki kj
    (Hhsm : COMINIT_FAKE_HSM = None) (Hsize : (0 < sizeof_TPM2B_PUBLIC)%Z)
    (Hnew : blobs w !! cstr (devNodeBlob a) = None) (Hbs : honest w bs)
    (Hbi : bs !! i = Some bi) (Hwi : lifetime w bs !! i = Some wi) (Hki : storage_key wi = Some ki) (Hai : b_args bi = a)
    (Hbj : bs !! j = Some bj) (Hwj : lifetime w bs !! j = Some wj) (Hkj : storage_key wj = Some kj) (Haj : b_args bj = a)
    (Hpol : no_collision (policy_extend policy0 (sel_of a))
              (selected_values (pcrs wi) (sel_of a)) (selected_values (pcrs wj) (sel_of a)))
    (Hext : ∀ v, no_collision (pcr_extend v) (sha256 (b_key bi)) (sha256 (b_key bj))) :
  ∀ k, k ∈ sealed a → (0 <= k < 24)%Z →
    pcrs wi k = pcrs wj k ∧
    if decide (pcrSet a = true ∧ k = pcr_of (pcrIndex a)) then
      b_pcrs bi k = b_pcrs bj k → pcrs wi k ≠ b_pcrs bi k → sha256 (b_key bi) = sha256 (b_key bj)
    else pcrs wi k = b_pcrs bi k ∧ b_pcrs bi k = b_pcrs bj k.
Proof.
  destruct (life_unlocked Hhsm Hsize _ bs w Hnew Hbs) as (key & d & Hu).
  destruct (Forall2_lookup_lr _ _ _ _ _ _ Hu Hbi Hwi _ ltac:(unfold b_dev; by rewrite Hai) Hki) as [_ Ei].
  destruct (Forall2_lookup_lr _ _ _ _ _ _ Hu Hbj Hwj _ ltac:(unfold b_dev; by rewrite Haj) Hkj) as [_ Ej].
  destruct (life_booted Hhsm Hsize _ _ _ _ _ Hbs Hbi Hwi) as (Hs & w1 & wi' & Hwi' & Epi).
  destruct (life_booted Hhsm Hsize _ _ _ _ _ Hbs Hbj Hwj) as (_ & w2 & wj' & Hwj' & Epj).
  rewrite Hai in *. rewrite Haj in *. intros k Hk Hr.
  assert (pcrs wi k = pcrs wj k) as E.
  { apply (sealed_values a); [done..|]. apply Hpol. unfold policy_of in *. congruence. }
  split; [done|]. apply booted_pcrs in Hwi', Hwj'. rewrite <-Epi in Hwi'. rewrite <-Epj in Hwj'. cbn [power_on pcrs] in Hwi', Hwj'.
  case_decide as Hd.
  - destruct Hd as [_ ->]. destruct Hwi' as [Hi|[_ Hi]], Hwj' as [Hj|[_ Hj]]; rewrite Hi, Hj, ?decide_True in E by done;
      intros E0 Hne; rewrite Hi, ?decide_True in Hne by done; try congruence.
    rewrite E0 in E. by apply Hext in E.
  - assert (pcrs wi k = b_pcrs bi k) as Fi by (destruct Hwi' as [->|[? ->]]; [done|]; rewrite decide_False by tauto; done).
    assert (pcrs wj k = b_pcrs bj k) as Fj by (destruct Hwj' as [->|[? ->]]; [done|]; rewrite decide_False by tauto; done).
    split; [done|congruence].
Qed.

(** A blob file that does not hold both parts of the object, as a short write or a failed Esys_Create on
    the first boot leaves it, is never replaced: no later boot that takes the blob from this partition
    gets a storage key, for any number of boots. *)
Theorem spoiled_blob_locks_storage dev w bs
    (Hhsm : COMINIT_FAKE_HSM = None) (Hsize : (0 < sizeof_TPM2B_PUBLIC)%Z)
    (Hblob : spoiled (blobs w !! dev)) (Hbs : honest w bs) :
  Forall2 (λ b w', spoiled (blobs w' !! dev) ∧ (b_dev b = dev → storage_key w' = None)) bs (lifetime w bs).
Proof.
  revert w Hblob Hbs. induction bs as [|b bs IH]; intros w Hw Hh; [constructor|]. destruct Hh as (Ha & Ho & Hh).
  destruct (boot_steps Hhsm Hsize dev b w VSpoiled Ha Ho Hw) as (v' & Hv' & Hs). unfold shows in Hs. cbn [fst snd] in Hs.
  inversion Hs as [| | | |]; subst; constructor; [|by apply IH]. split; [done|].
  intros Hd. by rewrite decide_True in * by done.
Qed.
End Theorems.
