(* ===== verification/CominitRefine.v ===== *)
(** * CominitRefine: [main] implements the machine of BootSpec.v *)
From S2P Require Import Prelude CString Sys Output Common Crypto Keyring Meta MetaProofs Dmctl.
From S2P Require Import Minsetup MinsetupProofs Automount Subprocess Securememory Tpm Footprint TpmProofs.
From S2P Require Import BootSpec Cominit CominitProofs.

(** How a run may end in a phase. A helper process, which the model follows
    after [fork], is replaced by its program or exits; a run that reaches
    undefined behaviour or reads without end has no obligation. *)
Definition final (s : phase) (o : outcome Z) : Prop :=
  match o with
  | Done c => c = EXIT_FAILURE ∧ s = GivenUp
  | Ended (Execed p) =>
      match s with InitRuns _ _ => p = INIT | ShellRuns => p = SHELL | Verified _ => helper p = true | _ => False end
  | Ended (Exited _) => match s with Verified _ => True | _ => False end
  | Ended (Undef _) | Ended NoFuel => True
  end.

Section Refine.
Context `{Libc} `{MbedTLS} `{TpmParams} `{DmParams} `{Build}.
(** The run so far leads to a phase that allows this outcome. *)
Definition implements (o : outcome Z) (t : trace) : Prop := ∃ s, breach t s ∧ final s o.
Local Abbreviation impl p := (wp upd_trace any_env p implements).

Lemma stop_final s e : stop_ok (work_call s) e → final s (Ended e).
Proof. destruct e as [p|code|u|]; try done; destruct s; try done; cbn; by try intros [_ Hp]. Qed.

(** A part of [main] that stays in its phase. *)
Lemma impl_work {A} s (p : prog A) (f : A → prog Z) t :
  only (work_call s) p → breach t s → (∀ a t', breach t' s → impl (f a) t') → impl (bind p f) t.
Proof.
  intros Hp Ht Hf. eapply wp_call; [apply wp_and; [by apply wp_only|by apply wp_yields, only_stops]| |].
  - intros a t' [(u & -> & Hu) _]. by apply Hf, breach_work.
  - intros e t' [(u & -> & Hu) He]. exists s. split; [by apply breach_work|by apply stop_final].
Qed.
(** Giving up after some attempts. *)
Lemma impl_rescue s t u :
  running s = true → Forall (λ e, attempt s e = true) u → breach t s → impl rescue (t ++ u).
Proof.
  intros Hs Hu Ht. unfold rescue.
  assert (breach (t ++ u) Failed) as Hf by (eapply br_step; [done|by constructor]).
  apply wp_sys. intros [e|] _; cbn [wp]; unfold upd_trace.
  - exists GivenUp. split; [eapply br_step; [exact Hf|apply bs_halt]|done].
  - exists ShellRuns. split; [eapply br_step; [exact Hf|apply bs_shell]|done].
Qed.
Lemma impl_rescue_now s t : running s = true → breach t s → impl rescue t.
Proof. intros Hs Ht. rewrite <-(app_nil_r t). by apply (impl_rescue s). Qed.

(** ** The minimal system *)

Lemma wp_Sysfiles t0 :
  wp upd_trace any_env cominitSetupSysfiles
    (λ o t, (o = Done 0%Z ∧ ∃ t', t = t0 ++ t' ∧ sysfiles_ready t') ∨ o = Done (-1)%Z) t0.
Proof.
  unfold cominitSetupSysfiles, mkdirExist, mountBusy.
  repeat (wp_step; cbv beta zeta); try (by right); left; (split; [done|]);
    unfold upd_trace; rewrite <-!app_assoc; (eexists; split; [reflexivity|]);
    repeat match goal with
      | u : unit |- _ => destruct u
      | u : reply (Umask _) |- _ => destruct u
      | E : negb (bool_decide _) = false |- _ => apply negb_false_iff, bool_decide_eq_true in E; subst
      end; eexists _, _, _, _; (split_and!; [..|reflexivity]); (by left) || (by right).
Qed.

(** ** The phases of [main] *)

Lemma work_SetupStorage m a first : only (work_call (Verified m)) (cominitTpmSetupSecureStorage a first).
Proof.
  assert (∀ c, tpm_call c || spawn_call c = true → work_call (Verified m) c = true) as Hw.
  { intros c Hc. cbn. rewrite <-(orb_assoc (probe_call c)), Hc. by rewrite orb_true_r. }
  destruct first; [apply (only_SetupFirst _ Hw (cstr (devNodeCrypt a)))|
    apply (only_SetupLater _ Hw (cstr (devNodeCrypt a)))]; done.
Qed.
#[local] Hint Resolve work_SetupStorage : only.
Lemma work_ProtectData m c a : only (work_call (Verified m)) (cominitTpmProtectData c a).
Proof. unfold cominitTpmProtectData. only_auto. Qed.
#[local] Hint Resolve work_ProtectData : only.
Lemma work_mainTpm m a : only (work_call (Verified m)) (mainTpm a).
Proof. unfold mainTpm. only_auto. Qed.
#[local] Hint Resolve work_mainTpm : only.

Lemma impl_mainSwitch a m m1 t : breach t (Mounted m m1) → impl (mainSwitch a) t.
Proof.
  intros Ht. unfold mainSwitch.
  do 4 (eapply impl_work; [|exact Ht|clear t Ht; intros _ t Ht]; [only_auto|]).
  eapply wp_call; [apply wp_and; [apply wp_Switch|apply (wp_only switch_call), fp_Switch]| |].
  - intros r t' [(u & -> & Hr) (u' & E & Hu)]. apply app_inv_head in E as <-. case_bool_decide as Er.
    + apply (impl_rescue (Mounted m m1)); [done|exact Hu|done].
    + destruct Hr as [[_ Hs]|[[= ->] _]]; [|done].
      assert (breach (t ++ u) (Switched m m1)) as Hb by (eapply br_step; [exact Ht|by constructor]).
      apply wp_sys. intros [e|] _; cbn [wp].
      * apply (impl_rescue (Switched m m1)); [done|by repeat constructor|done].
      * exists (InitRuns m m1). split; [eapply br_step; [exact Hb|constructor]|done].
  - intros e t' [(u & _ & [[? _]|[? _]]) _]; done.
Qed.

Lemma impl_mainMount a m d t : breach t (Verified m) → impl (mainMount a m d) t.
Proof.
  intros Ht. unfold mainMount. case_bool_decide; [by apply (impl_rescue_now (Verified m))|].
  eapply impl_work; [|exact Ht|clear t Ht; intros a' t Ht]; [only_auto|].
  eapply impl_work; [|exact Ht|clear t Ht; intros _ t Ht]; [only_auto|].
  eapply wp_call; [apply wp_and; [apply wp_SetupRootfs|apply (wp_only rootfs_call), fp_SetupRootfs]| |by intros ? ? [? _]].
  intros [r m'] t' [(u & -> & Hr) (u' & E & Hu)]. apply app_inv_head in E as <-.
  destruct Hr as [(-> & _ & m1 & -> & Hm)|[-> Hno]].
  - rewrite bool_decide_false by done. apply (impl_mainSwitch a' m m1). eapply br_step; [exact Ht|by constructor].
  - rewrite bool_decide_true by done. apply (impl_rescue (Verified m)); [done| |done].
    apply existsb_false_Forall in Hno. eapply Forall_impl; [apply Forall_and; split; [exact Hu|exact Hno]|].
    intros e [Hc Hm]. cbn. by rewrite Hc, Hm.
Qed.

Lemma work_search m n a d : only (work_call Searching) (discoverLoop n a m d).
Proof.
  eapply only_mono; [|apply fp_discoverLoop]. intros c Hc. cbn. by rewrite Hc.
Qed.
Lemma work_load c : load_call c = true → work_call Searching c = true.
Proof. intros Hc. cbn. by rewrite Hc, orb_true_r. Qed.
Lemma work_enrol descs dir : only (work_call Searching) (cominitKeyringInitFakeHsm descs dir).
Proof. eapply only_mono; [|apply fp_FakeHsm]. intros c Hc. cbn. by rewrite Hc, orb_true_r. Qed.
#[local] Hint Resolve work_search work_enrol : only.

Lemma impl_info t u :
  breach t Idle → Forall (λ e, match ev_call e with Printf _ => True | _ => False end) u →
  implements (Done EXIT_FAILURE) (t ++ u).
Proof. intros Ht Hu. exists GivenUp. split; [eapply br_step; [exact Ht|by constructor]|done]. Qed.

Lemma impl_main argv : impl (main argv) [].
Proof.
  unfold main. eapply (impl_work Idle); [eapply only_mono; [|apply fp_parseArgs]; done|constructor|].
  intros [a| |] t Ht.
  2: { intros r _. cbn [wp]. unfold upd_trace. apply impl_info; [done|by repeat constructor]. }
  2: { intros r _ r' _. cbn [wp]. unfold upd_trace. rewrite <-app_assoc. apply impl_info; [done|by repeat constructor]. }
  do 2 (eapply (impl_work Idle); [by apply only_sys_|exact Ht|clear t Ht; intros _ t Ht]).
  eapply wp_call; [apply wp_and; [apply wp_Sysfiles|apply (wp_only sysfile_call), fp_Sysfiles]| |].
  - intros r t' [Hr (u & -> & Hu)]. case_bool_decide as Er; [by apply (impl_rescue Idle)|].
    destruct Hr as [[_ (u' & E & Hs)]|[= ->]]; [|done]. apply app_inv_head in E as <-.
    assert (breach (t ++ u) Searching) as Hb by (eapply br_step; [exact Ht|by constructor]). clear Ht Hs Hu.
    revert Hb. generalize (t ++ u). clear t u r Er. intros t Ht.
    eapply (impl_work Searching); [|exact Ht|clear t Ht; intros _ t Ht].
    { destruct COMINIT_FAKE_HSM as [[descs dir]|]; only_auto. }
    eapply (impl_work Searching); [only_auto|exact Ht|clear t Ht; intros [[found m] d] t Ht].
    destruct found; cbn [negb]; [|by apply (impl_rescue_now Searching)].
    eapply wp_call; [apply wp_and; [apply wp_LoadVerify|apply wp_and;
      [apply (wp_only load_call), fp_LoadVerify|apply wp_yields, (only_stops load_call), fp_LoadVerify]]| |].
    + intros [r m'] t' [Hl [(u & -> & Hu) _]]. case_bool_decide as Er; [by apply (impl_rescue Searching)|].
      destruct Hl as [(_ & u' & E & Hl)|?]; [|done]. apply app_inv_head in E as <-.
      destruct (decide (Z.land (crypt m') COMINIT_CRYPTOPT_CRYPT = 0)%Z) as [Hc|Hc].
      * apply impl_mainMount. eapply br_step; [exact Ht|by econstructor].
      * unfold mainMount. rewrite bool_decide_true by done. by apply (impl_rescue Searching).
    + intros e t' [_ [(u & -> & Hu) He]]. exists Searching. split.
      * apply breach_work; [done|]. eapply Forall_impl; [exact Hu|]. intros ev. apply work_load.
      * apply stop_final. by destruct e.
  - intros e t' [[[? _]|?] _]; done.
Qed.

(** C1: main implements the abstract boot machine: for every command line and every environment the
    calls of a run are a path of the machine, which goes from idle over searching, verified, mounted and
    switched to init, or over failed to the rescue shell, with the calls a phase may make fixed, and
    whose steps need their evidence in the trace (a verified load of metadata without dm-crypt, the
    mount it describes, a complete switch). The way the run ends belongs to the phase the path leads to;
    a run into undefined behaviour or endless reading is a path up to there. *)
Theorem main_refines_boot_machine o argv :
  let '(out, t) := run o [] (main argv) in
  ∃ s, breach t s ∧ final s out.
Proof.
  pose proof (wp_run_trace _ _ o (impl_main argv)) as Hw. by destruct (run _ _ _) as [out t].
Qed.

(** C2: When a run of main ends in /sbin/init, the root directory of the mount namespace, computed from
    all mount, move, unmount and chroot calls of the run, is the file system described by metadata whose
    signature was verified in that run: nothing the TPM, SELinux, secure storage or system file code
    mounts ever replaces it. *)
Theorem init_runs_on_verified_root o argv (Hinit : (run o [] (main argv)).1 = Ended (Execed INIT)) :
  let t := (run o [] (main argv)).2 in
  ∃ m m1, verified t m ∧ guards m m1 ∧ root (ns_after t) = Some (rootfs_fs m1).
Proof.
  destruct (wp_run_trace _ _ o (impl_main argv)) as (s & Hs & Hf). rewrite Hinit in Hf.
  destruct s as [| |m|m m1|m m1| |m m1| |]; try done.
  destruct (breach_inv _ _ Hs) as (Hr & Hv & Hg). by exists m, m1.
Qed.
End Refine.
