(* ===== verification/CominitMisc.v ===== *)
(** * CominitMisc: waiting for the rootfs and SELinux in Cominit.v *)
From S2P Require Import Prelude CString Sys Output Common Crypto Dmctl Minsetup Automount Tpm.
From S2P Require Import Footprint TpmProofs Cominit CominitProofs.

Section Misc.
Context `{Libc} `{MbedTLS} `{TpmParams} `{DmParams} `{Build}.

(** ** Sleeping *)

(** With a readable clock cominitMicroSleep makes one sleep call, to the absolute time that is exactly
    the requested number of microseconds after the clock reading with normalised nanoseconds, and
    returns 0; the sleep is not repeated after an interruption. *)
Theorem micro_sleep_target (o : oracle) micros sec nsec
    (Hm : (0 <= micros)%Z) (Hn : (0 <= nsec < 10 ^ 9)%Z) (Ho : o [] ClockGettime = Ok (sec, nsec)) :
  let '(out, t) := run o [] (cominitMicroSleep micros) in
  out = Done 0%Z ∧
  ∃ sec' nsec', map ev_call t = [ClockGettime; ClockNanosleep sec' nsec'] ∧ (0 <= nsec' < 10 ^ 9)%Z ∧
    (sec' * 10 ^ 9 + nsec' = sec * 10 ^ 9 + nsec + micros * 1000)%Z.
Proof.
  unfold cominitMicroSleep. rewrite run_sys, Ho. cbv beta iota zeta. cbn [run bind sys_]. split; [done|].
  eexists _, _. split; [reflexivity|]. set (ns := (micros mod 1000000 * 1000 + nsec)%Z).
  pose proof (Z.mod_pos_bound ns 1000000000 ltac:(lia)). split; [lia|].
  pose proof (Z.div_mod ns 1000000000 ltac:(lia)). pose proof (Z.div_mod micros 1000000 ltac:(lia)). unfold ns in *. lia.
Qed.

(** ** Retrying *)

Definition is_sleep (e : event) : nat := match ev_call e with ClockGettime => 1 | _ => 0 end.
Definition upd_sleeps (n : nat) (e : event) : nat := n + is_sleep e.
(** The number of times cominit waited. *)
Definition sleeps (t : trace) : nat := foldl upd_sleeps 0 t.

Definition nosleep (c : call) : bool := match c with ClockGettime => false | _ => true end.
Lemma nosleep_wp {A} (p : prog A) n : only nosleep p → wp upd_sleeps any_env p (λ _ n', n' = n) n.
Proof.
  induction p as [a|c k IH|e]; intros Hp; simpl; [done| |done]. destruct Hp as [Hc Hk]. intros r _.
  replace (upd_sleeps n (Event c r)) with n; [by apply IH|]. unfold upd_sleeps, is_sleep. simpl.
  destruct c; simpl; lia || done.
Qed.
Lemma nosleep_Discover a m d : only nosleep (cominitDiscoverRootfs a m d).
Proof. only_auto. Qed.

Lemma wp_MicroSleep_count micros n : wp upd_sleeps any_env (cominitMicroSleep micros) (λ o n', n' = S n ∧ ∃ r, o = Done r) n.
Proof.
  unfold cominitMicroSleep. repeat (wp_step; cbv beta zeta); unfold upd_sleeps, is_sleep; simpl; (split; [lia|eauto]).
Qed.
Lemma wp_discoverLoop n a m d k :
  wp upd_sleeps any_env (discoverLoop n a m d)
    (λ o k', k <= k' <= k + n ∧ match o with Done (found, _, _) => found = false → k' = k + n | Ended _ => True end) k.
Proof.
  revert m d k. induction n as [|n IH]; intros m d k; cbn [discoverLoop].
  - eapply wp_call; [by apply nosleep_wp, nosleep_Discover| |intros e k' ->; split; [lia|done]].
    intros [[found m'] d'] k' ->. cbv zeta. destruct found; cbn [wp]; (split; [lia|]); [done|lia].
  - eapply wp_call; [by apply nosleep_wp, nosleep_Discover| |intros e k' ->; split; [lia|done]].
    intros [[found m'] d'] k' ->. cbv zeta. destruct found; cbn [wp]; [split; [lia|done]|].
    eapply wp_call; [apply wp_MicroSleep_count| |by intros e k' (_ & r & ?)]. intros r k' (-> & _).
    eapply wp_mono; [|apply IH]. intros o k'' [Hk Ho]. split; [lia|].
    destruct o as [[[found m2] d2]|e]; [|done]. intros Hf. specialize (Ho Hf). lia.
Qed.

(** The loop that waits for the rootfs sleeps at most ten times whatever the environment does, and it
    gives up only after having slept ten times. *)
Theorem discovery_bounded o a m d :
  let '(out, t) := run o [] (discoverLoop COMINIT_ROOT_WAIT_TRIES a m d) in
  sleeps t <= 10 ∧
  match out with Done (found, _, _) => found = false → sleeps t = 10 | Ended _ => True end.
Proof.
  pose proof (wp_run_any upd_sleeps _ _ 0 o (wp_discoverLoop COMINIT_ROOT_WAIT_TRIES a m d 0)) as Hw.
  fold (sleeps (run o [] (discoverLoop COMINIT_ROOT_WAIT_TRIES a m d)).2) in Hw.
  destruct (run _ _ _) as [out t]. cbn [fst snd] in Hw. destruct Hw as [Hk Ho]. split; [unfold COMINIT_ROOT_WAIT_TRIES in *; lia|].
  destruct out as [[[found m'] d']|e]; [|done]. intros Hf. exact (Ho Hf).
Qed.

(** ** SELinux *)

Lemma balanced_LoadPolicy p : balanced (cominitLoadSelinuxPolicy p).
Proof. unfold cominitLoadSelinuxPolicy. balanced_auto. Qed.

(** The events of a policy load. *)
Definition policy_trace (p : path) (fd lfd : Z) (sb : stat_info) (data : list byte) (n : Z) : trace :=
  [Event (Open p O_RDONLY_CLOEXEC) (Ok fd); Event (Fstat fd) (Ok sb); Event (Mmap fd (st_size sb)) (Ok data);
   Event (Open SELINUX_LOAD O_RDWR_CLOEXEC) (Ok lfd); Event (Write lfd data) (Ok n); Event (Close lfd) tt;
   Event (Munmap (st_size sb)) tt; Event (Close fd) tt].

(** cominitLoadSelinuxPolicy always returns, releases every descriptor and mapping, and reports success
    only if the whole mapped policy file was handed to a successful write to the load node. *)
Theorem selinux_policy_loaded o p :
  let '(out, t) := run o [] (cominitLoadSelinuxPolicy (Some p)) in
  held t = [] ∧
  ((out = Done EXIT_SUCCESS ∧ ∃ fd lfd sb data n, t = policy_trace p fd lfd sb data n) ∨ out = Done EXIT_FAILURE).
Proof.
  assert (wp upd_trace any_env (cominitLoadSelinuxPolicy (Some p)) (λ out t,
    (out = Done EXIT_SUCCESS ∧ ∃ fd lfd sb data n, t = policy_trace p fd lfd sb data n) ∨ out = Done EXIT_FAILURE) []) as Hw.
  { unfold cominitLoadSelinuxPolicy. repeat (wp_step; cbv beta zeta); try (by right).
    match goal with x : reply (Write _ _) |- _ => destruct x; [left|by right] end.
    split; [done|]. repeat match goal with
      | x : reply (Close _) |- _ => destruct x | x : reply (Munmap _) |- _ => destruct x end.
    eexists _, _, _, _, _. reflexivity. }
  pose proof (wp_run_trace _ _ o Hw) as Hr.
  pose proof (balanced_run (cominitLoadSelinuxPolicy (Some p)) o) as Hb.
  destruct (run _ _ _) as [out t]. cbn [fst snd] in *. split; [|done].
  destruct Hr as [[-> _]| ->]; (eapply Hb; [apply balanced_LoadPolicy|done]).
Qed.
End Misc.
