(* ===== verification/CominitBoot.v ===== *)
(** * CominitBoot: a healthy machine boots

    The counterpart of CominitProofs.v: on a machine whose calls succeed and
    whose rootfs partition carries accepted metadata, [main] reaches the init of
    the rootfs. *)
From S2P Require Import Prelude CString Sys Output Common Crypto Keyring Meta MetaProofs MetaSpec.
From S2P Require Import Dmctl Minsetup MinsetupProofs Automount AutomountProofs Subprocess Securememory Tpm Cominit.
From S2P Require Import TpmPcr CominitArgs BootSpec CominitProofs.

(** ** The machine *)

(** The answers of a healthy machine; [part] is the size of the rootfs partition
    and the region it ends in, if they are of interest. Calls that are not named
    may be answered in any way. Names in /dev are short enough for the path
    arrays. *)
Definition healthy (part : option (Z * list byte)) (e : event) : Prop :=
  let '(Event c r) := e in
  match c return reply c → Prop with
  | Mkdir _ _ => λ r, r = Ok tt ∨ r = Err EEXIST
  | Mount _ _ _ _ | Mknod _ _ _ | Chdir _ | Chroot _ | Lseek _ _ => λ r, r = Ok tt
  | Stat _ => λ r, ∃ st, r = Ok st
  | Open _ _ => λ r, ∃ fd, r = Ok fd
  | Opendir _ => λ r, match r with Ok names => Forall (λ n, length n <= 250) names | Err _ => True end
  | IoctlBlkGetSize64 _ => λ r, match part with Some (size, _) => r = Ok size | None => True end
  | Read _ n => λ r, match part with Some (_, region) => n = length region → r = Ok region | None => True end
  | PkParsePublicKeyfile _ | RsaSetPadding | RsassaPssVerify _ _ => λ r, r = 0%Z
  | PkGetType | PkCanDoRsa => λ r, r = true
  | Sha256 _ => λ r, r.1 = 0%Z
  | IoctlDmDevCreate _ _ => λ r, ∃ devId, r = Ok devId
  | IoctlDmTableLoad _ _ _ _ | IoctlDmDevSuspend _ _ => λ r, r = Ok tt
  | Execve p _ => λ r, p = INIT → r = None
  | _ => λ _, True
  end r.
(** The directory /dev has only names that fit the path arrays. *)
Definition short_names (e : event) : Prop :=
  let '(Event c r) := e in
  match c return reply c → Prop with
  | Opendir _ => λ r, match r with Ok names => Forall (λ n, length n <= 250) names | Err _ => True end
  | _ => λ _, True
  end r.
Lemma healthy_short part (s : unit) e : healthy part e → short_names e.
Proof. by destruct e as [[] r]. Qed.
(** The same, with [K] promised about the answers of the keyring. *)
Definition healthy_keys (K : event → Prop) (part : option (Z * list byte)) (e : event) : Prop :=
  match ev_call e with KeyctlSearch _ | KeyctlRead _ _ => K e | _ => healthy part e end.
Lemma healthy_keys_healthy K part e : healthy_keys K part e → healthy part e.
Proof. by destruct e as [[] r]. Qed.
Lemma healthy_any_keys part e : healthy part e → healthy_keys (λ _, True) part e.
Proof. by destruct e as [[] r]. Qed.
Class HealthyMachine (o : oracle) (size : Z) (region : list byte) : Prop := {
  healthy_answers : ∀ h c, healthy (Some (size, region)) (Event c (o h c))
}.

(** ** Parts that always return *)

Definition done {A} (P : A → Prop) (o : outcome A) : Prop := match o with Done a => P a | Ended _ => False end.
(** A program that returns, whatever the environment does. *)
Definition total {A} (p : prog A) : Prop := yields p (done (λ _, True)).
Lemma total_bind {A B} (p : prog A) (f : A → prog B) : total p → (∀ a, total (f a)) → total (bind p f).
Proof.
  unfold total, yields. intros Hp Hf. eapply wp_call; [exact Hp| |by intros ? ?]. intros a [] _. apply Hf.
Qed.
Lemma total_ret {A} (a : A) : total (Ret a).
Proof. exact I. Qed.
Lemma total_sys c : total (sys c).
Proof. by intros r _. Qed.
Lemma total_sys_ c : total (sys_ c).
Proof. by intros r _. Qed.
Create HintDb total.
#[export] Hint Resolve total_ret total_sys total_sys_ : total.
Ltac total_step :=
  lazymatch goal with
  | |- total (bind (match ?x with _ => _ end) _) => destruct x
  | |- total (bind _ _) => apply total_bind; [|intros ?]
  | |- total (match ?x with _ => _ end) => destruct x
  | |- total _ => solve [eauto with total]
  end.
Ltac total_auto := repeat (total_step; cbv beta zeta).
(** A total call in any specification. *)
Lemma wp_total {S A B} (upd : S → event → S) env (p : prog A) (f : A → prog B) Q s :
  total p → (∀ a s', wp upd env (f a) Q s') → wp upd env (bind p f) Q s.
Proof.
  intros Hp Hf. eapply wp_call; [by apply wp_yields|intros a s' _; apply Hf|]. by intros ? ?.
Qed.

Section Total.
Context `{Libc} `{MbedTLS} `{TpmParams} `{DmParams} `{Build}.

Lemma total_OnDisk d g p n :
  terminated (diskName d) = true →
  total (cominitAutomountFindPartitionOnDisk (Some d) (Some g) (Some p) n).
Proof.
  intros Ht. unfold cominitAutomountFindPartitionOnDisk, cominitCommonGetPartSize. rewrite Ht. cbn [negb].
  assert (∀ k i fd sz pn buf, total (FindPartitionOnDisk_loop k i d fd sz g pn n buf)) as Hl.
  { induction k as [|k IH]; intros i fd sz pn buf; cbn [FindPartitionOnDisk_loop]; total_auto. }
  total_auto.
Qed.

Lemma done_FindGpt dev d :
  length dev = 512 → terminated (take COMINIT_ROOTFS_DEV_PATH_MAX dev) = true →
  yields (cominitAutomountFindGpt dev d)
    (done (λ '(r, d'), r = EXIT_SUCCESS → terminated (diskName d') = true)).
Proof.
  intros Hl Ht. unfold yields, cominitAutomountFindGpt, cominitAutomountGetBlockSize.
  rewrite (bool_decide_false (length dev < _)) by (unfold COMINIT_ROOTFS_DEV_PATH_MAX; lia).
  repeat (wp_step; cbv beta zeta); try done. by intros _.
Qed.

(** The scan returns, with a terminated disk name if it started with one. *)
Lemma FindPartition_loop_done names dev res d g p n :
  Forall (λ nm, length nm <= 250) names → length dev = 512 → terminated (diskName d) = true →
  yields (FindPartition_loop names dev res d g p n) (done (λ '(_, d', _), terminated (diskName d') = true)).
Proof.
  intros Hn Hdev Hd. revert dev res p Hdev. induction Hn as [|nm names Hnm Hn IH]; intros dev res p Hdev; [exact Hd|].
  cbn [FindPartition_loop]. cbv zeta. case_bool_decide; [by apply IH|]. case_match; [by apply IH|].
  change (2 * COMINIT_ROOTFS_DEV_PATH_MAX) with 512.
  assert (length (snprintf dev 512 (lit "/dev/" ++ nm)) = 512) as Hdev' by (rewrite snprintf_length; lia).
  pose proof (short_terminated dev nm Hdev Hnm) as Ht.
  apply wp_sys. intros [st|e] _; [|by apply IH].
  do 2 (case_bool_decide; [by apply IH|]).
  eapply wp_call; [by apply (done_FindGpt _ zero_disk Hdev' Ht)| |by intros ? ?].
  intros [r d'] [] Hr. case_bool_decide; [|by apply (IH _ r p)].
  eapply wp_call; [by apply (total_OnDisk d' g p n (Hr ltac:(done)))| |by intros ? ?].
  intros [r' pn] [] _. case_bool_decide; [by apply Hr|]. by apply IH.
Qed.

Lemma total_FakeHsm descs dir : total (cominitKeyringInitFakeHsm descs dir).
Proof.
  unfold cominitKeyringInitFakeHsm. pose proof (pending_strtok descs) as Hp.
  destruct (strtok_r descs _) as [cur st]. cbn [fst snd] in Hp.
  eapply (wp_result upd_enrolled _ _ _ []); [apply wp_InitFakeHsm_loop; rewrite Hp; apply length_words|].
  by intros [r|e] s'.
Qed.
Lemma total_nftwEach es : total (nftwEach es).
Proof. eapply (wp_result upd_trace _ _ _ []); [apply wp_nftwEach|]. by intros o s' [-> _]. Qed.

Lemma total_mkdirExist p n : total (mkdirExist p n).
Proof. unfold mkdirExist. total_auto. Qed.
Lemma total_mountBusy p f l : total (mountBusy p f l).
Proof. unfold mountBusy. total_auto. Qed.
#[local] Hint Resolve total_mkdirExist total_mountBusy : total.
Lemma total_SysSelinux : total cominitSetupSysSelinuxfiles.
Proof. unfold cominitSetupSysSelinuxfiles. total_auto. Qed.
Lemma total_LoadPolicy p : total (cominitLoadSelinuxPolicy p).
Proof. unfold cominitLoadSelinuxPolicy. total_auto. Qed.
Lemma total_SetMode v : total (cominitSetSelinuxMode v).
Proof. unfold cominitSetSelinuxMode. total_auto. Qed.
#[local] Hint Resolve total_SysSelinux total_LoadPolicy total_SetMode : total.
Lemma total_mainSelinux a : total (mainSelinux a).
Proof. unfold mainSelinux. total_auto. Qed.
Lemma total_CleanupSysfiles : total cominitCleanupSysfiles.
Proof. unfold cominitCleanupSysfiles. total_auto. Qed.
Lemma total_CleanupSelinux : total cominitCleanupSelinuxfiles.
Proof. unfold cominitCleanupSelinuxfiles. total_auto. Qed.
End Total.

(** ** Scanning in an environment with short names *)

Section Scan.
Context `{Libc} `{MbedTLS} `{TpmParams} `{DmParams} `{Build}.
Context (env : unit → event → Prop) (Henv : ∀ s e, env s e → short_names e).

Lemma wp_FindPartition d g p n :
  terminated (diskName d) = true →
  wp upd_none env (cominitAutomountFindPartition (Some d) (Some g) (Some p) n)
    (λ o _, done (λ '(_, d', _), ∃ d1, d' = Some d1 ∧ terminated (diskName d1) = true) o) tt.
Proof.
  intros Hd. unfold cominitAutomountFindPartition. case_bool_decide; [by exists d|].
  apply wp_sys. intros [names|e] Hn; [|by exists d]. apply Henv in Hn. cbn in Hn.
  eapply wp_call; [apply wp_yields; by apply FindPartition_loop_done; [|rewrite length_replicate|]| |by intros ? ?].
  intros [[? d'] ?] [] Hd'. apply wp_sys_. intros ? _. by exists d'.
Qed.
Lemma wp_mainFindCrypt a d :
  terminated (diskName d) = true →
  wp upd_none env (mainFindCrypt a d) (λ o _, ∃ v, o = Done (set_devNodeCrypt a v)) tt.
Proof.
  intros Ht. unfold mainFindCrypt. case_match; [exists (devNodeCrypt a); by destruct a|]. case_match.
  - apply wp_total; [by apply total_OnDisk|]. intros [? pn] []. by eexists.
  - eapply wp_call; [by apply wp_FindPartition|intros [[? ?] pn] [] _; by eexists|by intros ? ?].
Qed.
Lemma wp_Discover a m d :
  terminated (diskName d) = true →
  wp upd_none env (cominitDiscoverRootfs (Some a) (Some m) (Some d))
    (λ o _, done (λ '(_, _, d'), ∃ d1, d' = Some d1 ∧ terminated (diskName d1) = true) o) tt.
Proof.
  intros Hd. unfold cominitDiscoverRootfs. case_match.
  - apply wp_sys. intros [?|?] _; by exists d.
  - eapply wp_call; [by apply wp_FindPartition|by intros [[? d'] ?] [] ?|by intros ? ?].
Qed.
Lemma wp_discover_short n a m d :
  terminated (diskName d) = true →
  wp upd_none env (discoverLoop n a m d) (λ o _, done (λ '(_, _, d'), terminated (diskName d') = true) o) tt.
Proof.
  revert m d. induction n as [|n IH]; intros m d Hd; cbn [discoverLoop];
    (eapply wp_call; [by apply wp_Discover| |by intros ? ?]);
    intros [[found m'] d'] [] (d1 & -> & Hd1); destruct found; try exact Hd1.
  apply wp_total; [unfold cominitMicroSleep; total_auto|]. intros _ []. by apply IH.
Qed.
End Scan.

(** ** The boot of a healthy machine *)

Section Boot.
Context `{Libc} `{MbedTLS} `{TpmParams} `{DmParams} `{Build}.
Context (part : option (Z * list byte)).
Local Abbreviation boots p Q := (wp upd_none (λ _, healthy part) p Q tt).
#[local] Hint Resolve total_mainSelinux total_CleanupSysfiles total_CleanupSelinux total_FakeHsm
  total_nftwEach : total.

Lemma boots_Sysfiles : boots cominitSetupSysfiles (λ o _, o = Done 0%Z).
Proof.
  unfold cominitSetupSysfiles, mkdirExist, mountBusy.
  by repeat (env_step; cbn [negb]).
Qed.

Lemma boots_FindCrypt a d :
  terminated (diskName d) = true →
  boots (mainFindCrypt a d) (λ o _, ∃ v, o = Done (set_devNodeCrypt a v)).
Proof. apply wp_mainFindCrypt. apply healthy_short. Qed.

Lemma boots_discover n a m d :
  isSet (devNodeRootFs a) = true →
  boots (discoverLoop n a m d) (λ o _, o = Done (true, set_devicePath m (devNodeRootFs a), d)).
Proof. intros Ha. destruct n; cbn [discoverLoop]; unfold cominitDiscoverRootfs; rewrite Ha; by repeat env_step. Qed.

Lemma boots_VerifySignature d s k : boots (cominitCryptoVerifySignature d s k) (λ o _, o = Done 0%Z).
Proof.
  unfold cominitCryptoVerifySignature, cominitRsaSetPadding.
  destruct (bool_decide (MBEDTLS_VERSION_MAJOR = 2)%Z); by repeat (env_step; cbn [negb]).
Qed.

(** Metadata a machine can boot: no unsupported feature, and a file system
    that may be mounted in its mode. *)
Definition bootable (m : cominitRfsMetaData_t) : Prop :=
  (crypt m = COMINIT_CRYPTOPT_NONE ∨ dmTarget m ≠ None) ∧
  (ro m = true ∨ cstr (fsType m) ≠ lit "squashfs").
Lemma bootable_nocrypt m : bootable m → Z.land (crypt m) COMINIT_CRYPTOPT_CRYPT = 0%Z.
Proof.
  intros [[->|Ht] _]; [done|]. unfold dmTarget in Ht. case_bool_decide as E; [by rewrite E|].
  case_bool_decide as E2; [by rewrite E2|done].
Qed.

Lemma boots_SetupDm m tgt :
  dmTarget m = Some tgt → boots (cominitSetupDmDevice (Some m)) (λ o _, ∃ m', o = Done (0%Z, Some m')).
Proof.
  intros Ht. unfold cominitSetupDmDevice, cominitDmctlCreateNewDmDevice, cominitDmctlLoadDmTable,
    cominitDmctlStartDmDevice. rewrite Ht. repeat env_step. by eexists.
Qed.
Lemma boots_SetupRootfs m :
  bootable m → boots (cominitSetupRootfs (Some m)) (λ o _, ∃ m', o = Done (0%Z, m')).
Proof.
  intros [Hdm Hro]. unfold cominitSetupRootfs, mkdirExist.
  replace (negb (ro m) && _) with false.
  2: { destruct (ro m); [done|]. destruct Hro as [|Hro]; [done|]. cbn [negb andb].
       symmetry. by apply bool_decide_eq_false. }
  eapply (wp_call _ _ _ _ (λ o _, ∃ m', o = Done (0%Z, Some m'))).
  - case_bool_decide; [|by eexists]. destruct Hdm as [?|Ht]; [done|].
    destruct (dmTarget m) as [tgt|] eqn:E; [by eapply boots_SetupDm|done].
  - intros [r m'] [] [m1 E]. apply Done_inj, pair_eq in E as [-> ->].
    repeat (env_step; cbn [negb]); by eexists.
  - by intros ? ? [].
Qed.
Lemma boots_Switch : boots cominitSwitchIntoRootfs (λ o _, o = Done 0%Z).
Proof.
  unfold cominitSwitchIntoRootfs. apply wp_sys. intros [es ok] _. apply wp_total; [apply total_nftwEach|].
  intros ? []. by repeat env_step.
Qed.
Lemma boots_mainSwitch a :
  cominitTpmSecureStorageEnabled (Some a) = false →
  boots (mainSwitch a) (λ o _, o = Ended (Execed INIT)).
Proof.
  intros Ha. unfold mainSwitch. rewrite Ha. apply wp_bind. cbn [wp].
  apply wp_total; [apply total_mainSelinux|intros ? []].
  apply wp_total; [total_auto|intros ? []]. apply wp_total; [total_auto|intros ? []].
  eapply wp_call; [apply boots_Switch| |by intros ? ? ?]. intros r [] [= ->].
  rewrite bool_decide_false by done. apply wp_sys. intros r Hr. cbn in Hr. by rewrite (Hr ltac:(done)).
Qed.

(** No option asks for the TPM. *)
Definition no_tpm (a : cominitCliArgs_t) : Prop := pcrSet a = false ∧ isSet (devNodeBlob a) = false.
Lemma no_tpm_off a v : no_tpm a →
  cominitUseTpm (Some (set_devNodeCrypt a v)) = false ∧
  cominitTpmSecureStorageEnabled (Some (set_devNodeCrypt a v)) = false.
Proof.
  intros [Hp Hb]. unfold cominitUseTpm, cominitTpmExtendEnabled, cominitTpmSecureStorageEnabled. cbn.
  by rewrite Hp, Hb.
Qed.
Lemma boots_mainMount a m d :
  no_tpm a → bootable m → terminated (diskName d) = true →
  boots (mainMount a m d) (λ o _, o = Ended (Execed INIT)).
Proof.
  intros Ha Hm Hd. unfold mainMount. rewrite bool_decide_false by (rewrite bootable_nocrypt; congruence).
  eapply wp_call; [by apply boots_FindCrypt| |by intros ? ? []]. intros a' [] [v [= ->]].
  destruct (no_tpm_off a v Ha) as [Hu Hs]. unfold mainTpm. rewrite Hu. apply wp_bind. cbn [wp].
  eapply wp_call; [by apply boots_SetupRootfs| |by intros ? ? []].
  intros [r m'] [] [m1 E]. apply Done_inj, pair_eq in E as [-> ->].
  rewrite bool_decide_false by done. by apply boots_mainSwitch.
Qed.

End Boot.

(** The rootfs partition. *)
Section Region.
Context `{Libc} `{MbedTLS} `{TpmParams} `{DmParams} `{Build}.
Context (size : Z) (region : list byte).
Local Abbreviation boots p Q := (wp upd_none (λ _, healthy (Some (size, region))) p Q tt).
#[local] Hint Resolve total_FakeHsm : total.

Lemma boots_Readall buf fd off :
  0 < length region → length buf = length region → (0 <= off)%Z →
  boots (cominitBinReadall (length region) (Some buf) fd off (length region)) (λ o _, o = Done (0%Z, Some region)).
Proof.
  intros Hr Hb Hoff. unfold cominitBinReadall. rewrite bool_decide_false by lia. env_step. apply wp_bind.
  destruct (length region) as [|n] eqn:E; [lia|]. cbn [cominitBinReadall_loop].
  rewrite bool_decide_false by done. apply wp_sys. intros r Hread. cbn in Hread.
  rewrite (Hread ltac:(by rewrite E)). rewrite bool_decide_false by lia.
  replace (S n - length region) with 0 by lia.
  destruct n; cbn [cominitBinReadall_loop]; rewrite bool_decide_true by done; cbn [wp];
    unfold overwrite; rewrite drop_ge, app_nil_r by lia; done.
Qed.

(** The rootfs metadata is read, verified and parsed. *)
Lemma boots_LoadVerify K m P text sig :
  region = text ++ x00 :: sig → length region = COMINIT_PART_META_DATA_SIZE → nonul text →
  COMINIT_PART_META_SIG_LENGTH < length sig → (Z.of_nat COMINIT_PART_META_DATA_SIZE <= size < 2 ^ 63)%Z →
  wp upd_none (λ _, healthy_keys K (Some (size, region))) (cominitParseMetadata (Some m) (Some text) sig)
    (λ o _, ∃ m', o = Done (0%Z, Some m') ∧ P m') tt →
  wp upd_none (λ _, healthy_keys K (Some (size, region)))
    (cominitLoadVerifyMetadata COMINIT_PART_META_DATA_SIZE m COMINIT_ROOTFS_KEY_LOCATION)
    (λ o _, ∃ m', o = Done (0%Z, m') ∧ P m') tt.
Proof.
  intros Hreg Hlen Htext Hsig Hsize Hparse. unfold cominitLoadVerifyMetadata, cominitCommonGetPartSize.
  assert (∀ A (p : prog A) Q, boots p (λ o _, Q o) →
    wp upd_none (λ _, healthy_keys K (Some (size, region))) p (λ o _, Q o) tt) as Hb.
  { intros A p Q Hp. eapply wp_transfer; [|exact Hp]. intros ? ?. apply healthy_keys_healthy. }
  repeat env_step. cbn [default]. unfold id.
  rewrite u64_small, i64_u64, decide_True by (unfold COMINIT_PART_META_DATA_SIZE in *; lia).
  assert (0 < COMINIT_PART_META_DATA_SIZE) as Hpos by (unfold COMINIT_PART_META_DATA_SIZE; lia).
  rewrite <-Hlen in *. set (n := length region) in *.
  eapply wp_call; [apply Hb, boots_Readall; [done|by rewrite length_replicate|lia]| |by intros ? ? ?].
  intros [r b] [] E. apply Done_inj, pair_eq in E as [-> ->]. repeat env_step. cbn [default]. unfold id, strnlen.
  rewrite (take_ge region) by done.
  assert (cstr region = text) as Ecstr by (rewrite Hreg; by apply cstr_app).
  assert (n = length text + 1 + length sig) as En by (unfold n; rewrite Hreg, length_app; simpl; lia).
  rewrite Ecstr, bool_decide_false by lia.
  assert (drop (length text + 1) region = sig) as ->.
  { rewrite Hreg, cons_middle, app_assoc. apply drop_app_length'. rewrite length_app. done. }
  eapply wp_call; [apply Hb, boots_VerifySignature| |by intros ? ? ?]. intros r' [] [= ->].
  rewrite bool_decide_false by done. eapply wp_call; [exact Hparse| |by intros ? ? (? & ? & _)].
  intros [r'' m''] [] (m' & E & HP). apply Done_inj, pair_eq in E as [-> ->]. by exists m'.
Qed.

(** Up to the mount, in any environment that is at least healthy. *)
Lemma boots_until_mount_keys {S} (upd : S → event → S) (env : S → event → Prop) K argv a P text sig Q s :
  (∀ s e, env s e → healthy_keys K (Some (size, region)) e) →
  region = text ++ x00 :: sig → length region = COMINIT_PART_META_DATA_SIZE → nonul text →
  COMINIT_PART_META_SIG_LENGTH < length sig → (Z.of_nat COMINIT_PART_META_DATA_SIZE <= size < 2 ^ 63)%Z →
  parseArgs argv initArgs = Ret (Options a) → isSet (devNodeRootFs a) = true →
  wp upd_none (λ _, healthy_keys K (Some (size, region)))
    (cominitParseMetadata (Some (set_devicePath zero_meta (devNodeRootFs a))) (Some text) sig)
    (λ o _, ∃ m', o = Done (0%Z, Some m') ∧ P m') tt →
  (∀ m' d s', P m' → terminated (diskName d) = true → wp upd env (mainMount a m' d) Q s') → wp upd env (main argv) Q s.
Proof.
  intros Henv Hreg Hlen Htext Hsig Hsize Hargs Hroot Hparse Hmount. unfold main. rewrite Hargs, bind_ret.
  assert (∀ A (p : prog A) P s, boots p (λ o _, P o) → wp upd env p (λ o _, P o) s) as Hb.
  { intros A p P' s' Hp. eapply wp_transfer; [|exact Hp]. intros ? ? He. by eapply healthy_keys_healthy, Henv. }
  do 2 (apply wp_sys_; intros ? _).
  eapply wp_call; [apply Hb, boots_Sysfiles| |by intros ? ? ?]. intros r1 s1 [= ->].
  rewrite bool_decide_false by done.
  apply wp_total; [destruct COMINIT_FAKE_HSM as [[descs dir]|]; total_auto|intros ? ?].
  eapply wp_call; [by apply Hb, boots_discover| |by intros ? ? ?].
  intros [[found m] d] s2 E. apply Done_inj in E. injection E as -> -> ->. cbn [negb].
  eapply wp_call; [eapply wp_transfer; [exact Henv|by eapply boots_LoadVerify]| |by intros ? ? (? & ? & _)].
  intros [r2 m2] s3 (m' & E & HP). apply Done_inj, pair_eq in E as [-> ->]. rewrite bool_decide_false by done.
  by apply Hmount.
Qed.
Lemma boots_until_mount {S} (upd : S → event → S) (env : S → event → Prop) argv a m' text sig Q s :
  (∀ s e, env s e → healthy (Some (size, region)) e) →
  region = text ++ x00 :: sig → length region = COMINIT_PART_META_DATA_SIZE → nonul text →
  COMINIT_PART_META_SIG_LENGTH < length sig → (Z.of_nat COMINIT_PART_META_DATA_SIZE <= size < 2 ^ 63)%Z →
  parseArgs argv initArgs = Ret (Options a) → isSet (devNodeRootFs a) = true →
  cominitParseMetadata (Some (set_devicePath zero_meta (devNodeRootFs a))) (Some text) sig = Ret (0%Z, Some m') →
  (∀ d s', terminated (diskName d) = true → wp upd env (mainMount a m' d) Q s') → wp upd env (main argv) Q s.
Proof.
  intros Henv Hreg Hlen Htext Hsig Hsize Hargs Hroot Hparse Hmount.
  eapply (boots_until_mount_keys upd env (λ _, True) argv a (λ m, m = m')); try done.
  - intros s' e He. by eapply healthy_any_keys, Henv.
  - rewrite Hparse. by exists m'.
  - intros m'' d s' ->. apply Hmount.
Qed.
End Region.

(** ** Every boot without the TPM ends *)

(** What the boot relies on: reads make progress, keys fit their buffer, the
    names in /dev are short. *)
Definition boot_env (e : event) : Prop := load_env e ∧ short_names e.

Section Ends.
Context `{Libc} `{MbedTLS} `{TpmParams} `{DmParams} `{Build}.
(** The program has become the init of the rootfs or the rescue shell, or it
    gives up with a failure. *)
Definition boot_result (o : outcome Z) : Prop :=
  o = Ended (Execed INIT) ∨ o = Ended (Execed (lit "/bin/sh")) ∨ o = Done EXIT_FAILURE.

Local Abbreviation ends p := (wp upd_none (λ _, boot_env) p (λ o _, boot_result o) tt).
Lemma ends_rescue : ends rescue.
Proof. unfold rescue, boot_result. apply wp_sys. intros [e|] _; cbn [wp]; auto. Qed.
Lemma total_Sysfiles : total cominitSetupSysfiles.
Proof. unfold cominitSetupSysfiles, mkdirExist, mountBusy. total_auto. Qed.
Lemma total_SetupRootfs m : total (cominitSetupRootfs (Some m)).
Proof. eapply (wp_result upd_trace _ _ _ []); [apply wp_SetupRootfs|]. by intros [r|e] s'. Qed.
Lemma total_Switch : total cominitSwitchIntoRootfs.
Proof. unfold cominitSwitchIntoRootfs. pose proof total_nftwEach. total_auto. Qed.

Lemma ends_mainSwitch a : cominitTpmSecureStorageEnabled (Some a) = false → ends (mainSwitch a).
Proof.
  intros Ha. unfold mainSwitch. rewrite Ha. apply wp_bind. cbn [wp].
  pose proof total_mainSelinux. pose proof total_CleanupSysfiles. pose proof total_CleanupSelinux.
  do 3 (apply wp_total; [total_auto|intros ? []]). apply wp_total; [apply total_Switch|intros r []].
  case_bool_decide; [apply ends_rescue|]. apply wp_sys. intros [e|] _; [apply ends_rescue|by left].
Qed.
Lemma ends_mainMount a m d : no_tpm a → terminated (diskName d) = true → ends (mainMount a m d).
Proof.
  intros Ha Hd. unfold mainMount. case_bool_decide; [apply ends_rescue|].
  eapply wp_call; [apply wp_mainFindCrypt; [by intros ? ? [_ ?]|done]| |by intros ? ? []].
  intros a' [] [v [= ->]]. destruct (no_tpm_off a v Ha) as [Hu Hs].
  unfold mainTpm. rewrite Hu. apply wp_bind. cbn [wp].
  apply wp_total; [apply total_SetupRootfs|intros [r m'] []].
  case_bool_decide; [apply ends_rescue|by apply ends_mainSwitch].
Qed.
(** Up to the mount, in any environment the boot can rely on. *)
Lemma ends_until_mount (env : unit → event → Prop) argv r (Q : outcome Z → unit → Prop) :
  (∀ s e, env s e → boot_env e) → (∀ o s, boot_result o → Q o s) →
  parseArgs argv initArgs = Ret r →
  (∀ a m d, r = Options a → terminated (diskName d) = true → wp upd_none env (mainMount a m d) Q tt) →
  wp upd_none env (main argv) Q tt.
Proof.
  intros Henv HQ Hargs Hmount. unfold main. rewrite Hargs, bind_ret.
  assert (wp upd_none env rescue Q tt) as Hrescue.
  { eapply wp_env; [|apply ends_rescue|]; [exact Henv|done]. }
  destruct r as [a| |]; [|apply wp_total; [unfold cominitPrintUsage, cominitPrintVersion; total_auto|intros ? []; apply HQ; by right; right]..].
  do 2 (apply wp_sys_; intros ? _). apply wp_total; [apply total_Sysfiles|intros r1 []].
  case_bool_decide; [exact Hrescue|]. pose proof total_FakeHsm.
  apply wp_total; [destruct COMINIT_FAKE_HSM as [[descs dir]|]; total_auto|intros ? []].
  eapply wp_call; [apply wp_discover_short; [intros ? ? He; by apply Henv in He as [_ ?]|by vm_compute]| |by intros ? ?].
  intros [[found m] d] [] Hd. destruct found; cbn [negb]; [|exact Hrescue].
  eapply wp_call; [eapply wp_env; [|by apply (returns_LoadVerify upd_none)|]; [intros ? ? He; by apply Henv in He as [? _]|]| |].
  - intros o s' Hr. exact Hr.
  - intros [r2 m2] [] _. case_bool_decide; [exact Hrescue|]. by apply Hmount.
  - by intros ? ?.
Qed.
End Ends.

Section Theorems.
Context `{Libc} `{MbedTLS} `{TpmParams} `{DmParams} `{Build}.

(** C7: On a healthy machine main reaches the rootfs: if the command line names the rootfs device and
    asks for no TPM, the device ends in a region of accepted, bootable metadata with a signature that
    verifies, and the calls the boot depends on succeed, then main ends by executing /sbin/init,
    whatever all other calls (SELinux, scan for the secure storage, removal of the initramfs) answer. *)
Theorem healthy_machine_boots o argv a m' size text sig
    (Ho : HealthyMachine o size (text ++ x00 :: sig))
    (Hlen : length (text ++ x00 :: sig) = COMINIT_PART_META_DATA_SIZE) (Htext : nonul text)
    (Hsig : COMINIT_PART_META_SIG_LENGTH < length sig)
    (Hsize : (Z.of_nat COMINIT_PART_META_DATA_SIZE <= size < 2 ^ 63)%Z)
    (Hargs : parseArgs argv initArgs = Ret (Options a)) (Hroot : isSet (devNodeRootFs a) = true) (Htpm : no_tpm a)
    (Hparse : cominitParseMetadata (Some (set_devicePath zero_meta (devNodeRootFs a))) (Some text) sig =
              Ret (0%Z, Some m'))
    (Hboot : bootable m') :
  (run o [] (main argv)).1 = Ended (Execed INIT).
Proof.
  apply (wp_run upd_none (λ _, healthy (Some (size, text ++ x00 :: sig))) (main argv)
    (λ o _, o = Ended (Execed INIT)) tt o (λ h c, healthy_answers h c) []).
  eapply (boots_until_mount _ _ upd_none (λ _, healthy (Some (size, text ++ x00 :: sig)))); try done.
  intros d [] Hd. by apply boots_mainMount.
Qed.

(** C8: Without TPM options every boot comes to a defined end: for every command line and every
    environment in which reads within the device make progress, keys fit their 512-byte buffer, a
    metadata region is padded as the README asks (a NUL or a colon follows its text), and the names in
    /dev are short, main executes /sbin/init or the rescue shell or returns EXIT_FAILURE. No loop is
    endless and no undefined behaviour (out of bounds access, NULL or uninitialised pointer) is reached. *)
Theorem boot_always_ends o argv
    (Ho : ∀ h c, boot_env (Event c (o h c))) (Hargv : Forall nonul argv)
    (Htpm : ∀ a, parseArgs argv initArgs = Ret (Options a) → no_tpm a) :
  boot_result (run o [] (main argv)).1.
Proof.
  destruct (parseArgs_wf argv initArgs Hargv initArgs_wf) as (r & Hr & _).
  apply (wp_run upd_none (λ _, boot_env) (main argv) (λ o _, boot_result o) tt o (λ h c, Ho h c) []).
  apply (ends_until_mount _ argv r); [done|done|done|]. intros a m d -> Hd. apply ends_mainMount; [by apply Htpm|done].
Qed.
End Theorems.
