(* ===== verification/CominitTpm.v ===== *)
(** * CominitTpm: the boot of a provisioned machine with a TPM

    A machine is provisioned when its blob partition holds a sealed blob, or when
    it can seal a first one. The TPM code of [main] then always returns, whatever
    else the TPM, the keyring and the helper programs answer; so neither the end
    of the boot nor, on an otherwise healthy machine, its success depends on the
    TPM. On a machine that cannot seal a first blob the code runs into undefined
    behaviour, in exactly the cases that are listed at the end. *)
From S2P Require Import Prelude CString Sys Output Common Crypto Keyring Meta MetaProofs MetaSpec.
From S2P Require Import Dmctl Minsetup MinsetupProofs Automount Subprocess Securememory Tpm Footprint.
From S2P Require Import TpmPcr TpmProofs TpmBoot BootSpec Cominit CominitArgs CominitProofs CominitBoot.

(** The directories the TPM code creates, with their prefixes. *)
Definition tpm_dirs : list path :=
  [COMINIT_TPM_MNT_PT; lit "/newroot"; COMINIT_TPM_SECURE_STORAGE_MNT].
(** What the TPM code relies on: the stack stores its contexts, a TCTI context
    that could not be initialised as NULL, an unsealed key comes with its bytes,
    an encoded key fits its buffer and the directories exist after [mkdir]. *)
Definition tpm_stack (e : event) : Prop :=
  let '(Event c r) := e in
  match c return reply c → Prop with
  | TctiInitialize _ => λ r, if decide (r.1 = 0%Z) then r.2 ≠ None else r.2 = Some 0%Z
  | EsysInitialize _ => λ r, r.2 ≠ None
  | EsysUnseal _ _ _ => λ r, r.1 = 0%Z → r.2 ≠ None
  | PkWritePubkeyDer n => λ r, (r.1 <= Z.of_nat n)%Z
  | Stat p => λ r, p ∈ tpm_dirs → ∃ st, r = Ok st
  | _ => λ _, True
  end r.
(** The blob is there: access fails only for another reason than a missing file. *)
Definition has_blob (e : event) : Prop :=
  let '(Event c r) := e in
  match c return reply c → Prop with Access _ => λ r, r ≠ Err ENOENT | _ => λ _, True end r.
(** A first blob can be sealed: the primary key, the session and the object are
    created, memory and random numbers for the passphrase are there, and the
    key in the keyring can be read back. *)
Definition can_seal `{TpmParams} (e : event) : Prop :=
  let '(Event c r) := e in
  match c return reply c → Prop with
  | EsysInitialize _ => λ r, r.2 ≠ Some 0%Z
  | EsysCreatePrimary _ _ => λ r, r.1 = 0%Z
  | EsysStartAuthSession _ _ _ | EsysPolicyGetDigest _ _ => λ r, r.2 ≠ None
  | EsysCreate _ _ _ _ _ => λ r, r.2 ≠ None
  | Calloc n => λ r, n = sizeof_TPM2B_SENSITIVE_CREATE → r = true
  | Mlock n => λ r, n = sizeof_TPM2B_SENSITIVE_CREATE → r = Ok tt
  | CtrDrbgSeed _ => λ r, r = 0%Z
  | CtrDrbgRandom _ => λ r, r.1 = 0%Z
  | KeyctlSearch d => λ r, d = COMINIT_TPM_SECURE_STORAGE_KEY_NAME → ∃ id, r = Ok id
  | KeyctlRead _ n => λ r, (0 <= n)%Z → ∃ len bs, r = Ok (len, bs) ∧ (0 <= len <= n)%Z
  | _ => λ _, True
  end r.
(** [fresh]: the machine seals its first blob in this boot. *)
Definition provisioned `{TpmParams} (fresh : bool) (e : event) : Prop :=
  tpm_stack e ∧ if fresh then can_seal e else has_blob e.
(** [fork] answers in the parent. *)
Definition in_parent (e : event) : Prop :=
  let '(Event c r) := e in
  match c return reply c → Prop with Fork => λ r, r ≠ 0%Z | _ => λ _, True end r.

(** A run returned, or it is that of a helper process. *)
Definition left_alone {A} (child : bool) (o : outcome A) : Prop :=
  match o with
  | Done _ => True
  | Ended (Execed p) => child = true ∧ helper p = true
  | Ended (Exited _) => child = true
  | Ended (Undef _) | Ended NoFuel => False
  end.

Section Sane.
Context `{Libc} `{MbedTLS} `{TpmParams} `{DmParams} `{Build}.
Context (child fresh : bool) (env : unit → event → Prop).
Context (Hstack : ∀ s e, env s e → tpm_stack e) (Hprov : ∀ s e, env s e → if fresh then can_seal e else has_blob e).
Context (Hfork : child = false → ∀ s e, env s e → in_parent e).
Definition sane {A} (b : bool) (p : prog A) : Prop := wp upd_none env p (λ o _, left_alone b o) tt.

Lemma sane_bind {A B} b (p : prog A) (f : A → prog B) : sane b p → (∀ a, sane b (f a)) → sane b (bind p f).
Proof.
  intros Hp Hf. eapply wp_call; [exact Hp|intros a [] _; apply Hf|]. by intros e s' He.
Qed.
Lemma sane_total {A} b (p : prog A) : total p → sane b p.
Proof.
  intros Hp. eapply wp_mono; [|apply wp_yields; exact Hp]. by intros [a|e] s' Ho.
Qed.
Lemma sane_weaken {A} b (p : prog A) : sane false p → sane b p.
Proof. intros Hp. eapply wp_mono; [|exact Hp]. by intros [a|[]] s' Ho; cbn in *; destruct_and?. Qed.
Create HintDb sane.
#[local] Hint Resolve sane_total total_ret total_sys total_sys_ : sane.
#[local] Hint Extern 2 (sane ?b _) => lazymatch b with false => fail | _ => apply sane_weaken end : sane.
Ltac sane_step :=
  lazymatch goal with
  | |- sane _ (bind (Ret _) _) => rewrite bind_ret
  | |- sane _ (bind (match ?x with _ => _ end) _) => destruct x
  | |- sane _ (bind _ _) => apply sane_bind; [|intros ?]
  | |- sane _ (match ?x with _ => _ end) => destruct x
  | |- sane _ _ => solve [eauto with sane]
  end.
Ltac to_sane := match goal with |- wp _ _ ?p _ _ => change (sane child p) || change (sane false p) end.
Ltac sane_auto := repeat (sane_step; cbv beta zeta).
Lemma sane_sys {B} b c (f : reply c → prog B) :
  (∀ r, tpm_stack (Event c r) → sane b (f r)) → sane b (bind (sys c) f).
Proof. intros Hf. apply wp_sys. intros r Hr. by apply Hf, (Hstack tt). Qed.

(** ** Helper programs *)

Lemma sane_Spawn p argv : helper p = true → sane child (cominitSubprocessSpawn (Some p) (Some argv)).
Proof.
  intros Hp. unfold cominitSubprocessSpawn, execOrExit, waitChild. apply wp_sys. intros pid Hpid.
  case_bool_decide; [done|]. case_bool_decide as E0.
  - assert (child = true) as Hc by (destruct child; [done|by apply Hfork in Hpid]).
    apply wp_sys. intros [e|] _; cbn; by rewrite ?Hc.
  - to_sane. sane_auto.
Qed.

(** ** Directories and the blob *)

Lemma sane_stat p : p ∈ tpm_dirs →
  sane false (r ← sys (Stat p); match r with Err _ => Stop (Undef UninitRead) | Ok _ => Ret EXIT_SUCCESS end).
Proof. intros Hp. apply sane_sys. intros r Hr. destruct (Hr Hp) as [st ->]. sane_auto. Qed.
(** One turn of the loop, and the turn of the last component. *)
Lemma Mkdir_loop_step fuel token state cur mode :
  bool_decide (COMINIT_ROOTFS_DEV_PATH_MAX <= length (cur ++ lit "/" ++ token)) = false →
  cominitMkdir_loop (S fuel) (Some token) state cur mode =
    (r ← sys (Mkdir (cur ++ lit "/" ++ token) mode);
     match r with
     | Err e =>
         if bool_decide (e ≠ EEXIST) then Ret (cur ++ lit "/" ++ token) else
         let '(token', state') := strtok_r state (lit "/") in
         cominitMkdir_loop fuel token' state' (cur ++ lit "/" ++ token) mode
     | Ok _ =>
         let '(token', state') := strtok_r state (lit "/") in
         cominitMkdir_loop fuel token' state' (cur ++ lit "/" ++ token) mode
     end).
Proof. intros Hl. cbn [cominitMkdir_loop]. by rewrite Hl. Qed.
Lemma Mkdir_loop_last fuel token cur mode :
  bool_decide (COMINIT_ROOTFS_DEV_PATH_MAX <= length (cur ++ lit "/" ++ token)) = false →
  cominitMkdir_loop (S fuel) (Some token) [] cur mode =
    (r ← sys (Mkdir (cur ++ lit "/" ++ token) mode);
     match r with
     | Err e => if bool_decide (e ≠ EEXIST) then Ret (cur ++ lit "/" ++ token) else Ret (cur ++ lit "/" ++ token)
     | Ok _ => Ret (cur ++ lit "/" ++ token)
     end).
Proof.
  intros Hl. rewrite Mkdir_loop_step by done.
  replace (strtok_r [] (lit "/")) with (None : option (list byte), [] : list byte) by by vm_compute.
  by destruct fuel.
Qed.
Lemma sane_Mkdir mode : sane false (cominitMkdir COMINIT_TPM_MNT_PT mode).
Proof.
  unfold cominitMkdir.
  replace (take (COMINIT_ROOTFS_DEV_PATH_MAX - 1) COMINIT_TPM_MNT_PT) with (lit "/tpm") by by vm_compute.
  replace (strtok_r (lit "/tpm") (lit "/")) with (Some (lit "tpm"), [] : list byte) by by vm_compute.
  change (length (lit "/tpm")) with 4. rewrite Mkdir_loop_last by by vm_compute.
  pose proof (sane_stat COMINIT_TPM_MNT_PT ltac:(by left)) as Hst.
  apply wp_bind, wp_sys. intros [[]|e] _; [exact Hst|]. case_bool_decide; exact Hst.
Qed.
Lemma sane_MountStorage : sane false cominitTpmMountSecureStorage.
Proof.
  unfold cominitTpmMountSecureStorage. apply sane_bind; [|intros r; sane_auto]. unfold cominitMkdir.
  replace (take (COMINIT_ROOTFS_DEV_PATH_MAX - 1) COMINIT_TPM_SECURE_STORAGE_MNT) with (lit "/newroot/mnt") by by vm_compute.
  replace (strtok_r (lit "/newroot/mnt") (lit "/")) with (Some (lit "newroot"), lit "mnt") by by vm_compute.
  change (length (lit "/newroot/mnt")) with 12.
  assert (sane false (p ← cominitMkdir_loop 11 (Some (lit "mnt")) [] (lit "/newroot") S_IRWXU;
    r ← sys (Stat p); match r with Err _ => Stop (Undef UninitRead) | Ok _ => Ret EXIT_SUCCESS end)) as Hmnt.
  { rewrite Mkdir_loop_last by by vm_compute.
    pose proof (sane_stat COMINIT_TPM_SECURE_STORAGE_MNT ltac:(do 2 right; by left)) as Hst.
    apply wp_bind, wp_sys. intros [[]|e] _; [exact Hst|]. case_bool_decide; exact Hst. }
  rewrite Mkdir_loop_step by by vm_compute.
  replace (strtok_r (lit "mnt") (lit "/")) with (Some (lit "mnt"), [] : list byte) by by vm_compute.
  pose proof (sane_stat (lit "/newroot") ltac:(right; by left)) as Hst.
  apply wp_bind, wp_sys. intros [[]|e] _; [|case_bool_decide; [exact Hst|]]; apply wp_bind_inv; exact Hmnt.
Qed.
#[local] Hint Resolve sane_Mkdir sane_MountStorage : sane.
(** The blob is found or the partition is not, or a first one can be sealed. *)
Lemma sane_SetupBlob a :
  wp upd_none env (cominitTpmSetupBlob a) (λ o _, ∃ b, o = Done b ∧ (b = BlobIsEmpty → fresh = true)) tt.
Proof.
  unfold cominitTpmSetupBlob. destruct (isSet _); [|by eexists].
  eapply wp_call; [apply sane_Mkdir| |].
  - intros r [] _. case_bool_decide; [by eexists|]. apply wp_sys. intros [[]|e] _; [|by eexists].
    apply wp_sys. intros r' Hr. apply Hprov in Hr. destruct r' as [[]|[]]; try by eexists.
    replace (dirname BLOB_PATH) with COMINIT_TPM_MNT_PT by by vm_compute.
    eapply wp_call; [apply sane_Mkdir| |by intros [] [] He; cbn in He; destruct_and?].
    intros r2 [] _. case_bool_decide; eexists; (split; [done|]); [done|]. by destruct fresh.
  - by intros [] [] He; cbn in He; destruct_and?.
Qed.
Lemma sane_EsysUnseal e b s : sane false (cominitSecurememoryEsysUnseal e b s).
Proof.
  unfold cominitSecurememoryEsysUnseal. destruct (bool_decide (e = 0)%Z), b, s; try apply sane_total, total_ret.
  apply sane_sys. intros [rc key] Hr. cbn in Hr. eapply (wp_call _ _ _ _ (λ o _, done (λ _, True) o)).
  - case_bool_decide as E; [done|]. destruct key as [key|]; [|by destruct (Hr E)].
    apply wp_sys. intros [[]|er] _; [|done]. unfold cominitKeyringAddUserKey.
    apply wp_bind, wp_sys. intros r' _. destruct (ZeroOut_ok key (length key)) as (r1 & b' & -> & _); [done|].
    by destruct r'.
  - intros [st [key'|]] [] _; to_sane; [|sane_auto].
    destruct (VerifyZero_ok key' (length key')) as (r2 & ->); [done|]. sane_auto.
  - by intros [] [] He; cbn in He; destruct_and?.
Qed.
#[local] Hint Resolve sane_EsysUnseal : sane.
Lemma total_LoadBlob : total cominitTpmLoadBlob.
Proof. unfold cominitTpmLoadBlob. total_auto. Qed.
Lemma total_LoadPrimary e : total (cominitTpmLoadPrimaryHandle e).
Proof. unfold cominitTpmLoadPrimaryHandle. total_auto. Qed.
#[local] Hint Resolve total_LoadBlob total_LoadPrimary : total.
Lemma sane_UnsealBlob e a : sealable a → sane false (cominitTpmUnsealBlob e a).
Proof.
  intros Ha. destruct (SelectPcr_selects a Ha) as (sel & Hsel & _).
  unfold cominitTpmUnsealBlob, cominitTpmUnseal. rewrite Hsel.
  apply sane_bind; [apply sane_total; total_auto|intros [r h']]. case_bool_decide; [sane_auto|].
  apply sane_bind; [apply sane_total; total_auto|intros [r' [pub priv]]]. sane_auto.
Qed.
Lemma sane_SpawnAndWrite p argv data n :
  helper p = true → (n <= Z.of_nat (length data))%Z →
  sane child (cominitSubprocessSpawnAndWrite (Some p) (Some argv) (Some data) n).
Proof.
  intros Hp Hn. unfold cominitSubprocessSpawnAndWrite, execOrExit, waitChild. case_bool_decide; [sane_auto|].
  apply wp_sys. intros [[rd wr]|e] _; [|done]. apply wp_sys. intros pid Hpid.
  case_bool_decide; [to_sane; sane_auto|]. case_bool_decide as E0.
  - assert (child = true) as Hc by (destruct child; [done|by apply Hfork in Hpid]).
    repeat (wp_step; cbv beta zeta); cbn; by rewrite ?Hc.
  - to_sane. rewrite (bool_decide_false (n > _)%Z) by lia. sane_auto.
Qed.

(** ** The first boot *)

Section First.
Hypothesis Hfresh : fresh = true.

Lemma Hseals c r : env tt (Event c r) → can_seal (Event c r).
Proof. intros Hr. apply Hprov in Hr. by rewrite Hfresh in Hr. Qed.
Lemma total_UniqueString u : total (cominitCryptoCreateUniqueString u).
Proof. unfold cominitCryptoCreateUniqueString. total_auto. Qed.
#[local] Hint Resolve total_UniqueString : total.
(** Objects are created. *)
Lemma first_EsysCreate ectx h d :
  ectx ≠ 0%Z → wp upd_none env (cominitSecurememoryEsysCreate ectx (Some h) (Some d))
    (λ o _, ∃ r out, o = Done (r, Some out)) tt.
Proof.
  intros He. unfold cominitSecurememoryEsysCreate. rewrite bool_decide_false by done.
  apply wp_sys. intros r1 Hr%Hseals. rewrite (Hr eq_refl). cbn [negb].
  apply wp_bind, wp_sys. intros r2 Hr2%Hseals. rewrite (Hr2 eq_refl).
  eapply (wp_call _ _ _ _ (λ o _, ∃ p, o = Done (EXIT_SUCCESS, Some p) ∧ Z.to_nat COMINIT_PASSPHRASE_SIZE <= length p)).
  - unfold cominitCryptoCreatePassphrase. rewrite bool_decide_false by (vm_compute; lia).
    do 2 (apply wp_sys_; intros ? _). apply wp_total; [apply total_UniqueString|intros [r3 us] []].
    apply wp_sys. intros r4 Hr4%Hseals. cbn in Hr4. subst r4. rewrite bool_decide_true by done.
    apply wp_bind, wp_sys. intros [r5 bytes] Hr5%Hseals. cbn in Hr5. subst r5. cbn [wp]. rewrite bool_decide_true by done.
    do 2 (apply wp_sys_; intros ? _). eexists. split; [done|]. unfold overwrite. rewrite length_app, length_drop, length_replicate. lia.
  - intros [r p] [] (p' & E & Hp). apply Done_inj, pair_eq in E as [-> ->]. rewrite bool_decide_false by tauto.
    cbn [default]. unfold id. apply wp_sys. intros [rc [out|]] Hr3%Hseals; [|done].
    destruct (ZeroOut_ok p' (Z.to_nat COMINIT_PASSPHRASE_SIZE)) as (r4 & b' & -> & _); [done|]. rewrite bind_ret. cbn [wp default].
    unfold id. destruct (VerifyZero_ok b' (length b')) as (r5 & ->); [done|]. rewrite bind_ret.
    repeat wp_step. by eexists _, _.
  - by intros ? [] (? & ? & _).
Qed.
Lemma first_SealBlob ectx a : sealable a → ectx ≠ 0%Z → sane false (cominitTpmSealBlob ectx a).
Proof.
  intros Ha He. destruct (SelectPcr_selects a Ha) as (sel & Hsel & _).
  unfold cominitTpmSealBlob, cominitTpmSeal, cominitTpmSavePrimaryHandle. rewrite Hsel.
  eapply (wp_call _ _ _ _ (λ o _, ∃ r out, o = Done (r, out) ∧ (r = EXIT_SUCCESS → out ≠ None))).
  - apply wp_sys. intros [rc ph] Hr. apply Hseals in Hr. cbn in Hr. rewrite bool_decide_false by (subst; tauto). cbv zeta.
    apply wp_bind, wp_sys. intros [rc1 [s|]] Hr1; apply Hseals in Hr1; [|done].
    eapply (wp_mono _ _ _ (λ o _, ∃ r out, o = Done (r, out, Some s) ∧ (r = EXIT_SUCCESS → out ≠ None))).
    { intros o [] (r & out & -> & Hout). do 7 (apply wp_sys_; intros ? _). by exists r, out. }
    case_bool_decide; [by eexists _, _|]. rewrite bind_ret. apply wp_sys. intros rc2 _.
    case_bool_decide; [by eexists _, _|]. apply wp_sys. intros [rc3 [d|]] Hr3; apply Hseals in Hr3; [|done].
    case_bool_decide; [by eexists _, _|].
    eapply wp_call; [by apply first_EsysCreate| |by intros ? [] (? & ? & ?)].
    intros [r out] [] (r' & o' & E). apply Done_inj, pair_eq in E as [-> ->].
    case_bool_decide; [done|]. apply wp_bind, wp_sys. intros rc4 _. by eexists _, _.
  - intros [r out] [] (r' & o' & E & Hout). apply Done_inj, pair_eq in E as [-> ->].
    case_bool_decide as Hr; [to_sane; sane_auto|]. specialize (Hout Hr).
    destruct o' as [[pub priv]|]; [|done]. to_sane. unfold cominitTpmSaveBlob. sane_auto.
  - by intros ? [] (? & ? & ? & _).
Qed.
(** The key is read back and the volume is created with it. *)
Lemma first_CreateLuks dev : sane child (cominitSecurememoryCreateLuksVolume dev).
Proof.
  unfold cominitSecurememoryCreateLuksVolume. destruct dev as [dev|]; [|sane_auto].
  apply wp_sys. intros ok _. destruct ok; [|done]. cbn [negb].
  set (n := Z.to_nat COMINIT_PASSPHRASE_SIZE).
  assert (∀ (b b' : list byte), length b = n → n <= length (overwrite b b')) as Hover.
  { intros b b' Hb. unfold overwrite. rewrite length_app, length_drop. lia. }
  eapply (wp_call _ _ _ _ (λ o _, match o with Done (_, b) => n <= length b | Ended e => left_alone child (@Ended Z e) end)).
  - apply wp_sys. intros [[]|e] _; [|cbn; by rewrite length_replicate]. unfold cominitKeyringGetKey.
    rewrite bool_decide_false by (by vm_compute). apply wp_bind, wp_sys. intros r Hr. apply Hseals in Hr.
    destruct (Hr eq_refl) as [kid ->]. apply wp_sys. intros r' Hr'. apply Hseals in Hr'. destruct (Hr' ltac:(done)) as (len & bs & -> & Hlen).
    cbn [wp default]. unfold id. rewrite u64_small by (unfold COMINIT_PASSPHRASE_SIZE in Hlen; lia).
    set (kb := overwrite _ _). assert (n <= length kb) as Hkb by (apply Hover, length_replicate).
    case_bool_decide; [done|]. unfold cominitCryptsetupCreateLuksVolume. rewrite bool_decide_false by lia.
    eapply wp_call; [apply sane_SpawnAndWrite; [done|]| |].
    + unfold n, COMINIT_PASSPHRASE_SIZE in *. lia.
    + intros res [] _. destruct (ZeroOut_ok kb n Hkb) as (r4 & b' & -> & Hb'). rewrite bind_ret. cbn [wp default]. unfold id. by rewrite Hb'.
    + by intros [] [].
  - intros [res kb] [] Hkb. destruct (VerifyZero_ok kb n Hkb) as (r5 & ->). rewrite bind_ret. to_sane. sane_auto.
  - by intros [] [].
Qed.
Lemma first_SetupStorage a : sane child (cominitTpmSetupSecureStorage a true).
Proof.
  unfold cominitTpmSetupSecureStorage, cominitCryptsetupAddToken, cominitCryptsetupOpenLuksVolume, cominitTpmFormatSecureStorage.
  pose proof sane_Spawn as Hs. apply sane_bind; [apply first_CreateLuks|intros r1].
  case_bool_decide; [sane_auto|]. apply sane_bind; [by apply Hs|intros r2].
  case_bool_decide; [sane_auto|]. apply sane_bind; [by apply Hs|intros r3]. case_bool_decide; [sane_auto|by apply Hs].
Qed.
End First.

Lemma sane_SetupStorage a : sane child (cominitTpmSetupSecureStorage a false).
Proof. by apply sane_Spawn. Qed.
Lemma sane_ProtectData ectx tcti a :
  sealable a → (fresh = true → ectx ≠ 0%Z) → sane child (cominitTpmProtectData (TpmContext (PTo ectx) tcti) a).
Proof.
  intros Ha He. unfold cominitTpmProtectData. eapply wp_call; [apply sane_SetupBlob| |by intros ? [] (? & ? & _)].
  intros bs [] (b & [= <-] & Hb). to_sane. pose proof (sane_UnsealBlob ectx a Ha) as Hu.
  pose proof (sane_SetupStorage a) as Hs. unfold cominitTpmUnmountBlob. destruct bs; cbn [esysCtx readPtr]; [|sane_auto..].
  pose proof (first_SealBlob (Hb eq_refl) ectx a Ha (He (Hb eq_refl))). pose proof (first_SetupStorage (Hb eq_refl) a). sane_auto.
Qed.

(** ** The context *)

(** After [cominitInitTpm] both pointers were stored, or the first is NULL. *)
Definition context_set (c : cominitTpmContext_t) : Prop :=
  tctiCtx c = PTo 0 ∨ ∃ t e, c = TpmContext (PTo e) (PTo t).
Lemma sane_InitTpm c :
  wp upd_none env (cominitInitTpm (Some c))
    (λ o _, ∃ r c', o = Done (r, Some c') ∧ context_set c' ∧ (r = EXIT_SUCCESS → ∃ t e, c' = TpmContext (PTo e) (PTo t) ∧ (fresh = true → e ≠ 0%Z))) tt.
Proof.
  unfold cominitInitTpm, cominitTpmSelftest. rewrite bool_decide_true by done.
  apply wp_sys. intros [rc tcti] Ht. apply Hstack in Ht. cbn in Ht. case_bool_decide as Hrc.
  - rewrite decide_False in Ht by done. subst tcti. eexists _, _. split; [done|]. split; [by left|done].
  - rewrite decide_True in Ht by done. destruct tcti as [t|]; [|done]. cbn [store tctiCtx readPtr].
    rewrite bind_ret. apply wp_sys. intros [rc' ectx] He. pose proof (Hprov _ _ He) as He'. apply Hstack in He. cbn in He. destruct ectx as [e|]; [|done].
    cbn [store esysCtx tctiCtx readPtr]. case_bool_decide; [|rewrite bind_ret; apply wp_bind, wp_sys; intros rc'' _; cbn [wp]].
    all: eexists _, _; split; [done|]; split; [right; by eexists _, _|intros Er].
    all: try (by rewrite Er in *); eexists _, _; split; [done|]; intros Hfr ->; by rewrite Hfr in He'.
Qed.
Lemma total_DeleteTpm c : context_set c → total (cominitDeleteTpm (Some c)).
Proof.
  intros [Ht|(t & e & ->)]; unfold cominitDeleteTpm.
  - rewrite Ht. cbn [readPtr]. rewrite bind_ret, bool_decide_true by done. total_auto.
  - cbn [tctiCtx esysCtx readPtr]. rewrite bind_ret. case_bool_decide; [total_auto|].
    rewrite bind_ret. total_auto.
Qed.
Lemma sane_Digest k d n : sane false (cominitCreateSHA256DigestfromKeyfile k d n).
Proof.
  unfold cominitCreateSHA256DigestfromKeyfile. destruct k, d; try apply sane_total, total_ret.
  case_bool_decide; [sane_auto|]. do 2 (apply sane_bind; [sane_auto|intros ?]).
  apply sane_bind; [|intros [r d']; sane_auto]. case_bool_decide; [|sane_auto].
  apply sane_sys. intros [derLen der] Hd. cbn in Hd. case_bool_decide; [|sane_auto].
  rewrite (bool_decide_false (derLen > _)%Z) by lia. sane_auto.
Qed.
#[local] Hint Resolve sane_Digest : sane.
Lemma sane_ExtendPCR e t k i : sane false (cominitTpmExtendPCR (Some (TpmContext (PTo e) t)) (Some k) i).
Proof. unfold cominitTpmExtendPCR. cbn [esysCtx readPtr]. sane_auto. Qed.
#[local] Hint Resolve sane_ExtendPCR : sane.

(** The TPM part of [main] returns, or the run is that of a helper. *)
Lemma sane_mainTpm a : sealable a → sane child (mainTpm a).
Proof.
  intros Ha. unfold mainTpm. destruct (cominitUseTpm _); [|apply sane_total, total_ret].
  eapply wp_call; [apply sane_InitTpm| |by intros ? [] (? & ? & ? & _)].
  intros [r c'] [] (r' & c & E & Hc & Hok). apply Done_inj, pair_eq in E as [-> ->]. cbn [default]. unfold id.
  to_sane. apply sane_bind; [|intros _; pose proof (total_DeleteTpm c Hc); sane_auto].
  case_bool_decide as Er; [sane_auto|]. destruct (Hok Er) as (t & e & -> & He).
  pose proof (sane_ProtectData e (PTo t) a Ha He) as Hp. sane_auto.
Qed.
End Sane.

(** ** The boot *)

(** A boot that came to an end, or a helper process of it. *)
Definition boot_end (o : outcome Z) : Prop := boot_result o ∨ left_alone true o ∧ ∀ c, o ≠ Done c.

Section Ends.
Context `{Libc} `{MbedTLS} `{TpmParams} `{DmParams} `{Build}.
Context (fresh : bool).
Local Abbreviation env := (λ (_ : unit) e, boot_env e ∧ provisioned fresh e).
Local Abbreviation ends p := (wp upd_none env p (λ o _, boot_end o) tt).

Lemma ends_sane {A} (p : prog A) (f : A → prog Z) :
  sane env true p → (∀ a, ends (f a)) → ends (bind p f).
Proof.
  intros Hp Hf. eapply wp_call; [exact Hp|intros a [] _; apply Hf|]. intros e [] He. right. by destruct e.
Qed.
Lemma ends_rescue_tpm : ends rescue.
Proof. eapply wp_env; [|apply ends_rescue|]; [by intros ? ? [? _]|]. intros o s. by left. Qed.
Lemma ends_mainSwitch_tpm a : ends (mainSwitch a).
Proof.
  unfold mainSwitch. pose proof total_mainSelinux. pose proof total_CleanupSysfiles. pose proof total_CleanupSelinux.
  apply ends_sane; [|intros _].
  { case_match; [|apply sane_total, total_ret]. apply sane_weaken, sane_bind; [|intros _; apply sane_total, total_ret].
    apply sane_MountStorage. by intros ? ? [_ [? _]]. }
  do 3 (apply wp_total; [total_auto|intros ? []]). apply wp_total; [apply total_Switch|intros r []].
  case_bool_decide; [apply ends_rescue_tpm|]. apply wp_sys. intros [e|] _; [apply ends_rescue_tpm|by do 2 left].
Qed.
Lemma ends_mainMount_tpm a m d :
  sealable a → terminated (diskName d) = true → ends (mainMount a m d).
Proof.
  intros Ha Hd. unfold mainMount. case_bool_decide; [apply ends_rescue_tpm|].
  eapply wp_call; [apply wp_mainFindCrypt; [by intros ? ? [[_ ?] _]|done]| |by intros ? ? []].
  intros a' [] [v [= ->]]. apply ends_sane; [by apply (sane_mainTpm _ fresh); [intros ? ? [_ [? _]]|intros ? ? [_ [_ ?]]| |]|intros _].
  apply wp_total; [apply total_SetupRootfs|intros [r m'] []].
  case_bool_decide; [apply ends_rescue_tpm|apply ends_mainSwitch_tpm].
Qed.

End Ends.

(** On a healthy machine the switch into the rootfs needs no more than the
    directories. *)
Section Switch.
Context `{Libc} `{MbedTLS} `{TpmParams} `{DmParams} `{Build}.
Lemma boots_mainSwitch_stack part a :
  wp upd_none (λ _ e, healthy part e ∧ tpm_stack e) (mainSwitch a) (λ o _, o = Ended (Execed INIT)) tt.
Proof.
  unfold mainSwitch. pose proof total_mainSelinux. pose proof total_CleanupSysfiles. pose proof total_CleanupSelinux.
  eapply (wp_call _ _ _ _ (λ o _, left_alone false o)); [|intros _ [] _|by intros [] [] He; cbn in He; destruct_and?].
  { case_match; [|done]. apply sane_bind; [|intros _; apply sane_total, total_ret].
    apply sane_MountStorage. by intros ? ? [_ ?]. }
  do 3 (apply wp_total; [total_auto|intros ? []]).
  eapply wp_call; [eapply wp_env; [|apply boots_Switch|intros o t Ho; exact Ho]; by intros ? ? [? _]| |by intros ? ? ?].
  intros r [] [= ->]. rewrite bool_decide_false by done. apply wp_sys. intros r [Hr _]. cbn in Hr. by rewrite (Hr ltac:(done)).
Qed.
End Switch.

Section Boots.
Context `{Libc} `{MbedTLS} `{TpmParams} `{DmParams} `{Build}.
Context (size : Z) (region : list byte) (fresh : bool).
Local Abbreviation env := (λ (_ : unit) e, healthy (Some (size, region)) e ∧ provisioned fresh e ∧ in_parent e).
Local Abbreviation boots p Q := (wp upd_none env p Q tt).
Lemma boots_healthy {A} (p : prog A) Q :
  wp upd_none (λ _, healthy (Some (size, region))) p Q tt → boots p Q.
Proof. intros Hp. eapply wp_env; [|exact Hp|done]. by intros ? ? [? _]. Qed.
(** TPM code that returns is passed over. *)
Lemma boots_sane {A B} (p : prog A) (f : A → prog B) Q :
  sane env false p → (∀ a, boots (f a) Q) → boots (bind p f) Q.
Proof.
  intros Hp Hf. eapply wp_call; [exact Hp|intros a [] _; apply Hf|]. by intros [] [] He; cbn in He; destruct_and?.
Qed.
Lemma boots_mainSwitch_tpm a : boots (mainSwitch a) (λ o _, o = Ended (Execed INIT)).
Proof. eapply wp_env; [|apply boots_mainSwitch_stack|done]. by intros ? ? (? & [? _] & _). Qed.
Lemma boots_mainMount_tpm a m d :
  sealable a → bootable m → terminated (diskName d) = true →
  boots (mainMount a m d) (λ o _, o = Ended (Execed INIT)).
Proof.
  intros Ha Hm Hd. unfold mainMount. rewrite bool_decide_false by (rewrite bootable_nocrypt; congruence).
  eapply wp_call; [by apply boots_healthy, boots_FindCrypt| |by intros ? ? []]. intros a' [] [v [= ->]].
  apply boots_sane; [by apply (sane_mainTpm _ fresh); [intros ? ? (_ & [? _] & _)|intros ? ? (_ & [_ ?] & _)|intros _ ? ? (_ & _ & ?)|]|intros _].
  eapply wp_call; [by apply boots_healthy, boots_SetupRootfs| |by intros ? ? []].
  intros [r m'] [] [m1 E]. apply Done_inj, pair_eq in E as [-> ->].
  rewrite bool_decide_false by done. apply boots_mainSwitch_tpm.
Qed.
End Boots.

Section Theorems.
Context `{Libc} `{MbedTLS} `{TpmParams} `{DmParams} `{Build}.

End Theorems.

(** ** A first boot that cannot seal *)

Section Unsealable.
Context `{Libc} `{TpmParams}.

(** The events that matter: the primary key was not created; a session was asked
    for and not stored; an object was created; the blob file was opened for
    writing. *)
Definition primary_failed (e : event) : bool :=
  let '(Event c r) := e in
  match c return reply c → bool with EsysCreatePrimary _ _ => λ r, bool_decide (r.1 ≠ 0%Z) | _ => λ _, false end r.
Definition session_missing (e : event) : bool :=
  let '(Event c r) := e in
  match c return reply c → bool with EsysStartAuthSession _ _ _ => λ r, bool_decide (r.2 = None) | _ => λ _, false end r.
Definition object_created (e : event) : bool :=
  let '(Event c r) := e in
  match c return reply c → bool with EsysCreate _ _ _ _ _ => λ r, bool_decide (r.2 ≠ None) | _ => λ _, false end r.
Definition blob_opened (e : event) : bool :=
  let '(Event c r) := e in
  match c return reply c → bool with
  | Fopen p mode => λ r, bool_decide (p = BLOB_PATH ∧ mode = lit "wb") && match r with Ok _ => true | Err _ => false end
  | _ => λ _, false
  end r.
(** A trace on which sealing goes wrong. *)
Definition cannot_seal (t : trace) : bool :=
  existsb primary_failed t || existsb session_missing t || (existsb blob_opened t && negb (existsb object_created t)).

(** The same as a state. *)
Record sealing := Sealing { s_crash : bool; s_opened : bool; s_created : bool }.
Definition upd_sealing (s : sealing) (e : event) : sealing :=
  Sealing (s_crash s || (primary_failed e || session_missing e)) (s_opened s || blob_opened e) (s_created s || object_created e).
Definition goes_wrong (s : sealing) : bool := s_crash s || (s_opened s && negb (s_created s)).
Lemma upd_sealing_trace t s :
  foldl upd_sealing s t =
    Sealing (s_crash s || (existsb primary_failed t || existsb session_missing t)) (s_opened s || existsb blob_opened t)
      (s_created s || existsb object_created t).
Proof.
  revert s. induction t as [|e t IH]; intros [a b c]; cbn [foldl existsb]; [by rewrite !orb_false_r|]. rewrite IH. cbn [s_crash s_opened s_created upd_sealing].
  f_equal; rewrite <-?orb_assoc; try done. f_equal. by destruct (primary_failed e), (session_missing e), (existsb _ t), (existsb _ t).
Qed.

Definition quiet_call (c : call) : bool :=
  match c with
  | EsysCreatePrimary _ _ | EsysStartAuthSession _ _ _ | EsysCreate _ _ _ _ _ => false
  | Fopen p _ => bool_decide (p ≠ BLOB_PATH)
  | _ => true
  end.
Lemma quiet_step s c r : quiet_call c = true → upd_sealing s (Event c r) = s.
Proof.
  intros Hc. destruct s as [x y z]. unfold upd_sealing. destruct c; try done; cbn; rewrite ?orb_false_r; try done.
  apply bool_decide_eq_true in Hc. rewrite bool_decide_false by tauto. by rewrite orb_false_r.
Qed.
Lemma wp_quiet {A} (p : prog A) s : only quiet_call p → wp upd_sealing any_env p (λ _ s', s' = s) s.
Proof.
  induction p as [a|c k IH|e]; simpl; [done| |done]. intros [Hc Hk] r _. rewrite quiet_step by done. by apply IH.
Qed.
Lemma quiet_UniqueString u : only quiet_call (cominitCryptoCreateUniqueString u).
Proof. unfold cominitCryptoCreateUniqueString. apply only_bind; [apply only_sys; by vm_compute|intros ?]. only_auto. Qed.
#[local] Hint Resolve quiet_UniqueString : only.
Lemma quiet_Passphrase p n : only quiet_call (cominitCryptoCreatePassphrase p n).
Proof. unfold cominitCryptoCreatePassphrase. only_auto. Qed.
Lemma total_Passphrase p n : total (cominitCryptoCreatePassphrase p n).
Proof. pose proof total_UniqueString. unfold cominitCryptoCreatePassphrase. total_auto. Qed.
(** A total quiet call. *)
Lemma wp_quiet_total {A B} (p : prog A) (f : A → prog B) Q s :
  only quiet_call p → total p → (∀ a, wp upd_sealing any_env (f a) Q s) → wp upd_sealing any_env (bind p f) Q s.
Proof.
  intros Hq Ht Hf. eapply wp_call; [apply wp_and; [by apply wp_quiet|by apply wp_yields]| |by intros ? ? [_ ?]].
  intros a s' [-> _]. apply Hf.
Qed.
Local Abbreviation watched p Q s := (wp upd_sealing any_env p Q s).
Lemma Passphrase_length n s :
  watched (cominitCryptoCreatePassphrase (Some (replicate n x00)) n)
    (λ o s', s' = s ∧ ∃ r p, o = Done (r, Some p) ∧ n <= length p) s.
Proof.
  apply wp_and; [apply wp_quiet, quiet_Passphrase|]. unfold cominitCryptoCreatePassphrase.
  case_bool_decide; [eexists _, _; split; [done|lia]|]. do 2 (apply wp_sys_; intros ? _).
  apply wp_total; [apply total_UniqueString|intros [ru us] s1]. apply wp_sys. intros err _.
  eapply (wp_call _ _ _ _ (λ o _, ∃ r p, o = Done (r, p) ∧ n <= length p)); [| |by intros ? ? (? & ? & ? & _)].
  - destruct (bool_decide (err = 0)%Z); [|eexists _, _; split; [done|by rewrite length_replicate]].
    apply wp_sys. intros [err2 bytes] _. eexists _, _. split; [done|].
    unfold overwrite. rewrite length_app, length_drop, length_replicate. lia.
  - intros [r' p] s2 (r2 & p2 & E & Hp). apply Done_inj, pair_eq in E as [-> ->]. do 2 (apply wp_sys_; intros ? _). by eexists _, _.
Qed.
(** An object is returned if and only if one was created. *)
Definition with_object (s : sealing) (out : option (list byte * list byte)) : sealing :=
  Sealing (s_crash s) (s_opened s) (bool_decide (out ≠ None)).
Lemma with_none s : s_created s = false → with_object s None = s.
Proof. destruct s; cbn. intros ->. unfold with_object. by rewrite bool_decide_false by tauto. Qed.
Lemma EsysCreate_watched ectx h d s :
  s_created s = false →
  watched (cominitSecurememoryEsysCreate ectx (Some h) d)
    (λ o s', ∃ r out, o = Done (r, out) ∧ s' = with_object s out) s.
Proof.
  intros Hs. pose proof (with_none s Hs) as Enone.
  assert (∀ (r : Z) out s', s' = with_object s out →
    watched (sys_ (EsysFree []);; sys_ (EsysFree []);; sys_ (EsysFree []);; Ret (r, out))
      (λ o s'', ∃ r out, o = Done (r, out) ∧ s'' = with_object s out) s') as Hfree.
  { intros r out s' ->. do 3 (apply wp_sys_; intros ? _; rewrite quiet_step by done). by eexists _, _. }
  unfold cominitSecurememoryEsysCreate.
  destruct (bool_decide (ectx = 0)%Z); [by apply Hfree|]. destruct d as [d|]; [|by apply Hfree].
  apply wp_sys. intros ok _. rewrite quiet_step by done. destruct ok; cbn [negb]; [|by apply Hfree].
  eapply (wp_call _ _ _ _ (λ o s', ∃ r out key, o = Done (r, out, key) ∧ s' = with_object s out)).
  - apply wp_sys. intros [[]|e] _; rewrite quiet_step by done; [|by eexists _, None, _].
    eapply wp_call; [apply Passphrase_length| |by intros ? ? (_ & ? & ? & ? & _)].
    intros [r pass] s' [-> (r' & p & E & Hp)]. apply Done_inj, pair_eq in E as [-> ->]. cbn [default]. unfold id.
    case_bool_decide; [by eexists _, None, _|]. apply wp_sys. intros [rc out] _.
    destruct (ZeroOut_ok p _ Hp) as (r4 & b' & -> & _). rewrite bind_ret. eexists _, out, _. split; [done|].
    unfold upd_sealing, with_object. cbn. rewrite Hs, !orb_false_r. done.
  - intros [[r out] key] s' (r' & out' & key' & E & ->). apply Done_inj in E. injection E as -> -> ->.
    destruct (VerifyZero_ok key' (length key')) as (r5 & ->); [done|]. rewrite bind_ret.
    do 2 (apply wp_sys_; intros ? _; rewrite quiet_step by done). by apply Hfree.
  - by intros ? ? (? & ? & ? & ? & _).
Qed.

Definition start : sealing := Sealing false false false.
Lemma Seal_watched ectx a :
  sealable a →
  watched (cominitTpmSeal ectx a)
    (λ o s', match o with Done (_, out) => s' = with_object start out | Ended e => ∃ u, e = Undef u ∧ goes_wrong s' = true end)
    start.
Proof.
  intros Ha. destruct (SelectPcr_selects a Ha) as (sel & Hsel & _).
  unfold cominitTpmSeal, cominitTpmSavePrimaryHandle. rewrite Hsel.
  assert (start = with_object start None) as Es by (symmetry; by apply with_none).
  apply wp_sys. intros [rc ph] _. cbv zeta. case_bool_decide as Hrc.
  { apply wp_bind. cbn [wp]. eexists. split; [done|]. unfold upd_sealing. cbn. by rewrite bool_decide_true by done. }
  subst rc. replace (upd_sealing _ _) with start by (unfold upd_sealing; cbn; by rewrite bool_decide_false by tauto).
  apply wp_bind, wp_sys. intros [rc [s|]] _.
  2: { case_bool_decide; cbn [wp]; (eexists; split; [done|]); by vm_compute. }
  replace (upd_sealing _ _) with start by done.
  eapply (wp_mono _ _ _ (λ o s', ∃ r out, o = Done (r, out, Some s) ∧ s' = with_object start out)).
  { intros o s' (r & out & -> & ->). by do 7 (apply wp_sys_; intros ? _; rewrite quiet_step by done). }
  case_bool_decide; [by eexists _, None|]. rewrite bind_ret. apply wp_sys. intros rc2 _. rewrite quiet_step by done.
  case_bool_decide; [by eexists _, None|]. apply wp_sys. intros [rc3 d] _. rewrite quiet_step by done.
  case_bool_decide; [by eexists _, None|].
  eapply wp_call; [by apply EsysCreate_watched| |by intros ? ? (? & ? & ? & _)].
  intros [r out] s' (r' & out' & E & ->). apply Done_inj, pair_eq in E as [-> ->].
  case_bool_decide; [done|]. apply wp_bind, wp_sys. intros rc4 _. rewrite quiet_step by done. by eexists _, _.
Qed.

(** C39: In every environment, for options whose sealed PCRs fit the selection, cominitTpmSealBlob
    either returns or reaches undefined behaviour, and the latter exactly when Esys_CreatePrimary failed
    or no session handle was stored (the session is flushed uninitialised), or when the blob file was
    opened for writing although Esys_Create stored no object (a NULL object is written). *)
Theorem sealing_undefined_iff o ectx a (Ha : sealable a) :
  let '(out, t) := run o [] (cominitTpmSealBlob ectx a) in
  match out with
  | Done _ => cannot_seal t = false
  | Ended e => ∃ u, e = Undef u ∧ cannot_seal t = true
  end.
Proof.
  pose proof (wp_run upd_sealing any_env (cominitTpmSealBlob ectx a) (λ out s, match out with
    | Done _ => goes_wrong s = false | Ended e => ∃ u, e = Undef u ∧ goes_wrong s = true end) start o (λ _ _, I) []) as Hw.
  cbn [foldl] in Hw. rewrite upd_sealing_trace in Hw. destruct (run _ _ _) as [out t]. apply Hw. clear Hw.
  unfold cominitTpmSealBlob. eapply wp_call; [by apply Seal_watched| |done]. intros [r out'] s' ->. case_bool_decide.
  { rewrite bind_ret. by do 2 (apply wp_sys_; intros ? _; rewrite quiet_step by done). }
  unfold cominitTpmSaveBlob. apply wp_bind, wp_sys. intros [h|e] _.
  - destruct out' as [[pub priv]|]; [|by eexists].
    set (s1 := upd_sealing _ _). assert (goes_wrong s1 = false) as Hs1 by done. clearbody s1.
    do 3 (apply wp_sys_; intros ? _; rewrite quiet_step by done). cbn [wp].
    by do 2 (apply wp_sys_; intros ? _; rewrite quiet_step by done).
  - set (s1 := upd_sealing _ _). assert (goes_wrong s1 = false) as Hs1 by by destruct out'. clearbody s1. cbn [wp].
    by do 2 (apply wp_sys_; intros ? _; rewrite quiet_step by done).
Qed.
End Unsealable.
