(* ===== verification/CominitMeasured.v ===== *)
(** * CominitMeasured: the measured boot, from power-on to init

    CominitTpm.v shows that the TPM cannot keep main from its init, TpmExact.v what
    the storage handler does on a machine without faults. Here both are put
    together for the whole program: main measures the rootfs key, releases the
    storage key exactly when the PCRs then have the sealed values, and starts the
    rootfs in either case. *)
From stdpp Require Import gmap.
From S2P Require Import Prelude CString Sys Output Common Crypto Keyring Meta MetaProofs MetaSpec Dmctl Minsetup MinsetupProofs.
From S2P Require Import Automount Subprocess Securememory Tpm Footprint TpmPcr TpmProofs TpmBoot TpmWorld TpmExact Cominit.
From S2P Require Import CominitArgs BootSpec CominitProofs Crash Lifetime CominitBoot CominitTpm.

(** The TPM can be reached and extended, and the rootfs key can be encoded. *)
Definition tpm_up (e : event) : Prop :=
  let '(Event c r) := e in
  match c return reply c → Prop with
  | TctiInitialize _ | EsysInitialize _ => λ r, ∃ x, r = (0%Z, Some x) ∧ x ≠ 0%Z
  | EsysSelfTest _ | EsysPcrExtend _ _ _ _ => λ r, r = 0%Z
  | PkWritePubkeyDer n => λ r, n = DER_BUFFER_SIZE → (0 < r.1)%Z
  | _ => λ _, True
  end r.

Section Measured.
Context `{Libc} `{MbedTLS} `{TpmParams} `{DmParams} `{Build} `{TpmModel}.
Context (part : option (Z * list byte)) (rk : list byte).

(** A healthy machine with a TPM without faults. *)
Definition measuring (w : world) (e : event) : Prop :=
  healthy part e ∧ tpm_stack e ∧ tpm_up e ∧ reliable rk w e.
Local Abbreviation exact p Q := (wp world_step measuring p Q).

(** A part of main that touches neither PCRs nor blob files nor key; random numbers
    drawn stay drawn. *)
Definition along (w w' : world) : Prop := same w w' ∧ drawn w ⊆ drawn w'.
Lemma along_refl w : along w w.
Proof. done. Qed.
Lemma exact_along {A} (p : prog A) w0 w : only same_call p → along w0 w → exact p (λ _ w', along w0 w') w.
Proof.
  revert w. induction p as [a|c k IH|e]; intros w Hp [Hs Hd]; simpl; [done| |done]. destruct Hp as [Hc Hk].
  intros r _. apply IH; [done|]. split; [eapply same_trans; [done|by apply same_step]|]. etrans; [done|apply (drawn_step w (Event c r))].
Qed.
Lemma exact_healthy {A} (p : prog A) (P : outcome A → Prop) w :
  wp upd_none (λ _, healthy part) p (λ o _, P o) tt → exact p (λ o _, P o) w.
Proof. apply wp_transfer. by intros ? ? [? _]. Qed.
Lemma exact_sure {A} (p : prog A) Q w : wp world_step (reliable rk) p Q w → exact p Q w.
Proof. intros Hp. eapply wp_env; [|exact Hp|done]. by intros ? ? (_ & _ & _ & ?). Qed.
Lemma exact_part {A B} (p : prog A) (f : A → prog B) (P : A → Prop) Q w0 w :
  only same_call p → along w0 w → wp upd_none (λ _, healthy part) p (λ o _, done P o) tt →
  (∀ x w', along w0 w' → P x → exact (f x) Q w') → exact (bind p f) Q w.
Proof.
  intros Hp Hk Hb Hf. eapply wp_call; [apply wp_and; [by apply exact_healthy|by apply exact_along]| |by intros ? ? [? _]].
  intros x w' [Hx Hk']. by apply Hf.
Qed.

(** The PCRs after main has measured the key. *)
Definition measured_pcrs (a : cominitCliArgs_t) (vals : Z → list byte) : Z → list byte :=
  if cominitTpmExtendEnabled (Some a) then
    λ j, if decide (j = pcr_of (pcrIndex a)) then pcr_extend (vals j) (sha256 rk) else vals j
  else vals.

Lemma Digest_exact k w :
  exact (cominitCreateSHA256DigestfromKeyfile (Some k) (Some (replicate SHA256_LEN x00)) SHA256_LEN)
    (λ o _, o = Done (EXIT_SUCCESS, Some (sha256 rk))) w.
Proof.
  apply (wp_mono _ _ _ (λ o _, (∀ d, o = Done (EXIT_SUCCESS, d) → d = Some (sha256 rk)) ∧ ∃ d, o = Done (EXIT_SUCCESS, d))).
  { intros o w' [Hd [d ->]]. by rewrite (Hd d eq_refl). }
  apply wp_and.
  - eapply wp_env; [|apply (Digest_world rk k w)|intros o w' Ho; exact Ho]. by intros ? ? (_ & _ & _ & ? & _).
  - unfold cominitCreateSHA256DigestfromKeyfile. rewrite bool_decide_false by lia. apply wp_sys_. intros ? _.
    apply wp_sys. intros r1 (Hr & _). cbn in Hr. subst r1. rewrite bool_decide_true by done.
    apply wp_bind, wp_sys. intros [len der] (_ & Hle & Hlt & _). cbn in Hle, Hlt. rewrite bool_decide_true by (by apply Z.lt_gt, Hlt).
    rewrite bool_decide_false by lia. apply wp_sys. intros [rc h] (Hr & _). cbn in Hr. subst rc.
    rewrite bool_decide_true by done. cbn [wp]. apply wp_sys_. intros ? _. by eexists.
Qed.
Lemma ExtendPCR_exact ectx tcti k i w :
  exact (cominitTpmExtendPCR (Some (TpmContext (PTo ectx) tcti)) (Some k) i)
    (λ o w', o = Done EXIT_SUCCESS ∧ blobs w' = blobs w ∧ storage_key w' = storage_key w ∧
       pcrs w' = λ j, if decide (j = pcr_of i) then pcr_extend (pcrs w j) (sha256 rk) else pcrs w j) w.
Proof.
  unfold cominitTpmExtendPCR.
  eapply wp_call; [apply wp_and; [apply Digest_exact|by apply (exact_along _ w); [apply same_Digest|]]| |by intros ? ? [? _]].
  intros [r d] w1 [E [(Hp & Hb & Hk) _]]. apply Done_inj, pair_eq in E as [-> ->]. rewrite bool_decide_false by tauto.
  cbn [esysCtx readPtr default]. unfold id. rewrite bind_ret. apply wp_sys. intros rc (_ & _ & Hr & _). cbn in Hr. subst rc.
  rewrite bool_decide_false by tauto. cbn [wp world_step]. rewrite decide_True by done.
  cbn [blobs storage_key pcrs set_pcrs]. by rewrite Hp, Hb, Hk.
Qed.
Lemma InitTpm_exact w :
  exact (cominitInitTpm (Some (TpmContext PUninit PUninit))) (λ o _, ∃ e t, e ≠ 0%Z ∧ t ≠ 0%Z ∧
    o = Done (EXIT_SUCCESS, Some (TpmContext (PTo e) (PTo t)))) w.
Proof.
  unfold cominitInitTpm, cominitTpmSelftest. rewrite bool_decide_true by done.
  apply wp_sys. intros r (_ & _ & (t & -> & Ht) & _). rewrite bool_decide_false by tauto.
  cbn [store tctiCtx esysCtx readPtr]. rewrite bind_ret. apply wp_sys. intros r (_ & _ & (e & -> & He) & _).
  rewrite bool_decide_false by tauto. cbn [store tctiCtx esysCtx readPtr]. rewrite bind_ret.
  apply wp_bind, wp_sys. intros r (_ & _ & Hr & _). cbn in Hr. subst r. cbn [wp]. rewrite bool_decide_false by tauto. by exists e, t.
Qed.

(** ** The whole program *)

Section Run.
Context (a : cominitCliArgs_t) (w0 : world) (Post : world → Prop).
Hypothesis HPost : ∀ w w', along w w' → Post w → Post w'.
(** What the handler does after the measurement. *)
Hypothesis Hstorage : cominitTpmSecureStorageEnabled (Some a) = true.
Hypothesis Hprotect : ∀ ectx tcti w,
  ectx ≠ 0%Z → pcrs w = measured_pcrs a (pcrs w0) → blobs w = blobs w0 → storage_key w = storage_key w0 →
  wp world_step (reliable rk) (cominitTpmProtectData (TpmContext (PTo ectx) tcti) a) (λ o w', ∃ st, o = Done st ∧ Post w') w.

Lemma mainTpm_exact w : along w0 w → exact (mainTpm a) (λ o w', o = Done tt ∧ Post w') w.
Proof.
  intros Hk. unfold mainTpm.
  assert (cominitUseTpm (Some a) = true) as -> by (unfold cominitUseTpm; rewrite Hstorage; by destruct (cominitTpmExtendEnabled _)).
  rewrite Hstorage.
  eapply wp_call; [apply wp_and; [apply InitTpm_exact|by apply (exact_along _ w0); [apply same_InitTpm|]]| |by intros ? ? [(?&?&_&_&?) _]].
  intros [r c] w1 [(e & t & Hne & Hnt & E) Hk1]. apply Done_inj, pair_eq in E as [-> ->]. cbn [default]. unfold id.
  rewrite bool_decide_false by tauto.
  eapply (wp_call _ _ _ _ (λ o w', o = Done tt ∧ Post w')); [| |by intros ? ? [? _]].
  - eapply (wp_call _ _ _ _ (λ o w', o = Done tt ∧ pcrs w' = measured_pcrs a (pcrs w0) ∧ blobs w' = blobs w0 ∧
      storage_key w' = storage_key w0)); [| |by intros ? ? [? _]].
    + destruct Hk1 as [(Hp & Hb & Hkey) _]. unfold measured_pcrs. destruct (cominitTpmExtendEnabled (Some a)); [|done].
      eapply wp_call; [apply ExtendPCR_exact| |by intros ? ? [? _]]. intros ? w2 (_ & Hb2 & Hk2 & Hp2).
      cbn [wp]. rewrite Hp2, Hb2, Hk2, Hp, Hb, Hkey. done.
    + intros _ w2 (_ & Hp & Hb & Hkey). eapply wp_call; [by apply exact_sure, Hprotect| |by intros ? ? (?&?&_)].
      intros st w3 (st' & _ & HP). by destruct st.
  - intros _ w2 [_ HP]. eapply wp_call; [apply wp_and; [|by apply (exact_along _ w2); [apply same_DeleteTpm|]]| |].
    + apply (wp_yields _ _ _ (done (λ _, True))), total_DeleteTpm. right. by eexists _, _.
    + intros ? w3 [_ Hk3]. cbn [wp]. split; [done|]. by eapply HPost.
    + by intros ? ? [? _].
Qed.

#[local] Hint Resolve fp_mainSelinux fp_discoverLoop fp_LoadVerify : footprint.
#[local] Hint Resolve same_mainSwitch : only.
Lemma mainMount_exact m d w :
  bootable m → along w0 w → exact (mainMount a m d) (λ o w', o = Ended (Execed INIT) ∧ Post w') w.
Proof.
  intros Hm Hk. unfold mainMount. rewrite bool_decide_false by (rewrite bootable_nocrypt; congruence).
  unfold mainFindCrypt. assert (isSet (devNodeCrypt a) = true) as ->.
  { revert Hstorage. unfold cominitTpmSecureStorageEnabled. by destruct (isSet (devNodeCrypt a)); rewrite ?andb_false_r. }
  rewrite bind_ret. eapply wp_call; [by apply mainTpm_exact| |by intros ? ? [? _]]. intros _ w1 [_ HP].
  eapply (exact_part _ _ (λ x, x.1 = 0%Z) _ w1); [only_auto|done| |].
  - eapply wp_mono; [|by apply boots_SetupRootfs]. by intros ? ? [? ->].
  - intros [r m1] w2 Hk2 Hr. cbn in Hr. subst r. rewrite bool_decide_false by done.
    eapply wp_mono; [|apply wp_and; [eapply wp_transfer; [|apply (boots_mainSwitch_stack part)]|by apply (exact_along _ w1); [only_auto|]]].
    + intros o w3 [-> Hk3]. split; [done|]. by eapply HPost.
    + by intros ? ? (? & ? & _).
Qed.
End Run.
End Measured.

(** From the start of main to the mount, the metadata region in view. *)
Section Main.
Context `{Libc} `{MbedTLS} `{TpmParams} `{DmParams} `{Build} `{TpmModel}.
Context (size : Z) (text sig : list byte) (rk : list byte).
Local Abbreviation region := (text ++ x00 :: sig).
#[local] Hint Resolve fp_mainSelinux fp_discoverLoop fp_LoadVerify : footprint.

Lemma main_exact argv a m' w0 Post :
  COMINIT_FAKE_HSM = None →
  length region = COMINIT_PART_META_DATA_SIZE → nonul text →
  COMINIT_PART_META_SIG_LENGTH < length sig → (Z.of_nat COMINIT_PART_META_DATA_SIZE <= size < 2 ^ 63)%Z →
  parseArgs argv initArgs = Ret (Options a) → isSet (devNodeRootFs a) = true →
  cominitParseMetadata (Some (set_devicePath zero_meta (devNodeRootFs a))) (Some text) sig = Ret (0%Z, Some m') →
  (∀ d w, along w0 w → wp world_step (measuring (Some (size, region)) rk) (mainMount a m' d) Post w) →
  wp world_step (measuring (Some (size, region)) rk) (main argv) Post w0.
Proof.
  intros Hhsm Hlen Htext Hsig Hsize Hargs Hroot Hparse Hmount. unfold main. rewrite Hargs, Hhsm, bind_ret.
  do 2 (apply wp_sys_; intros ? _). cbn [world_step].
  eapply (exact_part _ _ _ _ (λ r, r = 0%Z) _ w0); [only_auto|done| |].
  { eapply wp_mono; [|apply boots_Sysfiles]. by intros ? ? ->. }
  intros rs w1 Hk1 ->. rewrite bool_decide_false, bind_ret by done.
  eapply (exact_part _ _ _ _ (λ x, ∃ d, x = (true, set_devicePath zero_meta (devNodeRootFs a), d)) _ w0); [only_auto|done| |].
  { eapply wp_mono; [|by apply boots_discover]. intros ? ? ->. by eexists. }
  intros x w2 Hk2 [d ->]. cbn [negb].
  eapply (exact_part _ _ _ _ (λ x, x = (0%Z, m')) _ w0); [only_auto|done| |].
  { eapply wp_mono; [|eapply wp_env; [|apply (boots_LoadVerify size region (λ _, True) _ (λ m, m = m') text sig)|]].
    - intros ? ? Ho. exact Ho.
    - intros ? ?. apply healthy_any_keys.
    - done.
    - done.
    - done.
    - done.
    - done.
    - rewrite Hparse. by exists m'.
    - by intros ? ? (m & -> & ->). }
  intros x w3 Hk3 ->. rewrite bool_decide_false by done. by apply Hmount.
Qed.
End Main.

Class MeasuringMachine `{Libc} `{TpmParams} `{TpmModel} (o : oracle) (size : Z) (region rk : list byte) (w : world) : Prop := {
  measuring_answers : ∀ h c, measuring (Some (size, region)) rk (foldl world_step w h) (Event c (o h c))
}.

Section Theorems.
Context `{Libc} `{MbedTLS} `{TpmParams} `{DmParams} `{Build} `{TpmModel}.
(** A production build that is started with the rootfs, the blob and the crypt
    partition on its command line, on a machine with a signed rootfs. *)
Context (argv : list (list byte)) (a : cominitCliArgs_t) (m' : cominitRfsMetaData_t) (size : Z) (text sig rk : list byte).
Record measured_setup : Prop := {
  ms_hsm : COMINIT_FAKE_HSM = None;
  ms_region : length (text ++ x00 :: sig) = COMINIT_PART_META_DATA_SIZE;
  ms_text : nonul text;
  ms_sig : COMINIT_PART_META_SIG_LENGTH < length sig;
  ms_size : (Z.of_nat COMINIT_PART_META_DATA_SIZE <= size < 2 ^ 63)%Z;
  ms_args : parseArgs argv initArgs = Ret (Options a);
  ms_root : isSet (devNodeRootFs a) = true;
  ms_parse : cominitParseMetadata (Some (set_devicePath zero_meta (devNodeRootFs a))) (Some text) sig = Ret (0%Z, Some m');
  ms_boot : bootable m';
  ms_storage : cominitTpmSecureStorageEnabled (Some a) = true;
  ms_seal : sealable a
}.
(** The whole run, given what the storage handler does after the measurement. *)
Lemma measured_run (Post : world → Prop) o w
    (Hs : measured_setup) (Ho : MeasuringMachine o size (text ++ x00 :: sig) rk w) :
  (∀ w1 w2, along w1 w2 → Post w1 → Post w2) →
  (∀ ectx tcti w1, ectx ≠ 0%Z → pcrs w1 = measured_pcrs rk a (pcrs w) → blobs w1 = blobs w → storage_key w1 = storage_key w →
    wp world_step (reliable rk) (cominitTpmProtectData (TpmContext (PTo ectx) tcti) a) (λ o w2, ∃ st, o = Done st ∧ Post w2) w1) →
  (run o [] (main argv)).1 = Ended (Execed INIT) ∧ Post (foldl world_step w (run o [] (main argv)).2).
Proof.
  intros HPost Hprotect. destruct Hs as [? ? ? ? ? ? ? Hparse Hboot Hst Hseal]. destruct Ho as [Ho].
  refine (wp_run world_step _ _ (λ o w', o = Ended (Execed INIT) ∧ Post w') w o Ho [] _).
  eapply (main_exact size text sig rk argv a m'); [done..|]. intros d w1 Hk.
  by apply (mainMount_exact _ _ a w Post HPost Hst Hprotect).
Qed.
Lemma storage_set : measured_setup → isSet (devNodeBlob a) = true.
Proof.
  intros Hs. pose proof (ms_storage Hs) as E. unfold cominitTpmSecureStorageEnabled in E. by destruct (isSet (devNodeBlob a)).
Qed.
(** A boot with a sealed blob. *)
Lemma later_run o w key d (Hs : measured_setup) (Ho : MeasuringMachine o size (text ++ x00 :: sig) rk w) :
  holds key d (blobs w !! cstr (devNodeBlob a)) →
  let w' := foldl world_step w (run o [] (main argv)).2 in
  (run o [] (main argv)).1 = Ended (Execed INIT) ∧ blobs w' = blobs w ∧
  storage_key w' = if decide (policy_of a (measured_pcrs rk a (pcrs w)) = d) then Some key else storage_key w.
Proof.
  intros Hkey. apply (measured_run (λ w', blobs w' = blobs w ∧
    storage_key w' = if decide (policy_of a (measured_pcrs rk a (pcrs w)) = d) then Some key else storage_key w)); [done|done|..].
  - intros w1 w2 [(_ & -> & ->) _]. done.
  - intros ectx tcti w1 He Hp Hb Hk. rewrite <-Hb in Hkey.
    eapply wp_mono; [|apply (later_exact rk a (ms_seal Hs) ectx He (storage_set Hs) tcti key d w1 Hkey)].
    intros o' w2 [Hb2 Hop]. unfold opens in Hop. rewrite Hp in Hop. rewrite Hb2, Hb, <-Hk.
    case_decide; destruct Hop as [-> Hop]; by eexists.
Qed.

(** C14: The measured boot of a production build on a healthy machine whose blob holds a sealed key:
    main extends the PCR chosen by pcrExtend, if any, with the digest of the rootfs key, then puts
    exactly the sealed key into the keyring if the policy over the PCRs after the measurement is the
    sealed one and leaves the keyring alone if it is not, and never changes a blob file. In both cases
    it goes on to /sbin/init, so on a mismatch the rootfs runs without the key (doc/secure_boot/secure-
    boot.md says the boot should stop then, see the findings). *)
Theorem measured_boot_releases_key o w key d
    (Hs : measured_setup) (Ho : MeasuringMachine o size (text ++ x00 :: sig) rk w) (Hkey : holds key d (blobs w !! cstr (devNodeBlob a))) :
  let '(out, t) := run o [] (main argv) in
  let w' := foldl world_step w t in
  out = Ended (Execed INIT) ∧ blobs w' = blobs w ∧
  storage_key w' = if decide (policy_of a (measured_pcrs rk a (pcrs w)) = d) then Some key else storage_key w.
Proof. pose proof (later_run o w key d Hs Ho Hkey) as Hr. by destruct (run o [] (main argv)). Qed.

(** C15: The first boot of a production build on a healthy machine without a blob: main executes
    /sbin/init, and then the blob file holds a key that is the 32-byte answer of the random generator in
    this very boot, sealed with the policy over the PCRs after the measurement of the rootfs key, and
    that key is in the keyring. *)
Theorem measured_first_boot_seals o w
    (Hs : measured_setup) (Ho : MeasuringMachine o size (text ++ x00 :: sig) rk w)
    (Hblob : blobs w !! cstr (devNodeBlob a) = None) (Hnew : drawn w = [])
    (Hfit : creatable (policy_of a (measured_pcrs rk a (pcrs w)))) :
  let '(out, t) := run o [] (main argv) in
  let w' := foldl world_step w t in
  out = Ended (Execed INIT) ∧
  ∃ key, Event (CtrDrbgRandom 32) (0%Z, key) ∈ t ∧ storage_key w' = Some key ∧
    holds key (policy_of a (measured_pcrs rk a (pcrs w))) (blobs w' !! cstr (devNodeBlob a)).
Proof.
  pose (Post w' := ∃ key, storage_key w' = Some key ∧
    holds key (policy_of a (measured_pcrs rk a (pcrs w))) (blobs w' !! cstr (devNodeBlob a)) ∧ (32, key) ∈ drawn w').
  assert ((run o [] (main argv)).1 = Ended (Execed INIT) ∧ Post (foldl world_step w (run o [] (main argv)).2)) as Hr.
  { apply measured_run; [done|done|..].
    - intros w1 w2 [(_ & Hb & Hk) Hd] (key & ? & ? & ?). exists key. rewrite Hb, Hk. split_and!; [done..|]. by apply Hd.
    - intros ectx tcti w1 He Hp Hb Hk. unfold Post. rewrite <-Hp in *.
      eapply wp_mono; [|apply (first_exact rk a (ms_seal Hs) ectx He (storage_set Hs) tcti w1); [congruence|done]].
      intros o' w2 [-> Hpost]. by eexists. }
  destruct (run o [] (main argv)) as [out t]. cbn [fst snd] in Hr. destruct Hr as [-> (key & ? & ? & Hd)].
  split; [done|]. exists key. split_and!; [|done..]. apply drawn_trace in Hd as [Hd|?]; [|done].
  rewrite Hnew in Hd. by apply elem_of_nil in Hd.
Qed.

(** C16: Once a key is sealed, no number of boots with other command lines (with sealed PCRs that fit
    the selection), other firmware, failing calls and power failures takes it away: a later boot of a
    production build on a healthy machine that names the same blob partition and whose measured PCRs
    give the sealed policy executes /sbin/init with that key in the keyring. *)
Theorem sealed_key_stays_available w bs key d o vals
    (Hsize : (0 < sizeof_TPM2B_PUBLIC)%Z) (Hkey : holds key d (blobs w !! cstr (devNodeBlob a))) (Hbs : honest w bs)
    (Hs : measured_setup) (Hd : policy_of a (measured_pcrs rk a vals) = d)
    (w1 := power_on vals (after_boots w bs)) (Ho : MeasuringMachine o size (text ++ x00 :: sig) rk w1) :
  let '(out, t) := run o [] (main argv) in
  out = Ended (Execed INIT) ∧ storage_key (foldl world_step w1 t) = Some key.
Proof.
  destruct (life_refines (ms_hsm Hs) Hsize (cstr (devNodeBlob a)) bs w (VKey key d) Hkey Hbs) as (v' & Hl & Hv').
  apply vault_life_stays in Hl as ->. pose proof (later_run o w1 key d Hs Ho Hv') as Hr. cbn [pcrs power_on w1] in Hr.
  destruct (run o [] (main argv)) as [out t]. cbn [fst snd] in Hr. destruct Hr as (-> & _ & Hr). by rewrite decide_True in Hr.
Qed.
End Theorems.
