(* ===== verification/CominitClean.v ===== *)
(** * CominitClean: what the process holds when it becomes another program

    The functions called by [main] release the descriptors, streams, mappings,
    memory and library contexts they acquire; so the rootfs init and the rescue
    shell inherit nothing from cominit, with one exception: if one context of the
    TPM could not be made, the other one stays. *)
From S2P Require Import Prelude CString Sys Output Common Crypto Keyring Meta Dmctl Minsetup.
From S2P Require Import Automount Subprocess Securememory Tpm Footprint TpmProofs BootSpec Cominit CominitProofs.
From S2P Require Import CominitMisc.

Section TpmResources.
Context `{Libc} `{TpmParams}.
Lemma balanced_Mkdir_loop fuel tk st cur mode : balanced (cominitMkdir_loop fuel tk st cur mode).
Proof. revert tk st cur. induction fuel; intros [|] st cur; cbn [cominitMkdir_loop]; balanced_auto. Qed.
#[local] Hint Resolve balanced_Mkdir_loop : balanced.
Lemma balanced_Mkdir p mode : balanced (cominitMkdir p mode).
Proof. unfold cominitMkdir. balanced_auto. Qed.
#[local] Hint Resolve balanced_Mkdir : balanced.
Lemma balanced_SetupBlob a : balanced (cominitTpmSetupBlob a).
Proof. unfold cominitTpmSetupBlob. balanced_auto. Qed.
Lemma balanced_SaveBlob out : balanced (cominitTpmSaveBlob out).
Proof. unfold cominitTpmSaveBlob. balanced_auto. Qed.
Lemma balanced_LoadBlob : balanced cominitTpmLoadBlob.
Proof. unfold cominitTpmLoadBlob. balanced_auto. Qed.
Lemma balanced_readPtr p : balanced (readPtr p).
Proof. unfold readPtr. balanced_auto. Qed.
#[local] Hint Resolve balanced_SetupBlob balanced_SaveBlob balanced_LoadBlob balanced_readPtr : balanced.
Lemma balanced_ExtendPCR c k i : balanced (cominitTpmExtendPCR c k i).
Proof. unfold cominitTpmExtendPCR. balanced_auto. Qed.
Lemma balanced_SelectPcr_loop n i s l : balanced (cominitTpmSelectPcr_loop n i s l).
Proof. revert i l. induction n; intros i l; cbn [cominitTpmSelectPcr_loop]; balanced_auto. Qed.
#[local] Hint Resolve balanced_SelectPcr_loop : balanced.
Lemma balanced_SelectPcr a s : balanced (cominitTpmSelectPcr a s).
Proof. unfold cominitTpmSelectPcr. balanced_auto. Qed.
#[local] Hint Resolve balanced_SelectPcr : balanced.
Lemma balanced_Seal e a : balanced (cominitTpmSeal e a).
Proof. unfold cominitTpmSeal, cominitTpmSavePrimaryHandle. balanced_auto. Qed.
Lemma balanced_Unseal e h p q a : balanced (cominitTpmUnseal e h p q a).
Proof. unfold cominitTpmUnseal. balanced_auto. Qed.
#[local] Hint Resolve balanced_Seal balanced_Unseal : balanced.
Lemma balanced_SealBlob e a : balanced (cominitTpmSealBlob e a).
Proof. unfold cominitTpmSealBlob. balanced_auto. Qed.
Lemma balanced_UnsealBlob e a : balanced (cominitTpmUnsealBlob e a).
Proof. unfold cominitTpmUnsealBlob, cominitTpmLoadPrimaryHandle. balanced_auto. Qed.
Lemma balanced_SetupStorage a first : balanced (cominitTpmSetupSecureStorage a first).
Proof. unfold cominitTpmSetupSecureStorage, cominitTpmFormatSecureStorage. balanced_auto. Qed.
#[local] Hint Resolve balanced_SealBlob balanced_UnsealBlob balanced_SetupStorage : balanced.
Lemma balanced_ProtectData c a : balanced (cominitTpmProtectData c a).
Proof. unfold cominitTpmProtectData, cominitTpmUnmountBlob. balanced_auto. Qed.
Lemma balanced_MountStorage : balanced cominitTpmMountSecureStorage.
Proof. unfold cominitTpmMountSecureStorage. balanced_auto. Qed.
End TpmResources.
#[export] Hint Resolve balanced_readPtr balanced_ExtendPCR balanced_ProtectData balanced_MountStorage : balanced.

(** ** The contexts of the TPM *)

Definition tpm_context (x : resource) : bool := match x with RTcti _ | REsys _ => true | _ => false end.
(** An initialisation stored NULL for its context. *)
Definition null_context (e : event) : Prop :=
  let '(Event c r) := e in
  match c return reply c → Prop with
  | TctiInitialize _ | EsysInitialize _ => λ r, r.2 = Some 0%Z
  | _ => λ _, False
  end r.
(** [hs] is what is held after [t]: nothing, or contexts of the TPM if one of
    them was NULL. *)
Definition holding (hs : list resource) (t : trace) : Prop :=
  held t = hs ∧ Forall tpm_context hs ∧ (hs = [] ∨ Exists null_context t).

Lemma held_snoc t e : held (t ++ [e]) = upd_held (held t) e.
Proof. unfold held. by rewrite foldl_app. Qed.

(** ** The whole program *)

(** A call other than the start of init or of the rescue shell. *)
Definition nostart (c : call) : bool :=
  match c with Execve p _ => negb (bool_decide (p = INIT) || bool_decide (p = SHELL)) | _ => true end.
(** Init and the shell start with nothing held, or with contexts of the TPM of
    which one was NULL. *)
Definition start_guard (t : trace) (e : event) : Prop :=
  match ev_call e with
  | Execve p _ => p = INIT ∨ p = SHELL →
                  Forall tpm_context (held t) ∧ (held t = [] ∨ Exists null_context t)
  | _ => True end.

Section Main.
Context `{Libc} `{MbedTLS} `{TpmParams} `{DmParams} `{Build}.
Lemma balanced_SetMode v : balanced (cominitSetSelinuxMode v).
Proof. unfold cominitSetSelinuxMode. balanced_auto. Qed.
#[local] Hint Resolve balanced_LoadPolicy balanced_SetMode : balanced.
Lemma balanced_mainSelinux a : balanced (mainSelinux a).
Proof. unfold mainSelinux. balanced_auto. Qed.
Lemma balanced_mainFindCrypt a d : balanced (mainFindCrypt a d).
Proof. unfold mainFindCrypt. balanced_auto. Qed.
Lemma wp_growing {A} (p : prog A) t :
  balanced p →
  wp upd_trace any_env p (λ o t', ∃ u, t' = t ++ u ∧ ∀ a, o = Done a → held t' = held t) t.
Proof.
  intros Hp. eapply wp_mono; [|apply wp_and; [apply wp_exec|by apply wp_balanced]].
  intros o t' [(u & -> & _) Hh]. exists u. split; [done|]. by intros a ->.
Qed.
(** The contexts and what is held after the initialisation: the release of the
    contexts gives everything back unless one of them is NULL. *)
Definition releasable (c : cominitTpmContext_t) (t : trace) : Prop :=
  Forall tpm_context (held t) ∧ tctiCtx c ≠ PNull ∧ esysCtx c ≠ PNull ∧
  (tctiCtx c = PTo 0 → held t = [] ∨ Exists null_context t) ∧
  (∀ x, tctiCtx c = PTo x → x ≠ 0%Z →
     (esysCtx c = PTo 0 → held t = [] ∨ Exists null_context t) ∧
     (∀ e, esysCtx c = PTo e → e ≠ 0%Z → held t = [RTcti x] ∨ held t = [REsys e; RTcti x])).
Lemma releasable_app c t u : releasable c t → held (t ++ u) = held t → releasable c (t ++ u).
Proof.
  intros (H1' & H2' & H3' & H4' & H5') E. unfold releasable. rewrite E. split_and!; [done..| |].
  - intros Hx. destruct (H4' Hx); [by left|right]. apply Exists_app. by left.
  - intros x Hx Hn. destruct (H5' x Hx Hn) as [Ha Hb]. split; [|done].
    intros He. destruct (Ha He); [by left|right]. apply Exists_app. by left.
Qed.
Lemma releasable_Init t :
  held t = [] →
  wp upd_trace any_env (cominitInitTpm (Some (TpmContext PUninit PUninit)))
    (λ o t', ∀ r c, o = Done (r, c) → ∃ c', c = Some c' ∧ releasable c' t') t.
Proof.
  intros Ht. unfold cominitInitTpm, cominitTpmSelftest. rewrite bool_decide_true by done.
  apply wp_sys. intros [rc tcti] _. cbv zeta. cbn [tctiCtx esysCtx].
  set (t1 := upd_trace t _).
  assert (held t1 = match (rc, tcti) with (0%Z, Some x) => [RTcti x] | _ => [] end) as Ht1.
  { unfold t1, upd_trace. rewrite held_snoc, Ht. unfold upd_held. cbn. by destruct rc, tcti. }
  case_bool_decide as Hrc.
  { intros r c [= <- <-]. eexists. split; [done|]. assert (held t1 = []) as E by (rewrite Ht1; by destruct rc).
    unfold releasable. rewrite E. cbn. split_and!; [done|by destruct tcti|done|by left|done]. }
  subst rc. destruct tcti as [x|]; [|done]. cbn [store readPtr]. rewrite bind_ret.
  assert (x = 0%Z → Exists null_context t1) as Hx.
  { intros ->. apply Exists_app. right. by constructor. }
  clearbody t1. apply wp_sys. intros [rc ectx] _. cbv zeta. cbn [tctiCtx esysCtx].
  set (t2 := upd_trace t1 _).
  assert (held t2 = match (rc, ectx) with (0%Z, Some e) => [REsys e; RTcti x] | _ => [RTcti x] end) as Ht2.
  { unfold t2, upd_trace. rewrite held_snoc, Ht1. unfold upd_held. cbn. by destruct rc, ectx. }
  assert (releasable (TpmContext (store PUninit ectx) (PTo x)) t2) as Hrel.
  { assert (∀ y, y = 0%Z → x = y ∨ ectx = Some y → Exists null_context t2) as Hnull.
    { intros y -> [Ey|Ey]; apply Exists_app; [left; by apply Hx|right; subst; by constructor]. }
    unfold releasable. cbn. split_and!.
    - rewrite Ht2. by destruct rc, ectx; repeat constructor.
    - done.
    - by destruct ectx.
    - intros [= ->]. right. by eapply Hnull; [|left].
    - intros y [= <-] Hy. destruct ectx as [e|]; cbn [store]; [|done]. split.
      + intros [= ->]. right. by eapply Hnull; [|right].
      + intros e' [= <-] He. rewrite Ht2. destruct rc; auto. }
  clearbody t2. clear Ht2. case_bool_decide; [intros r c [= <- <-]; by eexists|].
  destruct ectx as [e|]; [|done]. cbn [store readPtr]. rewrite bind_ret. apply wp_bind, wp_sys. intros r _.
  cbn [wp]. intros r' c [= <- <-]. eexists. split; [done|]. apply releasable_app; [done|]. by rewrite held_snoc.
Qed.
Lemma releasable_Delete c t :
  releasable c t →
  wp upd_trace any_env (cominitDeleteTpm (Some c)) (λ o t', ∀ x, o = Done x → ∃ hs, holding hs t') t.
Proof.
  intros (Hf & Hn1 & Hn2 & Hz & Hx). unfold cominitDeleteTpm. destruct c as [ec tc]. cbn [tctiCtx esysCtx] in *.
  destruct tc as [| |x]; [done|done|]. cbn [readPtr]. rewrite bind_ret.
  case_bool_decide as E0.
  { intros y _. exists (held t). split_and!; [done|done|]. apply Hz. congruence. }
  destruct (Hx x eq_refl E0) as [Ha Hb]. destruct ec as [| |e]; [done|done|]. cbn [readPtr]. rewrite bind_ret.
  case_bool_decide as E1.
  { intros y _. exists (held t). split_and!; [done|done|]. apply Ha. congruence. }
  do 2 (apply wp_sys_; intros ? _). intros y _. exists []. split; [|by split; [|left]].
  unfold upd_trace. rewrite !held_snoc. destruct (Hb e eq_refl E1) as [-> | ->]; unfold upd_held; cbn;
    by repeat (case_decide; cbn).
Qed.
Lemma holding_mainTpm a t :
  held t = [] → wp upd_trace any_env (mainTpm a) (λ o t', ∀ x, o = Done x → ∃ hs, holding hs t') t.
Proof.
  intros Ht. unfold mainTpm. destruct (cominitUseTpm _).
  2: { intros x _. exists []. by split_and!; [|constructor|left]. }
  eapply wp_call; [by apply releasable_Init| |done]. intros [r c] t1 Hc.
  destruct (Hc _ _ eq_refl) as (c' & -> & Hrel). cbv zeta. cbn [default]. unfold id.
  eapply wp_call; [apply wp_growing| |done]. { balanced_auto. }
  intros [] t2 (u & -> & Hu). specialize (Hu tt eq_refl).
  eapply wp_call; [apply releasable_Delete; by apply releasable_app| |done].
  intros y t3 Hy x _. by eapply Hy.
Qed.
Lemma balanced_MicroSleep n : balanced (cominitMicroSleep n).
Proof. unfold cominitMicroSleep. balanced_auto. Qed.
Lemma balanced_Discover a m d : balanced (cominitDiscoverRootfs a m d).
Proof. unfold cominitDiscoverRootfs. balanced_auto. Qed.
#[local] Hint Resolve balanced_MicroSleep balanced_Discover : balanced.
Lemma balanced_discoverLoop n a m d : balanced (discoverLoop n a m d).
Proof. revert m d. induction n; intros m d; cbn [discoverLoop]; balanced_auto. Qed.
(** A program without calls holds nothing. *)
Lemma balanced_no_call {A} (p : prog A) : only no_call p → balanced p.
Proof. destruct p as [a|c k|e]; [intros _ s; done|by intros [? _]|intros _ s; done]. Qed.
#[local] Hint Resolve balanced_mainSelinux balanced_mainFindCrypt balanced_discoverLoop : balanced.
#[local] Hint Extern 2 (balanced (parseArgs _ _)) => apply balanced_no_call, fp_parseArgs : balanced.

Lemma nostart_noexec {A} (p : prog A) : only noexec p → only nostart p.
Proof. apply only_mono. by intros []. Qed.
#[local] Hint Resolve nostart_noexec : only.
Lemma nostart_SetupStorage a first : only nostart (cominitTpmSetupSecureStorage a first).
Proof.
  destruct first; [apply (only_SetupFirst nostart ltac:(by intros []) (cstr (devNodeCrypt a)))|
    apply (only_SetupLater nostart ltac:(by intros []) (cstr (devNodeCrypt a)))]; done.
Qed.
#[local] Hint Resolve nostart_SetupStorage : only.
Lemma nostart_ProtectData c a : only nostart (cominitTpmProtectData c a).
Proof. unfold cominitTpmProtectData. only_auto. Qed.
#[local] Hint Resolve nostart_ProtectData : only.
Lemma nostart_mainTpm a : only nostart (mainTpm a).
Proof. unfold mainTpm. only_auto. Qed.
#[local] Hint Resolve nostart_mainTpm : only.

Local Abbreviation clean p := (wp upd_trace any_env p (λ _ t, guarded start_guard t)).
Definition tidy (hs : list resource) (t : trace) : Prop := guarded start_guard t ∧ holding hs t.
Lemma guarded_nostart t u :
  guarded start_guard t → Forall (λ e, nostart (ev_call e) = true) u → guarded start_guard (t ++ u).
Proof.
  intros Hg Hu. apply guarded_app; [done|]. eapply Forall_impl; [exact Hu|]. intros [c r] Hc t0.
  unfold start_guard. cbn [ev_call] in *. destruct c; try done. cbn in Hc.
  apply negb_true_iff, orb_false_iff in Hc as [H1'%bool_decide_eq_false H2'%bool_decide_eq_false]. by intros [].
Qed.
Lemma tidy_app hs t u :
  tidy hs t → Forall (λ e, nostart (ev_call e) = true) u → held (t ++ u) = held t → tidy hs (t ++ u).
Proof.
  intros (Hg & Hh & Hc & Hn) Hu E. split; [by apply guarded_nostart|]. split_and!; [congruence|done|].
  rewrite Exists_app. tauto.
Qed.
(** A part of [main] that releases what it acquires. *)
Lemma clean_bind {A B} hs (p : prog A) (f : A → prog B) t :
  balanced p → only nostart p → tidy hs t → (∀ a t', tidy hs t' → clean (f a) t') → clean (bind p f) t.
Proof.
  intros Hb Hp Ht Hf. eapply wp_call; [apply wp_and; [by apply wp_only|by apply wp_balanced]| |].
  - intros a t' [(u & -> & Hall) E]. apply Hf. by apply tidy_app.
  - intros e t' [(u & -> & Hall) _]. apply guarded_nostart; [apply Ht|done].
Qed.
Lemma clean_exec {B} hs p argv (f : option errno → prog B) t :
  tidy hs t → (∀ r t', tidy hs t' → clean (f r) t') → clean (bind (sys (Execve p argv)) f) t.
Proof.
  intros (Hg & Hh & Hc & Hn) Hf. apply wp_sys. intros r _. apply Hf. unfold upd_trace. split.
  - apply guarded_snoc; [done|]. cbn. intros _. by rewrite Hh.
  - split_and!; [by rewrite held_snoc|done|]. rewrite Exists_app. tauto.
Qed.
Lemma clean_rescue hs t : tidy hs t → clean rescue t.
Proof. intros Ht. unfold rescue. eapply clean_exec; [done|]. by intros [] t' [? _]. Qed.

Lemma clean_mainSwitch hs a t : tidy hs t → clean (mainSwitch a) t.
Proof.
  intros Ht. unfold mainSwitch.
  do 4 (eapply clean_bind; [balanced_auto|only_auto|exact Ht|clear t Ht; intros _ t Ht]).
  eapply clean_bind; [balanced_auto|only_auto|exact Ht|clear t Ht; intros r t Ht].
  case_bool_decide; [by eapply clean_rescue|]. eapply clean_exec; [done|].
  intros [] t' Ht'; [by eapply clean_rescue|by destruct Ht'].
Qed.
Lemma clean_mainMount a m d t : tidy [] t → clean (mainMount a m d) t.
Proof.
  intros Ht. unfold mainMount. case_bool_decide; [by eapply clean_rescue|].
  eapply clean_bind; [balanced_auto|only_auto|exact Ht|clear t Ht; intros a' t Ht].
  destruct Ht as (Hg & Hh & _).
  eapply wp_call; [apply wp_and; [apply (wp_only nostart); only_auto|by apply holding_mainTpm]| |].
  2: { intros e t' [(u & -> & Hu) _]. by apply guarded_nostart. }
  intros x t' [(u & -> & Hu) Hx]. destruct (Hx x eq_refl) as [hs Ht]. assert (tidy hs (t ++ u)) as Ht'.
  { split; [by apply guarded_nostart|done]. }
  revert Ht'. generalize (t ++ u). clear t Hg Hh Hu Hx Ht u. intros t Ht.
  eapply clean_bind; [balanced_auto|only_auto|exact Ht|clear t Ht; intros [r m'] t Ht].
  case_bool_decide; [by eapply clean_rescue|by eapply clean_mainSwitch].
Qed.
Lemma clean_main argv : COMINIT_FAKE_HSM = None → clean (main argv) [].
Proof.
  intros Hhsm. unfold main. rewrite Hhsm.
  eapply (clean_bind []); [eauto with balanced|only_auto|by split; [apply guarded_nil|split_and!; [|constructor|left]]|intros r t Ht].
  destruct r as [a| |].
  2,3: rewrite <-(bind_ret EXIT_FAILURE Ret); eapply clean_bind;
    [unfold cominitPrintUsage, cominitPrintVersion; balanced_auto|
     unfold cominitPrintUsage, cominitPrintVersion; only_auto|done|by intros _ t' [? _]].
  do 2 (eapply clean_bind; [balanced_auto|only_auto|exact Ht|clear t Ht; intros _ t Ht]).
  eapply clean_bind; [balanced_auto|only_auto|exact Ht|clear t Ht; intros r t Ht].
  case_bool_decide; [by eapply clean_rescue|].
  eapply clean_bind; [balanced_auto|only_auto|exact Ht|clear t Ht; intros _ t Ht].
  eapply clean_bind; [balanced_auto|only_auto|exact Ht|clear t Ht; intros [[found m] d] t Ht].
  destruct found; cbn [negb]; [|by eapply clean_rescue].
  eapply clean_bind; [balanced_auto|only_auto|exact Ht|clear t Ht; intros [r' m'] t Ht].
  case_bool_decide; [by eapply clean_rescue|by apply clean_mainMount].
Qed.

(** C22: Without the development key store, at every execve of /sbin/init or of the rescue shell the run
    has released every file descriptor, stream, directory, mapping, allocated buffer and mbedTLS context
    it acquired, in every environment; and the TCTI and ESYS contexts of the TPM too, unless an
    initialisation stored NULL for one of them, when cominitDeleteTpm releases neither. Buffers that the
    TSS allocates for results are not counted. *)
Theorem init_inherits_nothing o argv (Hhsm : COMINIT_FAKE_HSM = None) :
  guarded start_guard (run o [] (main argv)).2.
Proof. exact (wp_run_trace _ _ o (clean_main argv Hhsm)). Qed.
End Main.
