(* ===== verification/CominitDm.v ===== *)
(** * CominitDm: from parsed metadata to the calls the kernel gets

    What CominitVerity.v and CominitIntegrity.v share: metadata that asks for a
    device mapper target determines the calls that set the target up and mount
    the rootfs, and main goes on to init. *)
From S2P Require Import Prelude CString Sys Output Common Crypto Keyring Meta MetaProofs MetaSpec.
From S2P Require Import Dmctl Minsetup MinsetupProofs Automount Subprocess Securememory Tpm Cominit.
From S2P Require Import CominitArgs BootSpec CominitProofs CominitBoot.

Section Dm.
Context `{Libc} `{MbedTLS} `{TpmParams} `{DmParams} `{Build}.

(** One target over the whole volume, the resume, the node and the mount of the
    mapped device; [readonly] shows in the table load, the node and the mount. *)
Definition dm_kernel_calls (target fs tbl : list byte) (readonly : bool) (bytes fd devId : Z) (rm : res unit) : trace :=
  [Event (Open (lit "/dev/mapper/control") O_RDWR) (Ok fd);
   Event (IoctlDmDevCreate fd (DmIoctl dm_version_ours sizeof_dm_ioctl 0 0 0 0 (lit "rootfs"))) (Ok devId);
   Event (IoctlDmTableLoad fd
            (DmIoctl dm_version_ours (offsetof_dmTbl + Z.of_nat (length tbl) + 1) offsetof_tSpec 1
               (if readonly then DM_READONLY_FLAG else 0) devId [])
            (DmTargetSpec 0 (bytes / 512) (take (DM_MAX_TYPE_NAME - 1) target)) tbl) (Ok tt);
   Event (IoctlDmDevSuspend fd (DmIoctl dm_version_ours sizeof_dm_ioctl 0 0 0 devId [])) (Ok tt);
   Event (Mknod (lit "/dev/mapper/rootfs") (Z.lor S_IFBLK_BITS S_IRUSR + (if readonly then 0 else S_IWUSR)) devId) (Ok tt);
   Event (Close fd) tt;
   Event (Mkdir (lit "/newroot") mode_0755) rm;
   Event (Mount (lit "/dev/mapper/rootfs") (lit "/newroot") (Some (take 31 fs)) (if readonly then [MS_RDONLY] else []))
     (Ok tt)].

(** The structure the parser makes of a text with such a target. *)
Record dm_meta (m' : cominitRfsMetaData_t) (target fs tbl : list byte) (readonly : bool) (bytes : Z) : Prop := {
  dm_target : dmTarget m' = Some target;
  dm_ro : ro m' = readonly;
  dm_fs : cstr (fsType m') = take 31 fs;
  dm_writable : readonly = true ∨ take 31 fs ≠ lit "squashfs";
  dm_table : cstr (dmTableVerint m') = tbl;
  dm_fits : length tbl < COMINIT_DM_TABLE_SIZE_MAX;
  dm_bytes : dmVerintDataSizeBytes m' = bytes
}.
Context {m' : cominitRfsMetaData_t} {target fs tbl : list byte} {readonly : bool} {bytes : Z}.
Hypothesis Hm : dm_meta m' target fs tbl readonly bytes.

(** Its mount makes exactly these calls. *)
Lemma dm_mounted m1 t :
  rootfs_mounted m' m1 t → ∃ fd devId rm, t = dm_kernel_calls target fs tbl readonly bytes fd devId rm.
Proof.
  destruct Hm as [Ht Hro Hfs _ Htbl Hlen Hb].
  intros (tdm & rm & -> & _ & [(Hn & _)|(_ & -> & tgt & fd & devId & Ht' & ->)]).
  { unfold dmTarget in Ht. by rewrite Hn in Ht. }
  exists fd, devId, rm. rewrite Ht in Ht'. injection Ht' as <-.
  unfold dm_setup_trace, dmTableIoctl, dmTableSpec, dmTableText, rootfs_mount, dm_kernel_calls.
  rewrite cstr_dm_path, Htbl, Hb, Hro. rewrite take_ge by (unfold COMINIT_DM_TABLE_SIZE_MAX in *; lia).
  cbn [fsType ro with_dm_path set_devicePath]. rewrite Hro, Hfs. by destruct readonly.
Qed.
Lemma dm_bootable : bootable m'.
Proof. destruct Hm as [Ht Hro Hfs Hw _ _ _]. split; [right; by rewrite Ht|]. by rewrite Hro, Hfs. Qed.

(** From the parsed metadata to init, with the calls in the trace. *)
Lemma dm_mainMount part a d t :
  no_tpm a → terminated (diskName d) = true →
  wp upd_trace (λ _, healthy part) (mainMount a m' d)
    (λ o t, o = Ended (Execed INIT) ∧ ∃ ta tb fd devId rm,
       t = ta ++ dm_kernel_calls target fs tbl readonly bytes fd devId rm ++ tb) t.
Proof.
  intros Ha Hd. pose proof dm_bootable as Hboot.
  assert (∀ A (p : prog A) P t, wp upd_none (λ _, healthy part) p (λ o _, P o) tt →
    wp upd_trace (λ _, healthy part) p (λ o _, P o) t) as Hb.
  { intros A p P t' Hp. by eapply wp_transfer. }
  unfold mainMount. rewrite bool_decide_false by (rewrite bootable_nocrypt; congruence).
  eapply wp_call; [by apply Hb, boots_FindCrypt| |by intros ? ? []]. intros a' t1 [v [= ->]].
  destruct (no_tpm_off a v Ha) as [Hu Hs]. unfold mainTpm. rewrite Hu. apply wp_bind. cbn [wp].
  eapply wp_call; [apply wp_and; [by apply Hb, boots_SetupRootfs|eapply wp_env; [|apply wp_SetupRootfs|]; [done|]]| |].
  - intros o t' Ho. exact Ho.
  - intros [r m2] t' [[m3 E] (tm & -> & Hr)]. apply Done_inj, pair_eq in E as [-> ->].
    destruct Hr as [(_ & _ & m1 & _ & Hr)|[? _]]; [|done].
    destruct (dm_mounted m1 tm Hr) as (fd & devId & rm & ->). rewrite bool_decide_false by done.
    eapply wp_mono; [|apply wp_and; [by apply Hb, boots_mainSwitch|
      exact (wp_env _ _ _ _ _ _ _ (λ _ _ _, I) (wp_exec _ _) (λ _ _ H, H))]].
    intros o t' [Ho (tb & -> & _)]. split; [exact Ho|]. exists t1, tb, fd, devId, rm. by rewrite app_assoc.
  - by intros e t' [_ ?].
Qed.
End Dm.
