(* ===== verification/CominitVerity.v ===== *)
(** * CominitVerity: from the signed text to the kernel

    The boot of a dm-verity rootfs in one statement: the text in the metadata
    region of the partition determines the device mapper table the kernel gets
    and the mount of the rootfs, call by call. *)
From S2P Require Import Prelude CString Sys Output Common Crypto Keyring Meta MetaProofs MetaSpec.
From S2P Require Import Dmctl Minsetup MinsetupProofs Automount Subprocess Securememory Tpm Cominit.
From S2P Require Import CominitArgs BootSpec CominitProofs CominitBoot CominitDm.

Section Verity.
Context `{Libc} `{MbedTLS} `{TpmParams} `{DmParams} `{Build}.

(** The text of the metadata, with its table printed from the fields. *)
Definition verity_text (fs ver : list byte) (tail : list (list byte)) (ctbl : list byte) : list byte :=
  meta_text (lit "1") fs (lit "ro") (lit "verity") (spaced (ver :: tail)) ctbl.
(** The calls that set up and mount the rootfs on [dev]: one read-only target
    over the data size, with the table the text stands for, and the mount of
    the mapped device. *)
Definition verity_kernel_calls (dev fs ver : list byte) (tail : list (list byte)) (bytes fd devId : Z) (rm : res unit)
    : trace :=
  dm_kernel_calls (lit "verity") fs (verity_table dev ver tail) true bytes fd devId rm.
Lemma parse_verity_text m fs ver dbs hbs nb hstart alg extra ctbl after :
  meta_wf m → field fs → field ver → (0 <= dbs < 2 ^ 64)%Z → (0 <= nb < 2 ^ 64)%Z →
  field hbs → field hstart → field alg → Forall field extra →
  let tail := dec dbs :: hbs :: dec nb :: hstart :: alg :: extra in
  length (verity_table (cstr (devicePath m)) ver tail) < COMINIT_DM_TABLE_SIZE_MAX →
  ∃ m', cominitParseMetadata (Some m) (Some (verity_text fs ver tail ctbl)) after = Ret (0%Z, Some m') ∧
        dm_meta m' (lit "verity") fs (verity_table (cstr (devicePath m)) ver tail) true (u64 (dbs * nb)).
Proof.
  intros Hwf Hfs Hver Hdbs Hnb Hhbs Hhs Halg Hextra tail Hlen.
  assert (Forall field (ver :: tail)) as Hall.
  { repeat (apply Forall_cons; split); auto using field_dec_num. }
  set (mf := with_fields m fs true COMINIT_CRYPTOPT_VERITY).
  destruct (GenVerity_table mf ver dbs hbs nb hstart alg extra) as (m' & E & Hc & Hd & Hf & Hro & Htbl); try done.
  assert (cstr (devicePath mf) = cstr (devicePath m)) as Edev by done.
  fold tail in E, Htbl. rewrite Edev, bool_decide_true in E by done. rewrite Edev in Htbl.
  destruct (Htbl Hlen) as [Ht Hb].
  exists m'. split.
  - unfold verity_text. rewrite (Parse_text m [] fs (lit "ro") (lit "verity") COMINIT_CRYPTOPT_VERITY);
      try done; [|by apply field_lit_dec|by left|].
    + apply Parse_tables_verity; [done|done|by left|exact E].
    + split; [by apply spaced_noff|by apply spaced_nonul].
  - split; try done; [unfold dmTarget; by rewrite bool_decide_true, Hro by done| |by left]. rewrite Hf. cbn.
    apply (strncpy_cstr COMINIT_FSTYPE_STR_MAX_LEN); [by vm_compute; lia| |by apply Hfs].
    by destruct (wf_fsType _ Hwf).
Qed.

(** C4: From the signed bytes to the kernel: on a healthy machine whose metadata region holds the
    printed form of a dm-verity rootfs, main ends in /sbin/init and its calls contain, in a row, exactly
    the creation of the mapped device, the load of the table the text stands for over the data size in
    sectors, read-only, the resume, the node and the read-only mount of that node on /newroot. *)
Theorem verity_text_reaches_kernel o argv a size fs ver dbs hbs nb hstart alg extra ctbl sig
    (tail := dec dbs :: hbs :: dec nb :: hstart :: alg :: extra)
    (text := verity_text fs ver tail ctbl) (dev := cstr (devNodeRootFs a))
    (Ho : HealthyMachine o size (text ++ x00 :: sig))
    (Hlen : length (text ++ x00 :: sig) = COMINIT_PART_META_DATA_SIZE) (Htext : nonul text)
    (Hsig : COMINIT_PART_META_SIG_LENGTH < length sig)
    (Hsize : (Z.of_nat COMINIT_PART_META_DATA_SIZE <= size < 2 ^ 63)%Z)
    (Hargv : Forall nonul argv) (Hargs : parseArgs argv initArgs = Ret (Options a))
    (Hroot : isSet (devNodeRootFs a) = true) (Htpm : no_tpm a)
    (Hfs : field fs) (Hver : field ver) (Hdbs : (0 <= dbs < 2 ^ 64)%Z) (Hnb : (0 <= nb < 2 ^ 64)%Z)
    (Hhbs : field hbs) (Hhs : field hstart) (Halg : field alg) (Hextra : Forall field extra)
    (Htbl : length (verity_table dev ver tail) < COMINIT_DM_TABLE_SIZE_MAX) :
  let '(out, t) := run o [] (main argv) in
  out = Ended (Execed INIT) ∧ ∃ ta tb fd devId rm,
    t = ta ++ verity_kernel_calls dev fs ver tail (u64 (dbs * nb)) fd devId rm ++ tb.
Proof.
  destruct (parseArgs_wf argv initArgs Hargv initArgs_wf) as (r & Hr & Hwf).
  rewrite Hargs in Hr. injection Hr as <-. specialize (Hwf a eq_refl).
  set (m := set_devicePath zero_meta (devNodeRootFs a)).
  assert (meta_wf m) as Hm. { pose proof zero_meta_wf as []. split; try done. by destruct Hwf. }
  destruct (parse_verity_text m fs ver dbs hbs nb hstart alg extra ctbl sig) as (m' & Hparse & Hvm); try done.
  pose proof (wp_run upd_trace (λ _, healthy (Some (size, text ++ x00 :: sig))) (main argv)
    (λ o t, o = Ended (Execed INIT) ∧ ∃ ta tb fd devId rm,
       t = ta ++ verity_kernel_calls dev fs ver tail (u64 (dbs * nb)) fd devId rm ++ tb) [] o
    (λ h c, healthy_answers h c) []) as Hw.
  cbn [app foldl] in Hw. rewrite foldl_upd_trace in Hw. destruct (run o [] (main argv)) as [out t]. apply Hw.
  eapply (boots_until_mount _ _ upd_trace (λ _, healthy (Some (size, text ++ x00 :: sig)))); try done.
  intros d t' Hd. by apply (dm_mainMount Hvm).
Qed.
End Verity.
