(* ===== verification/CominitIntegrity.v ===== *)
(** * CominitIntegrity: from the signed text and the keyring to the kernel

    The boot of a dm-integrity rootfs in one statement: the text in the metadata
    region names keys of the user keyring; the kernel gets the table with the
    keys themselves, and the rootfs is mounted from the mapped device. *)
From S2P Require Import Prelude CString Sys Output Common Crypto Keyring Meta MetaProofs MetaSpec.
From S2P Require Import Dmctl Minsetup MinsetupProofs Automount Subprocess Securememory Tpm Cominit.
From S2P Require Import CominitArgs BootSpec CominitProofs CominitBoot CominitDm.

(** The mode word of the metadata. *)
Definition mode_text (readonly : bool) : list byte := if readonly then lit "ro" else lit "rw".
(** The text of the metadata, with its table printed from the fields. *)
Definition integrity_text (fs : list byte) (readonly : bool) (blocks blksize num : Z) (os : list iopt) (ctbl : list byte)
    : list byte :=
  meta_text (lit "1") fs (mode_text readonly) (lit "integrity")
    (spaced (dec blocks :: dec blksize :: dec num :: map print_opt os)) ctbl.

Section Integrity.
Context `{Libc} `{MbedTLS} `{TpmParams} `{DmParams} `{Build}.
Context (keys : list byte → option (list byte)) (kid : list byte → Z).
Hypothesis Hkeys : ∀ d k, keys d = Some k → 1 <= length k <= Z.to_nat COMINIT_KEYRING_PAYLOAD_MAX_SIZE.

Lemma healthy_keys_ring part e : healthy_keys (keyring_env keys kid) part e → keyring_env keys kid e.
Proof. by destruct e as [[] r]. Qed.

(** The structure the parser makes of the text. *)
Lemma parse_integrity_text part m fs readonly blocks blksize num os ctbl after opts :
  meta_wf m → field fs → readonly = true ∨ take 31 fs ≠ lit "squashfs" →
  (0 <= blocks < 2 ^ 64)%Z → (0 <= blksize < 2 ^ 64)%Z → (0 <= num < 2 ^ 64)%Z → os ≠ [] → Forall valid_opt os →
  expand_opts keys os = Some opts →
  let tbl := integrity_table (cstr (devicePath m)) num blksize opts in
  length tbl < COMINIT_DM_TABLE_SIZE_MAX →
  wp upd_none (λ _, healthy_keys (keyring_env keys kid) part)
    (cominitParseMetadata (Some m) (Some (integrity_text fs readonly blocks blksize num os ctbl)) after)
    (λ o _, ∃ m', o = Done (0%Z, Some m') ∧
       dm_meta m' (lit "integrity") fs tbl readonly (u64 (blocks * blksize))) tt.
Proof.
  intros Hwf Hfs Hw Hb Hs Hn Hne Hv Hopts tbl Hfit. unfold integrity_text.
  pose proof (print_opts_fields _ Hv) as Hfl.
  assert (Forall field (dec blocks :: dec blksize :: dec num :: map print_opt os)) as Hall.
  { repeat (apply Forall_cons; split); auto using field_dec_num. }
  rewrite (Parse_text m [] fs (mode_text readonly) (lit "integrity") COMINIT_CRYPTOPT_INTEGRITY);
    [|by apply field_lit_dec|done|by destruct readonly; [left|right]|done|split; [by apply spaced_noff|by apply spaced_nonul]].
  set (mf := with_fields m fs _ _).
  assert (ro mf = readonly) as Hro by by destruct readonly.
  rewrite Parse_tables_integrity by done.
  eapply wp_call; [eapply (wp_env upd_none); [intros ? ?; apply healthy_keys_ring|
    by apply (wp_GenIntegrity upd_none keys kid mf blocks blksize num os)|intros o s' Ho; exact Ho]| |by intros ? ? (?&?&?&_)].
  intros [r m1] [] (r' & m' & E & Hc & _ & Hf & Hr & Ht). apply Done_inj, pair_eq in E as [-> ->].
  rewrite Hopts in Ht. cbn [option_map] in Ht. rewrite bool_decide_true in Ht by exact Hfit. destruct Ht as (-> & Ht & Hbytes).
  rewrite bool_decide_false by done. exists m'. split; [done|].
  split; [unfold dmTarget; by rewrite Hc|congruence| |done|done|done|done].
  rewrite Hf. cbn. apply (strncpy_cstr COMINIT_FSTYPE_STR_MAX_LEN); [by vm_compute; lia| |by apply Hfs].
  by destruct (wf_fsType _ Hwf).
Qed.
End Integrity.

Section Theorems.
Context `{Libc} `{MbedTLS} `{TpmParams} `{DmParams} `{Build}.

(** C6: From the signed bytes and the keyring to the kernel: on a healthy machine whose metadata region
    holds the printed form of a dm-integrity rootfs, read-only or writable, main ends in /sbin/init and
    its calls contain, in a row, exactly the device mapper setup with the table in which every key
    description is replaced by the key of the user keyring in hexadecimal, and the mount of the mapped
    device, both with the mode of the text. *)
Theorem integrity_text_reaches_kernel o keys kid argv a size fs readonly blocks blksize num os ctbl sig opts
    (text := integrity_text fs readonly blocks blksize num os ctbl) (dev := cstr (devNodeRootFs a))
    (tbl := integrity_table dev num blksize opts)
    (Ho : HealthyMachine o size (text ++ x00 :: sig)) (Hring : KeyringContract o keys kid)
    (Hlen : length (text ++ x00 :: sig) = COMINIT_PART_META_DATA_SIZE) (Htext : nonul text)
    (Hsig : COMINIT_PART_META_SIG_LENGTH < length sig)
    (Hsize : (Z.of_nat COMINIT_PART_META_DATA_SIZE <= size < 2 ^ 63)%Z)
    (Hargv : Forall nonul argv) (Hargs : parseArgs argv initArgs = Ret (Options a))
    (Hroot : isSet (devNodeRootFs a) = true) (Htpm : no_tpm a)
    (Hfs : field fs) (Hmode : readonly = true ∨ take 31 fs ≠ lit "squashfs")
    (Hblocks : (0 <= blocks < 2 ^ 64)%Z) (Hblksize : (0 <= blksize < 2 ^ 64)%Z) (Hnum : (0 <= num < 2 ^ 64)%Z)
    (Hne : os ≠ []) (Hos : Forall valid_opt os) (Hopts : expand_opts keys os = Some opts)
    (Htbl : length tbl < COMINIT_DM_TABLE_SIZE_MAX) :
  let '(out, t) := run o [] (main argv) in
  out = Ended (Execed INIT) ∧ ∃ ta tb fd devId rm,
    t = ta ++ dm_kernel_calls (lit "integrity") fs tbl readonly (u64 (blocks * blksize)) fd devId rm ++ tb.
Proof.
  destruct (parseArgs_wf argv initArgs Hargv initArgs_wf) as (r & Hr & Hwf).
  rewrite Hargs in Hr. injection Hr as <-. specialize (Hwf a eq_refl).
  set (m := set_devicePath zero_meta (devNodeRootFs a)).
  assert (meta_wf m) as Hm. { pose proof zero_meta_wf as []. split; try done. by destruct Hwf. }
  destruct Hring as [Hans Hkeys]. set (part := Some (size, text ++ x00 :: sig)).
  pose proof (wp_run upd_trace (λ _, healthy_keys (keyring_env keys kid) part) (main argv)
    (λ o t, o = Ended (Execed INIT) ∧ ∃ ta tb fd devId rm,
       t = ta ++ dm_kernel_calls (lit "integrity") fs tbl readonly (u64 (blocks * blksize)) fd devId rm ++ tb) [] o) as Hw.
  assert (∀ h c, healthy_keys (keyring_env keys kid) part (Event c (o h c))) as Hboth.
  { intros h c. pose proof (healthy_answers h c) as Hh. specialize (Hans h c). by destruct c. }
  specialize (Hw (λ h c, Hboth h c) []). cbn [app foldl] in Hw. rewrite foldl_upd_trace in Hw.
  destruct (run o [] (main argv)) as [out t]. apply Hw. eapply (boots_until_mount_keys _ _ upd_trace _ (keyring_env keys kid)); try done.
  - by apply (parse_integrity_text keys kid Hkeys part m).
  - intros m' d t' Hm' Hd. eapply wp_env; [|by apply (dm_mainMount Hm' part a d t')|done].
    intros ? ?. apply healthy_keys_healthy.
Qed.
End Theorems.
