(* ===== verification/CominitScan.v ===== *)
(** * CominitScan: a boot that finds its rootfs

    Without the option root= the rootfs is searched on the disks of the machine.
    Here the search of AutomountScan.v, the load of the metadata and the mount of
    CominitVerity.v are put together: the partition tables and the partition decide
    what is mounted. *)
From S2P Require Import Prelude CString Sys Output Common Crypto Keyring Meta MetaProofs MetaSpec.
From S2P Require Import Dmctl Minsetup MinsetupProofs Automount AutomountProofs AutomountScan Subprocess Securememory.
From S2P Require Import Tpm Cominit CominitArgs BootSpec CominitProofs CominitBoot CominitDm CominitVerity.

(** ** The machine *)

(** A read that follows a seek on the descriptor of a disk gives the bytes
    there. *)
Definition seek_env (devs : path → option disk) (t : trace) (e : event) : Prop :=
  let '(Event c r) := e in
  match c return reply c → Prop with
  | Read fd n => λ r, ∀ t0 off p dk, t = t0 ++ [Event (Lseek fd off) (Ok tt)] → devs p = Some dk → fd = dk_fd dk →
      (0 <= off)%Z → r = Ok (take n (drop (Z.to_nat off) (dk_img dk)))
  | _ => λ _, True
  end r.
(** A healthy machine whose block devices are [devs]. *)
Definition disk_machine (names : list (list byte)) (devs : path → option disk) (t : trace) (e : event) : Prop :=
  scan_env names devs e ∧ healthy None e ∧ seek_env devs t e.
Class DiskMachine (o : oracle) (names : list (list byte)) (devs : path → option disk) : Prop := {
  disk_machine_answers : ∀ h c, disk_machine names devs h (Event c (o h c))
}.

(** ** The node array *)

(** The array for the node stays a terminated string. *)
Lemma node_OnDisk_loop n i d fd sz g pn k b :
  0 < k → char_array k pn →
  yields (FindPartitionOnDisk_loop n i d fd sz g pn k b)
    (λ o, match o with Done (_, pn', _) => char_array k pn' | Ended _ => True end).
Proof.
  intros Hk Hpn. revert i b. induction n as [|n IH]; intros i b; cbn [FindPartitionOnDisk_loop]; [done|]. cbv zeta.
  case_bool_decide; [done|]. apply wp_sys. intros [bytes|?] _; [|done]. case_bool_decide; [done|].
  case_match; [apply IH|]. case_match; [|apply IH]. unfold cominitAutomountBuildPartitionNode.
  cbn [wp]. destruct Hpn as [Hl _]. split; [rewrite snprintf_length; lia|by apply snprintf_terminated].
Qed.
Local Abbreviation node_result k := (λ o, match o with Done (_, _, Some pn') => char_array k pn' | _ => True end).
Lemma node_OnDisk d g pn k :
  0 < k → char_array k pn →
  yields (cominitAutomountFindPartitionOnDisk (Some d) (Some g) (Some pn) k)
    (λ o, match o with Done (_, Some pn') => char_array k pn' | _ => True end).
Proof.
  intros Hk Hpn. unfold cominitAutomountFindPartitionOnDisk, yields. case_match; [done|]. case_match; [done|].
  apply wp_sys. intros [fd|?] _; [|done].
  eapply (wp_call _ _ _ _ (λ o _, match o with Done (_, pn') => char_array k pn' | Ended _ => True end)); [| |done].
  - apply wp_skip; [|done]. intros [r sz] []. destruct (bool_decide (r = -1)%Z); [done|]. cbv zeta.
    match goal with |- wp _ _ (if ?b then _ else _) _ _ => destruct b end; [done|]. apply wp_sys. intros ok _. destruct (negb ok); [done|].
    eapply wp_call; [by apply node_OnDisk_loop| |done]. intros [[r' pn'] b] [] Hn. by apply wp_sys_; intros ? _.
  - intros [r pn'] [] Hn. by apply wp_sys_; intros ? _.
Qed.
Lemma node_loop ns dev res d g pn k :
  0 < k → char_array k pn →
  yields (FindPartition_loop ns dev res d g pn k)
    (λ o, match o with Done (_, _, pn') => char_array k pn' | Ended _ => True end).
Proof.
  intros Hk. revert dev res pn. induction ns as [|nm ns IH]; intros dev res pn Hpn; [done|].
  cbn [FindPartition_loop]. cbv zeta. case_bool_decide; [by apply IH|]. case_match; [by apply IH|].
  apply wp_sys. intros [st|?] _; [|by apply IH]. do 2 (case_bool_decide; [by apply IH|]).
  apply wp_skip; [|done]. intros [r d'] []. case_bool_decide; [|by apply IH].
  eapply wp_call; [by apply node_OnDisk| |done]. intros [r' pn'] [] Hn.
  assert (char_array k (default pn pn')) by by destruct pn'. case_bool_decide; [done|by apply IH].
Qed.
Lemma node_FindPartition d g pn k :
  0 < k → char_array k pn → yields (cominitAutomountFindPartition (Some d) (Some g) (Some pn) k) (node_result k).
Proof.
  intros Hk Hpn. unfold cominitAutomountFindPartition, yields. case_bool_decide; [done|].
  apply wp_sys. intros [names|?] _; [|done].
  eapply wp_call; [by apply node_loop| |done]. intros [[r d'] pn'] [] Hn. by apply wp_sys_; intros ? _.
Qed.

(** ** From the disks to the metadata *)

Section ScanBoot.
Context `{Libc} `{MbedTLS} `{TpmParams} `{DmParams} `{Build}.
Context (names : list (list byte)) (devs : path → option disk).
Hypothesis Hnames : Forall devName names.
Hypothesis Hdisks : ∀ p dk, devs p = Some dk → soundDisk dk.
Local Abbreviation on_disks p Q := (wp upd_trace (disk_machine names devs) p Q).

Lemma disks_healthy {A} (p : prog A) P t :
  wp upd_none (λ _, healthy None) p (λ o _, P o) tt → on_disks p (λ o _, P o) t.
Proof. intros Hp. eapply wp_transfer; [|exact Hp]. by intros t' e (_ & ? & _). Qed.

Section Found.
Context (p : path) (dk part : disk) (i : nat) (pre region : list byte).
Hypothesis Hscan : scanDisks devs COMINIT_ROOTFS_GUID_TYPE names = Some (p, dk, i).
Local Abbreviation node := (partitionNode p (Z.of_nat i + 1)).
Hypothesis Hpart : devs node = Some part.
Hypothesis Himg : dk_img part = pre ++ region.

(** The path of the found partition is stored in the metadata. *)
Definition located (m : cominitRfsMetaData_t) (o : outcome (bool * cominitRfsMetaData_t * cominitGPTDisk_t)) : Prop :=
  ∃ pn d, o = Done (true, set_devicePath m pn, d) ∧ cstr pn = node ∧ char_array COMINIT_ROOTFS_DEV_PATH_MAX pn ∧
    terminated (diskName d) = true.
Lemma scan_discover n a m d t :
  isSet (devNodeRootFs a) = false → char_array COMINIT_ROOTFS_DEV_PATH_MAX (devicePath m) → terminated (diskName d) = true →
  on_disks (discoverLoop n a m d) (λ o _, located m o) t.
Proof.
  intros Ha Hm Hd. destruct n; cbn [discoverLoop]; unfold cominitDiscoverRootfs; rewrite Ha.
  all: apply wp_bind; eapply wp_call; [apply wp_and; [eapply wp_transfer; [|apply (wp_scan names devs); [done|done|lia]]; by intros t' e [? _]
    |apply wp_and; [apply wp_yields, node_FindPartition; [by vm_compute; lia|exact Hm]
    |apply disks_healthy, wp_FindPartition; [apply healthy_short|exact Hd]]]| |by intros e ? [(? & ? & ? & ? & _) _]].
  all: intros x t1 [(r & d' & pn' & E & Hr) [Hn Hd']]; apply Done_inj in E as ->; cbn in Hn, Hd'.
  all: unfold scanReport in Hr; rewrite Hscan in Hr; destruct Hr as (-> & _ & _ & _ & Hpn).
  all: cbn [wp default]; unfold id; rewrite bool_decide_true by done; exists pn', d'; destruct Hd' as (? & [= <-] & ?); by split_and!.
Qed.

(** The end of the partition is read. *)
Lemma scan_Readall buf t :
  0 < length region → length buf = length region →
  on_disks (cominitBinReadall (length region) (Some buf) (dk_fd part) (Z.of_nat (length pre)) (length region))
    (λ o _, o = Done (0%Z, Some region)) t.
Proof.
  intros Hr Hb. unfold cominitBinReadall. rewrite bool_decide_false by lia.
  apply wp_sys. intros r (_ & Hl & _). cbn in Hl. subst r. apply wp_bind.
  destruct (length region) as [|n] eqn:E; [lia|]. cbn [cominitBinReadall_loop]. rewrite bool_decide_false by done.
  apply wp_sys. intros r (_ & _ & Hread). cbn in Hread.
  assert (take (S n) (drop (length pre) (dk_img part)) = region) as Etake.
  { rewrite Himg, drop_app_length. by apply take_ge; rewrite E. }
  rewrite (Hread t (Z.of_nat (length pre)) node part eq_refl Hpart eq_refl ltac:(lia)), Nat2Z.id, Etake.
  rewrite bool_decide_false by lia. replace (S n - length region) with 0 by lia.
  destruct n; cbn [cominitBinReadall_loop]; rewrite bool_decide_true by done; cbn [wp];
    unfold overwrite; rewrite drop_ge, app_nil_r by lia; done.
Qed.
Lemma scan_LoadVerify m m' text sig t :
  cstr (devicePath m) = node → region = text ++ x00 :: sig → length region = COMINIT_PART_META_DATA_SIZE → nonul text →
  COMINIT_PART_META_SIG_LENGTH < length sig → (Z.of_nat (length (dk_img part)) < 2 ^ 63)%Z →
  cominitParseMetadata (Some m) (Some text) sig = Ret (0%Z, Some m') →
  on_disks (cominitLoadVerifyMetadata COMINIT_PART_META_DATA_SIZE m COMINIT_ROOTFS_KEY_LOCATION)
    (λ o _, o = Done (0%Z, m')) t.
Proof.
  intros Hdev Hreg Hlen Htext Hsig Hsize Hparse. unfold cominitLoadVerifyMetadata, cominitCommonGetPartSize.
  rewrite Hdev. apply wp_sys. intros r (Hr & _ & _). cbn in Hr. rewrite (Hr _ Hpart). clear r Hr.
  apply wp_bind, wp_sys. intros r (Hr & _ & _). cbn in Hr. rewrite (Hr _ _ Hpart eq_refl). clear r Hr. cbn [wp default].
  unfold id. rewrite bool_decide_false by done. cbv zeta.
  assert (0 < COMINIT_PART_META_DATA_SIZE) as Hpos by (unfold COMINIT_PART_META_DATA_SIZE; lia).
  assert (Z.of_nat (length (dk_img part)) - Z.of_nat COMINIT_PART_META_DATA_SIZE = Z.of_nat (length pre))%Z as Eoff.
  { rewrite Himg, length_app, Hlen. lia. }
  assert (Z.of_nat (length pre) < 2 ^ 63)%Z as Hpre by lia.
  rewrite Eoff, u64_small, i64_u64, decide_True by lia. rewrite <-Hlen in *. set (n := length region) in *.
  eapply wp_call; [apply scan_Readall; [done|by rewrite length_replicate]| |by intros ? ? ?].
  intros [r b] t1 E. apply Done_inj, pair_eq in E as [-> ->]. rewrite bool_decide_false by done.
  apply wp_sys_. intros ? _. cbn [default]. unfold id, strnlen. rewrite (take_ge region) by done.
  assert (cstr region = text) as Ecstr by (rewrite Hreg; by apply cstr_app).
  assert (n = length text + 1 + length sig) as En by (unfold n; rewrite Hreg, length_app; simpl; lia).
  rewrite Ecstr, bool_decide_false by lia.
  assert (drop (length text + 1) region = sig) as ->.
  { rewrite Hreg, cons_middle, app_assoc. apply drop_app_length'. rewrite length_app. done. }
  eapply wp_call; [apply disks_healthy, boots_VerifySignature| |by intros ? ? ?]. intros r' t2 [= ->].
  rewrite bool_decide_false, Hparse by done. done.
Qed.

(** The whole way to the mount. *)
Lemma scan_until_mount argv a text sig Q t :
  region = text ++ x00 :: sig → length region = COMINIT_PART_META_DATA_SIZE → nonul text →
  COMINIT_PART_META_SIG_LENGTH < length sig → (Z.of_nat (length (dk_img part)) < 2 ^ 63)%Z →
  parseArgs argv initArgs = Ret (Options a) → isSet (devNodeRootFs a) = false →
  (∀ m, meta_wf m → cstr (devicePath m) = node → ∃ m', cominitParseMetadata (Some m) (Some text) sig = Ret (0%Z, Some m') ∧
     ∀ d t', terminated (diskName d) = true → on_disks (mainMount a m' d) Q t') →
  on_disks (main argv) Q t.
Proof.
  intros Hreg Hlen Htext Hsig Hsize Hargs Hroot Hmount. unfold main. rewrite Hargs, bind_ret.
  do 2 (apply wp_sys_; intros ? _).
  eapply wp_call; [apply disks_healthy, boots_Sysfiles| |by intros ? ? ?]. intros r1 t1 [= ->].
  rewrite bool_decide_false by done. pose proof total_FakeHsm.
  apply wp_total; [destruct COMINIT_FAKE_HSM as [[descs dir]|]; total_auto|intros ? t2].
  eapply wp_call; [apply scan_discover; [done|by vm_compute|by vm_compute]| |by intros ? ? (? & ? & ? & _)].
  intros x t3 (pn & d & E & Hpn & Harr & Hd). apply Done_inj in E as ->. cbn [negb].
  destruct (Hmount (set_devicePath zero_meta pn)) as (m' & Hparse & Hrest).
  { pose proof zero_meta_wf as []. by split. } { done. }
  eapply wp_call; [eapply scan_LoadVerify; try done; exact Hparse| |by intros ? ? ?].
  intros [r2 m2] t4 E. apply Done_inj, pair_eq in E as [-> ->]. rewrite bool_decide_false by done. by apply Hrest.
Qed.
End Found.
End ScanBoot.

Section Theorems.
Context `{Libc} `{MbedTLS} `{TpmParams} `{DmParams} `{Build}.

(** C5: From the disks to the kernel without the option root=: on a machine with any number of disks, if
    the first partition of the rootfs type in the order of /dev ends in the signed printed form of a dm-
    verity rootfs, main reads exactly that region, ends in /sbin/init and makes, in a row, exactly the
    device mapper and mount calls of that text, with the node of the found partition in the table. *)
Theorem found_verity_rootfs_reaches_kernel o argv a names devs p dk i part pre fs ver dbs hbs nb hstart alg extra ctbl sig
    (tail := dec dbs :: hbs :: dec nb :: hstart :: alg :: extra)
    (text := verity_text fs ver tail ctbl) (node := partitionNode p (Z.of_nat i + 1))
    (Ho : DiskMachine o names devs) (Hnames : Forall devName names)
    (Hdisks : ∀ p dk, devs p = Some dk → soundDisk dk)
    (Hscan : scanDisks devs COMINIT_ROOTFS_GUID_TYPE names = Some (p, dk, i))
    (Hpart : devs node = Some part) (Himg : dk_img part = pre ++ text ++ x00 :: sig)
    (Hlen : length (text ++ x00 :: sig) = COMINIT_PART_META_DATA_SIZE) (Htext : nonul text)
    (Hsig : COMINIT_PART_META_SIG_LENGTH < length sig)
    (Hargs : parseArgs argv initArgs = Ret (Options a))
    (Hroot : isSet (devNodeRootFs a) = false) (Htpm : no_tpm a)
    (Hfs : field fs) (Hver : field ver) (Hdbs : (0 <= dbs < 2 ^ 64)%Z) (Hnb : (0 <= nb < 2 ^ 64)%Z)
    (Hhbs : field hbs) (Hhs : field hstart) (Halg : field alg) (Hextra : Forall field extra)
    (Htbl : length (verity_table node ver tail) < COMINIT_DM_TABLE_SIZE_MAX) :
  let '(out, t) := run o [] (main argv) in
  out = Ended (Execed INIT) ∧ ∃ ta tb fd devId rm,
    t = ta ++ verity_kernel_calls node fs ver tail (u64 (dbs * nb)) fd devId rm ++ tb.
Proof.
  assert (Z.of_nat (length (dk_img part)) < 2 ^ 63)%Z as Hsize by (by destruct (Hdisks _ _ Hpart) as (_ & ? & _)).
  pose proof (wp_run upd_trace (disk_machine names devs) (main argv)
    (λ o t, o = Ended (Execed INIT) ∧ ∃ ta tb fd devId rm,
       t = ta ++ verity_kernel_calls node fs ver tail (u64 (dbs * nb)) fd devId rm ++ tb) [] o) as Hw.
  destruct (run o [] (main argv)) as [out t] eqn:Er.
  specialize (Hw (λ h c, eq_ind_r (λ h', disk_machine names devs h' _) (disk_machine_answers h c) (foldl_upd_trace [] h)) []).
  cbn [app foldl] in Hw. rewrite foldl_upd_trace, Er in Hw. apply Hw.
  eapply (scan_until_mount names devs Hnames Hdisks p dk part i pre (text ++ x00 :: sig)); try done.
  intros m Hm Hdev.
  destruct (parse_verity_text m fs ver dbs hbs nb hstart alg extra ctbl sig) as (m' & Hparse & Hvm); try done; [by rewrite Hdev|].
  exists m'. split; [exact Hparse|]. intros d t' Hd.
  eapply wp_env; [|by apply (dm_mainMount Hvm None a d t')|].
  - by intros s' e (_ & ? & _).
  - rewrite Hdev. done.
Qed.
End Theorems.
