(* ===== verification/Examples.v ===== *)
(** * Examples: the theorems at concrete inputs

    One lemma per theorem with hypotheses, which applies it to a small concrete
    case, so that its hypotheses are seen to hold together. *)
From stdpp Require Import gmap.
From S2P Require Import Prelude CString Sys Output Common Crypto Keyring Meta MetaProofs MetaSpec.
From S2P Require Import Dmctl Automount AutomountProofs AutomountScan Subprocess Securememory Tpm TpmPcr Cominit.
From S2P Require Import Footprint TpmProofs Keystore TpmBoot CominitArgs BootSpec CominitProofs CominitRefine.
From S2P Require Import CominitMisc CominitBoot CominitTpm CominitClean CominitDm CominitVerity CominitIntegrity CominitScan.

(** ** A concrete platform *)

#[local] Instance glibc : Libc := {| strtoul_noconv_errno := false |}.
#[local] Instance mbedtls3 : MbedTLS := {| MBEDTLS_VERSION_MAJOR := 3 |}.
#[local] Instance tss : TpmParams := {|
  TPM2_PT_PCR_COUNT := 274; TPM2_PCR_SELECT_MAX := 4; ESYS_TR_NONE := 4095; ESYS_TR_PCR0 := 0; TPM2_PERSISTENT_FIRST := 0x81000000;
  sizeof_TPM2B_PUBLIC := 616; sizeof_TPM2B_PRIVATE := 1428; sizeof_TPM2B_SENSITIVE_CREATE := 400;
  sizeof_TPM2B_SENSITIVE_DATA := 258 |}.
#[local] Instance build0 : Build := {|
  INITRD_SELINUX_POLICY_PATH := lit "/etc/selinux/policy"; ROOTFS_SELINUX_POLICY_PATH := lit "/newroot/policy";
  COMINIT_FAKE_HSM := None;
  COMINIT_VERSION_MAJOR := lit "0"; COMINIT_VERSION_MINOR := lit "12"; COMINIT_VERSION_MICRO := lit "2";
  COMINIT_VERSION_GIT := [] |}.

(** Every call succeeds; reading a key fails. *)
Definition quiet : oracle := λ _ c,
  match c return reply c with KeyctlRead _ _ => Err ENOENT | c => default_reply c end.

(** Metadata that names a device and nothing else. *)
Definition meta0 (c : Z) : cominitRfsMetaData_t :=
  set_crypt (set_devicePath zero_meta (overwrite (devicePath zero_meta) (lit "/dev/sda2"))) c.
Lemma meta0_wf : meta_wf (meta0 0).
Proof. split; try (by vm_compute); simpl; lia. Qed.

(** ** Metadata *)

Lemma parse_plain_roundtrip_witness : ∃ m',
  cominitParseMetadata (Some (meta0 0)) (Some (meta_text (lit "1") (lit "ext4") (lit "ro") (lit "plain") [] [])) []
    = Ret (0%Z, Some m') ∧ cstr (fsType m') = lit "ext4" ∧ ro m' = true ∧ crypt m' = 0%Z.
Proof.
  destruct (parse_plain_roundtrip (meta0 0) (lit "ext4") (lit "ro") (lit "plain") 0 [] [] [] meta0_wf)
    as (m' & E & Hfs & Hro & Hc & _); try (by left); try done; try (by apply (bool_decide_unpack _)).
  exists m'. split_and!; [exact E|exact Hfs|by apply Hro|exact Hc].
Defined.

Lemma parse_ignores_version_suffix_witness :
  cominitParseMetadata (Some (meta0 0)) (Some (meta_text (lit "10") (lit "ext4") (lit "ro") (lit "plain") [] [])) [] =
  cominitParseMetadata (Some (meta0 0)) (Some (meta_text (lit "1") (lit "ext4") (lit "ro") (lit "plain") [] [])) [].
Proof.
  apply (parse_ignores_version_suffix (meta0 0) (lit "0") (lit "ext4") (lit "ro") (lit "plain") 0 [] [] []);
    try (by left); try done; by apply (bool_decide_unpack _).
Defined.

Lemma quiet_fits h c : key_fits (Event c (quiet h c)).
Proof. by destruct c. Qed.
Lemma parse_preserves_wf_witness :
  ∃ r m', (run quiet [] (cominitParseMetadata (Some (meta0 0)) (Some (lit "1 ext4")) [x00])).1 = Done (r, Some m') ∧
    (r = 0%Z ∨ r = (-1)%Z) ∧ meta_wf m' ∧ devicePath m' = devicePath (meta0 0).
Proof.
  exact (parse_preserves_wf quiet (meta0 0) (lit "1 ext4") [x00] meta0_wf quiet_fits
    ltac:(by apply (bool_decide_unpack _))).
Defined.

Lemma verity_table_generated_witness : ∃ m',
  cominitGenVerityDmTbl (Some (meta0 1)) (Some (lit "1 4096 4096 256 1 sha256 cafe beef")) = Ret (0%Z, Some m') ∧
  cstr (dmTableVerint m') = lit "1 /dev/sda2 /dev/sda2 4096 4096 256 1 sha256 cafe beef" ∧
  dmVerintDataSizeBytes m' = 1048576%Z.
Proof.
  destruct (verity_table_generated (meta0 1) (lit "1") 4096 (lit "4096") 256 (lit "1") (lit "sha256")
    [lit "cafe"; lit "beef"]) as (m' & E & _ & _ & Htbl); try (by apply (bool_decide_unpack _)); try done; try lia.
  exists m'. split; [exact E|]. destruct Htbl as [Ht Hs]; [by vm_compute; lia|]. by split.
Defined.

Definition keys0 (d : list byte) : option (list byte) :=
  if bool_decide (d = lit "jmac") then Some [Byte.xde; Byte.xad] else None.
Definition keyring0 : oracle := λ _ c,
  match c return reply c with
  | KeyctlSearch d => match keys0 d with Some _ => Ok 1%Z | None => Err ENOENT end
  | KeyctlRead _ n => Ok (2%Z, take (Z.to_nat n) [Byte.xde; Byte.xad])
  | c => default_reply c
  end.
Lemma keyring0_contract : KeyringContract keyring0 keys0 (λ _, 1%Z).
Proof.
  assert (∀ d k, keys0 d = Some k → k = [Byte.xde; Byte.xad]) as Hk.
  { unfold keys0. intros d k. case_bool_decide; [by intros [= <-]|done]. }
  split.
  - intros h []; try done. cbn. by intros d k _ ->%Hk.
  - intros d k ->%Hk. unfold COMINIT_KEYRING_PAYLOAD_MAX_SIZE. cbn [length]. lia.
Qed.

Lemma integrity_table_generated_witness : ∃ m',
  (run keyring0 [] (cominitGenIntegrityDmTbl (Some (meta0 2))
     (Some (lit "100 4096 2 fix_padding journal_mac:hmac(sha256)::jmac")) [])).1 = Done (0%Z, Some m') ∧
  cstr (dmTableVerint m') =
    lit "/dev/sda2 0 - J 3 block_size:4096 fix_padding journal_mac:hmac(sha256):dead " ∧
  dmVerintDataSizeBytes m' = 409600%Z.
Proof.
  destruct (integrity_table_generated keyring0 keys0 (λ _, 1%Z) (meta0 2) 100 4096 2
    [Plain (lit "fix_padding"); Keyed (lit "journal_mac:") (lit "hmac(sha256)") (lit "jmac")] [] keyring0_contract)
    as (r & m' & E & _ & _ & Ht); try done; try lia.
  - repeat (apply Forall_cons; split); [..|done]; (split; [by apply (bool_decide_unpack _)|]).
    + by vm_compute.
    + split_and!; by apply (bool_decide_unpack _).
  - exists m'.
    assert (r = 0%Z ∧ cstr (dmTableVerint m') =
      lit "/dev/sda2 0 - J 3 block_size:4096 fix_padding journal_mac:hmac(sha256):dead " ∧
      dmVerintDataSizeBytes m' = 409600%Z) as (-> & H1 & H2) by exact Ht.
    by split_and!.
Defined.

(** ** Loading *)

Lemma quiet_load h c : load_env (Event c (quiet h c)).
Proof.
  destruct c; try done. split; [cbn; by rewrite length_replicate|]. split; [done|]. intros -> _.
  apply (bool_decide_unpack _). by vm_compute.
Qed.
(** A partition whose metadata region has no NUL or colon behind the text. *)
Lemma integrity_hash_out_of_bounds_witness :
  (run quiet [] (cominitGenIntegrityDmTbl (Some (meta0 2)) (Some (lit "100 4096 1 journal_mac:"))
     (x00 :: replicate 512 Byte.x5a))).1 = Ended (Undef OutOfBounds).
Proof.
  refine (integrity_hash_out_of_bounds quiet (meta0 2) 100 4096 1 (replicate 512 Byte.x5a) eq_refl _ _ _ _); [lia..|].
  apply (bool_decide_unpack _). by vm_compute.
Defined.
Lemma load_verify_returns_witness :
  ∃ r m', (run quiet [] (cominitLoadVerifyMetadata COMINIT_PART_META_DATA_SIZE (meta0 0)
                            COMINIT_ROOTFS_KEY_LOCATION)).1 = Done (r, m').
Proof. exact (load_verify_returns quiet (meta0 0) COMINIT_ROOTFS_KEY_LOCATION quiet_load). Defined.

Definition small : oracle := λ _ c,
  match c return reply c with IoctlBlkGetSize64 _ => Ok 1000%Z | c => default_reply c end.
Lemma load_small_partition_rejected_witness :
  let '(out, t) := run small [] (cominitLoadVerifyMetadata 1 (meta0 0) COMINIT_ROOTFS_KEY_LOCATION) in
  out = Done ((-1)%Z, meta0 0) ∧
  map ev_call t = [Open (cstr (devicePath (meta0 0))) O_RDONLY; IoctlBlkGetSize64 3; Close 3].
Proof.
  apply (load_small_partition_rejected small 1 (meta0 0) COMINIT_ROOTFS_KEY_LOCATION 3 1000); [done|done|].
  unfold COMINIT_PART_META_DATA_SIZE. lia.
Defined.

Lemma readall_terminates_witness :
  ∃ r b, (run quiet [] (cominitBinReadall 4 (Some (replicate 4 x00)) 3 0 4)).1 = Done (r, b).
Proof.
  apply (readall_terminates 4 (Some (replicate 4 x00)) 3 0 4 quiet); [|lia].
  intros h c. apply quiet_load.
Defined.

Lemma readall_exact_witness :
  (run quiet [] (cominitBinReadall 1 (Some [Byte.x01; Byte.x02]) 3 0 2)).1 = Done (0%Z, Some [x00; x00]).
Proof. by apply (readall_exact 1 [Byte.x01; Byte.x02] [x00; x00] 3 0 quiet); try done; lia. Defined.

Definition at_eof : oracle := λ _ c,
  match c return reply c with Read _ _ => Ok [] | c => default_reply c end.
Lemma readall_spins_at_eof_witness :
  (run at_eof [] (cominitBinReadall 100 (Some (replicate 4 x00)) 3 0 4)).1 = Ended NoFuel.
Proof. by apply (readall_spins_at_eof 100 (replicate 4 x00) 3 0 4 at_eof); try done; lia. Defined.

Lemma readall_short_reads_overlap_witness :
  ∃ buf', exec (cominitBinReadall_loop 2 [x00; x00; x00] 3 3) (Done (0%Z, buf'))
            [Event (Read 3 3) (Ok [Byte.x01; Byte.x02]); Event (Read 3 1) (Ok [Byte.x03])] ∧
          take 1 buf' = [Byte.x03].
Proof.
  apply (readall_short_reads_overlap 2 [x00; x00; x00] [Byte.x01; Byte.x02] [Byte.x03] 3); simpl; lia.
Defined.

Lemma bytes_to_hex_roundtrip_witness : ∃ d',
  cominitBytesToHex (Some (replicate 9 x00)) (Some [Byte.xde; Byte.xad; Byte.x01]) 2 = Ret (0%Z, Some d') ∧
  length d' = 9 ∧ cstr d' = lit "dead" ∧ unhex (cstr d') = Some [Byte.xde; Byte.xad].
Proof.
  apply (bytes_to_hex_roundtrip (replicate 9 x00) [Byte.xde; Byte.xad; Byte.x01] 2); simpl; lia.
Defined.

(** ** Output *)

Lemma parse_log_level_decimal_witness :
  cominitOutputParseLogLevel COMINIT_LOG_LEVEL_INVALID (Some (lit "4294967299")) =
    (EXIT_SUCCESS, level_of_Z 3).
Proof.
  rewrite <-(eq_refl : dec 4294967299 = lit "4294967299").
  rewrite (parse_log_level_decimal COMINIT_LOG_LEVEL_INVALID 4294967299) by lia. done.
Defined.

(** ** Partitions *)

(** The on-disk form of [COMINIT_ROOTFS_GUID_TYPE]. *)
Definition rootfs_raw : list byte :=
  [Byte.x45; Byte.xb0; Byte.x21; Byte.xb9; Byte.xf0; Byte.x1d; Byte.xc3; Byte.x41;
   Byte.xaf; Byte.x44; Byte.x4c; Byte.x6f; Byte.x28; Byte.x0d; Byte.x3f; Byte.xae].
Lemma guid_match_exact_witness :
  strcasecmp_eq (cstr (cominitAutomountFormatGuid rootfs_raw (replicate 37 x00)))
    COMINIT_ROOTFS_GUID_TYPE = bool_decide (rootfs_raw = rootfs_raw).
Proof.
  apply (guid_match_exact rootfs_raw rootfs_raw (replicate 37 x00) COMINIT_ROOTFS_GUID_TYPE); by vm_compute.
Defined.

Lemma partition_node_built_witness :
  let '(r, pn') := cominitAutomountBuildPartitionNode (lit "/dev/mmcblk0") 2 (replicate 20 x00) 20 in
  r = EXIT_SUCCESS ∧ cstr pn' = lit "/dev/mmcblk0p2".
Proof.
  pose proof (partition_node_built (lit "/dev/mmcblk0") 2 3 (replicate 20 x00) 20
    ltac:(by apply (bool_decide_unpack _)) ltac:(lia) ltac:(lia) ltac:(lia)) as Hp.
  destruct (cominitAutomountBuildPartitionNode _ _ _ _) as [r pn']. destruct Hp as (Hr & Hpn & _).
  assert (r = EXIT_SUCCESS) as E by (apply Hr; vm_compute; lia). split; [done|]. by apply Hpn.
Defined.

(** A disk with one partition entry behind two blocks. *)
Definition img0 : list byte := replicate 1024 x00 ++ rootfs_raw ++ replicate 112 x00.
Definition hdr0 : list byte :=
  replicate 72 x00 ++ [Byte.x02] ++ replicate 7 x00 ++ [Byte.x01; x00; x00; x00] ++
  [Byte.x80; x00; x00; x00] ++ replicate 4 x00.
Definition disk0 : cominitGPTDisk_t := GPTDisk (overwrite (replicate 256 x00) (lit "/dev/sda")) 512 hdr0.
Definition disk_oracle : oracle := λ _ c,
  match c return reply c with
  | IoctlBlkGetSize64 _ => Ok (Z.of_nat (length img0))
  | Pread _ n off => Ok (take n (drop (Z.to_nat off) img0))
  | c => default_reply c
  end.
Lemma disk_oracle_contract : DiskContract disk_oracle (lit "/dev/sda") 3 img0.
Proof. split. by intros h []. Qed.
Lemma find_partition_first_witness : ∃ pn,
  (run disk_oracle [] (cominitAutomountFindPartitionOnDisk (Some disk0) (Some COMINIT_ROOTFS_GUID_TYPE)
     (Some (replicate 20 x00)) 20)).1 = Done (EXIT_SUCCESS, Some pn) ∧ cstr pn = lit "/dev/sda1".
Proof.
  pose proof (find_partition_first disk_oracle disk0 3 img0 COMINIT_ROOTFS_GUID_TYPE (replicate 20 x00) 20
    disk_oracle_contract) as Hf.
  rewrite Hf; clear Hf; [eexists; split; by vm_compute|by vm_compute|by vm_compute|lia| |].
  - split_and!; by vm_compute.
  - split; by vm_compute.
Defined.

(** A machine with an empty disk and one with a rootfs partition. *)
Definition hdr1 : list byte := lit "EFI PART" ++ drop 8 hdr0.
Definition img1 : list byte :=
  replicate 512 x00 ++ hdr1 ++ replicate 420 x00 ++ rootfs_raw ++ replicate 112 x00.
Definition sda : disk := Disk 3 512 (replicate 64 x00).
Definition sdb : disk := Disk 4 512 img1.
Definition devs0 (p : path) : option disk :=
  if decide (p = lit "/dev/sda") then Some sda else if decide (p = lit "/dev/sdb") then Some sdb else None.
Definition names0 : list (list byte) := [lit "."; lit "loop0"; lit "tty"; lit "sda"; lit "sdb"].
Definition fd_disk (fd : Z) : disk := if decide (fd = 3)%Z then sda else sdb.
Definition two_disks : oracle := λ _ c,
  match c return reply c with
  | Opendir _ => Ok names0
  | Lstat p => Ok (StatInfo (if devs0 p then S_IFBLK else S_IFREG) 0)
  | Open p _ => match devs0 p with Some dk => Ok (dk_fd dk) | None => Err ENOENT end
  | IoctlBlkSszGet fd => Ok (dk_block (fd_disk fd))
  | IoctlBlkGetSize64 fd => Ok (Z.of_nat (length (dk_img (fd_disk fd))))
  | Pread fd n off => Ok (take n (drop (Z.to_nat off) (dk_img (fd_disk fd))))
  | c => default_reply c
  end.
Lemma devs0_cases p dk : devs0 p = Some dk → dk = sda ∨ dk = sdb.
Proof. unfold devs0. destruct (decide _); [|destruct (decide _)]; intros [= <-]; auto. Qed.
Lemma two_disks_contract : DevContract two_disks names0 devs0.
Proof.
  constructor. intros h c. destruct c; try exact I; try reflexivity; cbn [scan_env two_disks].
  - intros dk Hdk. by rewrite Hdk.
  - intros p dk [-> | ->]%devs0_cases -> _; reflexivity.
  - intros p dk [-> | ->]%devs0_cases ->; reflexivity.
  - intros p dk [-> | ->]%devs0_cases ->; reflexivity.
  - destruct (devs0 _); [by eexists|]. by intros st [= <-].
Qed.
Lemma scan_finds_first_witness : ∃ d' pn',
  (run two_disks [] (cominitAutomountFindPartition (Some zero_disk) (Some COMINIT_ROOTFS_GUID_TYPE)
     (Some (replicate 256 x00)) 256)).1 = Done (EXIT_SUCCESS, Some d', Some pn') ∧
  cstr (diskName d') = lit "/dev/sdb" ∧ cstr pn' = lit "/dev/sdb1".
Proof.
  destruct (scan_finds_first two_disks names0 devs0 zero_disk COMINIT_ROOTFS_GUID_TYPE (replicate 256 x00) 256
    two_disks_contract) as (r & d' & pn' & E & Hs).
  - repeat (apply Forall_cons; split); try done; (split; [by apply (bool_decide_unpack _)|vm_compute; lia]).
  - intros p dk [-> | ->]%devs0_cases; (split_and!; [by vm_compute|by vm_compute|]).
    + intros h Hh. assert (gptHeader sda = None) as E1 by by vm_compute. congruence.
    + intros h Hh. assert (gptHeader sdb = Some hdr1) as E1 by by vm_compute.
      assert (h = hdr1) as -> by congruence. split; split_and!; by vm_compute.
  - vm_compute. lia.
  - assert (scanDisks devs0 COMINIT_ROOTFS_GUID_TYPE names0 = Some (lit "/dev/sdb", sdb, 0)) as E1 by by vm_compute.
    rewrite E1 in Hs. destruct Hs as (-> & H1 & _ & _ & H2). exists d', pn'. split; [exact E|]. split; [exact H1|].
    rewrite H2. by vm_compute.
Defined.

(** ** Key material *)

Lemma luks_key_zeroed_witness :
  existsb frees_secret (run quiet [] (cominitSecurememoryCreateLuksVolume (Some (lit "/dev/sda3")))).2 = false.
Proof. apply (luks_key_zeroed quiet). by intros h []. Defined.

Definition no_key : oracle := λ _ c,
  match c return reply c with KeyctlSearch _ => Err ENOENT | c => default_reply c end.
Lemma luks_missing_key_out_of_bounds_witness :
  (run no_key [] (cominitSecurememoryCreateLuksVolume (Some (lit "/dev/sda3")))).1 = Ended (Undef OutOfBounds).
Proof. by apply (luks_missing_key_out_of_bounds no_key (lit "/dev/sda3") 4 5 100%Z). Defined.

(** ** Options *)

Definition args0 : cominitCliArgs_t := initArgs.
Lemma parse_pcr_index_decimal_witness :
  cominitTpmParsePcrIndex (Some args0) (Some (lit "10")) = (EXIT_SUCCESS, Some (set_pcr args0 true 10)).
Proof. exact (parse_pcr_index_decimal args0 10 ltac:(lia)). Defined.

Lemma parse_pcr_list_roundtrip_witness : ∃ a',
  cominitTpmParsePcrIndexes (Some args0) (Some (lit "0,7,23")) = Ret (EXIT_SUCCESS, Some a') ∧
  sealed a' = [0; 7; 23]%Z.
Proof.
  apply (parse_pcr_list_roundtrip args0 Byte.x2c [0; 7; 23]%Z).
  - done.
  - repeat constructor; simpl; lia.
  - cbn [args0 initArgs pcrSeal]. rewrite length_replicate. simpl. lia.
Defined.

Definition args_seal (l : list Z) : cominitCliArgs_t := set_pcrSeal args0 (Z.of_nat (length l)) l.
Lemma select_pcr_exact_witness :
  ∃ sel, cominitTpmSelectPcr (args_seal [0; 23]%Z) zero_selection = Ret (PcrSelection TPM2_ALG_SHA256 3 sel) ∧
    length sel = TPM2_PCR_SELECT_MAX ∧ ∀ k, (0 <= k)%Z → pcrBit sel k = bool_decide (k ∈ sealed (args_seal [0; 23]%Z)).
Proof.
  apply (select_pcr_exact (args_seal [0; 23]%Z)); [simpl; lia|]. repeat constructor; simpl; lia.
Defined.
Lemma select_pcr_out_of_bounds_witness :
  cominitTpmSelectPcr (args_seal [7; 200]%Z) zero_selection = Stop (Undef OutOfBounds).
Proof.
  apply (select_pcr_out_of_bounds (args_seal [7; 200]%Z) 200).
  - simpl. lia.
  - repeat constructor; simpl; lia.
  - by apply (bool_decide_unpack _).
  - simpl. lia.
Defined.

Lemma parse_arg_value_exact_witness :
  cominitParseArgValue (lit "cominit.rootfs=/dev/sda2") (lit "root") (lit "cominit.rootfs") = Some (lit "/dev/sda2") ↔
    assigns (lit "root") (lit "/dev/sda2") (lit "cominit.rootfs=/dev/sda2") ∨
    ((∀ v', ¬ assigns (lit "root") v' (lit "cominit.rootfs=/dev/sda2")) ∧
     assigns (lit "cominit.rootfs") (lit "/dev/sda2") (lit "cominit.rootfs=/dev/sda2")).
Proof. apply parse_arg_value_exact; by apply (bool_decide_unpack _). Defined.

Lemma parse_device_node_exact_witness : ∃ a,
  cominitParseDeviceNode (Some (replicate 256 x00)) (Some (lit "/dev/sda2")) = (EXIT_SUCCESS, Some a) ∧
  cstr a = lit "/dev/sda2".
Proof.
  pose proof (parse_device_node_exact (replicate 256 x00) (lit "/dev/sda2")
    ltac:(by apply (bool_decide_unpack _)) ltac:(by apply (bool_decide_unpack _))) as Hp.
  destruct (cominitParseDeviceNode _ _) as [r d'].
  destruct Hp as [(-> & _ & _ & a & -> & Ha & _)|(_ & _ & [Hno|Hlong])]; [by exists a| |].
  - destruct Hno. by exists (lit "sda2").
  - exfalso. unfold COMINIT_ROOTFS_DEV_PATH_MAX in Hlong. simpl length in Hlong. lia.
Defined.

Lemma parse_args_total_wf_witness :
  ∃ r, parseArgs [lit "/init"; lit "root=/dev/sda2"; lit "pcrSeal=0,7"] initArgs = Ret r ∧
       (∀ a, r = Options a → args_wf a).
Proof.
  apply (parse_args_total_wf [lit "/init"; lit "root=/dev/sda2"; lit "pcrSeal=0,7"]).
  repeat (apply Forall_cons; split); try done; by apply (bool_decide_unpack _).
Defined.

Lemma micro_sleep_target_witness :
  let '(out, t) := run quiet [] (cominitMicroSleep 500000) in
  out = Done 0%Z ∧
  ∃ sec' nsec', map ev_call t = [ClockGettime; ClockNanosleep sec' nsec'] ∧ (0 <= nsec' < 10 ^ 9)%Z ∧
    (sec' * 10 ^ 9 + nsec' = 0 * 10 ^ 9 + 0 + 500000 * 1000)%Z.
Proof. apply (micro_sleep_target quiet 500000 0 0); [lia|lia|done]. Defined.

(** ** A boot *)

#[local] Instance dm : DmParams := {|
  DM_VERSION_MAJOR := 4; DM_VERSION_MINOR := 48; DM_VERSION_PATCHLEVEL := 0; DM_READONLY_FLAG := 1;
  sizeof_dm_ioctl := 312; offsetof_tSpec := 312; offsetof_dmTbl := 352; DM_MAX_TYPE_NAME := 16 |}.

(** A machine with a dm-verity rootfs on /dev/sda2. *)
Definition boot_argv : list (list byte) := [lit "/init"; lit "root=/dev/sda2"; lit "quiet"].
Definition boot_text : list byte :=
  lit "1 squashfs ro verity" ++ Byte.xff :: lit "1 4096 4096 100 101 sha256 00ff aa" ++ [Byte.xff].
(** The signature, padded with zeros to the end of the region. *)
Definition sig_for (text : list byte) : list byte :=
  replicate 512 Byte.x5a ++ replicate (Z.to_nat (3583 - Z.of_nat (length text))) x00.
Definition boot_sig : list byte := sig_for boot_text.
Definition boot_args : cominitCliArgs_t :=
  match parseArgs boot_argv initArgs with Ret (Options a) => a | _ => initArgs end.
Definition boot_meta : cominitRfsMetaData_t :=
  match cominitParseMetadata (Some (set_devicePath zero_meta (devNodeRootFs boot_args))) (Some boot_text) boot_sig with
  | Ret (_, Some m) => m | _ => zero_meta end.
Definition machine : oracle := λ _ c,
  match c return reply c with Read _ _ => Ok (boot_text ++ x00 :: boot_sig) | c => default_reply c end.
Lemma machine_healthy : HealthyMachine machine 1048576 (boot_text ++ x00 :: boot_sig).
Proof. constructor. intros h []; cbn; eauto. Qed.
Lemma healthy_machine_boots_witness : (run machine [] (main boot_argv)).1 = Ended (Execed INIT).
Proof.
  apply (healthy_machine_boots machine boot_argv boot_args boot_meta 1048576 boot_text boot_sig).
  - exact machine_healthy.
  - by vm_compute.
  - by apply (bool_decide_unpack _).
  - apply (bool_decide_unpack _). by vm_compute.
  - by vm_compute.
  - by vm_compute.
  - by vm_compute.
  - by split; vm_compute.
  - by vm_compute.
  - split; [right|left]; by vm_compute.
Defined.

Lemma boot_always_ends_witness : boot_result (run quiet [] (main boot_argv)).1.
Proof.
  apply (boot_always_ends quiet boot_argv).
  - intros h c. split; [apply quiet_load|]. destruct c; try exact I. constructor.
  - repeat (apply Forall_cons; split); try done; by apply (bool_decide_unpack _).
  - intros a E. assert (parseArgs boot_argv initArgs = Ret (Options boot_args)) as E' by by vm_compute.
    rewrite E' in E. injection E as <-. by split; vm_compute.
Defined.

(** ** Secure storage *)

(** A first boot: there is no blob yet. *)
Definition first_boot : oracle := λ _ c,
  match c return reply c with Access _ => Err ENOENT | c => default_reply c end.
Definition tpm_args : cominitCliArgs_t :=
  set_devNodeBlob (args_seal [0; 7]%Z) (overwrite (devNodeBlob initArgs) (lit "/dev/sda3")).
Lemma first_boot_works : WorkingTpm first_boot false.
Proof.
  constructor. intros h []; cbn; eauto 10; rewrite ?length_replicate; try done; [lia|].
  intros ->. exists (replicate 4 x00). by split.
Qed.
Lemma tpm_args_sealable : sealable tpm_args.
Proof. split; [simpl; lia|]. repeat constructor; simpl; lia. Qed.
Lemma working_tpm_unlocks_storage_witness :
  let '(out, t) := run first_boot [] (cominitTpmProtectData (TpmContext (PTo 2) (PTo 1)) tpm_args) in
  out = Done Unsealed ∧ existsb key_added t = true.
Proof.
  apply (working_tpm_unlocks_storage first_boot false tpm_args 2 (PTo 1));
    [exact first_boot_works|exact tpm_args_sealable|by vm_compute|done].
Defined.
Lemma policy_over_requested_pcrs_witness :
  Forall (policy_guard tpm_args)
    (run first_boot [] (cominitTpmProtectData (TpmContext (PTo 2) (PTo 1)) tpm_args)).2.
Proof.
  exact (policy_over_requested_pcrs first_boot (TpmContext (PTo 2) (PTo 1)) tpm_args tpm_args_sealable).
Defined.

(** ** Whole boots *)

Lemma boot_argv_nonul : Forall nonul boot_argv.
Proof. repeat (apply Forall_cons; split); try done; by apply (bool_decide_unpack _). Qed.
Lemma init_runs_on_verified_root_witness :
  ∃ m m1, verified (run machine [] (main boot_argv)).2 m ∧ guards m m1 ∧
          root (ns_after (run machine [] (main boot_argv)).2) = Some (rootfs_fs m1).
Proof. apply (init_runs_on_verified_root machine boot_argv). by vm_compute. Defined.
Lemma init_inherits_nothing_witness : guarded start_guard (run machine [] (main boot_argv)).2.
Proof. exact (init_inherits_nothing machine boot_argv eq_refl). Defined.
Lemma info_options_only_print_witness :
  (run quiet [] (main [lit "/init"; lit "--version"])).1 = Done EXIT_FAILURE ∧
  map ev_call (run quiet [] (main [lit "/init"; lit "--version"])).2 =
    [Printf (lit "Compact Init (cominit) version 0.12.2" ++ [Byte.x0a])].
Proof.
  pose proof (info_options_only_print quiet [lit "/init"; lit "--version"]
    ltac:(repeat (apply Forall_cons; split); try done; by apply (bool_decide_unpack _))) as Hp.
  destruct (run quiet [] (main _)) as [out t]. exact Hp.
Defined.
Lemma verity_text_reaches_kernel_witness :
  let '(out, t) := run machine [] (main boot_argv) in
  out = Ended (Execed INIT) ∧ ∃ ta tb fd devId rm,
    t = ta ++ verity_kernel_calls (lit "/dev/sda2") (lit "squashfs") (lit "1")
                [lit "4096"; lit "4096"; lit "100"; lit "101"; lit "sha256"; lit "00ff"; lit "aa"] 409600 fd devId rm ++ tb.
Proof.
  apply (verity_text_reaches_kernel machine boot_argv boot_args 1048576 (lit "squashfs") (lit "1") 4096 (lit "4096")
    100 (lit "101") (lit "sha256") [lit "00ff"; lit "aa"] [] boot_sig); try lia.
  - exact machine_healthy.
  - by vm_compute.
  - by apply (bool_decide_unpack _).
  - apply (bool_decide_unpack _). by vm_compute.
  - by split; vm_compute.
  - exact boot_argv_nonul.
  - by vm_compute.
  - by vm_compute.
  - by split; vm_compute.
  - by apply (bool_decide_unpack _).
  - by apply (bool_decide_unpack _).
  - by apply (bool_decide_unpack _).
  - by apply (bool_decide_unpack _).
  - by apply (bool_decide_unpack _).
  - by apply (bool_decide_unpack _).
  - apply (bool_decide_unpack _). by vm_compute.
Defined.

(** A writable dm-integrity rootfs whose journal key is in the keyring. *)
Definition ring_opts : list iopt := [Plain (lit "fix_padding"); Keyed (lit "journal_mac:") (lit "hmac(sha256)") (lit "jmac")].
Definition ring_text : list byte := integrity_text (lit "ext4") false 100 4096 2 ring_opts [].
Definition ring_sig : list byte := sig_for ring_text.
Definition ring_machine : oracle := λ h c,
  match c return reply c with Read _ _ => Ok (ring_text ++ x00 :: ring_sig) | c => keyring0 h c end.
Lemma ring_machine_healthy : HealthyMachine ring_machine 1048576 (ring_text ++ x00 :: ring_sig).
Proof. constructor. intros h []; cbn; eauto. Qed.
Lemma ring_machine_keys : KeyringContract ring_machine keys0 (λ _, 1%Z).
Proof. destruct keyring0_contract as [Ha Hs]. split; [|exact Hs]. intros h c. specialize (Ha h c). by destruct c. Qed.
Lemma integrity_text_reaches_kernel_witness :
  let '(out, t) := run ring_machine [] (main boot_argv) in
  out = Ended (Execed INIT) ∧ ∃ ta tb fd devId rm,
    t = ta ++ dm_kernel_calls (lit "integrity") (lit "ext4")
                (lit "/dev/sda2 0 - J 3 block_size:4096 fix_padding journal_mac:hmac(sha256):dead ") false 409600 fd devId rm ++ tb.
Proof.
  apply (integrity_text_reaches_kernel ring_machine keys0 (λ _, 1%Z) boot_argv boot_args 1048576 (lit "ext4") false 100 4096 2
    ring_opts [] ring_sig (lit "fix_padding journal_mac:hmac(sha256):dead ")); try lia.
  - exact ring_machine_healthy.
  - exact ring_machine_keys.
  - by vm_compute.
  - by apply (bool_decide_unpack _).
  - apply (bool_decide_unpack _). by vm_compute.
  - by split; vm_compute.
  - exact boot_argv_nonul.
  - by vm_compute.
  - by vm_compute.
  - by split; vm_compute.
  - by apply (bool_decide_unpack _).
  - right. by apply (bool_decide_unpack _).
  - done.
  - repeat (apply Forall_cons; split); [..|done]; (split; [by apply (bool_decide_unpack _)|]).
    + by vm_compute.
    + split_and!; by apply (bool_decide_unpack _).
  - by vm_compute.
  - apply (bool_decide_unpack _). by vm_compute.
Defined.

(** The same rootfs on the first partition of the second disk, without the option
    root=. *)
Definition sdb1 : disk := Disk 5 512 (boot_text ++ x00 :: boot_sig).
Definition devs1 (p : path) : option disk := if decide (p = lit "/dev/sdb1") then Some sdb1 else devs0 p.
Definition names1 : list (list byte) := names0 ++ [lit "sdb1"].
Definition fd_disk1 (fd : Z) : disk := if decide (fd = 5)%Z then sdb1 else fd_disk fd.
Definition scanned : oracle := λ h c,
  match c return reply c with
  | Opendir _ => Ok names1
  | Lstat p => Ok (StatInfo (if devs1 p then S_IFBLK else S_IFREG) 0)
  | Open p _ => match devs1 p with Some dk => Ok (dk_fd dk) | None => Ok 9%Z end
  | IoctlBlkSszGet fd => Ok (dk_block (fd_disk1 fd))
  | IoctlBlkGetSize64 fd => Ok (Z.of_nat (length (dk_img (fd_disk1 fd))))
  | Pread fd n off => Ok (take n (drop (Z.to_nat off) (dk_img (fd_disk1 fd))))
  | Read fd n =>
      match last h with
      | Some (Event (Lseek _ off) _) => Ok (take n (drop (Z.to_nat off) (dk_img (fd_disk1 fd))))
      | _ => Ok []
      end
  | c => default_reply c
  end.
Lemma devs1_cases p dk : devs1 p = Some dk → dk = sda ∨ dk = sdb ∨ dk = sdb1.
Proof. unfold devs1. destruct (decide _); [intros [= <-]; auto|]. intros [-> | ->]%devs0_cases; auto. Qed.
Lemma scanned_machine : DiskMachine scanned names1 devs1.
Proof.
  constructor. intros h c. split_and!.
  - destruct c; try exact I; try reflexivity; cbn [scan_env scanned].
    + intros dk Hdk. by rewrite Hdk.
    + intros p dk [-> | [-> | ->]]%devs1_cases -> _; reflexivity.
    + intros p dk [-> | [-> | ->]]%devs1_cases ->; reflexivity.
    + intros p dk [-> | [-> | ->]]%devs1_cases ->; reflexivity.
    + destruct (devs1 _); [by eexists|]. by intros st [= <-].
  - destruct c; try exact I; cbn [healthy scanned default_reply]; eauto.
    + destruct (devs1 p); by eexists.
    + repeat (apply Forall_cons; split); try done; simpl; lia.
  - destruct c; try exact I. cbn [seek_env scanned]. intros t0 off p dk -> Hdk -> _. rewrite last_snoc.
    by destruct (devs1_cases _ _ Hdk) as [-> | [-> | ->]].
Qed.
Definition scan_argv : list (list byte) := [lit "/init"; lit "quiet"].
Definition scan_args : cominitCliArgs_t :=
  match parseArgs scan_argv initArgs with Ret (Options a) => a | _ => initArgs end.
Lemma no_header dk h (P : Prop) : gptHeader dk = None → gptHeader dk = Some h → P.
Proof. congruence. Qed.
Lemma found_verity_rootfs_reaches_kernel_witness :
  let '(out, t) := run scanned [] (main scan_argv) in
  out = Ended (Execed INIT) ∧ ∃ ta tb fd devId rm,
    t = ta ++ verity_kernel_calls (lit "/dev/sdb1") (lit "squashfs") (lit "1")
                [lit "4096"; lit "4096"; lit "100"; lit "101"; lit "sha256"; lit "00ff"; lit "aa"] 409600 fd devId rm ++ tb.
Proof.
  apply (found_verity_rootfs_reaches_kernel scanned scan_argv scan_args names1 devs1 (lit "/dev/sdb") sdb 0 sdb1 []
    (lit "squashfs") (lit "1") 4096 (lit "4096") 100 (lit "101") (lit "sha256") [lit "00ff"; lit "aa"] [] boot_sig); try lia.
  - exact scanned_machine.
  - repeat (apply Forall_cons; split); try done; (split; [by apply (bool_decide_unpack _)|vm_compute; lia]).
  - intros p dk [-> | [-> | ->]]%devs1_cases; (split_and!; [by vm_compute|by vm_compute|intros h Hh]).
    + eapply no_header; [|exact Hh]. by vm_compute.
    + assert (gptHeader sdb = Some hdr1) as E1 by by vm_compute.
      assert (h = hdr1) as -> by congruence. split; split_and!; by vm_compute.
    + eapply no_header; [|exact Hh]. by vm_compute.
  - by vm_compute.
  - by vm_compute.
  - by vm_compute.
  - by vm_compute.
  - by apply (bool_decide_unpack _).
  - apply (bool_decide_unpack _). by vm_compute.
  - by vm_compute.
  - by vm_compute.
  - by split; vm_compute.
  - by apply (bool_decide_unpack _).
  - by apply (bool_decide_unpack _).
  - by apply (bool_decide_unpack _).
  - by apply (bool_decide_unpack _).
  - by apply (bool_decide_unpack _).
  - by apply (bool_decide_unpack _).
  - apply (bool_decide_unpack _). by vm_compute.
Defined.

(** A machine with a sealed blob. *)
Definition tpm_argv : list (list byte) :=
  [lit "/init"; lit "root=/dev/sda2"; lit "blob=/dev/sda3"; lit "crypt=/dev/sda4"; lit "pcrSeal=0,7"; lit "pcrExtend=10"].
Definition tpm_boot_args : cominitCliArgs_t :=
  match parseArgs tpm_argv initArgs with Ret (Options a) => a | _ => initArgs end.
Definition full_der (o : oracle) : oracle := λ h c,
  match c return reply c with PkWritePubkeyDer n => (Z.of_nat n, replicate n x00) | c => o h c end.
(** A machine without a blob: it seals one. *)
Definition no_blob (o : oracle) : oracle := λ h c,
  match c return reply c with
  | Access _ => Err ENOENT | KeyctlRead _ n => Ok (0 `max` n, replicate (Z.to_nat n) Byte.x5a)%Z | c => full_der o h c
  end.
Lemma full_der_provisioned h c : provisioned false (Event c (full_der quiet h c)).
Proof. split; destruct c; try exact I; try done; [by eexists|cbn; lia]. Qed.
Lemma no_blob_provisioned h c : provisioned true (Event c (no_blob machine h c)).
Proof.
  split; destruct c; try exact I; try done; [by eexists|cbn; lia|by eexists|]. intros Hn. eexists _, _. split; [reflexivity|lia].
Qed.

(** ** The keyring *)

(** Serial numbers encode the description, so that a read finds its key. *)
Definition kid0 (d : list byte) : Z := Z.pos (encode d).
Definition stored (h : trace) (id : Z) : option (list byte) :=
  match decode (Z.to_pos id) with Some d => ring h !! d | None => None end.
(** A kernel with a keyring and key files of 4 bytes. *)
Definition keyed : oracle := λ h c,
  match c return reply c with
  | KeyctlSearch d => match ring h !! d with Some _ => Ok (kid0 d) | None => Err ENOENT end
  | KeyctlRead id n => match stored h id with
                       | Some k => Ok (Z.of_nat (length k), take (Z.to_nat n) k)
                       | None => Err ENOENT end
  | AddKey _ key => if decide (Z.of_nat (length key) <= USER_KEY_MAX)%Z then Ok tt else Err ENOENT
  | Stat _ => Ok (StatInfo S_IFREG 4)
  | Fread _ n => take (Z.to_nat n) (lit "key!")
  | Access _ => Err ENOENT
  | c => default_reply c
  end.
Lemma keyed_store : KeyStore keyed kid0.
Proof.
  constructor. intros h c. split.
  - destruct c; try exact I; [done|]. intros d k -> Hk. cbn. unfold stored, kid0. cbn [Z.to_pos].
    by rewrite decode_encode, Hk.
  - destruct c; try exact I. cbn. by destruct (decide _).
Qed.
Lemma keyed_fits h c : unseal_fits (Event c (keyed h c)).
Proof. destruct c; try exact I. apply (bool_decide_unpack _). by vm_compute. Qed.
Lemma luks_key_from_tpm_witness :
  let '(out, t) := run keyed [] (cominitTpmProtectData (TpmContext (PTo 2) (PTo 1)) tpm_args) in
  (∀ t1 fd data r t2, t = t1 ++ Event (Write fd data) r :: t2 → Exists (unsealed_by data) t1) ∧
  ((∃ u, out = Ended (Undef u)) → Forall (λ e, ev_call e ≠ Fork) t).
Proof.
  pose proof (luks_key_from_tpm kid0 keyed (TpmContext (PTo 2) (PTo 1)) tpm_args keyed_store keyed_fits) as Hk.
  destruct (run keyed [] _) as [out t]. exact Hk.
Defined.

Lemma hsm_keys_reach_table_witness : ∃ m',
  (run keyed [] (r0 ← cominitKeyringInitFakeHsm COMINIT_FAKE_HSM_KEY_DESCS COMINIT_FAKE_HSM_KEY_DIR;
                 '(r, m') ← cominitGenIntegrityDmTbl (Some (meta0 2))
                   (Some (lit "100 4096 2 fix_padding journal_mac:hmac(sha256)::dm-integrity-jmac-secret")) [];
                 Ret (r0, r, m'))).1 = Done (0%Z, 0%Z, Some m') ∧
  cstr (dmTableVerint m') =
    lit "/dev/sda2 0 - J 3 block_size:4096 fix_padding journal_mac:hmac(sha256):6b657921 ".
Proof.
  destruct (hsm_keys_reach_table keyed kid0 (λ _, lit "key!") (λ _, 7%Z) COMINIT_FAKE_HSM_KEY_DESCS COMINIT_FAKE_HSM_KEY_DIR
    (meta0 2) 100 4096 2
    [Plain (lit "fix_padding"); Keyed (lit "journal_mac:") (lit "hmac(sha256)") (lit "dm-integrity-jmac-secret")] [])
    as (r & m' & E & Hr); [|done|lia|lia|lia|done| |].
  - constructor; [exact keyed_store| |].
    + intros h c. destruct c; cbn [hsm_env keyed]; try exact I.
      * intros _. by eexists.
      * done.
      * done.
      * intros Hl. by rewrite decide_True.
    + intros d _. cbn. unfold COMINIT_KEYRING_PAYLOAD_MAX_SIZE. lia.
  - repeat (apply Forall_cons; split); [..|done]; (split; [by apply (bool_decide_unpack _)|]).
    + by vm_compute.
    + split_and!; by apply (bool_decide_unpack _).
  - exists m'.
    assert (r = 0%Z ∧ cstr (dmTableVerint m') =
      lit "/dev/sda2 0 - J 3 block_size:4096 fix_padding journal_mac:hmac(sha256):6b657921 " ∧
      dmVerintDataSizeBytes m' = 409600%Z) as (-> & H1 & _) by exact Hr.
    by split.
Defined.
(** A TPM that creates no primary key on the first boot. *)
Definition no_primary : oracle := λ _ c,
  match c return reply c with EsysCreatePrimary _ _ => (1%Z, None) | c => default_reply c end.
Lemma sealing_undefined_iff_witness : ∃ u,
  (run no_primary [] (cominitTpmSealBlob 2 tpm_boot_args)).1 = Ended (Undef u) ∧
  cannot_seal (run no_primary [] (cominitTpmSealBlob 2 tpm_boot_args)).2 = true.
Proof.
  pose proof (sealing_undefined_iff no_primary 2 tpm_boot_args
    ltac:(split; [by vm_compute|apply (bool_decide_unpack _); by vm_compute])) as Hs.
  assert ((run no_primary [] (cominitTpmSealBlob 2 tpm_boot_args)).1 = Ended (Undef UninitRead)) as E by by vm_compute.
  destruct (run no_primary [] _) as [out t]. cbn [fst snd] in *. subst out. destruct Hs as (u & Eu & Hc).
  exists u. split; [by rewrite Eu|exact Hc].
Defined.
