(* ===== verification/TpmExamples.v ===== *)
(** * TpmExamples: the secure storage on a concrete machine

    Boots on the reference machine of TpmExact.v: a first one, one with the same
    PCR values, one with another value in PCR 0, and boots in which the power
    fails. *)
From stdpp Require Import gmap.
From S2P Require Import Prelude CString Sys Output Common Crypto Keyring Meta Dmctl Minsetup Automount Subprocess.
From S2P Require Import Securememory Tpm TpmPcr Footprint TpmProofs TpmBoot TpmWorld TpmExact Cominit BootSpec Lifetime CominitBoot CominitTpm CominitMeasured.

#[local] Instance musl : Libc := {| strtoul_noconv_errno := false |}.
#[local] Instance mbedtls2 : MbedTLS := {| MBEDTLS_VERSION_MAJOR := 2 |}.
#[local] Instance tss2 : TpmParams := {|
  TPM2_PT_PCR_COUNT := 274; TPM2_PCR_SELECT_MAX := 4; ESYS_TR_NONE := 4095; ESYS_TR_PCR0 := 0; TPM2_PERSISTENT_FIRST := 0x81000000;
  sizeof_TPM2B_PUBLIC := 616; sizeof_TPM2B_PRIVATE := 1428; sizeof_TPM2B_SENSITIVE_CREATE := 400;
  sizeof_TPM2B_SENSITIVE_DATA := 258 |}.
#[local] Instance dm4 : DmParams := {|
  DM_VERSION_MAJOR := 4; DM_VERSION_MINOR := 48; DM_VERSION_PATCHLEVEL := 0; DM_READONLY_FLAG := 1;
  sizeof_dm_ioctl := 312; offsetof_tSpec := 312; offsetof_dmTbl := 352; DM_MAX_TYPE_NAME := 16 |}.
#[local] Instance build1 : Build := {|
  INITRD_SELINUX_POLICY_PATH := lit "/etc/selinux/policy"; ROOTFS_SELINUX_POLICY_PATH := lit "/newroot/policy";
  COMINIT_FAKE_HSM := None;
  COMINIT_VERSION_MAJOR := lit "0"; COMINIT_VERSION_MINOR := lit "12"; COMINIT_VERSION_MICRO := lit "2";
  COMINIT_VERSION_GIT := [] |}.

(** ** A toy TPM *)

(** The first [n] bytes, filled up with zeros. *)
Definition zero_padded (n : nat) (l : list byte) : list byte := take n (l ++ replicate n x00).
Lemma length_zero_padded n l : length (zero_padded n l) = n.
Proof. unfold zero_padded. rewrite length_take, length_app, length_replicate. lia. Qed.
(** The parts of an object hold its policy and its data in the clear; digests
    are the hashed values, cut to size. *)
#[local] Instance toy : TpmModel := {|
  unwrap p := Some (SealedObject (blobPublic (take 32 p.1)) [] (take 32 p.2));
  policy_extend _ _ vals := zero_padded 32 (concat vals);
  pcr_extend v d := zero_padded 4 d;
  sha256 data := zero_padded 32 data;
  ESYS_TR_PASSWORD := 255 |}.
Definition toy_wrap (ob : sealed_object) : list byte * list byte :=
  (zero_padded 616 (authPolicy (ob_public ob)), zero_padded 1428 (ob_data ob)).
Lemma take_zero_padded n m l : length l = n → n <= m → take n (zero_padded m l) = l.
Proof. intros <- Hm. unfold zero_padded. rewrite take_take, Nat.min_l by lia. apply take_app_length. Qed.
Lemma toy_packs d key : length d = 32 → length key = 32 →
  packs (SealedObject (blobPublic d) [] key) (toy_wrap (SealedObject (blobPublic d) [] key)).1
    (toy_wrap (SealedObject (blobPublic d) [] key)).2.
Proof.
  intros Hd Hk. unfold packs, toy_wrap. cbn [fst snd unwrap toy ob_public ob_data authPolicy blobPublic].
  rewrite !take_zero_padded by (done || lia). by rewrite !length_zero_padded.
Qed.
Lemma toy_wrap_packs ob pub priv : packs ob pub priv → packs ob (toy_wrap ob).1 (toy_wrap ob).2.
Proof.
  intros ([= <-] & Hp & Hq). unfold sizeof_TPM2B_PUBLIC, sizeof_TPM2B_PRIVATE, tss2 in Hp, Hq.
  apply toy_packs; rewrite length_take; cbn [fst snd]; lia.
Qed.
(** A rootfs partition with signed metadata; the other calls succeed. *)
Definition plain_text : list byte := lit "1 ext4 ro plain" ++ [Byte.xff; Byte.xff].
Definition plain_sig : list byte :=
  replicate 512 Byte.x5a ++ replicate (Z.to_nat (3583 - Z.of_nat (length plain_text))) x00.
Definition meta_region : list byte :=
  plain_text ++ x00 :: plain_sig.
Definition base_machine (c : call) : reply c :=
  match c return reply c with Read _ _ => Ok meta_region | c => default_reply c end.
Lemma base_machine_works c : tpm_works true (Event c (base_machine c)).
Proof.
  destruct c; cbn; eauto 10; rewrite ?length_replicate; try done; [lia|].
  intros ->. exists (replicate 4 x00). by split.
Qed.
Definition machine_at (rk : list byte) (w : world) : oracle := sim toy_wrap base_machine rk w.
Lemma machine_at_reliable rk w : ReliableTpm (machine_at rk w) rk w.
Proof. apply sim_reliable; [apply toy_wrap_packs|apply base_machine_works|done]. Qed.

(** ** Options and worlds *)

Definition storage_argv : list (list byte) :=
  [lit "/init"; lit "root=/dev/sda2"; lit "blob=/dev/sda3"; lit "crypt=/dev/sda4"; lit "pcrSeal=0,10"; lit "pcrExtend=10"].
Definition storage_args : cominitCliArgs_t := options_of storage_argv.
Lemma storage_args_sealable : sealable storage_args.
Proof. apply (bool_decide_unpack _). by vm_compute. Qed.
Lemma storage_args_blob : isSet (devNodeBlob storage_args) = true.
Proof. by vm_compute. Qed.
Lemma context_set : 2%Z ≠ 0%Z.
Proof. done. Qed.
Definition firmware (b : byte) (k : Z) : list byte := if bool_decide (k = 0)%Z then [b; x00] else [Byte.x01].
Definition new_machine : world := World (firmware Byte.xaa) ∅ ∅ ∅ ∅ [] ∅ None [].
(** The partition with the blob. *)
Definition sda3 : path := lit "/dev/sda3".
Definition with_blob (fw : byte) (parts : list byte * list byte) : world :=
  World (firmware fw) ∅ ∅ ∅ {[sda3 := parts.1 ++ parts.2]} [] ∅ None [].
Lemma storage_args_dev : cstr (devNodeBlob storage_args) = sda3.
Proof. by vm_compute. Qed.

(** ** Single runs *)

Definition run_at (rk : list byte) (w : world) :=
  run (machine_at rk w) [] (cominitTpmProtectData (TpmContext (PTo 2) (PTo 1)) storage_args).
Definition storage_policy : list byte := policy_of storage_args (firmware Byte.xaa).
Lemma storage_policy_creatable : creatable storage_policy.
Proof.
  intros key Hkey. eexists _, _. apply toy_packs; [by vm_compute|]. unfold COMINIT_PASSPHRASE_SIZE in Hkey. lia.
Qed.
Lemma first_boot_seals_to_pcrs_witness :
  let '(out, t) := run_at [] new_machine in
  out = Done Unsealed ∧
  ∃ key, storage_key (foldl world_step new_machine t) = Some key ∧
    holds key storage_policy (blobs (foldl world_step new_machine t) !! sda3).
Proof.
  rewrite <-storage_args_dev.
  exact (first_boot_seals_to_pcrs [] storage_args storage_args_sealable 2 context_set storage_args_blob (PTo 1)
    (machine_at [] new_machine) new_machine (machine_at_reliable [] new_machine) eq_refl storage_policy_creatable).
Defined.

(** PCR values are of no matter to a password session. *)
Lemma sealed_key_opens_without_policy_witness : ∃ pub priv key,
  storage_key (foldl world_step new_machine (run_at [] new_machine).2) = Some key ∧
  ∀ fw, (run (machine_at [] (World (firmware fw) ∅ ∅ ∅ ∅ [] ∅ None [])) [] (unseal_with_password 2 pub priv)).1 = Done (Some key).
Proof.
  destruct (sealed_key_opens_without_policy [] storage_args storage_args_sealable 2 context_set storage_args_blob (PTo 1)
    (machine_at [] new_machine) new_machine (machine_at_reliable [] new_machine) eq_refl storage_policy_creatable)
    as (pub & priv & key & _ & Hk & Hrun).
  exists pub, priv, key. split; [exact Hk|]. intros fw. eapply Hrun, machine_at_reliable.
Defined.

(** Later boots of a machine with [key] in its blob file. *)
Definition old_machine (fw : byte) (key : list byte) : world :=
  with_blob fw (toy_wrap (SealedObject (blobPublic storage_policy) [] key)).
Lemma old_machine_holds fw key : length key = 32 → holds key storage_policy (blobs (old_machine fw key) !! cstr (devNodeBlob storage_args)).
Proof.
  intros Hk. rewrite storage_args_dev. eexists _, _. split; [apply lookup_insert_eq|]. apply toy_packs; [by vm_compute|done].
Qed.
Definition key32 : list byte := replicate 32 Byte.x5a.
(** The same values unlock, another value in PCR 0 does not. *)
Lemma later_boot_unlocks_iff_pcrs_match_witness :
  (run_at [] (old_machine Byte.xaa key32)).1 = Done Unsealed ∧
  (run_at [] (old_machine Byte.xbb key32)).1 = Done TpmPolicyFailure.
Proof.
  pose proof (λ fw : byte, later_boot_unlocks_iff_pcrs_match [] storage_args storage_args_sealable 2 context_set storage_args_blob (PTo 1)
    (machine_at [] (old_machine fw key32)) (old_machine fw key32) key32 storage_policy (machine_at_reliable _ _)
    (old_machine_holds fw key32 eq_refl)) as Hl.
  pose proof (Hl Byte.xaa) as Ha. pose proof (Hl Byte.xbb) as Hb. unfold run_at.
  destruct (run (machine_at [] (old_machine Byte.xaa key32)) _ _) as [o t].
  destruct (run (machine_at [] (old_machine Byte.xbb key32)) _ _) as [o' t'].
  cbv zeta in Ha, Hb. rewrite decide_True in Ha by by vm_compute. rewrite decide_False in Hb by by vm_compute.
  destruct Ha as (_ & Ea & _). destruct Hb as (_ & Eb & _). exact (conj Ea Eb).
Defined.

(** ** A lifetime of five boots *)

(** The power fails in the first boot, before the key is created, and in the
    third. *)
Definition boot_at (fw : byte) (pw : power) (w : world) : boot :=
  Boot (firmware fw) (lit "public key") storage_argv (machine_at (lit "public key") (power_on (firmware fw) w)) pw.
Definition failed1 : boot := boot_at Byte.xaa (Fails 50 None) new_machine.
Definition world1 : world := after_boot failed1 new_machine.
Definition world2 : world := after_boot (boot_at Byte.xaa Stays world1) world1.
Definition failed3 : boot := boot_at Byte.xaa (Fails 60 (Some 10)) world2.
Definition world3 : world := after_boot failed3 world2.
Definition world4 : world := after_boot (boot_at Byte.xaa Stays world3) world3.
Definition world5 : world := after_boot (boot_at Byte.xbb Stays world4) world4.
Definition boots : list boot :=
  [failed1; boot_at Byte.xaa Stays world1; failed3; boot_at Byte.xaa Stays world3; boot_at Byte.xbb Stays world4].
#[local] Strategy 1000 [after_boot options_of].
Lemma boots_worlds : lifetime new_machine boots = [world1; world2; world3; world4; world5].
Proof. unfold boots. cbn [lifetime]. fold world1. fold world2. fold world3. fold world4. fold world5. reflexivity. Qed.
Lemma boots_world2 : lifetime new_machine boots !! 1 = Some world2.
Proof. by rewrite boots_worlds. Qed.
Lemma boots_world4 : lifetime new_machine boots !! 3 = Some world4.
Proof. by rewrite boots_worlds. Qed.
Lemma boot_at_ideal fw pw w h c :
  ideal (b_key (boot_at fw pw w)) (foldl world_step (power_on (b_pcrs (boot_at fw pw w)) w) h) (Event c (b_oracle (boot_at fw pw w) h c)).
Proof.
  destruct (machine_at_reliable (lit "public key") (power_on (firmware fw) w)) as [Hr]. by destruct (Hr h c).
Qed.
Lemma boots_honest : honest new_machine boots.
Proof.
  unfold boots. cbn [honest]. repeat (split; [exact storage_args_sealable|split; [apply boot_at_ideal|]]). exact I.
Qed.
Lemma boot_at_dev fw pw w : b_dev (boot_at fw pw w) = sda3.
Proof. exact storage_args_dev. Qed.
Definition key_of (w : world) : list byte := default [] (storage_key w).
Lemma boots_unlock :
  storage_key world1 = None ∧ storage_key world2 = Some (key_of world2) ∧ storage_key world3 = None ∧
  storage_key world4 = Some (key_of world4) ∧ storage_key world5 = None.
Proof. by vm_compute. Qed.
Lemma lifetime_refines_vault_witness : ∃ v',
  vault_life VEmpty (zip_with (shows sda3) boots [world1; world2; world3; world4; world5]) v' ∧
  vault_in v' (blobs (after_boots new_machine boots) !! sda3).
Proof.
  rewrite <-boots_worlds. exact (lifetime_refines_vault sda3 new_machine boots VEmpty eq_refl eq_refl eq_refl boots_honest).
Defined.
Lemma storage_key_never_changes_witness :
  key_of world2 = key_of world4 ∧ policy_of storage_args (pcrs world2) = policy_of storage_args (pcrs world4).
Proof.
  destruct boots_unlock as (_ & H2 & _ & H4 & _).
  exact (storage_key_never_changes sda3 new_machine boots 1 3 (boot_at Byte.xaa Stays world1) (boot_at Byte.xaa Stays world3)
    world2 world4 (key_of world2) (key_of world4) eq_refl eq_refl eq_refl boots_honest eq_refl boots_world2 (boot_at_dev _ _ _) H2 eq_refl
    boots_world4 (boot_at_dev _ _ _) H4).
Defined.
Lemma storage_bound_to_platform_witness : pcrs world2 10%Z = pcrs world4 10%Z.
Proof.
  destruct boots_unlock as (_ & H2 & _ & H4 & _).
  refine (proj1 (storage_bound_to_platform new_machine boots storage_args 1 3 (boot_at Byte.xaa Stays world1) (boot_at Byte.xaa Stays world3)
    world2 world4 (key_of world2) (key_of world4) eq_refl eq_refl eq_refl boots_honest eq_refl boots_world2 H2 eq_refl eq_refl boots_world4 H4 eq_refl
    _ _ 10%Z _ _)).
  - intros _. vm_compute. reflexivity.
  - intros v _. reflexivity.
  - apply (bool_decide_unpack _). by vm_compute.
  - lia.
Defined.

(** The power fails between the creation of the blob file and the end of its
    first write. *)
Definition cut_machine : world := after_boot (boot_at Byte.xaa (Fails 69 (Some 7)) new_machine) new_machine.
Definition cut_boot : boot := boot_at Byte.xaa Stays cut_machine.
Lemma spoiled_blob_locks_storage_witness : storage_key (after_boot cut_boot cut_machine) = None.
Proof.
  assert (Forall2 (λ b w', spoiled (blobs w' !! sda3) ∧ (b_dev b = sda3 → storage_key w' = None))
    [cut_boot] (lifetime cut_machine [cut_boot])) as Hf.
  { apply (spoiled_blob_locks_storage sda3 cut_machine [cut_boot]); [reflexivity|reflexivity|..].
    - assert (blobs cut_machine !! sda3 = Some (default [] (blobs cut_machine !! sda3))) as E by by vm_compute.
      eexists. split; [exact E|]. apply unreadable_short. by vm_compute.
    - split; [exact storage_args_sealable|]. split; [apply boot_at_ideal|exact I]. }
  apply Forall2_cons in Hf as [[_ Hk] _]. exact (Hk (boot_at_dev _ _ _)).
Defined.

(** ** The measured boot *)

Definition rk0 : list byte := lit "public key".
Definition plain_meta : cominitRfsMetaData_t :=
  match cominitParseMetadata (Some (set_devicePath zero_meta (devNodeRootFs storage_args))) (Some plain_text) plain_sig with
  | Ret (_, Some m) => m | _ => zero_meta end.
Lemma storage_setup : measured_setup storage_argv storage_args plain_meta 1048576 plain_text plain_sig.
Proof.
  split; try by vm_compute.
  - by apply (bool_decide_unpack _).
  - apply (bool_decide_unpack _). by vm_compute.
  - by split; [left|left]; vm_compute.
  - exact storage_args_sealable.
Qed.
Lemma machine_at_measuring w : MeasuringMachine (machine_at rk0 w) 1048576 (plain_text ++ x00 :: plain_sig) rk0 w.
Proof.
  constructor. intros h c. destruct (machine_at_reliable rk0 w) as [Hr]. specialize (Hr h c). set (w1 := foldl _ _ _) in *.
  split_and!; [..|exact Hr]; clear Hr; unfold machine_at, sim; fold w1; clearbody w1.
  - destruct c; cbn; eauto. by rewrite bool_decide_true by apply length_zero_padded.
  - destruct c; try exact I; try done; cbn [tpm_stack sim_reply].
    + by eexists.
    + case_bool_decide; cbn [fst]; lia.
    + destruct (objects w1 !! blob) as [ob|]; [|done]. by destruct (authorised _ _ _).
  - destruct c; try exact I; try done; cbn [tpm_up sim_reply base_machine default_reply].
    + intros ->. by rewrite bool_decide_true by (apply (bool_decide_unpack _); by vm_compute).
    + by eexists.
    + by eexists.
Qed.
(** The policy over the PCRs after the measurement, and a key sealed with it. *)
Definition measured_policy : list byte := policy_of storage_args (measured_pcrs rk0 storage_args (firmware Byte.xaa)).
Definition sealed_parts : list byte * list byte := toy_wrap (SealedObject (blobPublic measured_policy) [] key32).
Definition sealed_machine (fw : byte) : world := with_blob fw sealed_parts.
Lemma sealed_machine_holds fw : holds key32 measured_policy (blobs (sealed_machine fw) !! cstr (devNodeBlob storage_args)).
Proof. rewrite storage_args_dev. eexists _, _. split; [apply lookup_insert_eq|]. apply toy_packs; by vm_compute. Qed.
Definition main_at (w : world) := run (machine_at rk0 w) [] (main storage_argv).
(** The same firmware gets the key, another one does not. *)
Lemma measured_boot_releases_key_witness :
  storage_key (foldl world_step (sealed_machine Byte.xaa) (main_at (sealed_machine Byte.xaa)).2) = Some key32 ∧
  storage_key (foldl world_step (sealed_machine Byte.xbb) (main_at (sealed_machine Byte.xbb)).2) = None.
Proof.
  pose proof (λ fw : byte, measured_boot_releases_key storage_argv storage_args plain_meta 1048576 plain_text plain_sig rk0
    (machine_at rk0 (sealed_machine fw)) (sealed_machine fw) key32 measured_policy storage_setup
    (machine_at_measuring (sealed_machine fw)) (sealed_machine_holds fw)) as Hl.
  pose proof (Hl Byte.xaa) as Ha. pose proof (Hl Byte.xbb) as Hb. unfold main_at.
  destruct (run (machine_at rk0 (sealed_machine Byte.xaa)) _ _) as [o t].
  destruct (run (machine_at rk0 (sealed_machine Byte.xbb)) _ _) as [o' t'].
  cbv zeta in Ha, Hb. rewrite decide_True in Ha by by vm_compute. rewrite decide_False in Hb by by vm_compute.
  destruct Ha as (_ & _ & Ea). destruct Hb as (_ & _ & Eb). exact (conj Ea Eb).
Defined.
Lemma measured_policy_creatable : creatable measured_policy.
Proof. intros key Hk. eexists _, _. apply toy_packs; [by vm_compute|]. unfold COMINIT_PASSPHRASE_SIZE in Hk. lia. Qed.
Lemma measured_first_boot_seals_witness : ∃ key,
  Event (CtrDrbgRandom 32) (0%Z, key) ∈ (main_at new_machine).2 ∧
  storage_key (foldl world_step new_machine (main_at new_machine).2) = Some key ∧
  holds key measured_policy (blobs (foldl world_step new_machine (main_at new_machine).2) !! sda3).
Proof.
  pose proof (measured_first_boot_seals storage_argv storage_args plain_meta 1048576 plain_text plain_sig rk0
    (machine_at rk0 new_machine) new_machine storage_setup (machine_at_measuring new_machine) eq_refl eq_refl measured_policy_creatable) as Hl.
  rewrite <-storage_args_dev.
  unfold main_at. destruct (run (machine_at rk0 new_machine) _ _) as [o t]. cbv zeta in Hl. destruct Hl as [_ Hl]. exact Hl.
Defined.

(** A sealed key survives a boot with other firmware and a power failure. *)
Definition kept_machine : world := sealed_machine Byte.xaa.
Definition kept_world : world := after_boot (boot_at Byte.xbb Stays kept_machine) kept_machine.
Definition kept_boots : list boot := [boot_at Byte.xbb Stays kept_machine; boot_at Byte.xaa (Fails 60 (Some 10)) kept_world].
Definition kept_end : world := power_on (firmware Byte.xaa) (after_boots kept_machine kept_boots).
Lemma kept_honest : honest kept_machine kept_boots.
Proof.
  unfold kept_boots. cbn [honest]. repeat (split; [exact storage_args_sealable|split; [apply boot_at_ideal|]]). exact I.
Qed.
Lemma sealed_key_stays_available_witness :
  (main_at kept_end).1 = Ended (Execed INIT) ∧ storage_key (foldl world_step kept_end (main_at kept_end).2) = Some key32.
Proof.
  pose proof (sealed_key_stays_available storage_argv storage_args plain_meta 1048576 plain_text plain_sig rk0
    kept_machine kept_boots key32 measured_policy (machine_at rk0 kept_end) (firmware Byte.xaa)
    eq_refl (sealed_machine_holds Byte.xaa) kept_honest storage_setup eq_refl (machine_at_measuring kept_end)) as Hl.
  unfold main_at. destruct (run (machine_at rk0 kept_end) _ _) as [o t]. exact Hl.
Defined.
